(* ===== verification/_CoqProject ===== *)
-Q . S2P
Prelude.v
Json.v
Regex.v
Storage.v
World.v
AppError.v
Queries.v
Evolution.v
Mrn.v
Resource.v
Sample.v
WorkFeed.v
Fairness.v
ConcurrentClaims.v
ClaimOrder.v
Reports.v
Interleaving.v
Lifecycle.v
Races.v
Agent.v
Hosts.v
Registry.v
EventLog.v
Tenant.v
Project.v
Provider.v
Steward.v
Supervisor.v
Availability.v
Recovery.v
Healing.v
Gateway.v
AgentAccess.v
Authz.v
Dependency.v
Keys.v
Process.v
Http.v
Transports.v
SetupConfig.v
Setup.v
SetupSafety.v
Identity.v
SetupSample.v
SetupClaims.v
Retry.v
SetupSecret.v
SetupHandler.v
Applier.v
Realize.v
Converged.v
ControlClient.v
Runner.v
StewardRun.v
Vault.v
DeployTemplate.v
TemplateSecrets.v
TemplateRender.v
Capabilities.v
SecretManager.v
Telemetry.v
Config.v
Connections.v
Decode.v
Validators.v
Handlers.v
Api.v
ApiAtomic.v
Router.v
ApiRoundtrip.v
Lookups.v
ApiBounds.v
EndToEnd.v
Redaction.v
LogPipeline.v
RedactText.v
RemoteSecrets.v
SecretStores.v
Bootstrap.v
Serving.v
