(* ===== verification/Prelude.v ===== *)
(** * maintainerd core: a verification development

    The program is the control plane of maintainerd, written in Go.  Operators
    declare resources over HTTP; agents on the hosts pull the work over gRPC, run
    it and report back; a supervisor keeps the platform's own services alive; a
    steward converges the wiring in Auth; everything is kept in PostgreSQL, which
    is the only shared state of the replicas.  The names of definitions are those
    of the functions, types and queries they translate.

    ** The files

    - [Prelude]: record update, results, machine integers, Go strings, shared
      lemmas and tactics.  [Json]: [map[string]any] values and JSONB columns.
      [Regex]: regular expressions, their language and a matcher for it.
    - [Storage]: the rows of [internal/storage/models.go], with the widths and the
      unique indexes of [migrations/].  [World]: the database, the two
      clocks, the effect monad [M] and the SQL statements the queries are made
      of; the relation [advances] and the tactic [advance] that proves what a
      handler preserves.  [Queries]: one definition per sqlc query of
      [internal/storage/*.sql.go]; those no service calls are in [Lookups].
      [Evolution]: [advances] for one table and for its single rows.
    - [AppError]: [internal/platform/apperror], the gRPC classification, and
      [response.HandleServiceError].  [Transports]: its theorems, the remaining
      constructors, the details of a gRPC status and the JSON error writers.
    - [Mrn], [Resource]: [internal/resource/service.go].  Theorems: [WorkFeed]
      (any sequence of operations), [Fairness] (when a waiting resource is
      claimed), [ConcurrentClaims] and [ClaimOrder] (interleaved claim
      transactions), [Reports] (the report, retry, teardown and health logic),
      [Interleaving] (handlers split at their write, so that others run in
      between), [Lifecycle] (the life of a resource as an abstract machine) and
      [Races] (what survives an interleaving and what does not).
    - [Agent]: [internal/agent].  Theorems: [Hosts].
    - [Registry]: [internal/service]; [EventLog]: [internal/event]; [Tenant],
      [Project], [Provider]: the packages of those names; each with its theorems.
    - [Steward]: [internal/steward], the catalog and its reconciliation.
    - [Supervisor]: [internal/supervisor], its loop and one pass, against the
      interface [Deps] of its collaborators, which [core_deps] instantiates with
      the modelled services.  Theorems: [Availability] (what a pass may do),
      [Recovery] (what it does for a service that is down), [Healing] (the service
      runs again: supervisor, claim and report together).
    - [Gateway]: [internal/grpcserver].  Theorems: [AgentAccess].
    - [Authz]: the HTTP guard of [internal/platform/authz].  [Dependency]: the
      probing loop of [internal/dependency] and the readiness endpoint.
    - [Sample]: a concrete database on which witnesses are evaluated.
    - [Keys]: [internal/steward/keys.go] and [keystore.go].  [Process]: the monad
      [P] of programs that use the database, the disk and another service, the
      log of their calls, and the triples [hoare] and [keeps].  [Http]: the
      envelope of [internal/platform/response].
    - First run ([internal/setup]): [SetupConfig] (config.go, dial.go), [Setup]
      (orchestrator.go, steward.go), [SetupSecret] (secret.go), [SetupHandler]
      (handler.go).  Proofs: [SetupSafety]; theorems: [SetupClaims]; a sample
      install: [SetupSample].
    - After it ([internal/authctrl]): [Identity] (identity.go), [Applier]
      (applier.go), [ControlClient] (config.go, token.go), [Runner] (client.go,
      runner.go, handler.go, outbound.go).  Theorems: [Realize] and [Converged]
      (what a pass does to Auth), [StewardRun] (what a report says).
    - [Retry]: [internal/platform/retry] and the shape of the convergence loops.
    - [Vault]: [internal/secretctrl].  [DeployTemplate]: [internal/deploytemplate].
      Theorems: [TemplateSecrets], [TemplateRender].
    - [Capabilities]: [internal/server/capabilities.go].  [SecretManager] and
      [Config]: [internal/platform/config]; [RemoteSecrets] and [SecretStores]:
      its clients of AWS, GCP, Azure and Vault, and the manager in use.
      [Telemetry]: [internal/platform/telemetry] and [cmd/server/telemetry.go].
      [Connections]: the database pool, the migrations, the Redis client and the
      connection string.
    - [Decode]: what the handlers use of [encoding/json] and [strconv].
      [Validators]: [internal/platform/valid], [pagination] and [ptr].
      [Handlers]: the handlers and routes of every service, behind the guard as
      [internal/server/server.go] mounts them.  Theorems: [Api] (authority),
      [ApiAtomic] (refusals), [ApiRoundtrip] (POST then GET), [ApiBounds] (pages),
      [EndToEnd] (from the declaration to the running resource, over HTTP and
      gRPC).  [Router]: [internal/server/server.go], from the path as it was sent.
    - [Redaction]: [internal/platform/logging]; [LogPipeline]: the handlers
      [cmd/server/logging.go] stacks; [RedactText]: its [RedactString], and the
      search of regular expressions with word boundaries.  [Bootstrap]:
      [cmd/server/bootstrap.go] up to the listeners, [internal/app] and the
      gateway's TLS; [Serving]: the two listeners to the exit status, the health
      check, and [run] as a whole with its deferred calls.

    ** How the code is modelled

    A service method is a function into [M E A], which takes a world and returns
    a value or an error with the world after it.  A world holds the tables,
    the statement time [w_dbnow] and the process time [w_gonow] in nanoseconds,
    the UUIDs the database will draw, and a fault script: each query takes one
    entry of it and may fail before it reached the server or after the server
    committed it.  Theorems about safety quantify over the script; theorems that
    say an operation succeeds assume an empty one.  A statement checks every row
    it writes against the columns and the unique indexes (the foreign keys cannot
    fail: rows are never removed, and the services insert with keys they read).
    A claim is one statement in [Queries] and two phases with locks in
    [ConcurrentClaims].  A handler that reads, decides and then writes is split at
    its write in [Interleaving], which proves the two halves equal to the whole,
    so that any other operation may come in between.  What a pass of the
    supervisor may do is a relation between worlds that each of its calls is shown
    to respect ([Availability.moves]).  The two listeners are a step relation
    ([Serving.step]) whose free choices are the network, the calls and the signal.
    Integers that the code keeps in 32 or 64 bits wrap where
    it computes with them ([int32], [int64]).  Times keep their nanoseconds; the
    database would round them to microseconds.  Strings are byte strings; trimming
    knows the Unicode spaces, and case mapping of non-ASCII text is a parameter.

    A program that also uses the key directory, RSA keys and another service runs
    on a [Node]; the other service is a function of its request, the caller's
    credential and its own state, so theorems hold for whatever Auth, Secret or
    the vault answers, and refinement theorems assume of it only its documented
    promises ([Realize.MgmtLaws]).  A system call or a remote call may fail before
    or after its effect.  Waits are listed, not waited for; between two attempts
    of a loop the world may change at will.

    Every recursion is structural.  Fuel occurs in [TrimSpace], whose fuel is the
    length of the text and each of whose steps removes a byte, and in
    [Retry.converge], the two loops the code does not bound: their theorems show
    that any fuel beyond the first successful attempt suffices.

    ** What is a parameter

    The text functions of class [GoText] (UUID and time formats, [%q], Unicode
    case), the workload specification of the kit library ([WorkloadKit]), the
    cryptography of class [Crypto], the parsing of JSON text ([JsonText]), the
    sdk's token verifiers, the steward's transport and key sink ([Applier]), RSA
    and PKCS ([RSA]), TLS and gRPC dialling ([Transport]), the JWT library and the
    HTTP client ([TokenKit]), text/template ([TemplateKit]), the remote secret
    stores ([SecretKit], [SecretStores.CloudSdk], [RemoteSecrets.VaultServer]),
    OpenTelemetry ([OtelKit]), pgx, goose and go-redis ([Drivers]), the text of a
    float64 ([GoFloat]), the steps of the boot in [Bootstrap] ([BootKit], which
    [Serving.kit] instantiates with the modelled ones), and what the probes of
    dependencies answer.  The theorems hold for all of them; the witnesses
    instantiate them.  Of the third-party HTTP router, the prefixes [Router] mounts
    are modelled; its matching inside a mount is a parameter, of which [Router]
    assumes that it answers with a registered route of the request's method, and
    [Handlers.routed] states what a match means to a handler.

    ** What the theorems show

    - Work feed: a resource is handed to at most one agent until its lease ends,
      oldest first; the assignment is sticky; revisions and observations never go
      back; a row is deleted only by the report that finalizes a teardown;
      interleaved claims never share a row and amount to some serial order of
      them; a resource that waits is claimed once the work ahead of it was, so no
      resource starves.
    - The life of a resource: every operation, interleaved with any other at its
      write, is a step of a small abstract machine; a report that passed its
      ownership check still belongs to the owner when it is written; a declared
      resource becomes a running one over the two surfaces.  Two races lose an
      operator's intent, and are stated as such.
    - Reports: only the owner's report is applied, to exactly its row; the retry
      budget and the backoff; what a delete needs; the width of the health column;
      and the loss of a teardown to a late 'running' report.
    - Hosts: the binding to a token subject is first-writer-wins and sticky, a
      join token is spent once, though it can be spent on an answer that is lost; a
      sweep reports exactly the transitions.
    - Registry, tenants and events: the platform's system rows are never lost,
      registration converges, events are append-only.
    - Supervisor: a pass makes no write on resources but its two; substrate
      services, teardowns and offline hosts are left alone; an incident escalates
      once, and the pass after a re-dispatch forgets the count; a service that is
      down is back in the feed after one pass, with a fresh revision and budget,
      and is left alone once its agent claimed it and reported it in order;
      one orphaned registration stops the keep-alive of all.
    - Gateway, HTTP guard, readiness: each fails closed; a caller acts only as the
      agent its verified subject is bound to and is handed only that agent's work;
      one bad report does not spoil a batch; every permission a guard can demand
      is one Core registers.  From any path as it was sent, encoded or not, the
      router dispatches to nothing the guard did not judge.
    - HTTP API: a request changes only the table of its segment, only on that
      segment's write permission, and never the event log; a request that is
      refused changes nothing, as long as no live row has lost its parent (where
      one has, an update is committed and answered with an error); what a POST
      answered is what a GET returns, the join token excepted; no query string
      lists more than a hundred items.
    - Boot: nothing listens before the configuration, the migrations and the
      install record are in order, and outside development both surfaces enforce
      or refuse; the two listeners end together, with success only on a signal,
      and the shutdown completes; the health check is the readiness endpoint; a
      failed start ends what it started, two cases excepted that are stated; on
      every path out of [run] the pool, the signal handler and the telemetry
      providers are ended, in order.
    - Logs: what a sink is handed, through any logger derived from the configured
      one, carries no listed credential and no control character at any depth; in
      free text that was redacted no expression finds anything, and redacting
      again changes nothing.
    - Input validation: what the expressions accept, in words; dates and paging
      parameters survive their text.
    - Steward: the catalog is applied in order up to the first error, and the
      builtin catalog grants nothing it does not define.
    - Errors: an HTTP answer carries no internal detail; both transports classify
      an error alike and give the same hint to retry.
    - Setup: a run calls Auth in one order, closes setup last and only once an
      admin exists; the control key is reused, never replaced, and reaches only
      Core's record; success means the record was written; a rerun keeps it; the
      gate fails closed; Secret is provisioned after Auth, and converges.
    - Control path: a report without failures means that Auth holds every object
      of the catalog; a converged pass creates nothing; one pass runs at a time;
      the boot loop ends; a token is used only inside its life, and the errors of
      a token request carry no credential.
    - Templates and the vault: a secret parameter reaches the vault and nothing
      else; what a render carries is a reference the vault returned; a spec keeps
      its shape; a template survives its row; addresses do not collide.
    - Startup and probes: a process that starts is configured safely; an outage of
      the secret store is never read as an absent secret, and Vault's token is
      renewed at most once per read; retries are bounded; the
      anonymous probe is rate limited, monotone, and discloses two facts.

    ** What is not modelled

    What goose does with the SQL files of the migrations; logging inside the
    services; interfaces and constructors without behaviour (the generated
    [Querier], the [Repository] interfaces); generated RPC code and the
    web console.  Reads at weaker isolation than one statement at a time are only
    modelled for the claim and for the handlers of [Interleaving]. *)

From Stdlib Require Export Ascii String.
From stdpp Require Export base gmap strings list pretty sorting.

#[global] Set Warnings "-notation-overridden,-register-all".
#[global] Open Scope Z_scope.
#[global] Open Scope list_scope.

(** ** Record update

    [r <| f := v |>] is [r] with field [f] replaced.  A record type is made
    updatable by an instance of [EtaRecord] that rebuilds a record from its
    own projections; the setter of a projection is computed from it. *)

Class EtaRecord (R : Type) := eta_record : R -> R.
Class FieldSetter {R T : Type} (p : R -> T) := set_field : (T -> T) -> R -> R.
Arguments set_field {R T} p {FieldSetter} g r.
#[global] Hint Mode FieldSetter - - ! : typeclass_instances.

Ltac derive_setter :=
  lazymatch goal with
  | |- @FieldSetter ?R ?T ?p =>
      let inst := constr:(_ : EtaRecord R) in
      let body := eval hnf in inst in
      let h := eval pattern p in body in
      lazymatch h with
      | ?F p => exact (fun (g : T -> T) => F (fun r => g (p r)))
      end
  end.
#[global] Hint Extern 1 (FieldSetter _) => derive_setter : typeclass_instances.

Notation "r '<|' f ':=' v '|>'" := (set_field f (fun _ => v) r)
  (at level 1, left associativity, format "r  <|  f  :=  v  |>") : stdpp_scope.

(** Reduces every projection of a record update. *)
Ltac record_simpl := cbn.

(** ** Results

    A Go function that returns [(T, error)] returns a [result]. *)

Inductive result (E A : Type) : Type :=
  | Ok (a : A)
  | Err (e : E).
Arguments Ok {E A} a.
Arguments Err {E A} e.

Definition is_ok {E A} (r : result E A) : bool :=
  match r with Ok _ => true | Err _ => false end.

Definition result_map_err {E F A} (f : E -> F) (r : result E A) : result F A :=
  match r with Ok a => Ok a | Err e => Err (f e) end.

#[global] Instance result_ret {E} : MRet (result E) := fun _ a => Ok a.
#[global] Instance result_bind {E} : MBind (result E) :=
  fun _ _ f r => match r with Ok a => f a | Err e => Err e end.

Lemma bind_Ok_inv {E A B} (r : result E A) (f : A -> result E B) b :
  (r ≫= f) = Ok b -> exists a, r = Ok a /\ f a = Ok b.
Proof. destruct r; cbn; [eauto | discriminate]. Qed.

(** ** Machine integers *)

(** Two's-complement wrap-around of a value to [w] bits (Go's conversions and
    arithmetic on [int32] and [int64]). *)
Definition wrap (w z : Z) : Z := (z + 2 ^ (w - 1)) mod 2 ^ w - 2 ^ (w - 1).
Definition int32 (z : Z) : Z := wrap 32 z.
Definition int64 (z : Z) : Z := wrap 64 z.
Definition max_int64 : Z := 2 ^ 63 - 1.
Definition max_int32 : Z := 2 ^ 31 - 1.

Lemma wrap_id w z : 0 < w -> - 2 ^ (w - 1) <= z < 2 ^ (w - 1) -> wrap w z = z.
Proof.
  intros Hw Hz. unfold wrap.
  assert (E : 2 ^ w = 2 * 2 ^ (w - 1)).
  { rewrite <- Z.pow_succ_r by lia. f_equal; lia. }
  rewrite Z.mod_small; lia.
Qed.

Lemma int32_id z : - 2 ^ 31 <= z < 2 ^ 31 -> int32 z = z.
Proof. intros. apply wrap_id; [lia | assumption]. Qed.

Lemma int64_id z : - 2 ^ 63 <= z < 2 ^ 63 -> int64 z = z.
Proof. intros. apply wrap_id; [lia | assumption]. Qed.

Lemma wrap_range w z : 0 < w -> - 2 ^ (w - 1) <= wrap w z < 2 ^ (w - 1).
Proof.
  intros Hw. unfold wrap.
  assert (E : 2 ^ w = 2 * 2 ^ (w - 1)).
  { rewrite <- Z.pow_succ_r by lia. f_equal; lia. }
  pose proof (Z.mod_pos_bound (z + 2 ^ (w - 1)) (2 ^ w)).
  pose proof (Z.pow_pos_nonneg 2 (w - 1)). lia.
Qed.

(** Durations are [int64] nanoseconds, as [time.Duration]. *)
Definition Nanosecond : Z := 1.
Definition Second : Z := 1000000000.
Definition Minute : Z := 60 * Second.
Definition Hour : Z := 60 * Minute.

(** ** Go strings: byte sequences *)

Definition byte_string (l : list nat) : string :=
  string_of_list_ascii (map ascii_of_nat l).

(** The UTF-8 encodings of the code points [unicode.IsSpace] accepts. *)
Definition space_runes : list (list ascii) :=
  map (map ascii_of_nat)
    [[9]; [10]; [11]; [12]; [13]; [32]; [194; 133]; [194; 160]; [225; 154; 128];
     [226; 128; 128]; [226; 128; 129]; [226; 128; 130]; [226; 128; 131];
     [226; 128; 132]; [226; 128; 133]; [226; 128; 134]; [226; 128; 135];
     [226; 128; 136]; [226; 128; 137]; [226; 128; 138]; [226; 128; 168];
     [226; 128; 169]; [226; 128; 175]; [226; 129; 159]; [227; 128; 128]]%nat.

Fixpoint strip (pre l : list ascii) : option (list ascii) :=
  match pre, l with
  | [], _ => Some l
  | a :: pre', b :: l' => if Ascii.eqb a b then strip pre' l' else None
  | _ :: _, [] => None
  end.

Fixpoint strip_any (pres : list (list ascii)) (l : list ascii) : option (list ascii) :=
  match pres with
  | [] => None
  | p :: ps => match strip p l with Some l' => Some l' | None => strip_any ps l end
  end.

Fixpoint trim_front (fuel : nat) (pres : list (list ascii)) (l : list ascii) : list ascii :=
  match fuel with
  | O => l
  | S n => match strip_any pres l with Some l' => trim_front n pres l' | None => l end
  end.

(** [strings.TrimSpace]: the fuel is the length, and every step removes at
    least one byte. *)
Definition TrimSpace (s : string) : string :=
  let l := list_ascii_of_string s in
  let l1 := trim_front (length l) space_runes l in
  let l2 := trim_front (length l1) (map (@rev ascii) space_runes) (rev l1) in
  string_of_list_ascii (rev l2).

Definition is_ascii (a : ascii) : bool := Nat.ltb (nat_of_ascii a) 128.

Definition lower_ascii (a : ascii) : ascii :=
  let n := nat_of_ascii a in
  if Nat.leb 65 n && Nat.leb n 90 then ascii_of_nat (n + 32) else a.

Definition string_map (f : ascii -> ascii) (s : string) : string :=
  string_of_list_ascii (map f (list_ascii_of_string s)).

(** Text functions whose tables are outside the model: the lower-casing of a
    string that holds a non-ASCII byte ([strings.ToLower] with Unicode case
    tables), the renderings of [%q], of [time.Duration] and of a time in
    RFC 3339, and the textual form of UUIDs ([github.com/google/uuid]). *)
Class GoText := {
  lower_unicode : string -> string;
  upper_unicode : string -> string;
  fmt_q : string -> string;
  duration_String : Z -> string;
  time_RFC3339 : Z -> string;
  uuid_String : Z -> string;
  uuid_Parse : string -> option Z;
}.

Definition upper_ascii (a : ascii) : ascii :=
  let n := nat_of_ascii a in
  if Nat.leb 97 n && Nat.leb n 122 then ascii_of_nat (n - 32) else a.

Definition ToLower {T : GoText} (s : string) : string :=
  if forallb is_ascii (list_ascii_of_string s) then string_map lower_ascii s
  else lower_unicode s.

Definition ToUpper {T : GoText} (s : string) : string :=
  if forallb is_ascii (list_ascii_of_string s) then string_map upper_ascii s
  else upper_unicode s.

Definition HasPrefix (s pre : string) : bool := String.prefix pre s.

Fixpoint Contains (s sub : string) : bool :=
  String.prefix sub s ||
  match s with EmptyString => false | String _ s' => Contains s' sub end.

Definition ContainsByte (s : string) (c : ascii) : bool :=
  existsb (Ascii.eqb c) (list_ascii_of_string s).

Definition ContainsAny (s chars : string) : bool :=
  existsb (ContainsByte s) (list_ascii_of_string chars).

Definition HasSuffix (s suf : string) : bool :=
  match strip (rev (list_ascii_of_string suf)) (rev (list_ascii_of_string s)) with
  | Some _ => true
  | None => false
  end.

(** [s[:n]] and [s[n:]] on byte offsets within the string. *)
Definition str_take (n : nat) (s : string) : string := String.substring 0 n s.
Definition str_drop (n : nat) (s : string) : string :=
  String.substring n (String.length s - n) s.

Definition str_eqb (a b : string) : bool := String.eqb a b.
Definition is_empty (s : string) : bool := str_eqb s "".

(** [strconv.Atoi]: an optional sign, at least one digit, within 64 bits. *)
Fixpoint digits (acc : Z) (s : string) : option Z :=
  match s with
  | EmptyString => Some acc
  | String a s' =>
      let n := Z.of_nat (nat_of_ascii a) in
      if (48 <=? n) && (n <=? 57) then digits (acc * 10 + (n - 48)) s' else None
  end.
Definition Atoi (s : string) : option Z :=
  let unsigned u := if is_empty u then None else digits 0 u in
  let n := match s with
           | String "-" u => Z.opp <$> unsigned u
           | String "+" u => unsigned u
           | u => unsigned u
           end in
  match n with
  | Some z => if (- 2 ^ 63 <=? z) && (z <=? max_int64) then Some z else None
  | None => None
  end.

(** ** Lists *)

Lemma NoDup_map_inj_elem {A B} (f : A -> B) (l : list A) x y :
  NoDup (map f l) -> x ∈ l -> y ∈ l -> f x = f y -> x = y.
Proof.
  induction l as [|z l IH]; cbn; [by intros _ ?%elem_of_nil|].
  intros [Hz Hl]%NoDup_cons Hx Hy E.
  apply elem_of_cons in Hx, Hy. destruct Hx as [->|Hx], Hy as [->|Hy]; [done|..|by apply IH].
  - destruct Hz. rewrite E. by apply (list_elem_of_fmap_2 f).
  - destruct Hz. rewrite <- E. by apply (list_elem_of_fmap_2 f).
Qed.

(** ** Boolean tests *)

Lemma str_eqb_refl s : str_eqb s s = true.
Proof. apply String.eqb_refl. Qed.
Lemma str_eqb_eq a b : str_eqb a b = true <-> a = b.
Proof. apply String.eqb_eq. Qed.
Lemma str_eqb_neq a b : str_eqb a b = false <-> a <> b.
Proof. apply String.eqb_neq. Qed.

(** Turns the boolean conditions of the hypotheses into propositions. *)
Ltac split_bools := repeat match goal with
  | H : _ && _ = true |- _ => apply andb_true_iff in H as [? ?]
  | H : _ || _ = false |- _ => apply orb_false_iff in H as [? ?]
  | H : negb _ = true |- _ => apply negb_true_iff in H
  | H : negb _ = false |- _ => apply negb_false_iff in H
  | H : bool_decide _ = true |- _ => apply bool_decide_eq_true in H
  | H : bool_decide _ = false |- _ => apply bool_decide_eq_false in H
  | H : str_eqb _ _ = true |- _ => apply str_eqb_eq in H
  | H : str_eqb _ _ = false |- _ => apply str_eqb_neq in H
  | H : is_empty _ = true |- _ => apply str_eqb_eq in H
  | H : is_empty _ = false |- _ => apply str_eqb_neq in H
  | H : (_ =? _) = true |- _ => apply Z.eqb_eq in H
  | H : (_ =? _) = false |- _ => apply Z.eqb_neq in H
  end.
