(* ===== verification/Json.v ===== *)
(** * JSON values and the JSONB columns

    Go's [map[string]any] values and the JSONB columns that hold them, with
    the functions the services use on them: [jsonutil.JSONToMap], the
    per-package [marshalMap] helpers, [fmt.Sprint] on a decoded value, and the
    JSONB operators [->>] and [||] of the queries. *)

From S2P Require Import Prelude.

(** A dynamically typed Go value as [encoding/json] produces it.  A number is
    a [float64], identified by the text [%v] prints for it; [VOther] is a Go
    value [json.Marshal] rejects (a channel, a function, a NaN). *)
Inductive value : Type :=
  | VNull
  | VBool (b : bool)
  | VNum (repr : string)
  | VStr (s : string)
  | VArr (l : list value)
  | VObj (m : list (string * value))
  | VOther.

(** Induction through the nested lists. *)
Fixpoint value_ind' (Q : value -> Prop) (Hnull : Q VNull) (Hbool : forall b, Q (VBool b))
    (Hnum : forall r, Q (VNum r)) (Hstr : forall s, Q (VStr s))
    (Harr : forall l, Forall Q l -> Q (VArr l))
    (Hobj : forall m, Forall (fun kv => Q (snd kv)) m -> Q (VObj m)) (Hother : Q VOther) (v : value) : Q v :=
  let rec := value_ind' Q Hnull Hbool Hnum Hstr Harr Hobj Hother in
  match v with
  | VNull => Hnull
  | VBool b => Hbool b
  | VNum r => Hnum r
  | VStr s => Hstr s
  | VArr l => Harr l ((fix go l : Forall Q l := match l with
      | [] => Forall_nil_2 _ | x :: l => Forall_cons_2 _ _ _ (rec x) (go l) end) l)
  | VObj m => Hobj m ((fix go m : Forall (fun kv : string * value => Q (snd kv)) m := match m with
      | [] => Forall_nil_2 _ | kv :: m => Forall_cons_2 _ _ _ (rec (snd kv)) (go m) end) m)
  | VOther => Hother
  end.

(** A Go map with distinct keys; the order of the pairs carries no meaning. *)
Abbreviation object := (list (string * value)).

Fixpoint obj_get (k : string) (m : object) : option value :=
  match m with
  | [] => None
  | (k', v) :: m' => if str_eqb k' k then Some v else obj_get k m'
  end.

Fixpoint obj_set (k : string) (v : value) (m : object) : object :=
  match m with
  | [] => [(k, v)]
  | (k', v') :: m' => if str_eqb k' k then (k, v) :: m' else (k', v') :: obj_set k v m'
  end.

Lemma obj_get_set k k' v m :
  obj_get k (obj_set k' v m) = if str_eqb k' k then Some v else obj_get k m.
Proof.
  induction m as [|[j u] m IH]; cbn.
  - done.
  - unfold str_eqb in *. destruct (String.eqb_spec j k') as [->|Hne]; cbn; unfold str_eqb.
    + by destruct (String.eqb k' k).
    + rewrite IH.
      destruct (String.eqb_spec j k), (String.eqb_spec k' k); subst; congruence.
Qed.

(** ** encoding/json *)

(** Whether [json.Marshal] succeeds. *)
Fixpoint marshalable (v : value) : bool :=
  match v with
  | VOther => false
  | VArr l => forallb marshalable l
  | VObj m => forallb (fun kv => marshalable (snd kv)) m
  | _ => true
  end.

(** [marshalMap], [marshalMeta] and [marshalDetails]: a nil or empty map is
    the empty object; [None] is Go's nil map. *)
Definition marshalMap (m : option object) : result unit value :=
  match m with
  | None | Some [] => Ok (VObj [])
  | Some m => if marshalable (VObj m) then Ok (VObj m) else Err tt
  end.

(** [jsonutil.JSONToMap] on a JSONB column: anything but an object reads as
    the empty map. *)
Definition JSONToMap (v : value) : object :=
  match v with VObj m => m | _ => [] end.

(** [marshalStrings] and [unmarshalStrings] of the agent service. *)
Definition marshalStrings (l : option (list string)) : value :=
  VArr (map VStr (default [] l)).

Definition unmarshalStrings (v : value) : list string :=
  let str u := match u with VStr s => Some s | VNull => Some ""%string | _ => None end in
  match v with
  | VArr l => default [] (mapM str l)
  | _ => []
  end.

Lemma marshalMap_roundtrip m v :
  marshalMap m = Ok v -> JSONToMap v = default [] m.
Proof.
  destruct m as [[|kv m]|]; cbn; intros E; simplify_eq; try done.
  by destruct (_ && _); simplify_eq.
Qed.

Lemma marshalStrings_roundtrip l : unmarshalStrings (marshalStrings l) = default [] l.
Proof.
  unfold unmarshalStrings, marshalStrings.
  enough (E : forall k, mapM (fun u => match u with
             | VStr s => Some s | VNull => Some ""%string | _ => None end)
             (map VStr k) = Some k) by by rewrite E.
  intros k. induction k as [|s k IH]; cbn; [done | by rewrite IH].
Qed.

(** ** fmt.Sprint *)

Definition string_leb (a b : string) : bool :=
  match String.compare a b with Gt => false | _ => true end.

Fixpoint insert_key {A} (kv : string * A) (l : list (string * A)) : list (string * A) :=
  match l with
  | [] => [kv]
  | kv' :: l' => if string_leb (fst kv) (fst kv') then kv :: l else kv' :: insert_key kv l'
  end.

(** Key order, as [fmt] and [json.Marshal] print maps. *)
Definition sort_keys {A} (l : list (string * A)) : list (string * A) :=
  foldr insert_key [] l.

Fixpoint join (sep : string) (l : list string) : string :=
  match l with
  | [] => ""
  | [s] => s
  | s :: l' => s +:+ sep +:+ join sep l'
  end.

(** [fmt.Sprint] of a decoded JSON value. *)
Fixpoint Sprint (v : value) : string :=
  match v with
  | VNull => "<nil>"
  | VBool b => if b then "true" else "false"
  | VNum r => r
  | VStr s => s
  | VArr l => "[" +:+ join " " (map Sprint l) +:+ "]"
  | VObj m =>
      let fields := map (fun kv => (fst kv, Sprint (snd kv))) m in
      "map[" +:+ join " " (map (fun kv => fst kv +:+ ":" +:+ snd kv) (sort_keys fields)) +:+ "]"
  | VOther => "?"
  end.

(** ** JSONB operators *)

(** [col ->> key = text] for a [text] that is a bare word: the field's text
    form is the string itself, or the literal of a scalar; a missing field and
    JSON null are SQL NULL, which equals nothing. *)
Definition jsonb_text_eq (col : value) (key text : string) : bool :=
  match obj_get key (JSONToMap col) with
  | Some (VStr s) => str_eqb s text
  | Some (VBool b) => str_eqb (if b then "true" else "false") text
  | Some (VNum r) => str_eqb r text
  | _ => false
  end.

(** [col || jsonb_build_object(...)] with two object operands. *)
Definition jsonb_merge (col : value) (m : object) : value :=
  VObj (foldl (fun acc kv => obj_set (fst kv) (snd kv) acc) (JSONToMap col) m).
