(* ===== verification/Regex.v ===== *)
(** * Regular expressions

    Go's [regexp.MatchString] for the expressions of this program: classes of
    ASCII characters, concatenation, alternatives and repetition, anchored at both
    ends.  A byte beyond ASCII belongs to none of the classes, so that matching
    runes and matching bytes agree.  [matches] is the language of an expression,
    [re_match] the executable test, by derivatives, and the two are the same. *)

From S2P Require Import Prelude.

Inductive regex :=
  | RNone
  | REps
  | RClass (p : ascii -> bool)
  | RSeq (a b : regex)
  | RAlt (a b : regex)
  | RStar (a : regex).

(** ** The language *)

Inductive matches : regex -> list ascii -> Prop :=
  | m_eps : matches REps []
  | m_class p c : p c = true -> matches (RClass p) [c]
  | m_seq a b l1 l2 : matches a l1 -> matches b l2 -> matches (RSeq a b) (l1 ++ l2)
  | m_alt_l a b l : matches a l -> matches (RAlt a b) l
  | m_alt_r a b l : matches b l -> matches (RAlt a b) l
  | m_star_nil a : matches (RStar a) []
  | m_star_cons a l1 l2 : matches a l1 -> matches (RStar a) l2 -> matches (RStar a) (l1 ++ l2).
Create HintDb regex.
#[export] Hint Constructors matches : regex.

(** ** The test *)

Fixpoint nullable (r : regex) : bool :=
  match r with
  | RNone | RClass _ => false
  | REps | RStar _ => true
  | RSeq a b => nullable a && nullable b
  | RAlt a b => nullable a || nullable b
  end.

Fixpoint deriv (c : ascii) (r : regex) : regex :=
  match r with
  | RNone | REps => RNone
  | RClass p => if p c then REps else RNone
  | RSeq a b => if nullable a then RAlt (RSeq (deriv c a) b) (deriv c b) else RSeq (deriv c a) b
  | RAlt a b => RAlt (deriv c a) (deriv c b)
  | RStar a => RSeq (deriv c a) (RStar a)
  end.

Definition re_match (r : regex) (l : list ascii) : bool := nullable (foldl (fun r c => deriv c r) r l).
Definition MatchString (r : regex) (s : string) : bool := re_match r (list_ascii_of_string s).

Lemma matches_nil r : matches r [] <-> nullable r = true.
Proof.
  split.
  - remember [] as l eqn:E. induction 1 as [|p c|a b l1 l2 _ IH1 _ IH2| | | |]; cbn; try done.
    + apply app_eq_nil in E as [-> ->]. by rewrite IH1, IH2.
    + by rewrite IHmatches.
    + rewrite IHmatches by done. by rewrite orb_true_r.
  - induction r as [| | |a IHa b IHb|a IHa b IHb|a IHa]; cbn; try done; auto with regex.
    + intros [Ha Hb]%andb_true_iff. change (@nil ascii) with ([] ++ [] : list ascii). auto with regex.
    + intros [Ha|Hb]%orb_true_iff; auto with regex.
Qed.

Lemma star_cons_inv a c l : matches (RStar a) (c :: l) ->
  exists l1 l2, l = l1 ++ l2 /\ matches a (c :: l1) /\ matches (RStar a) l2.
Proof.
  remember (RStar a) as r eqn:Er. remember (c :: l) as l0 eqn:El. intros H. revert a c l Er El.
  induction H as [|? ? ?| | | | |a' l1 l2 H1 _ H2 IH]; intros a0 c0 m0 Er El; try done. simplify_eq.
  destruct l1 as [|c l1]; [by apply IH|]. cbn in El. simplify_eq. by exists l1, l2.
Qed.

Lemma matches_deriv r c l : matches r (c :: l) <-> matches (deriv c r) l.
Proof.
  revert l. induction r as [| |p|a IHa b IHb|a IHa b IHb|a IHa]; intros l; cbn.
  - split; inversion 1.
  - split; inversion 1.
  - split.
    + inversion 1 as [|p' c' Hp| | | | |]; subst. rewrite Hp. constructor.
    + destruct (p c) eqn:Hp; inversion 1; subst. by constructor.
  - assert (Hs : matches (RSeq a b) (c :: l) <->
      (exists l1 l2, l = l1 ++ l2 /\ matches a (c :: l1) /\ matches b l2)
      \/ (nullable a = true /\ matches b (c :: l))).
    { split.
      - inversion 1 as [| |? ? l1 l2 H1 H2 E1 E2| | | |]; subst.
        destruct l1 as [|c' l1]; cbn in E2; simplify_eq; [right|left; eauto].
        split; [by apply matches_nil|done].
      - intros [(l1 & l2 & -> & H1 & H2)|[Hn H2]].
        + by apply (m_seq a b (c :: l1) l2).
        + apply (m_seq a b []); [by apply matches_nil|done]. }
    rewrite Hs. assert (Hd : matches (RSeq (deriv c a) b) l <->
      exists l1 l2, l = l1 ++ l2 /\ matches a (c :: l1) /\ matches b l2).
    { split.
      - inversion 1 as [| |? ? l1 l2 H1 H2| | | |]; subst. exists l1, l2. by rewrite IHa.
      - intros (l1 & l2 & -> & H1%IHa & H2). by constructor. }
    destruct (nullable a) eqn:Hn.
    + rewrite <- Hd, IHb. split; [intros [?|[_ ?]]; auto with regex|].
      inversion 1; subst; auto.
    + rewrite Hd. split; [intros [?|[? _]]; done|by left].
  - split.
    + inversion 1; subst; [apply m_alt_l, IHa|apply m_alt_r, IHb]; done.
    + inversion 1; subst; [apply m_alt_l, IHa|apply m_alt_r, IHb]; done.
  - split.
    + intros (l1 & l2 & -> & H1 & H2)%star_cons_inv. constructor; [by apply IHa|done].
    + inversion 1 as [| |? ? l1 l2 H1 H2| | | |]; subst.
      apply (m_star_cons a (c :: l1) l2); [by apply IHa|done].
Qed.

(** The test decides the language. *)
Theorem re_match_correct r l : re_match r l = true <-> matches r l.
Proof.
  unfold re_match. revert r. induction l as [|c l IH]; intros r; cbn [foldl].
  - symmetry. apply matches_nil.
  - by rewrite IH, matches_deriv.
Qed.

(** ** Derived forms *)

Definition rplus (r : regex) : regex := RSeq r (RStar r).
Fixpoint rrep (n : nat) (r : regex) : regex := match n with O => REps | S n => RSeq r (rrep n r) end.
Fixpoint rupto (n : nat) (r : regex) : regex := match n with O => REps | S n => RAlt REps (RSeq r (rupto n r)) end.
(** [r{m,n}] and [r{m,}]. *)
Definition rbetween (m n : nat) (r : regex) : regex := RSeq (rrep m r) (rupto (n - m) r).
Definition ratleast (m : nat) (r : regex) : regex := RSeq (rrep m r) (RStar r).
Definition ropt (r : regex) : regex := RAlt REps r.
Definition rchar (c : ascii) : regex := RClass (Ascii.eqb c).

Lemma matches_class p l : matches (RClass p) l <-> exists c, l = [c] /\ p c = true.
Proof. split; [inversion 1; eauto|]. intros (c & -> & H). by constructor. Qed.
Lemma matches_seq a b l : matches (RSeq a b) l <-> exists l1 l2, l = l1 ++ l2 /\ matches a l1 /\ matches b l2.
Proof. split; [inversion 1; subst; eauto 6|]. intros (l1 & l2 & -> & ? & ?). by constructor. Qed.
Lemma matches_alt a b l : matches (RAlt a b) l <-> matches a l \/ matches b l.
Proof. split; [inversion 1; auto|]. intros [?|?]; auto with regex. Qed.
Lemma matches_eps l : matches REps l <-> l = [].
Proof. split; [by inversion 1|]. intros ->. constructor. Qed.
Lemma matches_char c l : matches (rchar c) l <-> l = [c].
Proof.
  unfold rchar. rewrite matches_class. split; [intros (d & -> & ->%Ascii.eqb_eq); done|].
  intros ->. exists c. split; [done|]. apply Ascii.eqb_refl.
Qed.

Lemma matches_star_class p l : matches (RStar (RClass p)) l <-> Forall (fun c => p c = true) l.
Proof.
  split.
  - remember (RStar (RClass p)) as r eqn:E. induction 1 as [| | | | | |a l1 l2 H1 _ H2 IH]; simplify_eq; [done|].
    apply matches_class in H1 as (c & -> & Hc). constructor; auto.
  - induction 1 as [|c l Hc _ IH]; [constructor|]. apply (m_star_cons (RClass p) [c] l); [by constructor|done].
Qed.

Lemma matches_rep_class n p l : matches (rrep n (RClass p)) l <-> length l = n /\ Forall (fun c => p c = true) l.
Proof.
  revert l. induction n as [|n IH]; intros l; cbn.
  - rewrite matches_eps. destruct l; naive_solver.
  - rewrite matches_seq. setoid_rewrite matches_class. setoid_rewrite IH. split.
    + intros (l1 & l2 & -> & (c & -> & Hc) & <- & Hl). split; [done|by constructor].
    + intros [Hn Hf]. destruct Hf as [|c l' Hc Hl]; [done|]. exists [c], l'. cbn in Hn.
      split_and!; [done|eauto|lia|done].
Qed.

Lemma matches_upto_class n p l :
  matches (rupto n (RClass p)) l <-> (length l <= n)%nat /\ Forall (fun c => p c = true) l.
Proof.
  revert l. induction n as [|n IH]; intros l; cbn.
  - rewrite matches_eps. destruct l; cbn; [naive_solver|split; [done|intros [? _]; lia]].
  - rewrite matches_alt, matches_eps, matches_seq. setoid_rewrite matches_class. setoid_rewrite IH. split.
    + intros [->|(l1 & l2 & -> & (c & -> & Hc) & ? & ?)]; cbn; [split; [lia|done]|split; [lia|by constructor]].
    + intros [Hn Hf]. destruct Hf as [|c l' Hc Hl]; [by left|]. right. exists [c], l'. cbn in Hn.
      split_and!; [done|eauto|lia|done].
Qed.

Lemma matches_between_class m n p l : (m <= n)%nat ->
  matches (rbetween m n (RClass p)) l <-> (m <= length l <= n)%nat /\ Forall (fun c => p c = true) l.
Proof.
  intros Hmn. unfold rbetween. rewrite matches_seq. setoid_rewrite matches_rep_class.
  setoid_rewrite matches_upto_class. split.
  - intros (l1 & l2 & -> & [<- ?] & ? & ?). rewrite length_app, Forall_app. split; [lia|done].
  - intros [Hl Hf]. exists (take m l), (drop m l). rewrite take_drop, length_take, length_drop.
    split_and!; [done|lia|by apply Forall_take|lia|by apply Forall_drop].
Qed.

Lemma matches_atleast_class m p l :
  matches (ratleast m (RClass p)) l <-> (m <= length l)%nat /\ Forall (fun c => p c = true) l.
Proof.
  unfold ratleast. rewrite matches_seq. setoid_rewrite matches_rep_class. setoid_rewrite matches_star_class. split.
  - intros (l1 & l2 & -> & [<- ?] & ?). rewrite length_app, Forall_app. split; [lia|done].
  - intros [Hl Hf]. exists (take m l), (drop m l). rewrite take_drop, length_take.
    split_and!; [done|lia|by apply Forall_take|by apply Forall_drop].
Qed.

Lemma matches_plus_class p l :
  matches (rplus (RClass p)) l <-> l <> [] /\ Forall (fun c => p c = true) l.
Proof.
  unfold rplus. rewrite matches_seq. setoid_rewrite matches_class. setoid_rewrite matches_star_class. split.
  - intros (l1 & l2 & -> & (c & -> & Hc) & Hl). split; [done|by constructor].
  - intros [Hn Hf]. destruct Hf as [|c l' Hc Hl]; [done|]. exists [c], l'. eauto.
Qed.
