(* ===== verification/Storage.v ===== *)
(** * Rows and columns

    The rows of [internal/storage/models.go] and what the migrations let a row
    hold: the widths of the columns (a VARCHAR counts characters and takes only
    valid UTF-8), the unique keys and the soft-delete stamp.  [TableRow] is what
    the generic statements need of a row type. *)

From S2P Require Import Prelude Json.

(** ** Column types *)

Definition bytes (s : string) : list nat := map nat_of_ascii (list_ascii_of_string s).

Definition between (lo hi b : nat) : bool := Nat.leb lo b && Nat.leb b hi.

(** The number of characters of a byte sequence that PostgreSQL accepts as
    UTF-8 text (no NUL byte), [None] for one it rejects. *)
Fixpoint utf8_chars (l : list nat) : option nat :=
  match l with
  | [] => Some O
  | b :: r =>
      if between 1 127 b then S <$> utf8_chars r
      else match r with
      | [] => None
      | c1 :: r1 =>
          if between 194 223 b && between 128 191 c1 then S <$> utf8_chars r1
          else match r1 with
          | [] => None
          | c2 :: r2 =>
              if between 224 239 b
                 && between (if Nat.eqb b 224 then 160 else 128)
                            (if Nat.eqb b 237 then 159 else 191) c1
                 && between 128 191 c2
              then S <$> utf8_chars r2
              else match r2 with
              | [] => None
              | c3 :: r3 =>
                  if between 240 244 b
                     && between (if Nat.eqb b 240 then 144 else 128)
                                (if Nat.eqb b 244 then 143 else 191) c1
                     && between 128 191 c2 && between 128 191 c3
                  then S <$> utf8_chars r3 else None
              end
          end
      end
  end.

Definition varchar (n : nat) (s : string) : bool :=
  match utf8_chars (bytes s) with Some k => Nat.leb k n | None => false end.

Definition text (s : string) : bool :=
  match utf8_chars (bytes s) with Some _ => true | None => false end.

(** ASCII text without NUL fits every column it is not too long for. *)
Definition ascii_text (s : string) : bool := forallb (between 1 127) (bytes s).

Lemma utf8_ascii l : forallb (between 1 127) l = true -> utf8_chars l = Some (length l).
Proof.
  induction l as [|b l IH]; [done|]. cbn [forallb utf8_chars length].
  intros [Hb Hl]%andb_true_iff. by rewrite Hb, IH.
Qed.

Lemma bytes_take n s : bytes (str_take n s) = take n (bytes s).
Proof.
  revert n. induction s as [|a s IH]; intros [|n]; try done.
  cbn. f_equal. apply IH.
Qed.

Lemma bytes_length s : length (bytes s) = String.length s.
Proof. induction s as [|a s IH]; cbn; [done|]. by rewrite <- IH. Qed.

Lemma ascii_prefix_fits n s :
  ascii_text s = true ->
  varchar n (if Nat.ltb n (String.length s) then str_take n s else s) = true.
Proof.
  unfold ascii_text. intros Hs. unfold varchar. destruct (Nat.ltb_spec n (String.length s)) as [Hlt|Hge].
  - rewrite bytes_take. rewrite utf8_ascii.
    + rewrite length_take. apply Nat.leb_le. lia.
    + rewrite forallb_forall in Hs |- *. intros b Hb%list_elem_of_In. apply Hs, list_elem_of_In.
      by apply (subseteq_take n).
  - rewrite utf8_ascii by done. rewrite bytes_length. by apply Nat.leb_le.
Qed.

Lemma ascii_fits s : ascii_text s = true -> text s = true.
Proof. intros H. unfold text. by rewrite utf8_ascii. Qed.

Definition bigint (z : Z) : bool := (- 2 ^ 63 <=? z) && (z <=? max_int64).

(** ** Rows *)

Record TenantRow := {
  t_TenantID : Z; t_TenantUuid : Z; t_AuthTenantUuid : option Z; t_Name : string;
  t_DisplayName : string; t_Status : string; t_IsSystem : bool; t_Metadata : value;
  t_CreatedBy : option Z; t_UpdatedBy : option Z;
  t_CreatedAt : Z; t_UpdatedAt : Z; t_DeletedAt : option Z }.

Record ProjectRow := {
  p_ProjectID : Z; p_ProjectUuid : Z; p_TenantID : Z; p_Name : string;
  p_DisplayName : string; p_Description : string; p_Status : string; p_Metadata : value;
  p_CreatedBy : option Z; p_UpdatedBy : option Z;
  p_CreatedAt : Z; p_UpdatedAt : Z; p_DeletedAt : option Z }.

Record ProviderRow := {
  v_ProviderID : Z; v_ProviderUuid : Z; v_TenantID : Z; v_Name : string;
  v_ResourceKind : string; v_Driver : string; v_Config : value; v_Status : string;
  v_Metadata : value; v_CreatedBy : option Z; v_UpdatedBy : option Z;
  v_CreatedAt : Z; v_UpdatedAt : Z; v_DeletedAt : option Z }.

Record ServiceRow := {
  s_ServiceID : Z; s_ServiceUuid : Z; s_TenantID : Z; s_Name : string; s_Kind : string;
  s_Status : string; s_Endpoint : string; s_Version : string; s_Metadata : value;
  s_RegisteredAt : option Z; s_CreatedBy : option Z; s_UpdatedBy : option Z;
  s_CreatedAt : Z; s_UpdatedAt : Z; s_DeletedAt : option Z; s_IsSystem : bool }.

Record AgentRow := {
  a_AgentID : Z; a_AgentUuid : Z; a_TenantID : Z; a_Name : string; a_Status : string;
  a_Endpoint : string; a_Version : string; a_Capabilities : value;
  a_JoinTokenHash : string; a_JoinTokenUsedAt : option Z; a_ClientCertPem : string;
  a_BoundSubject : string; a_LastSeenAt : option Z; a_Metadata : value;
  a_CreatedBy : option Z; a_UpdatedBy : option Z;
  a_CreatedAt : Z; a_UpdatedAt : Z; a_DeletedAt : option Z }.

Record ResourceRow := {
  r_ResourceID : Z; r_ResourceUuid : Z; r_TenantID : Z; r_ProjectID : Z;
  r_ProviderID : option Z; r_AgentID : option Z; r_OwnerResourceID : option Z;
  r_MrnService : string; r_MrnTenant : string; r_MrnProject : string;
  r_MrnResourceType : string; r_MrnResourcePath : string;
  r_Kind : string; r_Name : string; r_State : string; r_Health : string;
  r_Spec : value; r_Status : value; r_Generation : Z; r_ObservedGeneration : Z;
  r_LeasedUntil : option Z; r_Attempts : Z; r_NextAttemptAt : option Z;
  r_Metadata : value; r_CreatedBy : option Z; r_UpdatedBy : option Z;
  r_CreatedAt : Z; r_UpdatedAt : Z; r_DeletedAt : option Z }.

Record EventRow := {
  e_EventID : Z; e_EventUuid : Z; e_TenantID : option Z; e_Kind : string;
  e_Severity : string; e_SubjectType : string; e_SubjectUuid : option Z;
  e_Message : string; e_Details : value; e_CreatedAt : Z }.

Record DeploymentTemplateRow := {
  dt_TemplateID : Z; dt_TemplateUuid : Z; dt_Name : string; dt_Version : string;
  dt_Capability : string; dt_Image : string; dt_Parameters : value; dt_Spec : value;
  dt_Metadata : value; dt_CreatedAt : Z; dt_UpdatedAt : Z; dt_DeletedAt : option Z }.

(** What Core learns from Auth at setup ([setup.Result]).  [CompletedAt] is
    [None] for Go's zero time. *)
Record Result := {
  sr_AuthTenantID : string; sr_AuthAdminUserID : string; sr_AuthDefaultClientID : string;
  sr_AuthDefaultProviderID : string; sr_ControlServiceID : string; sr_ControlPolicyID : string;
  sr_ControlPolicyName : string; sr_ControlClientID : string; sr_ControlOAuthClientID : string;
  sr_TokenAuthMethod : string; sr_ResourceAPIID : string; sr_ResourceAPIIdentifier : string;
  sr_AdminRoleID : string; sr_ConsoleClientID : string; sr_ConsoleOAuthClientID : string;
  sr_JWKS : string; sr_CompletedAt : option Z; sr_AlreadyComplete : bool;
  sr_DeploymentMode : string }.

(** The singleton row of control_plane.  The JSONB column [data] only ever
    holds an encoded [Result] (or its default, the empty object, which decodes
    to the empty [Result]); the model keeps the struct it decodes to. *)
Record ControlPlaneRow := {
  cp_AuthTenantUuid : option Z; cp_Data : Result; cp_ControlPrivateKeyPem : string;
  cp_DeploymentMode : string; cp_SetupCompletedAt : option Z;
  cp_CreatedAt : Z; cp_UpdatedAt : Z }.

#[global] Instance TenantRow_eta : EtaRecord TenantRow := fun r =>
  Build_TenantRow (t_TenantID r) (t_TenantUuid r) (t_AuthTenantUuid r) (t_Name r)
    (t_DisplayName r) (t_Status r) (t_IsSystem r) (t_Metadata r) (t_CreatedBy r)
    (t_UpdatedBy r) (t_CreatedAt r) (t_UpdatedAt r) (t_DeletedAt r).
#[global] Instance ProjectRow_eta : EtaRecord ProjectRow := fun r =>
  Build_ProjectRow (p_ProjectID r) (p_ProjectUuid r) (p_TenantID r) (p_Name r)
    (p_DisplayName r) (p_Description r) (p_Status r) (p_Metadata r) (p_CreatedBy r)
    (p_UpdatedBy r) (p_CreatedAt r) (p_UpdatedAt r) (p_DeletedAt r).
#[global] Instance ProviderRow_eta : EtaRecord ProviderRow := fun r =>
  Build_ProviderRow (v_ProviderID r) (v_ProviderUuid r) (v_TenantID r) (v_Name r)
    (v_ResourceKind r) (v_Driver r) (v_Config r) (v_Status r) (v_Metadata r)
    (v_CreatedBy r) (v_UpdatedBy r) (v_CreatedAt r) (v_UpdatedAt r) (v_DeletedAt r).
#[global] Instance ServiceRow_eta : EtaRecord ServiceRow := fun r =>
  Build_ServiceRow (s_ServiceID r) (s_ServiceUuid r) (s_TenantID r) (s_Name r) (s_Kind r)
    (s_Status r) (s_Endpoint r) (s_Version r) (s_Metadata r) (s_RegisteredAt r)
    (s_CreatedBy r) (s_UpdatedBy r) (s_CreatedAt r) (s_UpdatedAt r) (s_DeletedAt r)
    (s_IsSystem r).
#[global] Instance AgentRow_eta : EtaRecord AgentRow := fun r =>
  Build_AgentRow (a_AgentID r) (a_AgentUuid r) (a_TenantID r) (a_Name r) (a_Status r)
    (a_Endpoint r) (a_Version r) (a_Capabilities r) (a_JoinTokenHash r)
    (a_JoinTokenUsedAt r) (a_ClientCertPem r) (a_BoundSubject r) (a_LastSeenAt r)
    (a_Metadata r) (a_CreatedBy r) (a_UpdatedBy r) (a_CreatedAt r) (a_UpdatedAt r)
    (a_DeletedAt r).
#[global] Instance ResourceRow_eta : EtaRecord ResourceRow := fun r =>
  Build_ResourceRow (r_ResourceID r) (r_ResourceUuid r) (r_TenantID r) (r_ProjectID r)
    (r_ProviderID r) (r_AgentID r) (r_OwnerResourceID r) (r_MrnService r) (r_MrnTenant r)
    (r_MrnProject r) (r_MrnResourceType r) (r_MrnResourcePath r) (r_Kind r) (r_Name r)
    (r_State r) (r_Health r) (r_Spec r) (r_Status r) (r_Generation r)
    (r_ObservedGeneration r) (r_LeasedUntil r) (r_Attempts r) (r_NextAttemptAt r)
    (r_Metadata r) (r_CreatedBy r) (r_UpdatedBy r) (r_CreatedAt r) (r_UpdatedAt r)
    (r_DeletedAt r).

#[global] Instance DeploymentTemplateRow_eta : EtaRecord DeploymentTemplateRow := fun r =>
  Build_DeploymentTemplateRow (dt_TemplateID r) (dt_TemplateUuid r) (dt_Name r) (dt_Version r)
    (dt_Capability r) (dt_Image r) (dt_Parameters r) (dt_Spec r) (dt_Metadata r)
    (dt_CreatedAt r) (dt_UpdatedAt r) (dt_DeletedAt r).
#[global] Instance Result_eta : EtaRecord Result := fun r =>
  Build_Result (sr_AuthTenantID r) (sr_AuthAdminUserID r) (sr_AuthDefaultClientID r)
    (sr_AuthDefaultProviderID r) (sr_ControlServiceID r) (sr_ControlPolicyID r)
    (sr_ControlPolicyName r) (sr_ControlClientID r) (sr_ControlOAuthClientID r)
    (sr_TokenAuthMethod r) (sr_ResourceAPIID r) (sr_ResourceAPIIdentifier r)
    (sr_AdminRoleID r) (sr_ConsoleClientID r) (sr_ConsoleOAuthClientID r) (sr_JWKS r)
    (sr_CompletedAt r) (sr_AlreadyComplete r) (sr_DeploymentMode r).

(** What a table needs of its rows: the primary key, the unique UUID, the
    soft-delete stamp, the column constraints, and the partial unique index
    over live rows. *)
Class TableRow (R : Type) := {
  row_id : R -> Z;
  row_uuid : R -> Z;
  row_deleted : R -> option Z;
  row_ok : R -> bool;
  row_key_eqb : R -> R -> bool;
}.

#[global] Instance TenantRow_table : TableRow TenantRow := {|
  row_id := t_TenantID; row_uuid := t_TenantUuid; row_deleted := t_DeletedAt;
  row_ok t := varchar 63 (t_Name t) && varchar 255 (t_DisplayName t) && varchar 20 (t_Status t);
  (* uq_tenants_name and uq_tenants_single_system *)
  row_key_eqb a b := str_eqb (t_Name a) (t_Name b) || (t_IsSystem a && t_IsSystem b) |}.
#[global] Instance ProjectRow_table : TableRow ProjectRow := {|
  row_id := p_ProjectID; row_uuid := p_ProjectUuid; row_deleted := p_DeletedAt;
  row_ok p := varchar 63 (p_Name p) && varchar 255 (p_DisplayName p)
              && text (p_Description p) && varchar 20 (p_Status p);
  row_key_eqb a b := (p_TenantID a =? p_TenantID b) && str_eqb (p_Name a) (p_Name b) |}.
#[global] Instance ProviderRow_table : TableRow ProviderRow := {|
  row_id := v_ProviderID; row_uuid := v_ProviderUuid; row_deleted := v_DeletedAt;
  row_ok p := varchar 100 (v_Name p) && varchar 50 (v_ResourceKind p)
              && varchar 50 (v_Driver p) && varchar 20 (v_Status p);
  row_key_eqb a b := (v_TenantID a =? v_TenantID b) && str_eqb (v_Name a) (v_Name b) |}.
#[global] Instance ServiceRow_table : TableRow ServiceRow := {|
  row_id := s_ServiceID; row_uuid := s_ServiceUuid; row_deleted := s_DeletedAt;
  row_ok s := varchar 100 (s_Name s) && varchar 50 (s_Kind s) && varchar 20 (s_Status s)
              && text (s_Endpoint s) && varchar 50 (s_Version s);
  row_key_eqb a b := (s_TenantID a =? s_TenantID b) && str_eqb (s_Name a) (s_Name b) |}.
#[global] Instance AgentRow_table : TableRow AgentRow := {|
  row_id := a_AgentID; row_uuid := a_AgentUuid; row_deleted := a_DeletedAt;
  row_ok a := varchar 100 (a_Name a) && varchar 20 (a_Status a) && text (a_Endpoint a)
              && varchar 50 (a_Version a) && text (a_JoinTokenHash a)
              && text (a_ClientCertPem a) && varchar 255 (a_BoundSubject a);
  row_key_eqb a b := (a_TenantID a =? a_TenantID b) && str_eqb (a_Name a) (a_Name b) |}.
#[global] Instance ResourceRow_table : TableRow ResourceRow := {|
  row_id := r_ResourceID; row_uuid := r_ResourceUuid; row_deleted := r_DeletedAt;
  row_ok r := varchar 63 (r_MrnService r) && varchar 63 (r_MrnTenant r)
              && varchar 63 (r_MrnProject r) && varchar 63 (r_MrnResourceType r)
              && text (r_MrnResourcePath r) && varchar 50 (r_Kind r) && varchar 100 (r_Name r)
              && varchar 20 (r_State r) && varchar 20 (r_Health r)
              && bigint (r_Generation r) && bigint (r_ObservedGeneration r);
  row_key_eqb a b := (r_ProjectID a =? r_ProjectID b) && str_eqb (r_Kind a) (r_Kind b)
                     && str_eqb (r_Name a) (r_Name b) |}.
#[global] Instance EventRow_table : TableRow EventRow := {|
  row_id := e_EventID; row_uuid := e_EventUuid; row_deleted := fun _ => None;
  row_ok e := varchar 50 (e_Kind e) && varchar 20 (e_Severity e)
              && varchar 50 (e_SubjectType e) && text (e_Message e);
  row_key_eqb _ _ := false |}.
#[global] Instance DeploymentTemplateRow_table : TableRow DeploymentTemplateRow := {|
  row_id := dt_TemplateID; row_uuid := dt_TemplateUuid; row_deleted := dt_DeletedAt;
  row_ok t := varchar 100 (dt_Name t) && varchar 50 (dt_Version t)
              && varchar 63 (dt_Capability t) && text (dt_Image t);
  row_key_eqb a b := str_eqb (dt_Name a) (dt_Name b) && str_eqb (dt_Version a) (dt_Version b) |}.
