(* ===== verification/World.v ===== *)
(** * Worlds, handlers and what they preserve

    The database as a whole, the effect monad [M], the generic statements of
    SQL the queries are made of, and the relational reasoning every invariant
    proof of the development uses: a handler [advances] a preorder on
    databases when, for every world and every fault script, the database after
    it is related to the database before it. *)

From S2P Require Import Prelude Json Storage.

(** ** Databases and worlds *)

Record Table (R : Type) := mkTable { tbl_rows : list R; tbl_next : Z }.
Arguments mkTable {R} tbl_rows tbl_next.
Arguments tbl_rows {R} t.
Arguments tbl_next {R} t.

Record Db := mkDb {
  tenants : Table TenantRow;
  projects : Table ProjectRow;
  providers : Table ProviderRow;
  services : Table ServiceRow;
  agents : Table AgentRow;
  resources : Table ResourceRow;
  events : Table EventRow;
  deployment_templates : Table DeploymentTemplateRow;
  (* the singleton row of control_plane, absent before setup *)
  control_plane : option ControlPlaneRow }.
#[global] Instance Db_eta : EtaRecord Db := fun d =>
  mkDb (tenants d) (projects d) (providers d) (services d) (agents d) (resources d) (events d)
    (deployment_templates d) (control_plane d).

(** A fault of one query: it never reached the server, or its answer was lost
    after the server committed it. *)
Inductive fault := FaultNone | FaultBefore | FaultAfter.

Record World := mkWorld {
  w_db : Db;
  w_dbnow : Z;
  w_gonow : Z;
  w_uuids : list Z;
  w_faults : list fault }.
#[global] Instance World_eta : EtaRecord World := fun w =>
  mkWorld (w_db w) (w_dbnow w) (w_gonow w) (w_uuids w) (w_faults w).

(** Errors of a query: [pgx.ErrNoRows], an error of the server with its
    SQLSTATE, a failure of the connection. *)
Inductive dberr := ErrNoRows | PgError (code : string) | ErrConnection.

(** SQLSTATEs the program's statements can raise: a value its column cannot
    hold, a duplicate in a unique index, a negative LIMIT or OFFSET. *)
Definition data_exception : string := "22001".
Definition unique_violation : string := "23505".
Definition foreign_key_violation : string := "23503".
Definition invalid_row_count : string := "2201W".
#[global] Instance dberr_eq_dec : EqDecision dberr.
Proof. solve_decision. Defined.

(** ** Handlers *)

Definition M (E A : Type) : Type := World -> result E A * World.

#[global] Instance M_ret {E} : MRet (M E) := fun _ a w => (Ok a, w).
#[global] Instance M_bind {E} : MBind (M E) := fun _ _ k m w =>
  match m w with
  | (Ok a, w') => k a w'
  | (Err e, w') => (Err e, w')
  end.

Definition fail {E A} (e : E) : M E A := fun w => (Err e, w).
Definition lift {E A} (r : result E A) : M E A := fun w => (r, w).
Definition time_Now {E} : M E Z := fun w => (Ok (w_gonow w), w).

(** Runs [m] and hands its result, error included, to the caller: Go's
    [v, err := f()]. *)
Definition try {E F A} (m : M E A) : M F (result E A) := fun w =>
  let '(r, w') := m w in (Ok r, w').

Definition map_err {E F A} (f : E -> F) (m : M E A) : M F A := fun w =>
  let '(r, w') := m w in (result_map_err f r, w').

(** One round trip to the database. *)
Definition query {A} (q : World -> result dberr A * World) : M dberr A := fun w =>
  let w1 := w <| w_faults := tail (w_faults w) |> in
  match w_faults w with
  | FaultBefore :: _ => (Err ErrConnection, w1)
  | FaultAfter :: _ => (Err ErrConnection, snd (q w1))
  | _ => q w1
  end.

(** ** SQL statements *)

Section Statements.
Context {R : Type} `{!TableRow R}.

Definition live (r : R) : bool :=
  match row_deleted r with None => true | Some _ => false end.

(** [SELECT * FROM t WHERE p AND deleted_at IS NULL], all rows. *)
Definition select (p : R -> bool) (t : Table R) : list R :=
  filter (fun r => live r && p r = true) (tbl_rows t).

(** A [:one] read: the first row, or [pgx.ErrNoRows]. *)
Definition select_one (p : R -> bool) (t : Table R) : result dberr R :=
  match select p t with r :: _ => Ok r | [] => Err ErrNoRows end.

(** [UPDATE t SET ... WHERE p AND deleted_at IS NULL RETURNING *]: rows that
    match are replaced by [f], and the new versions are returned; a new
    version that violates a column constraint fails the statement.  No
    update of the program writes a column of the unique index of a live row. *)
Definition hit (p : R -> bool) (r : R) : bool := live r && p r.

Definition update (p : R -> bool) (f : R -> R) (t : Table R) : result dberr (list R * Table R) :=
  let new := map f (filter (fun r => hit p r = true) (tbl_rows t)) in
  if forallb row_ok new
  then Ok (new, mkTable (map (fun r => if hit p r then f r else r) (tbl_rows t)) (tbl_next t))
  else Err (PgError data_exception).

(** [INSERT INTO t ... RETURNING *]: the row takes the next serial id and a
    random UUID; column constraints and unique indexes are checked. *)
Definition insert (mk : Z -> Z -> R) (uuid : Z) (t : Table R) : result dberr (R * Table R) :=
  let r := mk (tbl_next t) uuid in
  let clash q := (row_uuid q =? row_uuid r) || (live q && row_key_eqb q r) in
  if negb (row_ok r) then Err (PgError data_exception)
  else if existsb clash (tbl_rows t) then Err (PgError unique_violation)
  else Ok (r, mkTable (tbl_rows t ++ [r]) (tbl_next t + 1)).
End Statements.

(** The database draws a random UUID for an inserted row. *)
Definition draw_uuid (w : World) : Z := hd 0 (w_uuids w).

Section Queries.
Context {R : Type} `{!TableRow R}.
Context (tbl : Db -> Table R) `{!FieldSetter tbl}.

Definition q_select (p : World -> R -> bool) : M dberr (list R) :=
  query (fun w => (Ok (select (p w) (tbl (w_db w))), w)).

Definition q_get (p : R -> bool) : M dberr R :=
  query (fun w => (select_one p (tbl (w_db w)), w)).

Definition q_update (p : World -> R -> bool) (f : World -> R -> R) : M dberr (list R) :=
  query (fun w =>
    match update (p w) (f w) (tbl (w_db w)) with
    | Ok (rs, t) => (Ok rs, w <| w_db := set_field tbl (fun _ => t) (w_db w) |>)
    | Err e => (Err e, w)
    end).

(** A [:one] update: no row is [pgx.ErrNoRows]. *)
Definition q_update_one (p : World -> R -> bool) (f : World -> R -> R) : M dberr R :=
  rs ← q_update p f;
  match rs with r :: _ => mret r | [] => fail ErrNoRows end.

Definition q_insert (mk : World -> Z -> Z -> R) : M dberr R :=
  query (fun w =>
    let w' := w <| w_uuids := tail (w_uuids w) |> in
    match insert (mk w) (draw_uuid w) (tbl (w_db w)) with
    | Ok (r, t) => (Ok r, w' <| w_db := set_field tbl (fun _ => t) (w_db w) |>)
    | Err e => (Err e, w')
    end).
End Queries.

(** ORDER BY a key, ascending, ties in storage order. *)
Section OrderBy.
Context {R : Type} (key : R -> Z).

Fixpoint insert_by (r : R) (l : list R) : list R :=
  match l with
  | [] => [r]
  | r' :: l' => if key r <=? key r' then r :: l else r' :: insert_by r l'
  end.

Definition order_by (l : list R) : list R := foldr insert_by [] l.

Lemma insert_by_perm r l : insert_by r l ≡ₚ r :: l.
Proof.
  induction l as [|r' l IH]; cbn; [done|].
  destruct (_ <=? _); [done|]. rewrite IH. constructor.
Qed.

Lemma order_by_perm l : order_by l ≡ₚ l.
Proof. induction l as [|r l IH]; cbn; [done|]. by rewrite insert_by_perm, IH. Qed.

Lemma insert_by_sorted r l :
  StronglySorted (fun a b => key a <= key b) l ->
  StronglySorted (fun a b => key a <= key b) (insert_by r l).
Proof.
  induction 1 as [|r' l Hs IH Hall]; cbn; [repeat constructor|].
  destruct (Z.leb_spec (key r) (key r')).
  - constructor; [by constructor|]. constructor; [done|].
    eapply Forall_impl; [exact Hall|]. cbn; lia.
  - constructor; [done|]. rewrite insert_by_perm. constructor; [lia|done].
Qed.

Lemma order_by_sorted l : StronglySorted (fun a b => key a <= key b) (order_by l).
Proof. induction l; cbn; [constructor | by apply insert_by_sorted]. Qed.
End OrderBy.

(** LIMIT and OFFSET: PostgreSQL refuses negative ones. *)
Definition limit_offset {R} (limit offset : Z) (l : list R) : result dberr (list R) :=
  if (limit <? 0) || (offset <? 0) then Err (PgError invalid_row_count)
  else Ok (take (Z.to_nat limit) (drop (Z.to_nat offset) l)).

(** ** Relational reasoning *)

Definition advances {E A} (Rel : relation Db) (m : M E A) : Prop :=
  forall w, Rel (w_db w) (w_db (snd (m w))).

(** Every row of the old table has its successor at the same place in the new
    one; rows may have been added after them. *)
Definition rows_advance {R} (RR : relation R) (t t' : Table R) : Prop :=
  exists old new, tbl_rows t' = old ++ new /\ Forall2 RR (tbl_rows t) old.

#[global] Instance rows_advance_refl {R} (RR : relation R) `{!Reflexive RR} :
  Reflexive (rows_advance RR).
Proof. intros t. exists (tbl_rows t), []. rewrite app_nil_r. split; [done|]. reflexivity. Qed.

#[global] Instance rows_advance_trans {R} (RR : relation R) `{!Transitive RR} :
  Transitive (rows_advance RR).
Proof.
  intros t1 t2 t3 (o1 & n1 & E1 & F1) (o2 & n2 & E2 & F2).
  rewrite E1 in F2. apply Forall2_app_inv_l in F2 as (p1 & p2 & G1 & G2 & ->).
  exists p1, (p2 ++ n2). split; [by rewrite E2, app_assoc|].
  by eapply transitivity.
Qed.

#[global] Instance rows_advance_preorder {R} (RR : relation R) `{!PreOrder RR} :
  PreOrder (rows_advance RR).
Proof. split; apply _. Qed.

Section RowsAdvance.
Context {R : Type} `{!TableRow R} (RR : relation R).

Lemma rows_advance_lookup t t' i r :
  rows_advance RR t t' -> tbl_rows t !! i = Some r ->
  exists r', tbl_rows t' !! i = Some r' /\ RR r r'.
Proof.
  intros (o & n & E & F) Hi. destruct (Forall2_lookup_l _ _ _ _ _ F Hi) as (r' & Hr & HR).
  exists r'. split; [|done]. rewrite E. by apply lookup_app_l_Some.
Qed.

Lemma rows_advance_elem t t' r :
  rows_advance RR t t' -> r ∈ tbl_rows t -> exists r', r' ∈ tbl_rows t' /\ RR r r'.
Proof.
  intros H [i Hi]%list_elem_of_lookup. destruct (rows_advance_lookup _ _ _ _ H Hi) as (r' & ? & ?).
  exists r'. split; [|done]. by eapply list_elem_of_lookup_2.
Qed.

Lemma update_advance p f t rs t' :
  Reflexive RR ->
  (forall r, r ∈ tbl_rows t -> hit p r = true -> row_ok (f r) = true -> RR r (f r)) ->
  update p f t = Ok (rs, t') -> rows_advance RR t t'.
Proof.
  intros HR Hf. unfold update. destruct (forallb _ _) eqn:Hok; [|discriminate].
  intros E; simplify_eq. eexists _, []. rewrite app_nil_r. split; [done|]. cbn.
  rewrite forallb_forall in Hok.
  assert (Hall : Forall (fun r => hit p r = true -> RR r (f r)) (tbl_rows t)).
  { apply Forall_forall. intros r Hr Hh. apply Hf; [done..|]. apply Hok, in_map.
    apply list_elem_of_In. by apply list_elem_of_filter. }
  clear Hok Hf. induction Hall as [|x l Hx _ IH]; cbn; constructor; [|done].
  destruct (hit p x); [auto | apply HR].
Qed.

Lemma insert_advance mk u t r t' :
  Reflexive RR -> insert mk u t = Ok (r, t') -> rows_advance RR t t'.
Proof.
  intros HR. unfold insert. do 2 (case_match; [done|]). intros E; simplify_eq.
  exists (tbl_rows t), [mk (tbl_next t) u]. split; [done|]. reflexivity.
Qed.

(** The outcome of an update: the rows it returns are the new versions of
    the rows that matched, and the others are untouched. *)
Lemma update_inv p f t rs t' :
  update p f t = Ok (rs, t') ->
  rs = map f (filter (fun r => hit p r = true) (tbl_rows t))
  /\ tbl_rows t' = map (fun r => if hit p r then f r else r) (tbl_rows t)
  /\ Forall (fun r => row_ok r = true) rs.
Proof.
  unfold update. destruct (forallb _ _) eqn:Hok; intros E; simplify_eq.
  split_and!; [done..|]. apply Forall_forall. intros r Hr. rewrite forallb_forall in Hok.
  by apply Hok, list_elem_of_In.
Qed.

(** An update with no matching row changes nothing. *)
Lemma update_none p f t :
  (forall r, r ∈ tbl_rows t -> hit p r = false) -> update p f t = Ok ([], t).
Proof.
  intros H. unfold update. destruct t as [rows next]; cbn in *.
  assert (E : filter (fun r => hit p r = true) rows = []).
  { destruct (filter _ rows) as [|r l] eqn:E; [done|].
    assert (Hr : r ∈ filter (fun r => hit p r = true) rows) by (rewrite E; left).
    apply list_elem_of_filter in Hr as [H1 H2]. rewrite (H r H2) in H1. done. }
  rewrite E. cbn. do 2 f_equal. f_equal.
  induction rows as [|r rows IH]; cbn; [done|].
  rewrite (H r) by left. f_equal. apply IH; [intros; apply H; by right|].
  cbn in E. case_decide; [done|]. done.
Qed.
End RowsAdvance.

Section Advances.
Context (Rel : relation Db) `{!PreOrder Rel}.

Lemma advances_ret {E A} (a : A) : advances Rel (mret a : M E A).
Proof. intros w. reflexivity. Qed.
Lemma advances_fail {E A} (e : E) : advances Rel (fail e : M E A).
Proof. intros w. reflexivity. Qed.
Lemma advances_lift {E A} (r : result E A) : advances Rel (lift r : M E A).
Proof. intros w. reflexivity. Qed.
Lemma advances_now {E} : advances Rel (time_Now : M E Z).
Proof. intros w. reflexivity. Qed.
Lemma advances_bind {E A B} (m : M E A) (k : A -> M E B) :
  advances Rel m -> (forall a, advances Rel (k a)) -> advances Rel (m ≫= k).
Proof.
  intros Hm Hk w. unfold mbind, M_bind. specialize (Hm w).
  destruct (m w) as [[a|e] w']; cbn in *; [|done]. etransitivity; [exact Hm|apply Hk].
Qed.
Lemma advances_try {E F A} (m : M E A) : advances Rel m -> advances Rel (try m : M F _).
Proof. intros Hm w. unfold try. specialize (Hm w). by destruct (m w). Qed.
Lemma advances_map_err {E F A} (f : E -> F) (m : M E A) :
  advances Rel m -> advances Rel (map_err f m).
Proof. intros Hm w. unfold map_err. specialize (Hm w). by destruct (m w). Qed.

Lemma advances_query {A} (q : World -> result dberr A * World) :
  (forall w, Rel (w_db w) (w_db (snd (q w)))) -> advances Rel (query q).
Proof.
  intros Hq w. unfold query.
  specialize (Hq (w <| w_faults := tail (w_faults w) |>)).
  destruct (w_faults w) as [|[] fs]; try exact Hq; reflexivity.
Qed.

Context {R : Type} `{!TableRow R} (tbl : Db -> Table R) `{!FieldSetter tbl}.

Lemma advances_select p : advances Rel (q_select tbl p).
Proof. apply advances_query. reflexivity. Qed.
Lemma advances_get p : advances Rel (q_get tbl p).
Proof. apply advances_query. reflexivity. Qed.

Lemma advances_update p f :
  (forall w rs t, update (p w) (f w) (tbl (w_db w)) = Ok (rs, t) ->
     Rel (w_db w) (set_field tbl (fun _ => t) (w_db w))) ->
  advances Rel (q_update tbl p f).
Proof.
  intros H. apply advances_query. intros w. specialize (H w).
  destruct (update _ _ _) as [[rs t]|e]; cbn; [|reflexivity]. by eapply H.
Qed.

Lemma advances_update_one p f :
  (forall w rs t, update (p w) (f w) (tbl (w_db w)) = Ok (rs, t) ->
     Rel (w_db w) (set_field tbl (fun _ => t) (w_db w))) ->
  advances Rel (q_update_one tbl p f).
Proof.
  intros H. apply advances_bind; [by apply advances_update|].
  intros [|r ?]; [apply advances_fail | apply advances_ret].
Qed.

Lemma advances_insert mk :
  (forall w r t, insert (mk w) (draw_uuid w) (tbl (w_db w)) = Ok (r, t) ->
     Rel (w_db w) (set_field tbl (fun _ => t) (w_db w))) ->
  advances Rel (q_insert tbl mk).
Proof.
  intros H. apply advances_query. intros w. specialize (H w).
  destruct (insert _ _ _) as [[r t]|e]; cbn; [|reflexivity]. by eapply H.
Qed.
End Advances.

(** Runs through a handler: every read, return and early exit advances any
    preorder; what remains are the writes. *)
Create HintDb advances.
#[export] Hint Resolve advances_ret advances_fail advances_lift advances_now
  advances_select advances_get : advances.

Ltac advance_step :=
  lazymatch goal with
  | |- advances _ (mret _) => apply advances_ret; apply _
  | |- advances _ (fail _) => apply advances_fail; apply _
  | |- advances _ (lift _) => apply advances_lift; apply _
  | |- advances _ time_Now => apply advances_now; apply _
  | |- advances _ (mbind _ _) => apply advances_bind; [apply _ | | intros ?]
  | |- advances _ (try _) => apply advances_try
  | |- advances _ (map_err _ _) => apply advances_map_err
  | |- advances _ (q_select _ _) => apply advances_select; apply _
  | |- advances _ (q_get _ _) => apply advances_get; apply _
  | |- advances _ (match ?x with _ => _ end) => destruct x
  | |- advances _ (if ?x then _ else _) => destruct x
  | |- advances _ (let _ := _ in _) => cbv zeta
  end.

Ltac head_of t := lazymatch t with ?f _ => head_of f | _ => t end.
Ltac advance_open :=
  lazymatch goal with
  | |- advances _ ?m =>
      let h := head_of m in
      lazymatch h with
      | @query => fail
      | @q_update => fail
      | @q_update_one => fail
      | @q_insert => fail
      | _ => unfold h
      end
  end.
Ltac advance :=
  repeat (first [advance_step | solve [eauto with advances] | advance_open]).

(** ** Well-formed tables

    The primary key and the UUID column are unique, and the serial is ahead of
    every key. *)

Section WellFormed.
Context {R : Type} `{!TableRow R}.

Record table_wf (t : Table R) : Prop := {
  wf_ids : NoDup (map row_id (tbl_rows t));
  wf_uuids : NoDup (map row_uuid (tbl_rows t));
  wf_serial : forall r, r ∈ tbl_rows t -> row_id r < tbl_next t;
  wf_columns : forall r, r ∈ tbl_rows t -> row_ok r = true;
}.

Lemma wf_id_inj t r r' : table_wf t -> r ∈ tbl_rows t -> r' ∈ tbl_rows t ->
  row_id r = row_id r' -> r = r'.
Proof. intros [H _ _ _]. by apply NoDup_map_inj_elem. Qed.

Lemma wf_uuid_inj t r r' : table_wf t -> r ∈ tbl_rows t -> r' ∈ tbl_rows t ->
  row_uuid r = row_uuid r' -> r = r'.
Proof. intros [_ H _ _]. by apply NoDup_map_inj_elem. Qed.

Lemma update_wf p f t rs t' :
  (forall r, hit p r = true -> row_id (f r) = row_id r /\ row_uuid (f r) = row_uuid r) ->
  update p f t = Ok (rs, t') -> table_wf t -> table_wf t'.
Proof.
  intros Hf. unfold update. destruct (forallb _ _) eqn:Hok; [|done].
  intros E [H1 H2 H3 H4]. simplify_eq. rewrite forallb_forall in Hok.
  set (g := fun r => if hit p r then f r else r).
  assert (G : forall r, row_id (g r) = row_id r /\ row_uuid (g r) = row_uuid r).
  { intros r. unfold g. destruct (hit p r) eqn:Hh; [by apply Hf | done]. }
  split; cbn; fold g.
  - rewrite map_map. erewrite map_ext; [exact H1|]. apply G.
  - rewrite map_map. erewrite map_ext; [exact H2|]. apply G.
  - intros r (r0 & -> & Hr)%list_elem_of_fmap. destruct (G r0) as [-> _]. auto.
  - intros r (r0 & -> & Hr)%list_elem_of_fmap. unfold g. destruct (hit p r0) eqn:Hh; [|auto].
    apply Hok, in_map, list_elem_of_In, list_elem_of_filter. done.
Qed.

Lemma insert_wf mk u t r t' :
  (forall id uuid, row_id (mk id uuid) = id /\ row_uuid (mk id uuid) = uuid) ->
  insert mk u t = Ok (r, t') -> table_wf t -> table_wf t'.
Proof.
  intros Hmk. unfold insert. destruct (row_ok _) eqn:Hok; cbn; [|done].
  destruct (existsb _ _) eqn:Hc; [done|]. intros E [H1 H2 H3 H4]. simplify_eq.
  destruct (Hmk (tbl_next t) u) as [Eid Euu].
  split; cbn.
  - rewrite map_app. apply NoDup_app. split; [done|]. split; [|apply NoDup_singleton].
    intros i (q & -> & Hq)%list_elem_of_fmap Hi%list_elem_of_singleton.
    cbn in Hi. specialize (H3 q Hq). rewrite Eid in Hi. lia.
  - rewrite map_app. apply NoDup_app. split; [done|]. split; [|apply NoDup_singleton].
    intros i (q & -> & Hq)%list_elem_of_fmap Hi%list_elem_of_singleton.
    rewrite <- not_true_iff_false, existsb_exists in Hc.
    apply Hc. exists q. split; [by apply list_elem_of_In|].
    cbn in Hi. rewrite Hi, Z.eqb_refl. done.
  - intros q [Hq|Hq%list_elem_of_singleton]%elem_of_app; [specialize (H3 q Hq); lia|].
    subst. rewrite Eid. lia.
  - intros q [Hq|Hq%list_elem_of_singleton]%elem_of_app; [auto|]. by subst.
Qed.

(** A test for concrete tables. *)
Definition table_wfb (t : Table R) : bool :=
  bool_decide (NoDup (map row_id (tbl_rows t))) && bool_decide (NoDup (map row_uuid (tbl_rows t)))
  && forallb (fun r => (row_id r <? tbl_next t) && row_ok r) (tbl_rows t).

Lemma table_wfb_sound t : table_wfb t = true -> table_wf t.
Proof.
  unfold table_wfb. intros [[H1 H2]%andb_true_iff H3]%andb_true_iff.
  apply bool_decide_eq_true in H1, H2. rewrite forallb_forall in H3.
  split; [done..| |]; intros r Hr%list_elem_of_In%H3; apply andb_true_iff in Hr as [? ?]; [lia|done].
Qed.

Lemma empty_wf next : table_wf (mkTable [] next).
Proof. split; cbn; try constructor; by intros r ?%elem_of_nil. Qed.

(** *** Statements that hit one row *)

Context (t : Table R) (r : R) (p : R -> bool).
Hypothesis (Hwf : table_wf t) (Hr : r ∈ tbl_rows t) (Hl : row_deleted r = None).
Hypothesis (Hp : p r = true) (Huniq : forall q, p q = true -> row_uuid q = row_uuid r).

Lemma filter_hit_unique : filter (fun q => hit p q = true) (tbl_rows t) = [r].
Proof.
  assert (Hhit : hit p r = true) by (unfold hit, live; by rewrite Hl, Hp).
  assert (U : forall q, q ∈ tbl_rows t -> hit p q = true -> q = r).
  { intros q Hq Hh. unfold hit in Hh. apply andb_true_iff in Hh as [_ Hh].
    apply (wf_uuid_inj t); auto. }
  pose proof (NoDup_fmap_1 _ _ (wf_ids _ Hwf)) as ND.
  clear Hwf. induction (tbl_rows t) as [|q l IH]; [by apply elem_of_nil in Hr|].
  apply NoDup_cons in ND as [Hq ND]. cbn.
  apply elem_of_cons in Hr as [->|Hr'].
  - rewrite decide_True by done. f_equal.
    destruct (filter _ l) as [|q' l'] eqn:E; [done|].
    assert (Hq' : q' ∈ filter (fun q => hit p q = true) l) by (rewrite E; left).
    apply list_elem_of_filter in Hq' as [H1 H2].
    rewrite (U q') in H2; [done | by right | done].
  - rewrite decide_False; [apply IH; [done|intros; apply U; [by right|done]|done]|].
    intros H1. rewrite (U q) in Hq; [done|by left|done].
Qed.

Lemma select_one_unique : select_one p t = Ok r.
Proof. unfold select_one, select. pose proof filter_hit_unique as E. unfold hit in E. by rewrite E. Qed.

Definition update_hit (f : R -> R) : Table R :=
  mkTable (map (fun q => if hit p q then f q else q) (tbl_rows t)) (tbl_next t).

Lemma update_unique f : row_ok (f r) = true -> update p f t = Ok ([f r], update_hit f).
Proof. intros Hok. unfold update. rewrite filter_hit_unique. cbn. by rewrite Hok. Qed.

Lemma update_hit_self f : f r ∈ tbl_rows (update_hit f).
Proof.
  cbn. apply list_elem_of_fmap. exists r. split; [|done].
  unfold hit, live. by rewrite Hl, Hp.
Qed.

Lemma update_hit_other f q : row_uuid q <> row_uuid r -> q ∈ tbl_rows t ->
  q ∈ tbl_rows (update_hit f).
Proof.
  intros Hne Hq. cbn. apply list_elem_of_fmap. exists q. split; [|done].
  unfold hit. destruct (p q) eqn:E; [by destruct Hne; auto|]. by rewrite andb_false_r.
Qed.
End WellFormed.

(** ** Runs without faults *)

Section NoFaults.
Context (w : World) (Hf : w_faults w = []).

Lemma query_run {A} (q : World -> result dberr A * World) : query q w = q w.
Proof. unfold query. destruct w; cbn in *. subst. done. Qed.

Context {R : Type} `{!TableRow R} (tbl : Db -> Table R) `{!FieldSetter tbl}.

Lemma q_get_run p : q_get tbl p w = (select_one p (tbl (w_db w)), w).
Proof. unfold q_get. by rewrite query_run. Qed.

Lemma q_update_one_run p f r t :
  update (p w) (f w) (tbl (w_db w)) = Ok ([r], t) ->
  q_update_one tbl p f w = (Ok r, w <| w_db := set_field tbl (fun _ => t) (w_db w) |>).
Proof. intros E. unfold q_update_one, q_update, mbind, M_bind. by rewrite query_run, E. Qed.
End NoFaults.

(** ** Runs that succeeded *)

Lemma query_Ok_inv {A} (q : World -> result dberr A * World) w a w' :
  query q w = (Ok a, w') -> q (w <| w_faults := tail (w_faults w) |>) = (Ok a, w').
Proof. unfold query. by destruct (w_faults w) as [|[] ?]. Qed.

Lemma q_update_Ok_inv {R} `{!TableRow R} (tbl : Db -> Table R) `{!FieldSetter tbl} p f w rs w' :
  q_update tbl p f w = (Ok rs, w') ->
  let w1 := w <| w_faults := tail (w_faults w) |> in
  exists t, update (p w1) (f w1) (tbl (w_db w)) = Ok (rs, t)
    /\ w' = w1 <| w_db := set_field tbl (fun _ => t) (w_db w) |>.
Proof.
  intros E%query_Ok_inv. cbn in E |- *. record_simpl.
  destruct (update _ _ _) as [[rs' t]|e] eqn:Hu; simplify_eq. eauto.
Qed.

Lemma bind_run_Ok_inv {E A B} (m : M E A) (k : A -> M E B) w b w' :
  (m ≫= k) w = (Ok b, w') -> exists a w1, m w = (Ok a, w1) /\ k a w1 = (Ok b, w').
Proof. unfold mbind, M_bind. destruct (m w) as [[a|e] w1]; [eauto|done]. Qed.

Lemma map_err_Ok_inv {E F A} (f : E -> F) (m : M E A) w a w' :
  map_err f m w = (Ok a, w') -> m w = (Ok a, w').
Proof. unfold map_err. destruct (m w) as [[]]; cbn; intros; by simplify_eq. Qed.

Lemma bind_run {E A B} (m : M E A) (k : A -> M E B) w a w1 :
  m w = (Ok a, w1) -> (m ≫= k) w = k a w1.
Proof. unfold mbind, M_bind. by intros ->. Qed.

Lemma bind_run_err {E A B} (m : M E A) (k : A -> M E B) w e w1 :
  m w = (Err e, w1) -> (m ≫= k) w = (Err e, w1).
Proof. unfold mbind, M_bind. by intros ->. Qed.

Lemma q_get_Ok_inv {R} `{!TableRow R} (tbl : Db -> Table R) p w r w' :
  q_get tbl p w = (Ok r, w') ->
  r ∈ tbl_rows (tbl (w_db w)) /\ row_deleted r = None /\ p r = true /\ w_db w' = w_db w.
Proof.
  intros E%query_Ok_inv. cbn in E. unfold select_one, select in E.
  destruct (filter _ _) as [|q l] eqn:Ef; simplify_eq. record_simpl.
  assert (H : r ∈ filter (fun r => live r && p r = true) (tbl_rows (tbl (w_db w))))
    by (rewrite Ef; left).
  apply list_elem_of_filter in H as [Hp Hr]. unfold live in Hp.
  destruct (row_deleted r); cbn in Hp; [done|]. done.
Qed.

(** A successful single-row update found a live row that satisfies its
    condition, and left its new version behind. *)
Lemma q_update_one_Ok_inv {R} `{!TableRow R} (tbl : Db -> Table R) `{!FieldSetter tbl} p f w r w' :
  q_update_one tbl p f w = (Ok r, w') ->
  let w1 := w <| w_faults := tail (w_faults w) |> in
  exists r0 t, r0 ∈ tbl_rows (tbl (w_db w)) /\ hit (p w1) r0 = true /\ r = f w1 r0
    /\ r ∈ tbl_rows t /\ w' = w1 <| w_db := set_field tbl (fun _ => t) (w_db w) |>.
Proof.
  intros (rs & w1 & H1 & H2)%bind_run_Ok_inv. apply q_update_Ok_inv in H1 as (t & Hu & ->).
  destruct rs as [|q rs]; [done|]. injection H2 as -> <-.
  apply update_inv in Hu as (E & Hrows & _).
  assert (Hr : r ∈ map (f (w <| w_faults := tail (w_faults w) |>))
    (filter (fun r => hit (p (w <| w_faults := tail (w_faults w) |>)) r = true)
       (tbl_rows (tbl (w_db w))))) by (rewrite <- E; left).
  apply list_elem_of_fmap in Hr as (r0 & -> & Hr0). apply list_elem_of_filter in Hr0 as [Hh Hin].
  exists r0, t. split_and!; try done.
  rewrite Hrows. apply list_elem_of_fmap. exists r0. by rewrite Hh.
Qed.

Lemma try_run_inv {E F A B} (m : M E A) (k : result E A -> M F B) w b w' :
  (try m ≫= k) w = (Ok b, w') -> exists r w1, m w = (r, w1) /\ k r w1 = (Ok b, w').
Proof. unfold mbind, M_bind, try. destruct (m w) as [r w1]. eauto. Qed.

Lemma insert_inv {R} `{!TableRow R} mk u (t : Table R) r t' :
  insert mk u t = Ok (r, t') ->
  r = mk (tbl_next t) u /\ tbl_rows t' = tbl_rows t ++ [r] /\ row_ok r = true.
Proof.
  unfold insert. destruct (row_ok _) eqn:Hok; cbn; [|done].
  destruct (existsb _ _); [done|]. intros E. by simplify_eq.
Qed.

Lemma q_insert_Ok_inv {R} `{!TableRow R} (tbl : Db -> Table R) `{!FieldSetter tbl} mk w r w' :
  q_insert tbl mk w = (Ok r, w') ->
  let w1 := w <| w_faults := tail (w_faults w) |> in
  exists t, insert (mk w1) (draw_uuid w) (tbl (w_db w)) = Ok (r, t)
    /\ w' = w1 <| w_uuids := tail (w_uuids w) |> <| w_db := set_field tbl (fun _ => t) (w_db w) |>.
Proof.
  intros E%query_Ok_inv. cbn in E |- *. record_simpl.
  destruct (insert _ _ _) as [[r' t]|e] eqn:Hi; simplify_eq. exists t. split; [|done].
  unfold draw_uuid in *. done.
Qed.

(** A lookup that has a candidate finds a row. *)
Lemma select_one_some {R} `{!TableRow R} (p : R -> bool) (t : Table R) r :
  r ∈ tbl_rows t -> row_deleted r = None -> p r = true -> exists q, select_one p t = Ok q.
Proof.
  intros Hr Hl Hp. unfold select_one, select.
  assert (H : r ∈ filter (fun r => live r && p r = true) (tbl_rows t)).
  { apply list_elem_of_filter. split; [|done]. unfold live. by rewrite Hl, Hp. }
  destruct (filter _ _) as [|q l]; [by apply elem_of_nil in H|]. by exists q.
Qed.

Lemma select_one_Ok_inv {R} `{!TableRow R} (p : R -> bool) (t : Table R) r :
  select_one p t = Ok r ->
  r ∈ tbl_rows t /\ row_deleted r = None /\ p r = true /\ exists l, select p t = r :: l.
Proof.
  unfold select_one. destruct (select p t) as [|q l] eqn:E; intros; simplify_eq.
  assert (H : r ∈ select p t) by (rewrite E; left).
  apply list_elem_of_filter in H as [H1 H2]. unfold live in H1.
  destruct (row_deleted r); cbn in H1; [done|]. eauto 6.
Qed.

Lemma bind_ret_M {E A B} (a : A) (k : A -> M E B) w : (mret a ≫= k) w = k a w.
Proof. done. Qed.

Lemma q_get_now {R} `{!TableRow R} (tbl : Db -> Table R) p w r w' :
  q_get tbl p w = (Ok r, w') -> w_dbnow w' = w_dbnow w.
Proof. intros E%query_Ok_inv. cbn in E. by simplify_eq. Qed.
