(* ===== verification/AppError.v ===== *)
(** * Service errors and their translation

    The typed errors of [internal/platform/apperror], the gRPC classification
    of [apperror/grpc.go], the gateway's [toStatus], and the HTTP translation
    of [internal/platform/response] ([HandleServiceError]). *)

From S2P Require Import Prelude Json Storage World.

(** ** Typed errors

    [DbError] is an error of the driver returned as it is and [PlainError] an
    error of the standard library; every other constructor is a struct of the
    package. *)
Inductive error :=
  | NotFoundError (Entity Reason : string)
  | ConflictError (Reason : string)
  | ForbiddenError (Reason : string)
  | UnauthorizedError (Reason : string)
  | ValidationError (Reason : string)
  | TooManyRequestsError (Reason : string) (RetryAfter : Z)
  | InternalError (Reason : string) (Cause : option error)
  | ServiceUnavailableError (Reason : string)
  | DbError (e : dberr)
  | PlainError (msg : string).

Definition NewNotFound (entity : string) : error := NotFoundError entity "".
Definition NewForbidden (reason : string) : error := ForbiddenError reason.
Definition NewValidation (reason : string) : error := ValidationError reason.

Definition dberr_Error (e : dberr) : string :=
  match e with
  | ErrNoRows => "no rows in result set"
  | PgError code => "ERROR: (SQLSTATE " +:+ code +:+ ")"
  | ErrConnection => "connection failure"
  end.

(** The [Error] methods. *)
Fixpoint error_Error (e : error) : string :=
  match e with
  | NotFoundError entity reason =>
      if negb (is_empty reason) then reason else entity +:+ " not found"
  | ConflictError reason | ForbiddenError reason | ValidationError reason => reason
  | UnauthorizedError reason =>
      if negb (is_empty reason) then reason else "authentication failed"
  | TooManyRequestsError reason _ =>
      if negb (is_empty reason) then reason else "too many requests"
  | InternalError reason (Some cause) => reason +:+ ": " +:+ error_Error cause
  | InternalError reason None => reason
  | ServiceUnavailableError reason =>
      if is_empty reason then "service temporarily unavailable" else reason
  | DbError e => dberr_Error e
  | PlainError msg => msg
  end.

(** The chain [errors.As] and [errors.Is] walk: of these errors only
    [InternalError] unwraps. *)
Fixpoint unwrap_chain (e : error) : list error :=
  e :: match e with InternalError _ (Some cause) => unwrap_chain cause | _ => [] end.

Definition errors_As {A} (pick : error -> option A) (e : error) : option A :=
  head (omap pick (unwrap_chain e)).

Definition as_NotFound e := match e with NotFoundError _ _ => Some e | _ => None end.
Definition as_Conflict e := match e with ConflictError _ => Some e | _ => None end.
Definition as_Forbidden e := match e with ForbiddenError _ => Some e | _ => None end.
Definition as_Unauthorized e := match e with UnauthorizedError _ => Some e | _ => None end.
Definition as_Validation e := match e with ValidationError _ => Some e | _ => None end.
Definition as_Unavailable e := match e with ServiceUnavailableError _ => Some e | _ => None end.
Definition as_Throttled e := match e with TooManyRequestsError _ d => Some (e, d) | _ => None end.
Definition as_Internal e := match e with InternalError reason _ => Some reason | _ => None end.
Definition as_PgError e := match e with DbError (PgError code) => Some code | _ => None end.

(** ** gRPC *)

Inductive code := codes_NotFound | codes_AlreadyExists | codes_PermissionDenied
  | codes_Unauthenticated | codes_InvalidArgument | codes_Unavailable
  | codes_ResourceExhausted | codes_Internal | codes_FailedPrecondition | codes_Unimplemented
  | codes_DeadlineExceeded | codes_Unknown.
#[global] Instance code_eq_dec : EqDecision code.
Proof. solve_decision. Defined.

(** A gRPC status error. *)
Record status := Status { st_code : code; st_message : string }.

Definition code_String (c : code) : string :=
  match c with
  | codes_NotFound => "NotFound" | codes_AlreadyExists => "AlreadyExists"
  | codes_PermissionDenied => "PermissionDenied" | codes_Unauthenticated => "Unauthenticated"
  | codes_InvalidArgument => "InvalidArgument" | codes_Unavailable => "Unavailable"
  | codes_ResourceExhausted => "ResourceExhausted" | codes_Internal => "Internal"
  | codes_FailedPrecondition => "FailedPrecondition" | codes_Unimplemented => "Unimplemented"
  | codes_DeadlineExceeded => "DeadlineExceeded" | codes_Unknown => "Unknown"
  end.

(** ** Errors of a call to another service

    The text of an error and the code of the gRPC status in its chain, if there
    is one: all a caller that wraps with [%w] and later asks
    [status.FromError] can observe. *)
Record call_error := CallError { ce_code : option code; ce_msg : string }.
Definition errorf (msg : string) : call_error := CallError None msg.
Definition wrapf (prefix : string) (e : call_error) : call_error :=
  CallError (ce_code e) (prefix +:+ ce_msg e).
Definition of_status (st : status) : call_error :=
  CallError (Some (st_code st))
    ("rpc error: code = " +:+ code_String (st_code st) +:+ " desc = " +:+ st_message st).

Definition classifyGRPCError (err : error) : code * string * string :=
  match errors_As as_NotFound err with
  | Some e => (codes_NotFound, error_Error e, "NOT_FOUND")
  | None => match errors_As as_Conflict err with
  | Some e => (codes_AlreadyExists, error_Error e, "CONFLICT")
  | None => match errors_As as_Forbidden err with
  | Some e => (codes_PermissionDenied, error_Error e, "FORBIDDEN")
  | None => match errors_As as_Unauthorized err with
  | Some e => (codes_Unauthenticated, error_Error e, "UNAUTHORIZED")
  | None => match errors_As as_Validation err with
  | Some e => (codes_InvalidArgument, error_Error e, "VALIDATION")
  | None => match errors_As as_Unavailable err with
  | Some e => (codes_Unavailable, error_Error e, "SERVICE_UNAVAILABLE")
  | None => match errors_As as_Throttled err with
  | Some (e, _) => (codes_ResourceExhausted, error_Error e, "TOO_MANY_REQUESTS")
  | None => match errors_As as_Internal err with
  | Some reason => (codes_Internal, reason, "INTERNAL")
  | None => (codes_Internal, "internal server error", "INTERNAL")
  end end end end end end end end%string.

(** The gateway's own mapping ([grpcserver.toStatus]). *)
Definition toStatus (err : error) : status :=
  match errors_As as_NotFound err with
  | Some _ => Status codes_NotFound (error_Error err)
  | None => match errors_As as_Validation err with
  | Some _ => Status codes_InvalidArgument (error_Error err)
  | None => match errors_As as_Forbidden err with
  | Some _ => Status codes_PermissionDenied (error_Error err)
  | None => Status codes_Internal (error_Error err)
  end end end.

(** ** HTTP *)

(** The answer [HandleServiceError] writes: status code, the [error] field of
    the body, and the Retry-After header in seconds. *)
Record http_error := HttpError { he_status : Z; he_error : string; he_retry_after : option Z }.

(** [int(math.Ceil(d.Seconds()))]; the float computation is exact for the
    durations a limiter hands out (below 2^22 seconds). *)
Definition ceil_seconds (d : Z) : Z := - ((- d) / Second).

Definition HandleServiceError (fallbackMsg : string) (err : error) : http_error :=
  match errors_As as_NotFound err with
  | Some e => HttpError 404 (error_Error e) None
  | None => match errors_As as_Conflict err with
  | Some e => HttpError 409 (error_Error e) None
  | None => match errors_As as_Forbidden err with
  | Some e => HttpError 403 (error_Error e) None
  | None => match errors_As as_Unauthorized err with
  | Some e => HttpError 401 (error_Error e) None
  | None => match errors_As as_Validation err with
  | Some e => HttpError 400 (error_Error e) None
  | None => match errors_As as_Unavailable err with
  | Some e => HttpError 503 (error_Error e) None
  | None => match errors_As as_Throttled err with
  | Some (e, d) => HttpError 429 (error_Error e) (if 0 <? d then Some (ceil_seconds d) else None)
  | None => match errors_As as_PgError err with
  | Some code =>
      if str_eqb code unique_violation
      then HttpError 409 "A record with these values already exists" None
      else if str_eqb code foreign_key_violation
      then HttpError 400 "A referenced record does not exist" None
      else HttpError 500 fallbackMsg None
  | None => HttpError 500 fallbackMsg None
  end end end end end end end end.

(** ** Repository errors in the services *)

(** [if errors.Is(err, pgx.ErrNoRows) { return NewNotFound(entity) };
    if err != nil { return err }]. *)
Definition or_not_found {A} (entity : string) (m : M dberr A) : M error A :=
  map_err (fun e => match e with ErrNoRows => NewNotFound entity | _ => DbError e end) m.

(** [if err != nil { return err }]. *)
Definition or_return {A} (m : M dberr A) : M error A := map_err DbError m.

Definition or_validation {A B} (reason : string) (r : result B A) : M error A :=
  lift (result_map_err (fun _ => NewValidation reason) r).
