(* ===== verification/Queries.v ===== *)
(** * The queries of internal/storage

    One definition per sqlc query the services call, named as the method of
    [Queries] that runs it.  [w_dbnow] is the statement's [now()]. *)

From S2P Require Import Prelude Json Storage World.

(** A page of a listing: [ORDER BY key LIMIT limit OFFSET offset]. *)
Definition q_page {R} `{!TableRow R} (tbl : Db -> Table R) (p : R -> bool) (key : R -> Z)
    (limit offset : Z) : M dberr (list R) :=
  query (fun w => (limit_offset limit offset (order_by key (select p (tbl (w_db w)))), w)).

Definition q_count {R} `{!TableRow R} (tbl : Db -> Table R) (p : R -> bool) : M dberr Z :=
  query (fun w => (Ok (Z.of_nat (length (select p (tbl (w_db w))))), w)).

(** [ORDER BY name], bytewise. *)
Definition order_by_text {R} (key : R -> string) (l : list R) : list R :=
  map snd (sort_keys (map (fun r => (key r, r)) l)).

Definition opt_eqb (a b : option Z) : bool := bool_decide (a = b).

(** ** Tenants *)

Definition GetTenantByID (id : Z) : M dberr TenantRow :=
  q_get tenants (fun t => t_TenantID t =? id).
Definition GetTenantByUUID (uuid : Z) : M dberr TenantRow :=
  q_get tenants (fun t => t_TenantUuid t =? uuid).
Definition GetTenantByName (name : string) : M dberr TenantRow :=
  q_get tenants (fun t => str_eqb (t_Name t) name).
Definition GetSystemTenant : M dberr TenantRow := q_get tenants t_IsSystem.
Definition ListTenants (limit offset : Z) : M dberr (list TenantRow) :=
  q_page tenants (fun _ => true) (fun t => - t_CreatedAt t) limit offset.
Definition CountTenants : M dberr Z := q_count tenants (fun _ => true).

Definition CreateTenant (name display status : string) (is_system : bool)
    (auth : option Z) (meta : value) : M dberr TenantRow :=
  q_insert tenants (fun w id uuid =>
    Build_TenantRow id uuid auth name display status is_system meta None None
      (w_dbnow w) (w_dbnow w) None).

Definition UpdateTenant (uuid : Z) (display status : string) (auth : option Z)
    (meta : value) : M dberr TenantRow :=
  q_update_one tenants (fun _ t => t_TenantUuid t =? uuid) (fun w t =>
    t <| t_DisplayName := display |> <| t_Status := status |>
      <| t_AuthTenantUuid := auth |> <| t_Metadata := meta |> <| t_UpdatedAt := w_dbnow w |>).

Definition SoftDeleteTenant (uuid : Z) : M dberr (list TenantRow) :=
  q_update tenants (fun _ t => t_TenantUuid t =? uuid) (fun w t =>
    t <| t_DeletedAt := Some (w_dbnow w) |> <| t_UpdatedAt := w_dbnow w |>).

(** ** Projects *)

Definition GetProjectByID (id : Z) : M dberr ProjectRow :=
  q_get projects (fun p => p_ProjectID p =? id).
Definition GetProjectByUUID (uuid : Z) : M dberr ProjectRow :=
  q_get projects (fun p => p_ProjectUuid p =? uuid).
Definition GetProjectByTenantAndName (tenant : Z) (name : string) : M dberr ProjectRow :=
  q_get projects (fun p => (p_TenantID p =? tenant) && str_eqb (p_Name p) name).
Definition ListProjectsByTenant (tenant limit offset : Z) : M dberr (list ProjectRow) :=
  q_page projects (fun p => p_TenantID p =? tenant) (fun p => - p_CreatedAt p) limit offset.
Definition CountProjectsByTenant (tenant : Z) : M dberr Z :=
  q_count projects (fun p => p_TenantID p =? tenant).

Definition CreateProject (tenant : Z) (name display description status : string)
    (meta : value) : M dberr ProjectRow :=
  q_insert projects (fun w id uuid =>
    Build_ProjectRow id uuid tenant name display description status meta None None
      (w_dbnow w) (w_dbnow w) None).

Definition UpdateProject (uuid : Z) (display description status : string)
    (meta : value) : M dberr ProjectRow :=
  q_update_one projects (fun _ p => p_ProjectUuid p =? uuid) (fun w p =>
    p <| p_DisplayName := display |> <| p_Description := description |>
      <| p_Status := status |> <| p_Metadata := meta |> <| p_UpdatedAt := w_dbnow w |>).

Definition SoftDeleteProject (uuid : Z) : M dberr (list ProjectRow) :=
  q_update projects (fun _ p => p_ProjectUuid p =? uuid) (fun w p =>
    p <| p_DeletedAt := Some (w_dbnow w) |> <| p_UpdatedAt := w_dbnow w |>).

(** ** Providers *)

Definition GetProviderByID (id : Z) : M dberr ProviderRow :=
  q_get providers (fun p => v_ProviderID p =? id).
Definition GetProviderByUUID (uuid : Z) : M dberr ProviderRow :=
  q_get providers (fun p => v_ProviderUuid p =? uuid).
Definition ListProvidersByTenant (tenant limit offset : Z) : M dberr (list ProviderRow) :=
  q_page providers (fun p => v_TenantID p =? tenant) (fun p => - v_CreatedAt p) limit offset.
Definition ListProvidersByKind (tenant : Z) (kind : string) : M dberr (list ProviderRow) :=
  rows ← q_select providers (fun _ p =>
    (v_TenantID p =? tenant) && str_eqb (v_ResourceKind p) kind && str_eqb (v_Status p) "active");
  mret (order_by (fun p => - v_CreatedAt p) rows).
Definition CountProvidersByTenant (tenant : Z) : M dberr Z :=
  q_count providers (fun p => v_TenantID p =? tenant).

Definition CreateProvider (tenant : Z) (name kind driver : string) (config : value)
    (status : string) (meta : value) : M dberr ProviderRow :=
  q_insert providers (fun w id uuid =>
    Build_ProviderRow id uuid tenant name kind driver config status meta None None
      (w_dbnow w) (w_dbnow w) None).

Definition UpdateProvider (uuid : Z) (driver : string) (config : value) (status : string)
    (meta : value) : M dberr ProviderRow :=
  q_update_one providers (fun _ p => v_ProviderUuid p =? uuid) (fun w p =>
    p <| v_Driver := driver |> <| v_Config := config |> <| v_Status := status |>
      <| v_Metadata := meta |> <| v_UpdatedAt := w_dbnow w |>).

Definition SoftDeleteProvider (uuid : Z) : M dberr (list ProviderRow) :=
  q_update providers (fun _ p => v_ProviderUuid p =? uuid) (fun w p =>
    p <| v_DeletedAt := Some (w_dbnow w) |> <| v_UpdatedAt := w_dbnow w |>).

(** ** Services *)

Definition GetServiceByID (id : Z) : M dberr ServiceRow :=
  q_get services (fun s => s_ServiceID s =? id).
Definition GetServiceByUUID (uuid : Z) : M dberr ServiceRow :=
  q_get services (fun s => s_ServiceUuid s =? uuid).
Definition GetServiceByTenantAndName (tenant : Z) (name : string) : M dberr ServiceRow :=
  q_get services (fun s => (s_TenantID s =? tenant) && str_eqb (s_Name s) name).
Definition ListServicesByTenant (tenant limit offset : Z) : M dberr (list ServiceRow) :=
  q_page services (fun s => s_TenantID s =? tenant) (fun s => - s_CreatedAt s) limit offset.
Definition CountServicesByTenant (tenant : Z) : M dberr Z :=
  q_count services (fun s => s_TenantID s =? tenant).
Definition ListSystemServices : M dberr (list ServiceRow) :=
  rows ← q_select services (fun _ => s_IsSystem);
  mret (order_by_text s_Kind rows).

Definition CreateService (tenant : Z) (name kind status endpoint version : string)
    (meta : value) (registered_at : option Z) (is_system : bool) : M dberr ServiceRow :=
  q_insert services (fun w id uuid =>
    Build_ServiceRow id uuid tenant name kind status endpoint version meta registered_at
      None None (w_dbnow w) (w_dbnow w) None is_system).

Definition UpdateServiceStatus (uuid : Z) (status endpoint : string)
    (registered_at : option Z) : M dberr ServiceRow :=
  q_update_one services (fun _ s => s_ServiceUuid s =? uuid) (fun w s =>
    s <| s_Status := status |> <| s_Endpoint := endpoint |>
      <| s_RegisteredAt := registered_at |> <| s_UpdatedAt := w_dbnow w |>).

Definition SoftDeleteService (uuid : Z) : M dberr (list ServiceRow) :=
  q_update services (fun _ s => s_ServiceUuid s =? uuid) (fun w s =>
    s <| s_DeletedAt := Some (w_dbnow w) |> <| s_UpdatedAt := w_dbnow w |>).

(** ** Agents *)

Definition GetAgentByID (id : Z) : M dberr AgentRow :=
  q_get agents (fun a => a_AgentID a =? id).
Definition GetAgentByUUID (uuid : Z) : M dberr AgentRow :=
  q_get agents (fun a => a_AgentUuid a =? uuid).
Definition ListAgentsByTenant (tenant limit offset : Z) : M dberr (list AgentRow) :=
  q_page agents (fun a => a_TenantID a =? tenant) (fun a => - a_CreatedAt a) limit offset.
Definition CountAgentsByTenant (tenant : Z) : M dberr Z :=
  q_count agents (fun a => a_TenantID a =? tenant).

Definition CreateAgent (tenant : Z) (name status endpoint version : string)
    (caps meta : value) (hash : string) : M dberr AgentRow :=
  q_insert agents (fun w id uuid =>
    Build_AgentRow id uuid tenant name status endpoint version caps hash None "" ""
      None meta None None (w_dbnow w) (w_dbnow w) None).

Definition UpdateAgentStatus (uuid : Z) (status endpoint version : string)
    (caps : value) : M dberr AgentRow :=
  q_update_one agents (fun _ a => a_AgentUuid a =? uuid) (fun w a =>
    a <| a_Status := status |> <| a_Endpoint := endpoint |> <| a_Version := version |>
      <| a_Capabilities := caps |> <| a_UpdatedAt := w_dbnow w |>).

Definition AgentHeartbeat (uuid : Z) : M dberr AgentRow :=
  q_update_one agents (fun _ a => a_AgentUuid a =? uuid) (fun w a =>
    a <| a_LastSeenAt := Some (w_dbnow w) |> <| a_Status := "online" |>
      <| a_UpdatedAt := w_dbnow w |>).

(** [last_seen_at IS NOT NULL AND last_seen_at < now() - interval]. *)
Definition agent_stale (now stale : Z) (a : AgentRow) : bool :=
  negb (str_eqb (a_Status a) "offline") &&
  match a_LastSeenAt a with Some seen => seen <? now - stale | None => false end.

Definition MarkStaleAgentsOffline (stale : Z) : M dberr (list AgentRow) :=
  q_update agents (fun w => agent_stale (w_dbnow w) stale) (fun w a =>
    a <| a_Status := "offline" |> <| a_UpdatedAt := w_dbnow w |>).

(** [ORDER BY last_seen_at ASC NULLS LAST]. *)
Definition nulls_last {R} (key : R -> option Z) (l : list R) : list R :=
  order_by (fun r => default 0 (key r)) (filter (fun r => is_Some (key r)) l)
  ++ filter (fun r => key r = None) l.

Definition ListOfflineAgents : M dberr (list AgentRow) :=
  rows ← q_select agents (fun _ a => str_eqb (a_Status a) "offline");
  mret (nulls_last a_LastSeenAt rows).

Definition SoftDeleteAgent (uuid : Z) : M dberr (list AgentRow) :=
  q_update agents (fun _ a => a_AgentUuid a =? uuid) (fun w a =>
    a <| a_DeletedAt := Some (w_dbnow w) |> <| a_UpdatedAt := w_dbnow w |>).

Definition BindAgentSubject (uuid : Z) (subject : string) : M dberr AgentRow :=
  q_update_one agents
    (fun _ a => (a_AgentUuid a =? uuid)
                && (is_empty (a_BoundSubject a) || str_eqb (a_BoundSubject a) subject))
    (fun w a => a <| a_BoundSubject := subject |> <| a_UpdatedAt := w_dbnow w |>).

Definition MarkAgentEnrolled (uuid : Z) (cert : string) : M dberr AgentRow :=
  q_update_one agents
    (fun _ a => (a_AgentUuid a =? uuid)
                && match a_JoinTokenUsedAt a with None => true | Some _ => false end)
    (fun w a => a <| a_JoinTokenUsedAt := Some (w_dbnow w) |> <| a_ClientCertPem := cert |>
                  <| a_UpdatedAt := w_dbnow w |>).

(** ** Platform events *)

Definition CreatePlatformEvent (tenant : option Z) (kind severity subject_type : string)
    (subject : option Z) (message : string) (details : value) : M dberr EventRow :=
  q_insert events (fun w id uuid =>
    Build_EventRow id uuid tenant kind severity subject_type subject message details (w_dbnow w)).

(** [ORDER BY created_at DESC, event_id DESC]. *)
Definition newest_first (l : list EventRow) : list EventRow :=
  order_by (fun e => - e_CreatedAt e) (order_by (fun e => - e_EventID e) l).

Definition ListPlatformEvents (limit offset : Z) : M dberr (list EventRow) :=
  query (fun w =>
    (limit_offset limit offset (newest_first (select (fun _ => true) (events (w_db w)))), w)).
Definition CountPlatformEvents : M dberr Z := q_count events (fun _ => true).
Definition ListPlatformEventsBySubject (subject_type : string) (subject limit offset : Z)
    : M dberr (list EventRow) :=
  query (fun w =>
    (limit_offset limit offset (newest_first
      (select (fun e => str_eqb (e_SubjectType e) subject_type
                        && opt_eqb (e_SubjectUuid e) (Some subject)) (events (w_db w)))), w)).

(** ** Resources *)

Definition GetResourceByID (id : Z) : M dberr ResourceRow :=
  q_get resources (fun r => r_ResourceID r =? id).
Definition GetResourceByUUID (uuid : Z) : M dberr ResourceRow :=
  q_get resources (fun r => r_ResourceUuid r =? uuid).
Definition ListResourcesByTenant (tenant limit offset : Z) : M dberr (list ResourceRow) :=
  q_page resources (fun r => r_TenantID r =? tenant) (fun r => - r_CreatedAt r) limit offset.
Definition ListResourcesByProject (project limit offset : Z) : M dberr (list ResourceRow) :=
  q_page resources (fun r => r_ProjectID r =? project) (fun r => - r_CreatedAt r) limit offset.
Definition CountResourcesByProject (project : Z) : M dberr Z :=
  q_count resources (fun r => r_ProjectID r =? project).

Record CreateResourceParams := {
  crp_TenantID : Z; crp_ProjectID : Z; crp_ProviderID : option Z; crp_AgentID : option Z;
  crp_OwnerResourceID : option Z; crp_MrnService : string; crp_MrnTenant : string;
  crp_MrnProject : string; crp_MrnResourceType : string; crp_MrnResourcePath : string;
  crp_Kind : string; crp_Name : string; crp_Spec : value; crp_Metadata : value }.

(** The columns the statement leaves out take the defaults of
    [migrations/00006_create_resources.sql]. *)
Definition CreateResource (p : CreateResourceParams) : M dberr ResourceRow :=
  q_insert resources (fun w id uuid =>
    Build_ResourceRow id uuid (crp_TenantID p) (crp_ProjectID p) (crp_ProviderID p)
      (crp_AgentID p) (crp_OwnerResourceID p) (crp_MrnService p) (crp_MrnTenant p)
      (crp_MrnProject p) (crp_MrnResourceType p) (crp_MrnResourcePath p)
      (crp_Kind p) (crp_Name p) "pending" "" (crp_Spec p) (VObj []) 1 0 None 0 None
      (crp_Metadata p) None None (w_dbnow w) (w_dbnow w) None).

(** The SET clause of each UPDATE is a function on rows of its own. *)
Definition UpdateResourceSpec_row (spec meta : value)
    (mrn_service mrn_tenant mrn_project mrn_type mrn_path : string) (now : Z)
    (r : ResourceRow) : ResourceRow :=
  r <| r_Spec := spec |> <| r_Metadata := meta |> <| r_MrnService := mrn_service |>
    <| r_MrnTenant := mrn_tenant |> <| r_MrnProject := mrn_project |>
    <| r_MrnResourceType := mrn_type |> <| r_MrnResourcePath := mrn_path |>
    <| r_Generation := r_Generation r + 1 |> <| r_State := "pending" |>
    <| r_Attempts := 0 |> <| r_NextAttemptAt := None |> <| r_UpdatedAt := now |>.

Definition UpdateResourceSpec (uuid : Z) (spec meta : value)
    (mrn_service mrn_tenant mrn_project mrn_type mrn_path : string) : M dberr ResourceRow :=
  q_update_one resources (fun _ r => r_ResourceUuid r =? uuid) (fun w =>
    UpdateResourceSpec_row spec meta mrn_service mrn_tenant mrn_project mrn_type mrn_path
      (w_dbnow w)).

Definition UpdateResourceStatus_row (status : value) (state : string) (observed now : Z)
    (r : ResourceRow) : ResourceRow :=
  r <| r_Status := status |> <| r_State := state |>
    <| r_ObservedGeneration := observed |> <| r_UpdatedAt := now |>.

Definition UpdateResourceStatus (uuid : Z) (status : value) (state : string)
    (observed : Z) : M dberr ResourceRow :=
  q_update_one resources (fun _ r => r_ResourceUuid r =? uuid) (fun w =>
    UpdateResourceStatus_row status state observed (w_dbnow w)).

(** The conditions of the work feed, shared by the listing and the claim. *)
Definition lags (r : ResourceRow) : bool :=
  (r_ObservedGeneration r <? r_Generation r)
  || str_eqb (r_State r) "deleting" || str_eqb (r_State r) "error".
Definition lease_free (now : Z) (r : ResourceRow) : bool :=
  match r_LeasedUntil r with None => true | Some until => until <? now end.
Definition backoff_over (now : Z) (r : ResourceRow) : bool :=
  match r_NextAttemptAt r with None => true | Some at_ => at_ <=? now end.
Definition in_feed (now : Z) (r : ResourceRow) : bool :=
  lags r && negb (str_eqb (r_State r) "failed") && lease_free now r && backoff_over now r.

Definition ListOutOfSyncResources (limit : Z) : M dberr (list ResourceRow) :=
  query (fun w =>
    (limit_offset limit 0
       (order_by r_UpdatedAt (select (in_feed (w_dbnow w)) (resources (w_db w)))), w)).

(** The subselect of the claim: candidates in feed order that no concurrent
    transaction has locked ([FOR UPDATE SKIP LOCKED]). *)
Definition claimable (now agent : Z) (r : ResourceRow) : bool :=
  in_feed now r && (opt_eqb (r_AgentID r) (Some agent) || opt_eqb (r_AgentID r) None).
Definition claim_candidates (locked : Z -> bool) (now agent max_items : Z)
    (t : Table ResourceRow) : list ResourceRow :=
  take (Z.to_nat max_items) (order_by r_UpdatedAt
    (select (fun r => claimable now agent r && negb (locked (r_ResourceID r))) t)).
Definition claim_stamp (now agent lease : Z) (r : ResourceRow) : ResourceRow :=
  r <| r_AgentID := Some agent |> <| r_LeasedUntil := Some (now + lease) |>
    <| r_UpdatedAt := now |>.
Definition id_in (ids : list Z) (r : ResourceRow) : bool := bool_decide (r_ResourceID r ∈ ids).

Definition ClaimAgentWork (agent lease max_items : Z) : M dberr (list ResourceRow) :=
  q_update resources
    (fun w => id_in (map r_ResourceID
       (claim_candidates (fun _ => false) (w_dbnow w) agent max_items (resources (w_db w)))))
    (fun w => claim_stamp (w_dbnow w) agent lease).

Record ApplyAgentReportParams := {
  arp_ResourceUuid : Z; arp_Status : value; arp_State : string; arp_ObservedGeneration : Z;
  arp_Attempts : Z; arp_NextAttemptAt : option Z; arp_Health : string; arp_Finalize : bool }.
#[global] Instance ApplyAgentReportParams_eta : EtaRecord ApplyAgentReportParams := fun p =>
  Build_ApplyAgentReportParams (arp_ResourceUuid p) (arp_Status p) (arp_State p)
    (arp_ObservedGeneration p) (arp_Attempts p) (arp_NextAttemptAt p) (arp_Health p)
    (arp_Finalize p).

Definition ApplyAgentReport_row (p : ApplyAgentReportParams) (now : Z) (r : ResourceRow)
    : ResourceRow :=
  r <| r_Status := arp_Status p |> <| r_State := arp_State p |>
    <| r_ObservedGeneration := Z.max (r_ObservedGeneration r) (arp_ObservedGeneration p) |>
    <| r_Attempts := arp_Attempts p |> <| r_NextAttemptAt := arp_NextAttemptAt p |>
    <| r_Health := arp_Health p |> <| r_LeasedUntil := None |>
    <| r_DeletedAt := (if arp_Finalize p then Some now else r_DeletedAt r) |>
    <| r_UpdatedAt := now |>.

Definition ApplyAgentReport (p : ApplyAgentReportParams) : M dberr ResourceRow :=
  q_update_one resources (fun _ r => r_ResourceUuid r =? arp_ResourceUuid p)
    (fun w => ApplyAgentReport_row p (w_dbnow w)).

Definition system_tier (r : ResourceRow) : bool := jsonb_text_eq (r_Metadata r) "tier" "system".

Definition ListSystemTierResources : M dberr (list ResourceRow) :=
  rows ← q_select resources (fun _ => system_tier);
  mret (order_by_text r_Name rows).

Definition RedispatchSystemResource_row (now : Z) (r : ResourceRow) : ResourceRow :=
  r <| r_Generation := r_Generation r + 1 |> <| r_State := "pending" |>
    <| r_LeasedUntil := None |> <| r_Attempts := 0 |> <| r_NextAttemptAt := None |>
    <| r_UpdatedAt := now |>.

Definition RedispatchSystemResource (uuid : Z) : M dberr ResourceRow :=
  q_update_one resources
    (fun _ r => (r_ResourceUuid r =? uuid) && negb (str_eqb (r_State r) "deleting"))
    (fun w => RedispatchSystemResource_row (w_dbnow w)).

Definition host_flagged (r : ResourceRow) : bool :=
  jsonb_text_eq (r_Status r) "host_unreachable" "true".

(** [to_jsonb(now())] is the timestamp's text; it is only ever stored. *)
Definition to_jsonb_time (t : Z) : value := VStr (pretty t).

Definition FlagResourceHostUnreachable_row (now : Z) (r : ResourceRow) : ResourceRow :=
  r <| r_Status := jsonb_merge (r_Status r)
         [("host_unreachable", VBool true); ("host_unreachable_at", to_jsonb_time now)] |>
    <| r_Health := "unknown" |> <| r_UpdatedAt := now |>.

Definition FlagResourceHostUnreachable (uuid : Z) : M dberr ResourceRow :=
  q_update_one resources
    (fun _ r => (r_ResourceUuid r =? uuid) && negb (host_flagged r))
    (fun w => FlagResourceHostUnreachable_row (w_dbnow w)).

Definition MarkResourceDeleting_row (now : Z) (r : ResourceRow) : ResourceRow :=
  r <| r_State := "deleting" |> <| r_UpdatedAt := now |>.

Definition MarkResourceDeleting (uuid : Z) : M dberr (list ResourceRow) :=
  q_update resources (fun _ r => r_ResourceUuid r =? uuid)
    (fun w => MarkResourceDeleting_row (w_dbnow w)).

(** Declared by the repository of the resources; no service calls it. *)
Definition AssignResourceAgent_row (agent : option Z) (now : Z) (r : ResourceRow) : ResourceRow :=
  r <| r_AgentID := agent |> <| r_UpdatedAt := now |>.

Definition AssignResourceAgent (uuid : Z) (agent : option Z) : M dberr ResourceRow :=
  q_update_one resources (fun _ r => r_ResourceUuid r =? uuid)
    (fun w => AssignResourceAgent_row agent (w_dbnow w)).

(** ** Deployment templates *)

Definition GetDeploymentTemplate (name version : string) : M dberr DeploymentTemplateRow :=
  q_get deployment_templates (fun t => str_eqb (dt_Name t) name && str_eqb (dt_Version t) version).
(** [ORDER BY name ASC, version ASC]: the stable sort by version, then by name. *)
Definition ListDeploymentTemplates (limit offset : Z) : M dberr (list DeploymentTemplateRow) :=
  query (fun w => (limit_offset limit offset
    (order_by_text dt_Name (order_by_text dt_Version
       (select (fun _ => true) (deployment_templates (w_db w))))), w)).
Definition CountDeploymentTemplates : M dberr Z := q_count deployment_templates (fun _ => true).

Definition CreateDeploymentTemplate (name version capability image : string)
    (parameters spec meta : value) : M dberr DeploymentTemplateRow :=
  q_insert deployment_templates (fun w id uuid =>
    Build_DeploymentTemplateRow id uuid name version capability image parameters spec meta
      (w_dbnow w) (w_dbnow w) None).

Definition SoftDeleteDeploymentTemplate (name version : string)
    : M dberr (list DeploymentTemplateRow) :=
  q_update deployment_templates
    (fun _ t => str_eqb (dt_Name t) name && str_eqb (dt_Version t) version) (fun w t =>
    t <| dt_DeletedAt := Some (w_dbnow w) |> <| dt_UpdatedAt := w_dbnow w |>).

(** ** The control plane *)

Definition GetControlPlane : M dberr ControlPlaneRow :=
  query (fun w => (match control_plane (w_db w) with Some r => Ok r | None => Err ErrNoRows end, w)).

Record UpsertControlPlaneParams := {
  ucp_AuthTenantUuid : option Z; ucp_Data : Result; ucp_ControlPrivateKeyPem : string;
  ucp_DeploymentMode : string; ucp_SetupCompletedAt : option Z }.

(** The version of the row an upsert leaves: an empty key keeps the stored one,
    every other column takes the new value. *)
Definition upserted (now : Z) (arg : UpsertControlPlaneParams) (old : option ControlPlaneRow)
    : ControlPlaneRow := {|
  cp_AuthTenantUuid := ucp_AuthTenantUuid arg;
  cp_Data := ucp_Data arg;
  cp_ControlPrivateKeyPem :=
    match old with
    | Some r => if is_empty (ucp_ControlPrivateKeyPem arg) then cp_ControlPrivateKeyPem r
                else ucp_ControlPrivateKeyPem arg
    | None => ucp_ControlPrivateKeyPem arg
    end;
  cp_DeploymentMode := ucp_DeploymentMode arg;
  cp_SetupCompletedAt := ucp_SetupCompletedAt arg;
  cp_CreatedAt := match old with Some r => cp_CreatedAt r | None => now end;
  cp_UpdatedAt := now |}.

Definition UpsertControlPlane (arg : UpsertControlPlaneParams) : M dberr ControlPlaneRow :=
  query (fun w =>
    if varchar 20 (ucp_DeploymentMode arg) && text (ucp_ControlPrivateKeyPem arg) then
      let row := upserted (w_dbnow w) arg (control_plane (w_db w)) in
      (Ok row, w <| w_db := set_field control_plane (fun _ => Some row) (w_db w) |>)
    else (Err (PgError data_exception), w)).
