(* ===== verification/Evolution.v ===== *)
(** * Evolution of tables

    The promise every handler of a component makes to its callers, stated for
    one table: a well-formed table stays well formed and its rows advance by a
    preorder, whatever else the handler does and whichever queries fail. *)

From S2P Require Import Prelude Json Storage World Queries.

(** A table of the database, with the law of its setter. *)
Class TableField {R : Type} (tbl : Db -> Table R) `{!FieldSetter tbl} :=
  table_get_set : forall g d, tbl (set_field tbl g d) = g (tbl d).
#[global] Instance tenants_field : TableField tenants. Proof. done. Qed.
#[global] Instance projects_field : TableField projects. Proof. done. Qed.
#[global] Instance providers_field : TableField providers. Proof. done. Qed.
#[global] Instance services_field : TableField services. Proof. done. Qed.
#[global] Instance agents_field : TableField agents. Proof. done. Qed.
#[global] Instance resources_field : TableField resources. Proof. done. Qed.
#[global] Instance events_field : TableField events. Proof. done. Qed.
#[global] Instance deployment_templates_field : TableField deployment_templates. Proof. done. Qed.

Lemma hit_live {R} `{!TableRow R} p (r : R) : hit p r = true -> row_deleted r = None /\ p r = true.
Proof. unfold hit, live. destruct (row_deleted r); cbn; [done|auto]. Qed.

Definition same_keys {R} `{!TableRow R} (r r' : R) : Prop :=
  row_id r' = row_id r /\ row_uuid r' = row_uuid r.

Section OnTable.
Context {R : Type} `{!TableRow R} (tbl : Db -> Table R) `{!FieldSetter tbl, !TableField tbl}.

Definition on_table (RR : relation R) : relation Db := fun d d' =>
  table_wf (tbl d) -> table_wf (tbl d') /\ rows_advance RR (tbl d) (tbl d').

Context (RR : relation R) `{!PreOrder RR}.

#[global] Instance on_table_preorder : PreOrder (on_table RR).
Proof.
  split; unfold on_table.
  - intros d H. split; [done | reflexivity].
  - intros d1 d2 d3 H1 H2 H. destruct (H1 H) as [W2 A2]. destruct (H2 W2) as [W3 A3].
    split; [done | by etransitivity].
Qed.

(** An update advances [RR] when the new version of every live row it may
    hit does. *)
Lemma table_update p f :
  (forall w r, same_keys r (f w r)) ->
  (forall w r, table_wf (tbl (w_db w)) -> r ∈ tbl_rows (tbl (w_db w)) ->
     row_deleted r = None -> p w r = true -> RR r (f w r)) ->
  advances (on_table RR) (q_update tbl p f).
Proof.
  intros Hk H. apply advances_update; [apply _|]. intros w rs t Hu Hwf.
  rewrite table_get_set. split.
  - eapply update_wf; [|exact Hu|done]. intros r _. apply Hk.
  - eapply update_advance; [apply _| |exact Hu].
    intros r Hr [Hl Hp]%hit_live _. by apply H.
Qed.

Lemma table_update_one p f :
  (forall w r, same_keys r (f w r)) ->
  (forall w r, table_wf (tbl (w_db w)) -> r ∈ tbl_rows (tbl (w_db w)) ->
     row_deleted r = None -> p w r = true -> RR r (f w r)) ->
  advances (on_table RR) (q_update_one tbl p f).
Proof.
  intros Hk H. apply advances_bind; [apply _|by apply table_update|].
  intros [|? ?]; advance.
Qed.

Lemma table_insert mk :
  (forall w id u, row_id (mk w id u) = id /\ row_uuid (mk w id u) = u) ->
  advances (on_table RR) (q_insert tbl mk).
Proof.
  intros Hmk. apply advances_insert; [apply _|]. intros w r t Hi Hwf.
  rewrite table_get_set. split.
  - eapply insert_wf; [|exact Hi|done]. apply Hmk.
  - eapply insert_advance; [apply _|exact Hi].
Qed.
End OnTable.

(** *** What is promised of the rows that are added, too *)

Section OnRows.
Context {R : Type} `{!TableRow R} (tbl : Db -> Table R) `{!FieldSetter tbl, !TableField tbl}.

(** Every row is kept in place and advances by [RR]; a row that was added
    satisfies [P]. *)
Definition on_rows (RR : relation R) (P : R -> Prop) : relation Db := fun d d' =>
  table_wf (tbl d) -> table_wf (tbl d') /\
  exists old new, tbl_rows (tbl d') = old ++ new /\ Forall2 RR (tbl_rows (tbl d)) old /\ Forall P new.

Context (RR : relation R) `{!PreOrder RR} (P : R -> Prop).

Lemma on_rows_preorder : (forall r r', RR r r' -> P r -> P r') -> PreOrder (on_rows RR P).
Proof.
  intros HP. split; unfold on_rows.
  - intros d Hwf. split; [done|]. exists (tbl_rows (tbl d)), []. rewrite app_nil_r.
    split_and!; [done|reflexivity|constructor].
  - intros d1 d2 d3 H12 H23 Hwf1. destruct (H12 Hwf1) as [Hwf2 (o1 & n1 & E1 & F1 & N1)].
    destruct (H23 Hwf2) as [Hwf3 (o2 & n2 & E2 & F2 & N2)]. split; [done|].
    rewrite E1 in F2. apply Forall2_app_inv_l in F2 as (p1 & p2 & G1 & G2 & ->).
    exists p1, (p2 ++ n2). split_and!; [by rewrite E2, app_assoc|by etransitivity|].
    apply Forall_app. split; [|done]. clear -HP N1 G2.
    induction G2; [done|]. apply Forall_cons in N1 as [? ?]. constructor; eauto.
Qed.

Lemma on_rows_updated p f d rs t :
  (forall r, same_keys r (f r)) ->
  (forall r, table_wf (tbl d) -> r ∈ tbl_rows (tbl d) -> row_deleted r = None -> p r = true -> RR r (f r)) ->
  update p f (tbl d) = Ok (rs, t) -> on_rows RR P d (set_field tbl (fun _ => t) d).
Proof.
  intros Hk Hf Hu Hwf. rewrite table_get_set. split.
  - eapply update_wf; [|exact Hu|done]. intros r _. apply Hk.
  - destruct (update_advance RR p f (tbl d) rs t) as (old & new & E & F); [apply _| |exact Hu|].
    + intros r Hr [Hl Hp]%hit_live _. by apply Hf.
    + exists old, new. split_and!; [done..|]. apply Forall_forall. intros r Hr.
      apply update_inv in Hu as (_ & Hrows & _). apply (f_equal length) in Hrows.
      rewrite E, length_app, length_map, (Forall2_length _ _ _ F) in Hrows.
      destruct new; [by apply elem_of_nil in Hr|]. cbn in Hrows. lia.
Qed.

Lemma on_rows_inserted mk u d r t :
  (forall id uuid, row_id (mk id uuid) = id /\ row_uuid (mk id uuid) = uuid) ->
  (forall id, P (mk id u)) ->
  insert mk u (tbl d) = Ok (r, t) -> on_rows RR P d (set_field tbl (fun _ => t) d).
Proof.
  intros Hmk HP Hi Hwf. rewrite table_get_set. split; [by eapply insert_wf|].
  apply insert_inv in Hi as (-> & Hrows & _). eexists _, _.
  split_and!; [exact Hrows|reflexivity|]. by constructor.
Qed.

Lemma on_rows_lookup d d' i r : on_rows RR P d d' -> table_wf (tbl d) ->
  tbl_rows (tbl d) !! i = Some r -> exists r', tbl_rows (tbl d') !! i = Some r' /\ RR r r'.
Proof.
  intros Hd Hwf Hi. destruct (Hd Hwf) as [_ (old & new & E & F & _)].
  apply (rows_advance_lookup RR (tbl d)); [by exists old, new|done].
Qed.

Lemma on_rows_added d d' i r : on_rows RR P d d' -> table_wf (tbl d) ->
  tbl_rows (tbl d') !! i = Some r -> tbl_rows (tbl d) !! i = None -> P r.
Proof.
  intros Hd Hwf Hi Hn. destruct (Hd Hwf) as [_ (old & new & E & F & N)].
  rewrite E in Hi. apply lookup_ge_None in Hn. rewrite (Forall2_length _ _ _ F) in Hn.
  rewrite lookup_app_r in Hi by done. rewrite Forall_forall in N.
  by eapply N, list_elem_of_lookup_2.
Qed.
End OnRows.

(** Listings and counts change nothing. *)
Section Listings.
Context (Rel : relation Db) `{!PreOrder Rel}.
Context {R : Type} `{!TableRow R} (tbl : Db -> Table R).

Lemma advances_page p key l o : advances Rel (q_page tbl p key l o).
Proof. apply advances_query; [apply _|reflexivity]. Qed.
Lemma advances_count p : advances Rel (q_count tbl p).
Proof. apply advances_query; [apply _|reflexivity]. Qed.
Lemma advances_out_of_sync l : advances Rel (ListOutOfSyncResources l).
Proof. apply advances_query; [apply _|reflexivity]. Qed.
Lemma advances_events l o : advances Rel (ListPlatformEvents l o).
Proof. apply advances_query; [apply _|reflexivity]. Qed.
Lemma advances_events_of ty u l o : advances Rel (ListPlatformEventsBySubject ty u l o).
Proof. apply advances_query; [apply _|reflexivity]. Qed.
End Listings.
#[export] Hint Extern 1 (advances _ (q_page _ _ _ _ _)) => apply advances_page; apply _ : advances.
#[export] Hint Extern 1 (advances _ (q_count _ _)) => apply advances_count; apply _ : advances.
#[export] Hint Extern 1 (advances _ (ListOutOfSyncResources _)) =>
  apply advances_out_of_sync; apply _ : advances.
#[export] Hint Extern 1 (advances _ (ListPlatformEvents _ _)) =>
  apply advances_events; apply _ : advances.
#[export] Hint Extern 1 (advances _ (ListPlatformEventsBySubject _ _ _ _)) =>
  apply advances_events_of; apply _ : advances.

(** ** Reads that guard a write *)

Section Guarded.
Context {R : Type} `{!TableRow R} (tbl : Db -> Table R).

(** A lookup never writes, and the continuation runs with a live row of the
    table that satisfies the lookup. *)
Lemma advances_get_bind (Rel : relation Db) `{!PreOrder Rel} {E A} (h : dberr -> E) p
    (k : R -> M E A) :
  (forall w r, r ∈ tbl_rows (tbl (w_db w)) -> row_deleted r = None -> p r = true ->
     Rel (w_db w) (w_db (snd (k r w)))) ->
  advances Rel (map_err h (q_get tbl p) ≫= k).
Proof.
  intros Hk w. unfold mbind, M_bind, map_err.
  destruct (q_get tbl p w) as [[r|e] w1] eqn:Eg; cbn.
  - apply q_get_Ok_inv in Eg as (Hr & Hl & Hp & Hdb). rewrite <- Hdb. apply Hk; congruence.
  - assert (H : advances (fun d d' => d' = d) (q_get tbl p)) by (apply advances_query; [split; congruence|done]).
    specialize (H w). rewrite Eg in H. cbn in H. rewrite H. reflexivity.
Qed.

Context `{!FieldSetter tbl, !TableField tbl} (RR : relation R) `{!PreOrder RR}.

Lemma table_update_at p f w :
  (forall w r, same_keys r (f w r)) ->
  (forall w1 r, w_db w1 = w_db w -> table_wf (tbl (w_db w)) -> r ∈ tbl_rows (tbl (w_db w)) ->
     row_deleted r = None -> p w1 r = true -> RR r (f w1 r)) ->
  on_table tbl RR (w_db w) (w_db (snd (q_update tbl p f w))).
Proof.
  intros Hk H. set (w1 := w <| w_faults := tail (w_faults w) |>).
  assert (Hq : on_table tbl RR (w_db w) (w_db (snd (
    match update (p w1) (f w1) (tbl (w_db w1)) with
    | Ok (rs, t) => (Ok rs, w1 <| w_db := set_field tbl (fun _ => t) (w_db w1) |>)
    | Err e => (Err e, w1)
    end)))).
  { destruct (update _ _ _) as [[rs t]|e] eqn:E; [|reflexivity]. intros Hwf. cbn.
    rewrite table_get_set. split; [eapply update_wf; [|exact E|done]; intros r _; apply Hk|].
    eapply update_advance; [apply _| |exact E]. intros r Hr [Hl Hp]%hit_live _. by apply H. }
  unfold q_update, query. destruct (w_faults w) as [|[] ?]; cbn; exact Hq || reflexivity.
Qed.

Lemma table_update_one_at p f w :
  (forall w r, same_keys r (f w r)) ->
  (forall w1 r, w_db w1 = w_db w -> table_wf (tbl (w_db w)) -> r ∈ tbl_rows (tbl (w_db w)) ->
     row_deleted r = None -> p w1 r = true -> RR r (f w1 r)) ->
  on_table tbl RR (w_db w) (w_db (snd (q_update_one tbl p f w))).
Proof.
  intros Hk H. pose proof (table_update_at p f w Hk H) as Hu.
  unfold q_update_one, mbind, M_bind. destruct (q_update tbl p f w) as [[[|r rs]|e] w1]; exact Hu.
Qed.
End Guarded.

(** The database after a handler that only translates an error, or only
    continues with handlers that advance. *)
Lemma map_err_db {E F A} (h : E -> F) (m : M E A) w : w_db (snd (map_err h m w)) = w_db (snd (m w)).
Proof. unfold map_err. by destruct (m w) as [[]]. Qed.

Lemma bind_advances_at (Rel : relation Db) `{!PreOrder Rel} {E A B} (m : M E A) (k : A -> M E B) w :
  Rel (w_db w) (w_db (snd (m w))) -> (forall a, advances Rel (k a)) ->
  Rel (w_db w) (w_db (snd ((m ≫= k) w))).
Proof.
  intros Hm Hk. unfold mbind, M_bind. destruct (m w) as [[a|e] w1]; [|done].
  etransitivity; [exact Hm|apply Hk].
Qed.

(** A filter over rows that were rewritten without touching what it tests. *)
Lemma select_rewritten {R} `{!TableRow R} (p : R -> bool) (g : R -> R) rows next next' :
  (forall r, live (g r) = live r /\ p (g r) = p r) ->
  select p (mkTable (map g rows) next) = map g (select p (mkTable rows next')).
Proof.
  intros Hg. unfold select. cbn [tbl_rows]. induction rows as [|r rows IH]; [done|].
  destruct (Hg r) as [E1 E2]. cbn [map]. rewrite !filter_cons, E1, E2, IH. by case_decide.
Qed.
