(* ===== verification/Mrn.v ===== *)
(** * Maintainerd resource names

    The MRN half of [internal/resource/service.go]: the parts of a name are
    taken from the metadata or derived from kind and name, validated, stored
    as columns and rendered as [mrn:service:tenant:project:type/path]. *)

From S2P Require Import Prelude Json.

Record mrnParts := {
  mrn_Service : string; mrn_Tenant : string; mrn_Project : string;
  mrn_ResourceType : string; mrn_ResourcePath : string }.

Section Mrn.
Context {T : GoText}.

(** [metadata[key].(string)]: the first key that holds a string wins, even
    an empty one. *)
Fixpoint firstMetaString (metadata : object) (keys : list string) : string :=
  match keys with
  | [] => ""
  | key :: keys' =>
      match obj_get key metadata with
      | Some (VStr v) => TrimSpace v
      | _ => firstMetaString metadata keys'
      end
  end.

Definition validateMRNSegment (name value : string) : option string :=
  if is_empty (TrimSpace value) then Some ("mrn_" +:+ name +:+ " is required")
  else if ContainsAny value ":/*" || Contains value ".."
  then Some ("mrn_" +:+ name +:+ " contains invalid characters")
  else None.

Definition validateMRNPath (path : string) : option string :=
  if is_empty (TrimSpace path) then Some "mrn_resource_path is required"%string
  else if HasPrefix path "/" || HasSuffix path "/" || Contains path ":"
          || Contains path "*" || Contains path ".."
  then Some "mrn_resource_path contains invalid characters"%string
  else None.

(** The first failing validation, in the order of the code. *)
Definition first_error (checks : list (option string)) : option string :=
  head (omap (fun c => c) checks).

Definition buildMRN (tenantName projectName kind name : string) (metadata : object)
    : result string mrnParts :=
  let service := firstMetaString metadata ["mrn_service"; "service"]%string in
  let type_ := firstMetaString metadata ["mrn_resource_type"; "resource_type"]%string in
  let path := firstMetaString metadata ["mrn_resource_path"; "resource_path"]%string in
  let parts := {|
    mrn_Service := if is_empty service then "core" else service;
    mrn_Tenant := tenantName;
    mrn_Project := projectName;
    mrn_ResourceType := if is_empty type_ then ToLower (TrimSpace kind) else type_;
    mrn_ResourcePath := if is_empty path then TrimSpace name else path |} in
  match first_error
      [validateMRNSegment "service" (mrn_Service parts);
       validateMRNSegment "tenant" (mrn_Tenant parts);
       validateMRNSegment "project" (mrn_Project parts);
       validateMRNSegment "resource_type" (mrn_ResourceType parts);
       validateMRNPath (mrn_ResourcePath parts)] with
  | Some err => Err err
  | None => Ok parts
  end.

Definition renderMRN (service tenant project resourceType resourcePath : string) : string :=
  if is_empty service && is_empty tenant && is_empty project
     && is_empty resourceType && is_empty resourcePath
  then ""
  else "mrn:" +:+ service +:+ ":" +:+ tenant +:+ ":" +:+ project +:+ ":"
       +:+ resourceType +:+ "/" +:+ resourcePath.

Definition render (p : mrnParts) : string :=
  renderMRN (mrn_Service p) (mrn_Tenant p) (mrn_Project p) (mrn_ResourceType p)
    (mrn_ResourcePath p).

(** ** Names identify resources *)

(** What validation promises of the parts. *)
Record mrn_wf (p : mrnParts) : Prop := {
  wf_service : ContainsByte (mrn_Service p) ":" = false;
  wf_tenant : ContainsByte (mrn_Tenant p) ":" = false;
  wf_project : ContainsByte (mrn_Project p) ":" = false;
  wf_type_colon : ContainsByte (mrn_ResourceType p) ":" = false;
  wf_type_slash : ContainsByte (mrn_ResourceType p) "/" = false;
  wf_nonempty : mrn_Service p <> "";
}.

Lemma ContainsByte_cons c a s :
  ContainsByte (String a s) c = Ascii.eqb c a || ContainsByte s c.
Proof. reflexivity. Qed.

Lemma split_at_byte c a a' b b' :
  ContainsByte a c = false -> ContainsByte a' c = false ->
  (a +:+ String c b)%string = (a' +:+ String c b')%string -> a = a' /\ b = b'.
Proof.
  revert a'. induction a as [|x a IH]; intros [|x' a'] Ha Ha' E; cbn in E; simplify_eq.
  - done.
  - rewrite ContainsByte_cons, Ascii.eqb_refl in Ha'. done.
  - rewrite ContainsByte_cons, Ascii.eqb_refl in Ha. done.
  - rewrite ContainsByte_cons in Ha, Ha'.
    apply orb_false_iff in Ha as [_ Ha]. apply orb_false_iff in Ha' as [_ Ha'].
    destruct (IH a' Ha Ha') as [-> ->]; done.
Qed.

Lemma validateMRNSegment_ok name v :
  validateMRNSegment name v = None ->
  v <> "" /\ ContainsByte v ":" = false /\ ContainsByte v "/" = false.
Proof.
  unfold validateMRNSegment. case_match eqn:E1; [done|]. case_match eqn:E2; [done|].
  intros _. split; [intros ->; done|].
  apply orb_false_iff in E2 as [E2 _]. unfold ContainsAny in E2. cbn in E2.
  by repeat (apply orb_false_iff in E2 as [? E2]).
Qed.

Lemma first_error_cons c cs :
  first_error (c :: cs) = None -> c = None /\ first_error cs = None.
Proof. unfold first_error. destruct c; cbn; done. Qed.

Lemma buildMRN_wf tenant project kind name meta p :
  buildMRN tenant project kind name meta = Ok p -> mrn_wf p.
Proof.
  unfold buildMRN. case_match eqn:E; intros Hp; [done|]. injection Hp as <-.
  repeat match goal with
    | H : first_error (_ :: _) = None |- _ =>
        apply first_error_cons in H as [?%validateMRNSegment_ok H] || clear H
    end.
  destruct_and!. split; done.
Qed.

Lemma render_wf p : mrn_wf p ->
  render p = ("mrn:" +:+ mrn_Service p +:+ String ":" (mrn_Tenant p +:+ String ":"
    (mrn_Project p +:+ String ":" (mrn_ResourceType p +:+ String "/" (mrn_ResourcePath p)))))%string.
Proof.
  intros [_ _ _ _ _ Hne]. unfold render, renderMRN.
  destruct (is_empty (mrn_Service p)) eqn:E; [|done].
  unfold is_empty, str_eqb in E. apply String.eqb_eq in E. done.
Qed.

Lemma render_inj p q : mrn_wf p -> mrn_wf q -> render p = render q -> p = q.
Proof.
  intros Hp Hq. rewrite !render_wf by done. destruct Hp, Hq, p, q; cbn in *. intros E.
  injection E as E. apply split_at_byte in E as [-> E]; [|done..].
  apply split_at_byte in E as [-> E]; [|done..].
  apply split_at_byte in E as [-> E]; [|done..].
  apply split_at_byte in E as [-> ->]; done.
Qed.
End Mrn.

(** The text functions of a host whose text is ASCII: enough to evaluate the
    definitions on concrete inputs. *)
Definition plain_text : GoText := {|
  lower_unicode s := s; upper_unicode s := s; fmt_q s := s; duration_String := pretty;
  time_RFC3339 := pretty; uuid_String := pretty; uuid_Parse s := None |}.

(** C39: resource names are unambiguous: two resources whose parts pass the
    validation and whose rendered names are the same text have the same service,
    tenant, project, type and path. *)
Theorem buildMRN_render_inj {T : GoText} t1 p1 k1 n1 m1 t2 p2 k2 n2 m2 a b :
  buildMRN t1 p1 k1 n1 m1 = Ok a -> buildMRN t2 p2 k2 n2 m2 = Ok b ->
  render a = render b -> a = b.
Proof. intros Ha%buildMRN_wf Hb%buildMRN_wf. by apply render_inj. Qed.

(** Two creates with different inputs and the same name: the second takes its
    type and path from the metadata. *)
Lemma buildMRN_render_inj_witness :
  exists a b, @buildMRN plain_text "acme" "web" "Container" "front" [] = Ok a
    /\ @buildMRN plain_text "acme" "web" "vm" "x"
         [("resource_type", VStr "container"); ("resource_path", VStr "front")]%string = Ok b
    /\ a = b.
Proof.
  eexists _, _.
  assert (Ha : @buildMRN plain_text "acme" "web" "Container" "front" [] = Ok _)
    by (vm_compute; reflexivity).
  assert (Hb : @buildMRN plain_text "acme" "web" "vm" "x"
    [("resource_type", VStr "container"); ("resource_path", VStr "front")]%string = Ok _)
    by (vm_compute; reflexivity).
  split; [exact Ha|]. split; [exact Hb|].
  refine (@buildMRN_render_inj plain_text _ _ _ _ _ _ _ _ _ _ _ _ Ha Hb _). reflexivity.
Defined.
