(* ===== verification/Resource.v ===== *)
(** * The resource service

    [internal/resource/service.go]: the declarative unit core reconciles.  A
    resource row carries a desired [spec] with its [generation], the observed
    [status] with [observed_generation], the agent it is assigned to, the
    dispatch lease, and the retry budget.

    The third-party package [kit/runtime] is a parameter ([WorkloadKit]): its
    [WorkloadSpec], the decoding of one from JSON, and its [Validate]. *)

From S2P Require Import Prelude Json Storage World AppError Queries Mrn.

Class WorkloadKit := {
  WorkloadSpec : Type;
  WorkloadSpec_unmarshal : value -> result string WorkloadSpec;
  WorkloadSpec_Validate : WorkloadSpec -> option string;
}.

(** ** Data *)

Record Resource := {
  UUID : Z; ProjectUUID : Z; MRN : string; MRNService : string; MRNTenant : string;
  MRNProject : string; MRNResourceType : string; MRNResourcePath : string;
  Kind : string; Name : string; State : string; Health : string;
  Spec : object; Status_ : object; Generation : Z; ObservedGeneration : Z;
  Metadata : object; CreatedAt : Z; UpdatedAt : Z }.

Record CreateInput := {
  ci_ProjectUUID : Z; ci_ProviderUUID : option Z; ci_Kind : string; ci_Name : string;
  ci_Spec : option object; ci_Metadata : option object }.
Record UpdateSpecInput := { us_Spec : option object; us_Metadata : option object }.
Record UpdateStatusInput := {
  ut_Status : option object; ut_State : string; ut_ObservedGeneration : Z }.

Record WorkItem := {
  wi_UUID : Z; wi_Kind : string; wi_Name : string; wi_State : string;
  wi_Spec : object; wi_Metadata : object; wi_Generation : Z }.

Record AgentReportInput := {
  ar_State : string; ar_Status : option object; ar_ObservedGeneration : Z }.

(** [AgentID] is 0 for an unassigned instance. *)
Record SystemInstance := {
  si_UUID : Z; si_Name : string; si_Kind : string; si_State : string; si_Health : string;
  si_AgentID : Z; si_Leased : bool; si_Attempts : Z; si_Generation : Z;
  si_ObservedGeneration : Z; si_UpdatedAt : Z; si_Metadata : object }.

Definition Converged (s : SystemInstance) : bool := si_Generation s <=? si_ObservedGeneration s.
Definition Terminating (s : SystemInstance) : bool := str_eqb (si_State s) "deleting".

(** ** Helpers *)

Definition normalizePage (page limit : Z) : Z * Z :=
  (if page <? 1 then 1 else page, if (limit <? 1) || (100 <? limit) then 20 else limit).

(** [int32((page - 1) * limit)] on a 64-bit [int]. *)
Definition page_offset (page limit : Z) : Z := int32 (int64 ((page - 1) * limit)).

Definition normalizeFeedLimit (limit : Z) : Z :=
  if (limit <? 1) || (100 <? limit) then 20 else limit.

Definition retryBase : Z := 5 * Second.
Definition retryCap : Z := 5 * Minute.

(** The loop of [nextBackoff]: [n] iterations are left. *)
Fixpoint backoff_loop (n : nat) (d : Z) : Z :=
  match n with
  | O => if retryCap <? d then retryCap else d
  | S n' =>
      let d := int64 (d * 2) in
      if retryCap <=? d then retryCap else backoff_loop n' d
  end.

Definition nextBackoff (attempts : Z) : Z :=
  let attempts := if attempts <? 1 then 1 else attempts in
  backoff_loop (Z.to_nat (attempts - 1)) retryBase.

Definition HealthUnreported : string := "".
Definition HealthUnhealthy : string := "unhealthy".
Definition HealthUnknown : string := "unknown".
Definition maxHealthLen : nat := 20.

Section Service.
Context {T : GoText} {K : WorkloadKit}.

Definition resolveHealth (current state : string) (status : option object) : string :=
  match obj_get "health" (default [] status) with
  | Some VNull | None =>
      if str_eqb state "running" then current else HealthUnreported
  | Some raw =>
      let h := ToLower (TrimSpace (Sprint raw)) in
      if Nat.ltb maxHealthLen (String.length h) then str_take maxHealthLen h else h
  end.

(** The case folding of field names in [encoding/json]: ASCII case, and the
    two non-ASCII code points that fold to an ASCII letter. *)
Fixpoint fold_bytes (l : list nat) : list nat :=
  match l with
  | 226%nat :: 132%nat :: 170%nat :: r => 107%nat :: fold_bytes r
  | 197%nat :: 191%nat :: r => 115%nat :: fold_bytes r
  | b :: r => (if between 65 90 b then b + 32 else b)%nat :: fold_bytes r
  | [] => []
  end.
Definition fold_name (s : string) : string := byte_string (fold_bytes (bytes s)).

(** What [encoding/json] calls a value in the error of a mismatched type. *)
Definition json_kind (v : value) : string :=
  match v with
  | VStr _ => "string" | VNum _ => "number" | VArr _ => "array" | VObj _ => "object"
  | _ => "bool"
  end.

(** [json.Unmarshal(specJSON, &envelope)]: the fields [workload] and
    [teardown], assigned in document order (sorted keys); a [teardown] that
    is not a boolean is an error, the first of which is reported. *)
Definition decode_envelope (spec : object) : result string (option value * bool) :=
  foldl (fun acc kv =>
    match acc with
    | Err e => Err e
    | Ok (w, t) =>
        if str_eqb (fold_name (fst kv)) "workload" then Ok (Some (snd kv), t)
        else if str_eqb (fold_name (fst kv)) "teardown" then
          match snd kv with
          | VBool b => Ok (w, b)
          | VNull => Ok (w, t)
          | v => Err ("json: cannot unmarshal " +:+ json_kind v
                      +:+ " into Go struct field .teardown of type bool")
          end
        else acc
    end) (Ok (None, false)) (sort_keys spec).

(** Returns the message of the error, [None] when the spec is accepted. *)
Definition validateSpec (kind : string) (specJSON : value) : option string :=
  let k := ToLower (TrimSpace kind) in
  if str_eqb k "container" || str_eqb k "workload" then
    match decode_envelope (JSONToMap specJSON) with
    | Err e => Some ("spec is not valid JSON: " +:+ e)
    | Ok (_, true) =>
        Some "teardown is a system-generated state and cannot be set in resource spec"%string
    | Ok (w, false) =>
        let raw := match w with Some VNull | None => specJSON | Some v => v end in
        match WorkloadSpec_unmarshal raw with
        | Err e => Some ("workload does not parse as a WorkloadSpec: " +:+ e)
        | Ok workload => WorkloadSpec_Validate workload
        end
    end
  else None.

Definition check_spec (kind : string) (specJSON : value) : M error () :=
  match validateSpec kind specJSON with
  | Some err => fail (NewValidation err)
  | None => mret ()
  end.

Definition toResource (m : ResourceRow) (projectUUID : Z) : Resource := {|
  UUID := r_ResourceUuid m; ProjectUUID := projectUUID;
  MRN := renderMRN (r_MrnService m) (r_MrnTenant m) (r_MrnProject m)
           (r_MrnResourceType m) (r_MrnResourcePath m);
  MRNService := r_MrnService m; MRNTenant := r_MrnTenant m; MRNProject := r_MrnProject m;
  MRNResourceType := r_MrnResourceType m; MRNResourcePath := r_MrnResourcePath m;
  Kind := r_Kind m; Name := r_Name m; State := r_State m; Health := r_Health m;
  Spec := JSONToMap (r_Spec m); Status_ := JSONToMap (r_Status m);
  Generation := r_Generation m; ObservedGeneration := r_ObservedGeneration m;
  Metadata := JSONToMap (r_Metadata m); CreatedAt := r_CreatedAt m;
  UpdatedAt := r_UpdatedAt m |}.

Definition toSystemInstance (r : ResourceRow) : SystemInstance := {|
  si_UUID := r_ResourceUuid r; si_Name := r_Name r; si_Kind := r_Kind r;
  si_State := r_State r; si_Health := r_Health r;
  si_AgentID := default 0 (r_AgentID r);
  si_Leased := match r_LeasedUntil r with Some _ => true | None => false end;
  si_Attempts := r_Attempts r; si_Generation := r_Generation r;
  si_ObservedGeneration := r_ObservedGeneration r; si_UpdatedAt := r_UpdatedAt r;
  si_Metadata := JSONToMap (r_Metadata r) |}.

Definition toWorkItem (r : ResourceRow) : WorkItem := {|
  wi_UUID := r_ResourceUuid r; wi_Kind := r_Kind r; wi_Name := r_Name r;
  wi_State := r_State r; wi_Spec := JSONToMap (r_Spec r);
  wi_Metadata := JSONToMap (r_Metadata r); wi_Generation := r_Generation r |}.

Definition toWorkItems (rows : list ResourceRow) : list WorkItem := map toWorkItem rows.

Definition resolveProjectUUID (projectID : Z) : M error Z :=
  p ← or_return (GetProjectByID projectID);
  mret (p_ProjectUuid p).

(** ** Operations *)

Definition Create (in_ : CreateInput) : M error Resource :=
  if is_empty (ci_Kind in_) || is_empty (ci_Name in_)
  then fail (NewValidation "kind and name are required")
  else
    proj ← or_not_found "project" (GetProjectByUUID (ci_ProjectUUID in_));
    tenantRow ← or_return (GetTenantByID (p_TenantID proj));
    providerID ←
      match ci_ProviderUUID in_ with
      | Some id =>
          prov ← or_not_found "provider" (GetProviderByUUID id);
          mret (Some (v_ProviderID prov))
      | None => mret None
      end;
    spec ← or_validation "invalid spec" (marshalMap (ci_Spec in_));
    check_spec (ci_Kind in_) spec;;
    meta ← or_validation "invalid metadata" (marshalMap (ci_Metadata in_));
    mrn ← lift (result_map_err NewValidation
             (buildMRN (t_Name tenantRow) (p_Name proj) (ci_Kind in_) (ci_Name in_)
                (default [] (ci_Metadata in_))));
    row ← or_return (CreateResource {|
             crp_TenantID := p_TenantID proj; crp_ProjectID := p_ProjectID proj;
             crp_ProviderID := providerID; crp_AgentID := None; crp_OwnerResourceID := None;
             crp_MrnService := mrn_Service mrn; crp_MrnTenant := mrn_Tenant mrn;
             crp_MrnProject := mrn_Project mrn; crp_MrnResourceType := mrn_ResourceType mrn;
             crp_MrnResourcePath := mrn_ResourcePath mrn;
             crp_Kind := ci_Kind in_; crp_Name := ci_Name in_;
             crp_Spec := spec; crp_Metadata := meta |});
    mret (toResource row (p_ProjectUuid proj)).

Definition Get (id : Z) : M error Resource :=
  row ← or_not_found "resource" (GetResourceByUUID id);
  projectUUID ← resolveProjectUUID (r_ProjectID row);
  mret (toResource row projectUUID).

Definition ListByProject (projectUUID page limit : Z) : M error (list Resource * Z) :=
  proj ← or_not_found "project" (GetProjectByUUID projectUUID);
  let '(page, limit) := normalizePage page limit in
  rows ← or_return (ListResourcesByProject (p_ProjectID proj) (int32 limit)
                      (page_offset page limit));
  total ← or_return (CountResourcesByProject (p_ProjectID proj));
  mret (map (fun r => toResource r (p_ProjectUuid proj)) rows, total).

Definition UpdateSpec (id : Z) (in_ : UpdateSpecInput) : M error Resource :=
  current ← or_not_found "resource" (GetResourceByUUID id);
  spec ←
    match us_Spec in_ with
    | Some _ =>
        spec ← or_validation "invalid spec" (marshalMap (us_Spec in_));
        check_spec (r_Kind current) spec;;
        mret spec
    | None => mret (r_Spec current)
    end;
  meta ←
    match us_Metadata in_ with
    | Some _ => or_validation "invalid metadata" (marshalMap (us_Metadata in_))
    | None => mret (r_Metadata current)
    end;
  let metaMap := default (JSONToMap (r_Metadata current)) (us_Metadata in_) in
  projectRow ← or_return (GetProjectByID (r_ProjectID current));
  tenantRow ← or_return (GetTenantByID (r_TenantID current));
  mrn ← lift (result_map_err NewValidation
           (buildMRN (t_Name tenantRow) (p_Name projectRow) (r_Kind current)
              (r_Name current) metaMap));
  row ← or_return (UpdateResourceSpec id spec meta (mrn_Service mrn) (mrn_Tenant mrn)
                     (mrn_Project mrn) (mrn_ResourceType mrn) (mrn_ResourcePath mrn));
  projectUUID ← resolveProjectUUID (r_ProjectID row);
  mret (toResource row projectUUID).

Definition UpdateStatus (id : Z) (in_ : UpdateStatusInput) : M error Resource :=
  current ← or_not_found "resource" (GetResourceByUUID id);
  status ←
    match ut_Status in_ with
    | Some _ => or_validation "invalid status" (marshalMap (ut_Status in_))
    | None => mret (r_Status current)
    end;
  let state := if negb (is_empty (ut_State in_)) then ut_State in_ else r_State current in
  let observedGen := if 0 <? ut_ObservedGeneration in_ then ut_ObservedGeneration in_
                     else r_ObservedGeneration current in
  row ← or_return (UpdateResourceStatus id status state observedGen);
  projectUUID ← resolveProjectUUID (r_ProjectID row);
  mret (toResource row projectUUID).

Definition Delete (id : Z) : M error () :=
  or_return (MarkResourceDeleting id);; mret ().

Definition OutOfSync (limit : Z) : M error (list WorkItem) :=
  rows ← or_return (ListOutOfSyncResources (int32 (normalizeFeedLimit limit)));
  mret (toWorkItems rows).

Definition ClaimForAgent (agentID limit leaseTTL : Z) : M error (list WorkItem) :=
  let leaseTTL := if leaseTTL <=? 0 then Minute else leaseTTL in
  rows ← or_return (ClaimAgentWork agentID leaseTTL (int32 (normalizeFeedLimit limit)));
  mret (toWorkItems rows).

(** The parameters of the write. *)
Definition reportParams (resourceUUID now attemptBudget : Z) (current : ResourceRow)
    (statusJSON : value) (in_ : AgentReportInput) : ApplyAgentReportParams :=
  let params := {|
    arp_ResourceUuid := resourceUUID; arp_Status := statusJSON; arp_State := "";
    arp_ObservedGeneration := ar_ObservedGeneration in_;
    arp_Attempts := r_Attempts current; arp_NextAttemptAt := r_NextAttemptAt current;
    arp_Health := resolveHealth (r_Health current) (ar_State in_) (ar_Status in_);
    arp_Finalize := false |} in
  if str_eqb (ar_State in_) "running" then
    params <| arp_State := "running" |> <| arp_Attempts := 0 |> <| arp_NextAttemptAt := None |>
  else if str_eqb (ar_State in_) "failed" then
    let attempts := int32 (r_Attempts current + 1) in
    let params := params <| arp_Attempts := attempts |> <| arp_ObservedGeneration := 0 |> in
    if attemptBudget <=? attempts then
      params <| arp_State := "failed" |> <| arp_NextAttemptAt := None |>
    else
      params <| arp_NextAttemptAt := Some (now + nextBackoff attempts) |>
             <| arp_State := (if str_eqb (r_State current) "deleting" then "deleting"
                              else "error") |>
  else if str_eqb (ar_State in_) "removed" then
    if str_eqb (r_State current) "deleting" then
      params <| arp_State := "removed" |> <| arp_Finalize := true |>
             <| arp_ObservedGeneration := r_Generation current |>
    else params <| arp_State := ar_State in_ |>
  else
    params <| arp_State := (if is_empty (ar_State in_) then r_State current
                            else ar_State in_) |>.

Definition owned_by (agentID : Z) (r : ResourceRow) : bool :=
  opt_eqb (r_AgentID r) (Some agentID).

Definition ApplyReport (agentID resourceUUID : Z) (in_ : AgentReportInput)
    (attemptBudget : Z) : M error Resource :=
  current ← or_not_found "resource" (GetResourceByUUID resourceUUID);
  if negb (owned_by agentID current)
  then fail (NewForbidden "resource is not assigned to this agent")
  else
    statusJSON ←
      match ar_Status in_ with
      | Some _ => or_validation "invalid status" (marshalMap (ar_Status in_))
      | None => mret (r_Status current)
      end;
    let attemptBudget := if attemptBudget <? 1 then 10 else attemptBudget in
    now ← time_Now;
    row ← or_not_found "resource" (ApplyAgentReport
            (reportParams resourceUUID now attemptBudget current statusJSON in_));
    projectUUID ← resolveProjectUUID (r_ProjectID row);
    mret (toResource row projectUUID).

Definition ListSystemTier : M error (list SystemInstance) :=
  rows ← or_return ListSystemTierResources;
  mret (map toSystemInstance rows).

Definition RedispatchSystem (id : Z) : M error SystemInstance :=
  current ← or_not_found "resource" (GetResourceByUUID id);
  if str_eqb (r_State current) "deleting"
  then fail (NewForbidden "a resource being torn down is never re-dispatched")
  else
    row ← or_not_found "resource" (RedispatchSystemResource id);
    mret (toSystemInstance row).

Definition FlagHostUnreachable (id : Z) : M error bool :=
  r ← try (FlagResourceHostUnreachable id);
  match r with
  | Err ErrNoRows => mret false
  | Err e => fail (DbError e)
  | Ok _ => mret true
  end.
End Service.
