(* ===== verification/Sample.v ===== *)
(** * A sample deployment

    Concrete text functions, a workload kit and a small database, on which the
    theorems' hypotheses are checked by evaluation. *)

From S2P Require Import Prelude Json Storage World AppError Queries Mrn Resource.

(** A kit that accepts every workload that is a JSON object. *)
Definition open_kit : WorkloadKit := {|
  WorkloadSpec := value;
  WorkloadSpec_unmarshal v := match v with VObj _ => Ok v | _ => Err "not an object"%string end;
  WorkloadSpec_Validate _ := None |}.

Definition acme : TenantRow :=
  Build_TenantRow 1 101 None "acme" "Acme" "active" true (VObj []) None None 0 0 None.
Definition web : ProjectRow :=
  Build_ProjectRow 1 201 1 "web" "Web" "" "active" (VObj []) None None 0 0 None.

Definition host (id uuid : Z) (name status : string) (seen : option Z) : AgentRow :=
  Build_AgentRow id uuid 1 name status "" "" (VArr []) "00" None "" "" seen (VObj [])
    None None 0 0 None.
Definition host_a : AgentRow := host 1 301 "a" "online" (Some 900).
Definition host_b : AgentRow := host 2 302 "b" "offline" (Some 100).

(** A container of [web] with its state, health, revisions, owner and age. *)
Definition container (id uuid : Z) (name state health : string) (gen observed : Z)
    (agent : option Z) (age : Z) (meta : object) : ResourceRow :=
  Build_ResourceRow id uuid 1 1 None agent None "core" "acme" "web" "container" name
    "container" name state health (VObj []) (VObj []) gen observed None 0 None (VObj meta)
    None None 0 age None.
Definition system_meta : object := [("tier", VStr "system")]%string.

Definition front : ResourceRow := container 1 401 "front" "pending" "" 1 0 None 10 [].
Definition back : ResourceRow := container 2 402 "back" "pending" "" 3 2 (Some 1) 5 [].
Definition gone : ResourceRow := container 3 403 "gone" "deleting" "" 2 2 (Some 1) 20 [].
Definition auth : ResourceRow := container 4 404 "auth" "running" "" 1 1 (Some 2) 30 system_meta.

Definition sample_db : Db :=
  mkDb (mkTable [acme] 2) (mkTable [web] 2) (mkTable [] 1) (mkTable [] 1)
    (mkTable [host_a; host_b] 3) (mkTable [front; back; gone; auth] 5) (mkTable [] 1)
    (mkTable [] 1) None.

(** The sample database at database time 1000, with nothing failing. *)
Definition sample_world : World := mkWorld sample_db 1000 1000 [501; 502; 503; 504] [].

Lemma sample_resources_wf : table_wf (resources (w_db sample_world)).
Proof. apply table_wfb_sound. vm_compute. reflexivity. Qed.
Lemma sample_agents_wf : table_wf (agents (w_db sample_world)).
Proof. apply table_wfb_sound. vm_compute. reflexivity. Qed.
