(* ===== verification/WorkFeed.v ===== *)
(** * The work feed

    What the resource service promises whatever the order in which operators,
    agents and the supervisor call it, and whichever queries fail: the
    evolution of a row ([evolves]), the lease, the sticky assignment, the
    observed revision, the soft delete, and the order of the feed. *)

From S2P Require Import Prelude Json Storage World AppError Queries Evolution Mrn Resource Sample.

(** ** Evolution of a row *)

(** A deleted row is frozen; identity columns never change; the desired
    revision only grows; an assignment to an agent is never taken away. *)
Record evolves (r r' : ResourceRow) : Prop := {
  ev_id : r_ResourceID r' = r_ResourceID r;
  ev_uuid : r_ResourceUuid r' = r_ResourceUuid r;
  ev_tenant : r_TenantID r' = r_TenantID r;
  ev_project : r_ProjectID r' = r_ProjectID r;
  ev_kind : r_Kind r' = r_Kind r;
  ev_name : r_Name r' = r_Name r;
  ev_generation : r_Generation r <= r_Generation r';
  ev_agent : forall a, r_AgentID r = Some a -> r_AgentID r' = Some a;
  ev_frozen : r_DeletedAt r <> None -> r' = r;
}.

#[global] Instance evolves_preorder : PreOrder evolves.
Proof.
  split.
  - intros r. split; auto with lia.
  - intros r1 r2 r3 [] []. split; try congruence; [lia|auto|].
    intros H. rewrite (ev_frozen0 H) in *. auto.
Qed.

(** The observed revision of a row never goes back. *)
Definition observes (r r' : ResourceRow) : Prop :=
  r_ObservedGeneration r <= r_ObservedGeneration r'.
#[global] Instance observes_preorder : PreOrder observes.
Proof. split; unfold observes; [intros ?; lia | intros ???; lia]. Qed.

(** The teardown record: a row is only deleted once an agent reported its
    workload removed. *)
Definition deleted_ok (r : ResourceRow) : Prop :=
  r_DeletedAt r <> None -> r_State r = "removed" /\ r_LeasedUntil r = None.
Definition keeps_deleted_ok (r r' : ResourceRow) : Prop := deleted_ok r -> deleted_ok r'.
#[global] Instance keeps_deleted_ok_preorder : PreOrder keeps_deleted_ok.
Proof. split; unfold keeps_deleted_ok; [intros ?; auto | intros ???; auto]. Qed.

Abbreviation on_resources := (on_table resources).

(** ** Which operations advance a relation on rows *)

(** A claimed row was a candidate: the id of the update is its primary key. *)
Lemma claim_hit locked now agent n t r :
  table_wf t -> r ∈ tbl_rows t ->
  id_in (map r_ResourceID (claim_candidates locked now agent n t)) r = true ->
  live r && claimable now agent r && negb (locked (r_ResourceID r)) = true.
Proof.
  intros Hwf Hr Hin. unfold id_in in Hin. apply bool_decide_eq_true in Hin.
  apply list_elem_of_fmap in Hin as (q & Eq & Hq). unfold claim_candidates in Hq.
  apply elem_of_take in Hq as (i & Hq & _). apply list_elem_of_lookup_2 in Hq.
  rewrite order_by_perm in Hq. unfold select in Hq. apply list_elem_of_filter in Hq as [Hp Hq].
  rewrite (wf_id_inj t r q Hwf Hr Hq Eq). by rewrite <- andb_assoc.
Qed.

(** The operations of the service, in one type. *)
Inductive op :=
  | OpCreate (in_ : CreateInput)
  | OpGet (id : Z)
  | OpListByProject (project page limit : Z)
  | OpUpdateSpec (id : Z) (in_ : UpdateSpecInput)
  | OpUpdateStatus (id : Z) (in_ : UpdateStatusInput)
  | OpDelete (id : Z)
  | OpOutOfSync (limit : Z)
  | OpClaim (agent limit ttl : Z)
  | OpReport (agent id : Z) (in_ : AgentReportInput) (budget : Z)
  | OpListSystemTier
  | OpRedispatch (id : Z)
  | OpFlag (id : Z).

Section Ops.
Context {T : GoText} {K : WorkloadKit}.

Definition run (o : op) : M error () :=
  match o with
  | OpCreate in_ => Create in_;; mret ()
  | OpGet id => Get id;; mret ()
  | OpListByProject p n l => ListByProject p n l;; mret ()
  | OpUpdateSpec id in_ => UpdateSpec id in_;; mret ()
  | OpUpdateStatus id in_ => UpdateStatus id in_;; mret ()
  | OpDelete id => Delete id
  | OpOutOfSync l => OutOfSync l;; mret ()
  | OpClaim a l ttl => ClaimForAgent a l ttl;; mret ()
  | OpReport a id in_ b => ApplyReport a id in_ b;; mret ()
  | OpListSystemTier => ListSystemTier;; mret ()
  | OpRedispatch id => RedispatchSystem id;; mret ()
  | OpFlag id => FlagHostUnreachable id;; mret ()
  end.

(** What the writes of each operation do to a live row.  The row a report is
    computed from ([cur]) need not be the row it is written to: another
    handler may have run between the read and the write. *)
Definition write_ok (RR : relation ResourceRow) (o : op) : Prop :=
  match o with
  | OpUpdateSpec id _ => forall spec meta a b c d e now r,
      r_DeletedAt r = None -> r_ResourceUuid r = id ->
      RR r (UpdateResourceSpec_row spec meta a b c d e now r)
  | OpUpdateStatus id _ => forall status state og now r,
      r_DeletedAt r = None -> r_ResourceUuid r = id ->
      RR r (UpdateResourceStatus_row status state og now r)
  | OpDelete id => forall now r, r_DeletedAt r = None -> r_ResourceUuid r = id ->
      RR r (MarkResourceDeleting_row now r)
  | OpClaim agent _ _ => forall now ttl r, r_DeletedAt r = None ->
      (r_AgentID r = Some agent \/ r_AgentID r = None) ->
      in_feed now r = true -> 0 < ttl ->
      RR r (claim_stamp now agent ttl r)
  | OpReport _ id in_ _ => forall gonow budget cur status now r,
      r_DeletedAt r = None -> r_ResourceUuid r = id ->
      RR r (ApplyAgentReport_row (reportParams id gonow budget cur status in_) now r)
  | OpRedispatch id => forall now r, r_DeletedAt r = None -> r_ResourceUuid r = id ->
      r_State r <> "deleting" -> RR r (RedispatchSystemResource_row now r)
  | OpFlag id => forall now r, r_DeletedAt r = None -> r_ResourceUuid r = id ->
      RR r (FlagResourceHostUnreachable_row now r)
  | _ => True
  end.
End Ops.

Section OpsAdvance.
Context {T : GoText} {K : WorkloadKit} (RR : relation ResourceRow) `{!PreOrder RR}.


Ltac by_uuid := intros w r Hwf Hr Hd Hp; cbn in Hp;
  repeat (apply andb_true_iff in Hp as [Hp ?]); apply Z.eqb_eq in Hp.

Lemma reportParams_uuid id now b cur status in_ :
  arp_ResourceUuid (reportParams id now b cur status in_) = id.
Proof. unfold reportParams. by repeat case_match. Qed.

Lemma run_advances o : write_ok RR o -> advances (on_resources RR) (run o).
Proof.
  intros Hw. destruct o; cbn in Hw |- *; (apply advances_bind; [apply _| |intros ?; advance]).
  - advance. apply table_insert; [apply _|apply _|done].
  - advance.
  - advance.
  - advance.
    apply table_update_one; [apply _|apply _|done|]. by_uuid. by apply Hw.
  - advance.
    apply table_update_one; [apply _|apply _|done|]. by_uuid. by apply Hw.
  - advance. apply table_update; [apply _|apply _|done|]. by_uuid. by apply Hw.
  - advance.
  - advance.
    apply table_update; [apply _|apply _|done|]. intros w r Hwf Hr Hd Hc.
    apply claim_hit in Hc; [|done..]. apply andb_true_iff in Hc as [[_ Hc]%andb_true_iff _].
    unfold claimable in Hc. apply andb_true_iff in Hc as [Hfeed Hc].
    apply Hw; [done| |done|by destruct (Z.leb_spec ttl 0)].
    unfold opt_eqb in Hc.
    apply orb_true_iff in Hc as [?%bool_decide_eq_true|?%bool_decide_eq_true]; auto.
  - advance.
    apply table_update_one; [apply _|apply _|done|]. rewrite reportParams_uuid. by_uuid. by apply Hw.
  - advance.
  - advance.
    apply table_update_one; [apply _|apply _|done|]. by_uuid. apply Hw; [done..|].
    intros E. rewrite E in *. done.
  - advance.
    apply table_update_one; [apply _|apply _|done|]. by_uuid. by apply Hw.
Qed.
End OpsAdvance.

(** ** Reachable worlds

    A step runs one operation of the service, or lets the environment move:
    the clocks, the UUIDs the database will draw and the fault script change,
    the database does not. *)
Inductive step_of {T : GoText} {K : WorkloadKit} (P : op -> Prop) : relation World :=
  | step_op o w : P o -> step_of P w (snd (run o w))
  | step_env w w' : w_db w' = w_db w -> step_of P w w'.

(** Any operation, and the operations other than a report on the resource [id]
    or a re-dispatch of it. *)
Abbreviation step := (step_of (fun _ => True)).
Definition spares (id : Z) (o : op) : Prop :=
  match o with OpReport _ i _ _ | OpRedispatch i => i <> id | _ => True end.

Section Reachable.
Context {T : GoText} {K : WorkloadKit}.

Lemma reportParams_finalize id now b cur status in_ :
  arp_Finalize (reportParams id now b cur status in_) = true ->
  arp_State (reportParams id now b cur status in_) = "removed".
Proof. unfold reportParams. by repeat case_match. Qed.

Ltac row_cases := intros; try (set (p := reportParams _ _ _ _ _ _)).
Ltac row_solve := first [done | cbn; lia | cbn; congruence | idtac].

Lemma evolves_all o : write_ok evolves o.
Proof.
  destruct o; cbn [write_ok]; try done; row_cases; (split; row_solve).
  intros a' Ha. destruct H0 as [E|E]; rewrite E in Ha; [done|congruence].
Qed.

Lemma keeps_deleted_ok_all o : write_ok keeps_deleted_ok o.
Proof.
  destruct o; cbn [write_ok]; try done; row_cases; unfold keeps_deleted_ok, deleted_ok; row_solve.
  intros _. cbn. destruct (arp_Finalize p) eqn:E; [|congruence].
  intros _. split; [by apply reportParams_finalize | done].
Qed.

Lemma observes_all o :
  (forall id in_, o <> OpUpdateStatus id in_) -> write_ok observes o.
Proof.
  intros Hne. destruct o; cbn [write_ok]; try done; row_cases; unfold observes; row_solve.
  by destruct (Hne id in_).
Qed.

(** A lease is only extended. *)
Definition lease_grows (id : Z) (r r' : ResourceRow) : Prop :=
  r_ResourceUuid r' = r_ResourceUuid r /\
  (r_ResourceUuid r = id -> forall u, r_LeasedUntil r = Some u ->
    exists u', r_LeasedUntil r' = Some u' /\ u <= u').

#[global] Instance lease_grows_preorder id : PreOrder (lease_grows id).
Proof.
  split; unfold lease_grows.
  - intros r. split; [done|]. intros _ u Hu. exists u. auto with lia.
  - intros r1 r2 r3 [E1 H1] [E2 H2]. split; [congruence|]. intros Hid u Hu.
    destruct (H1 Hid u Hu) as (u2 & Hu2 & ?). destruct (H2 ltac:(congruence) u2 Hu2) as (u3 & ? & ?).
    exists u3. split; [done|lia].
Qed.

Lemma lease_grows_spares id o : spares id o -> write_ok (lease_grows id) o.
Proof.
  intros Hsp. destruct o; cbn [write_ok]; cbn in Hsp; try done; row_cases;
    (split; [done|]); intros Hid u Hu; try solve [exists u; cbn; split; [done|lia]]; try congruence.
  eexists; split; [done|].
  unfold in_feed, lease_free in *. rewrite Hu in *.
  split_bools. lia.
Qed.

Lemma steps_advance RR `{!PreOrder RR} P (w w' : World) :
  (forall o, P o -> write_ok RR o) -> rtc (step_of P) w w' -> on_resources RR (w_db w) (w_db w').
Proof.
  intros Hw. induction 1 as [w|w1 w2 w3 [o w HP|? ? E] _ IH]; [reflexivity| |by rewrite <- E].
  etransitivity; [apply run_advances; [apply _|by apply Hw] | exact IH].
Qed.
End Reachable.

(** ** The claim *)

Lemma StronglySorted_take_drop {A} (R : relation A) (l : list A) k x y :
  StronglySorted R l -> x ∈ take k l -> y ∈ drop k l -> R x y.
Proof.
  revert k. induction l as [|z l IH]; intros [|k] Hs Hx Hy; cbn in *;
    try by apply elem_of_nil in Hx.
  apply StronglySorted_inv in Hs as [Hs Hall].
  apply elem_of_cons in Hx as [->|Hx]; [|eauto].
  rewrite Forall_forall in Hall. apply Hall. by apply (subseteq_drop k l).
Qed.

Section Claim.
Context (t : Table ResourceRow) (Hwf : table_wf t).
Context (locked : Z -> bool) (now agent n : Z).
Let cands := claim_candidates locked now agent n t.
Let ids := map r_ResourceID cands.

Lemma candidates_in r : r ∈ cands ->
  r ∈ tbl_rows t /\ live r = true /\ claimable now agent r = true /\ locked (r_ResourceID r) = false.
Proof.
  unfold cands, claim_candidates. intros (i & Hq & _)%elem_of_take.
  apply list_elem_of_lookup_2 in Hq. rewrite order_by_perm in Hq.
  apply list_elem_of_filter in Hq as [Hp Hq].
  by split_bools.
Qed.

(** The rows the statement updates are the candidates of its subselect. *)
Lemma claimed_rows : filter (fun r => hit (id_in ids) r = true) (tbl_rows t) ≡ₚ cands.
Proof.
  pose proof (NoDup_fmap_1 _ _ (wf_ids _ Hwf)) as ND.
  apply NoDup_Permutation.
  - by apply NoDup_filter.
  - unfold cands, claim_candidates. eapply sublist_NoDup; [|apply sublist_take].
    rewrite order_by_perm. by apply NoDup_filter.
  - intros r. rewrite list_elem_of_filter. split.
    + intros [Hh Hr]. unfold hit, id_in in Hh. apply andb_true_iff in Hh as [_ Hh].
      apply bool_decide_eq_true, list_elem_of_fmap in Hh as (q & Eq & Hq).
      rewrite (wf_id_inj t r q Hwf Hr); [done|by apply candidates_in|done].
    + intros Hr. destruct (candidates_in r Hr) as (Hin & Hl & _ & _). split; [|done].
      unfold hit, id_in. rewrite Hl. cbn. apply bool_decide_eq_true.
      by apply (list_elem_of_fmap_2 r_ResourceID).
Qed.

Lemma candidates_length : (length cands <= Z.to_nat n)%nat.
Proof. unfold cands, claim_candidates. rewrite length_take. lia. Qed.

(** A claimable row is only passed over for a full page of rows that were
    written no later. *)
Lemma passed_over q : q ∈ tbl_rows t -> live q = true -> claimable now agent q = true ->
  locked (r_ResourceID q) = false -> q ∉ cands ->
  length cands = Z.to_nat n /\ forall r, r ∈ cands -> r_UpdatedAt r <= r_UpdatedAt q.
Proof.
  intros Hq Hl Hc Hlk Hnot.
  assert (Hsel : q ∈ order_by r_UpdatedAt
     (select (fun r => claimable now agent r && negb (locked (r_ResourceID r))) t)).
  { rewrite order_by_perm. apply list_elem_of_filter. split; [|done]. by rewrite Hl, Hc, Hlk. }
  rewrite <- (take_drop (Z.to_nat n)) in Hsel. apply elem_of_app in Hsel as [Hin|Hdrop]; [done|].
  split.
  - unfold cands, claim_candidates. rewrite length_take.
    pose proof (list_elem_of_lookup_1 _ _ Hdrop) as (j & Hj%lookup_lt_Some).
    rewrite length_drop in Hj. lia.
  - intros r Hr.
    exact (StronglySorted_take_drop _ _ _ r q (order_by_sorted r_UpdatedAt _) Hr Hdrop).
Qed.
End Claim.

Definition claim_ttl (ttl : Z) : Z := if ttl <=? 0 then Minute else ttl.

Lemma feed_limit_range l : 1 <= int32 (normalizeFeedLimit l) <= 100.
Proof.
  unfold normalizeFeedLimit. destruct (Z.ltb_spec l 1), (Z.ltb_spec 100 l); cbn;
    rewrite ?int32_id by lia; try (cbv; intuition discriminate); lia.
Qed.

Lemma feed_limit_id l : int32 (normalizeFeedLimit l) = normalizeFeedLimit l.
Proof.
  apply int32_id. unfold normalizeFeedLimit.
  destruct (Z.ltb_spec l 1), (Z.ltb_spec 100 l); cbn; lia.
Qed.

(** ** Inversion of the claim *)

Lemma claim_inv a limit ttl w items w' :
  ClaimForAgent a limit ttl w = (Ok items, w') ->
  let t := resources (w_db w) in
  let stamp := claim_stamp (w_dbnow w) a (claim_ttl ttl) in
  let chosen := id_in (map r_ResourceID (claim_candidates (fun _ => false) (w_dbnow w) a
                  (int32 (normalizeFeedLimit limit)) t)) in
  items = toWorkItems (map stamp (filter (fun r => hit chosen r = true) (tbl_rows t)))
  /\ tbl_rows (resources (w_db w')) = map (fun r => if hit chosen r then stamp r else r) (tbl_rows t).
Proof.
  intros (rs & w1 & H1 & H2)%bind_run_Ok_inv.
  apply map_err_Ok_inv in H1. apply q_update_Ok_inv in H1 as (t' & Hu & ->).
  apply update_inv in Hu as (-> & Hrows & _). injection H2 as <- <-. cbn. by rewrite Hrows.
Qed.

Lemma claim_item_row a limit ttl w items w' id :
  table_wf (resources (w_db w)) ->
  ClaimForAgent a limit ttl w = (Ok items, w') -> id ∈ map wi_UUID items ->
  exists r, r ∈ tbl_rows (resources (w_db w)) /\ r_ResourceUuid r = id
    /\ live r = true /\ claimable (w_dbnow w) a r = true
    /\ claim_stamp (w_dbnow w) a (claim_ttl ttl) r ∈ tbl_rows (resources (w_db w')).
Proof.
  intros Hwf Hc Hid. apply claim_inv in Hc as [-> Hrows].
  apply list_elem_of_fmap in Hid as (it & -> & Hit). unfold toWorkItems in Hit.
  apply list_elem_of_fmap in Hit as (q & -> & Hq). apply list_elem_of_fmap in Hq as (r & -> & Hr).
  pose proof Hr as Hr'. rewrite claimed_rows in Hr' by done.
  apply candidates_in in Hr' as (Hin & Hl & Hcl & _). apply list_elem_of_filter in Hr as [Hh _].
  exists r. split_and!; try done. rewrite Hrows. apply list_elem_of_fmap. exists r.
  by rewrite Hh.
Qed.

(** ** Properties *)

(** The sample world after agent 1 claimed its feed, and after an operator then
    deleted one of the resources handed out. *)
Definition claimed_world : World := snd (ClaimForAgent 1 10 Minute sample_world).
Definition later_world : World := snd (@run plain_text open_kit (OpDelete 402) claimed_world).

(** C1: work is delivered to at most one agent at a time.  Once a claim
    handed out a resource, no claim by any agent hands it out again before the
    lease runs out, whatever other operations run in between, unless that
    resource is reported on or re-dispatched. *)
Theorem lease_exclusive {T : GoText} {K : WorkloadKit} id a la ttla b lb ttlb w ia w1 w2 ib w3 :
  table_wf (resources (w_db w)) ->
  ClaimForAgent a la ttla w = (Ok ia, w1) -> id ∈ map wi_UUID ia ->
  rtc (step_of (spares id)) w1 w2 -> w_dbnow w2 <= w_dbnow w + claim_ttl ttla ->
  ClaimForAgent b lb ttlb w2 = (Ok ib, w3) -> id ∉ map wi_UUID ib.
Proof.
  intros Hwf Ha Hia Hsteps Hnow Hb Hib.
  destruct (claim_item_row _ _ _ _ _ _ _ Hwf Ha Hia) as (r & _ & Hid & _ & _ & Hr1).
  assert (Hadv : on_resources (lease_grows id) (w_db w) (w_db w1)).
  { replace w1 with (snd (run (OpClaim a la ttla) w)).
    - apply run_advances; [apply _|by apply lease_grows_spares].
    - cbn. by rewrite (bind_run _ _ _ _ _ Ha). }
  destruct (Hadv Hwf) as [Hwf1 _].
  destruct (steps_advance (lease_grows id) _ _ _ (lease_grows_spares id) Hsteps Hwf1) as [Hwf2 Hrows].
  destruct (rows_advance_elem _ _ _ _ Hrows Hr1) as (r2 & Hr2 & Huu & Hgrow).
  destruct (Hgrow Hid _ eq_refl) as (u & Hu & Hle).
  destruct (claim_item_row _ _ _ _ _ _ _ Hwf2 Hb Hib) as (r3 & Hr3 & Hid3 & _ & Hcl & _).
  rewrite (wf_uuid_inj _ r3 r2 Hwf2 Hr3 Hr2) in Hcl by (cbn in *; congruence).
  unfold claimable, in_feed, lease_free in Hcl. rewrite Hu in Hcl.
  split_bools. lia.
Qed.

Lemma lease_exclusive_witness :
  exists ia ib w3, ClaimForAgent 1 10 Minute sample_world = (Ok ia, claimed_world)
    /\ 401 ∈ map wi_UUID ia /\ ClaimForAgent 2 10 Minute later_world = (Ok ib, w3)
    /\ 401 ∉ map wi_UUID ib.
Proof.
  eexists _, _, _.
  assert (H : ClaimForAgent 1 10 Minute sample_world = (Ok _, claimed_world))
    by (vm_compute; reflexivity).
  assert (H2 : ClaimForAgent 2 10 Minute later_world = (Ok _, _)) by (vm_compute; reflexivity).
  split; [exact H|]. split; [vm_compute; by left|]. split; [exact H2|].
  refine (@lease_exclusive plain_text open_kit 401 1 10 Minute 2 10 Minute sample_world
    _ claimed_world later_world _ _ sample_resources_wf H _ _ _ H2); [vm_compute; by left| |].
  - apply rtc_once. exact (step_op (spares 401) (OpDelete 402) claimed_world I).
  - vm_compute. discriminate.
Defined.

(** Through every sequence of operations, a row keeps its place, its
    identity and its assignment: an agent that claimed a resource stays its
    owner, the desired revision never goes back, and a deleted row is frozen. *)
Theorem assignment_sticky {T : GoText} {K : WorkloadKit} (w w' : World) i r a :
  table_wf (resources (w_db w)) -> rtc step w w' ->
  tbl_rows (resources (w_db w)) !! i = Some r -> r_AgentID r = Some a ->
  exists r', tbl_rows (resources (w_db w')) !! i = Some r'
    /\ r_ResourceUuid r' = r_ResourceUuid r /\ r_AgentID r' = Some a
    /\ r_Generation r <= r_Generation r' /\ (r_DeletedAt r <> None -> r' = r).
Proof.
  intros Hwf Hs Hi Ha.
  destruct (steps_advance evolves _ _ _ (fun o _ => evolves_all o) Hs Hwf) as [_ Hrows].
  destruct (rows_advance_lookup _ _ _ _ _ Hrows Hi) as (r' & Hr' & []).
  exists r'. split_and!; auto.
Qed.

Lemma assignment_sticky_witness :
  exists r', tbl_rows (resources (w_db claimed_world)) !! 1%nat = Some r' /\ r_AgentID r' = Some 1.
Proof.
  destruct (@assignment_sticky plain_text open_kit sample_world claimed_world 1%nat back 1)
    as (r' & H & _ & Ha & _); [apply sample_resources_wf| |reflexivity|reflexivity|by exists r'].
  apply rtc_once. exact (step_op (fun _ => True) (OpClaim 1 10 Minute) sample_world I).
Defined.



(** Apart from the operator's status write, no operation moves the
    observed revision of a resource back: a stale or failed report cannot undo
    convergence. *)
Theorem observed_monotone {T : GoText} {K : WorkloadKit} (w w' : World) i r :
  table_wf (resources (w_db w)) ->
  rtc (step_of (fun o => forall id in_, o <> OpUpdateStatus id in_)) w w' ->
  tbl_rows (resources (w_db w)) !! i = Some r ->
  exists r', tbl_rows (resources (w_db w')) !! i = Some r'
    /\ r_ObservedGeneration r <= r_ObservedGeneration r'.
Proof.
  intros Hwf Hs Hi.
  destruct (steps_advance observes _ _ _ observes_all Hs Hwf) as [_ Hrows].
  destruct (rows_advance_lookup _ _ _ _ _ Hrows Hi) as (r' & Hr' & Ho). eauto.
Qed.

Lemma observed_monotone_witness :
  exists r', tbl_rows (resources (w_db later_world)) !! 1%nat = Some r' /\ 2 <= r_ObservedGeneration r'.
Proof.
  apply (@observed_monotone plain_text open_kit sample_world later_world 1%nat back);
    [apply sample_resources_wf| |reflexivity].
  eapply rtc_l;
    [refine (step_op (fun o => forall id in_, o <> OpUpdateStatus id in_)
       (OpClaim 1 10 Minute) sample_world _); done|].
  apply rtc_once.
  refine (step_op (fun o => forall id in_, o <> OpUpdateStatus id in_)
    (OpDelete 402) claimed_world _); done.
Defined.

(** Without faults a claim succeeds and hands out rows of the feed, no
    more than the limit; if it hands out fewer, nothing claimable is left; and
    every claimable row left behind was updated no earlier than any row handed
    out, so the feed serves the longest-waiting work first. *)
Theorem claim_oldest_first {T : GoText} {K : WorkloadKit} a limit ttl w :
  w_faults w = [] -> table_wf (resources (w_db w)) ->
  exists items w' rs,
    ClaimForAgent a limit ttl w = (Ok items, w')
    /\ items = toWorkItems (map (claim_stamp (w_dbnow w) a (claim_ttl ttl)) rs)
    /\ (forall r, r ∈ rs -> r ∈ tbl_rows (resources (w_db w)) /\ live r = true
          /\ claimable (w_dbnow w) a r = true)
    /\ (length rs <= Z.to_nat (normalizeFeedLimit limit))%nat
    /\ (forall q, q ∈ tbl_rows (resources (w_db w)) -> live q = true ->
          claimable (w_dbnow w) a q = true -> q ∉ rs ->
          length rs = Z.to_nat (normalizeFeedLimit limit)
          /\ forall r, r ∈ rs -> r_UpdatedAt r <= r_UpdatedAt q).
Proof.
  intros Hf Hwf. set (t := resources (w_db w)) in *.
  set (n := int32 (normalizeFeedLimit limit)).
  assert (Hn : n = normalizeFeedLimit limit) by apply feed_limit_id.
  set (cands := claim_candidates (fun _ => false) (w_dbnow w) a n t).
  set (rs := filter (fun r => hit (id_in (map r_ResourceID cands)) r = true) (tbl_rows t)).
  assert (Hperm : rs ≡ₚ cands) by by apply claimed_rows.
  assert (Hlen : length rs = length cands) by by rewrite Hperm.
  pose proof (candidates_length t (fun _ => false) (w_dbnow w) a n) as Hmax. fold cands in Hmax.
  eexists _, _, rs. split; [|split; [reflexivity|split_and!]].
  - unfold ClaimForAgent, or_return. fold (claim_ttl ttl). fold n.
    erewrite bind_run; [reflexivity|]. unfold map_err, ClaimAgentWork, q_update.
    rewrite (query_run w Hf). unfold update. fold t. fold cands. fold rs.
    rewrite (proj2 (forallb_forall _ _)); [reflexivity|].
    intros r' (r & <- & Hr)%in_map_iff. apply list_elem_of_In in Hr.
    rewrite Hperm in Hr. apply candidates_in in Hr as [Hr _]. exact (wf_columns _ Hwf r Hr).
  - intros r Hr. rewrite Hperm in Hr. apply candidates_in in Hr as (?&?&?&_). done.
  - rewrite Hlen, <- Hn. done.
  - intros q Hq Hl Hc Hnot. rewrite Hperm in Hnot. rewrite Hlen, <- Hn.
    destruct (passed_over t (fun _ => false) (w_dbnow w) a n q) as [Hfull Hold]; [done..|].
    split; [done|]. intros r Hr. rewrite Hperm in Hr. by apply Hold.
Qed.

Lemma claim_oldest_first_witness :
  exists items w' (rs : list ResourceRow), ClaimForAgent 1 1 Minute sample_world = (Ok items, w')
    /\ (length rs <= 1)%nat /\ length items = length rs.
Proof.
  destruct (@claim_oldest_first plain_text open_kit 1 1 Minute sample_world)
    as (items & w' & rs & H & -> & _ & Hn & _); [reflexivity|apply sample_resources_wf|].
  exists (toWorkItems (map (claim_stamp 1000 1 Minute) rs)), w', rs. split; [exact H|].
  split; [exact Hn|]. unfold toWorkItems. by rewrite !length_map.
Defined.
