(* ===== verification/Fairness.v ===== *)
(** * The feed is fair

    A resource that waits in an agent's feed is not overtaken for ever.  The
    claim serves the rows in the order of [updated_at]
    ([internal/storage/resource.sql.go], [claimAgentWork]) and every statement
    that writes a row stamps it with its own [now()], so a row that is written
    goes behind every row that is still waiting.  The number of live rows that
    were written no later than the waiting one therefore only shrinks, and each
    claim that passes it over takes a full page of them out.

    The argument needs the time of the statements, which the relations of
    [Evolution] do not see: [keeps_time] is their version at a fixed clock. *)

From S2P Require Import Prelude Json Storage World AppError Queries Evolution Mrn Resource Sample WorkFeed.

(** ** Handlers at a fixed time *)

Section AtTime.
Context (now : Z) (Rel : relation Db) `{!PreOrder Rel}.

(** Run at database time [now], the handler advances [Rel]; it never moves the
    clock itself. *)
Definition keeps_time {E A} (m : M E A) : Prop :=
  forall w, w_dbnow w = now -> Rel (w_db w) (w_db (snd (m w))) /\ w_dbnow (snd (m w)) = now.

Lemma keeps_time_ret {E A} (a : A) : keeps_time (mret a : M E A).
Proof. intros w Hw. by split. Qed.
Lemma keeps_time_fail {E A} (e : E) : keeps_time (fail e : M E A).
Proof. intros w Hw. by split. Qed.
Lemma keeps_time_lift {E A} (r : result E A) : keeps_time (lift r : M E A).
Proof. intros w Hw. by split. Qed.
Lemma keeps_now {E} : keeps_time (time_Now : M E Z).
Proof. intros w Hw. by split. Qed.
Lemma keeps_time_bind {E A B} (m : M E A) (k : A -> M E B) :
  keeps_time m -> (forall a, keeps_time (k a)) -> keeps_time (m ≫= k).
Proof.
  intros Hm Hk w Hw. unfold mbind, M_bind. destruct (Hm w Hw) as [H1 H2].
  destruct (m w) as [[a|e] w']; cbn in *; [|done]. destruct (Hk a w' H2) as [H3 H4].
  split; [by etransitivity|done].
Qed.
Lemma keeps_time_try {E F A} (m : M E A) : keeps_time m -> keeps_time (try m : M F _).
Proof. intros Hm w Hw. unfold try. specialize (Hm w Hw). by destruct (m w). Qed.
Lemma keeps_time_map_err {E F A} (f : E -> F) (m : M E A) : keeps_time m -> keeps_time (map_err f m).
Proof. intros Hm w Hw. unfold map_err. specialize (Hm w Hw). by destruct (m w). Qed.

Lemma keeps_query {A} (q : World -> result dberr A * World) : keeps_time q -> keeps_time (query q).
Proof.
  intros Hq w Hw. unfold query.
  assert (H := Hq (w <| w_faults := tail (w_faults w) |>)). specialize (H Hw).
  destruct (w_faults w) as [|[] fs]; try exact H; by split.
Qed.
Lemma keeps_read {A} (f : World -> result dberr A) : keeps_time (query (fun w => (f w, w))).
Proof. apply keeps_query. intros w Hw. by split. Qed.

Context {R : Type} `{!TableRow R} (tbl : Db -> Table R) `{!FieldSetter tbl}.

Lemma keeps_update p f :
  (forall w rs t, w_dbnow w = now -> update (p w) (f w) (tbl (w_db w)) = Ok (rs, t) ->
     Rel (w_db w) (set_field tbl (fun _ => t) (w_db w))) ->
  keeps_time (q_update tbl p f).
Proof.
  intros H. apply keeps_query. intros w Hw. specialize (H w).
  destruct (update _ _ _) as [[rs t]|e]; cbn; [|by split]. split; [by eapply H|done].
Qed.

Lemma keeps_update_one p f : keeps_time (q_update tbl p f) -> keeps_time (q_update_one tbl p f).
Proof. intros H. apply keeps_time_bind; [done|]. intros [|? ?]; [apply keeps_time_fail|apply keeps_time_ret]. Qed.

Lemma keeps_insert mk :
  (forall w r t, w_dbnow w = now -> insert (mk w) (draw_uuid w) (tbl (w_db w)) = Ok (r, t) ->
     Rel (w_db w) (set_field tbl (fun _ => t) (w_db w))) ->
  keeps_time (q_insert tbl mk).
Proof.
  intros H. apply keeps_query. intros w Hw. specialize (H w).
  destruct (insert _ _ _) as [[r t]|e]; cbn; [|by split]. split; [by eapply H|done].
Qed.
End AtTime.

(** Runs through a handler down to its writes. *)
Ltac keep_step :=
  lazymatch goal with
  | |- keeps_time _ _ (mret _) => apply keeps_time_ret; apply _
  | |- keeps_time _ _ (fail _) => apply keeps_time_fail; apply _
  | |- keeps_time _ _ (lift _) => apply keeps_time_lift; apply _
  | |- keeps_time _ _ time_Now => apply keeps_now; apply _
  | |- keeps_time _ _ (mbind _ _) => apply keeps_time_bind; [apply _ | | intros ?]
  | |- keeps_time _ _ (try _) => apply keeps_time_try
  | |- keeps_time _ _ (map_err _ _) => apply keeps_time_map_err
  | |- keeps_time _ _ (query (fun w => (_, w))) => apply keeps_read; apply _
  | |- keeps_time _ _ (q_update_one _ _ _) => apply keeps_update_one; [apply _|]
  | |- keeps_time _ _ (q_update _ _ _) => fail
  | |- keeps_time _ _ (q_insert _ _) => fail
  | |- keeps_time _ _ (match ?x with _ => _ end) => destruct x
  | |- keeps_time _ _ (if ?x then _ else _) => destruct x
  | |- keeps_time _ _ (let _ := _ in _) => cbv zeta
  | |- keeps_time _ _ ?m => let h := head_of m in unfold h
  end.
Ltac keep := repeat keep_step.

(** ** Writing a row sends it to the back *)

(** A row is untouched, or was stamped with a time not before [now]. *)
Definition restamped (now : Z) (r r' : ResourceRow) : Prop :=
  r' = r \/ (row_uuid r' = row_uuid r /\ now <= r_UpdatedAt r').

#[global] Instance restamped_preorder now : PreOrder (restamped now).
Proof.
  split; unfold restamped; [by left|].
  intros r1 r2 r3 [->|[E1 H1]] [->|[E2 H2]]; auto. right. split; [congruence|done].
Qed.

(** Every row of the table is kept or restamped in place; rows that were added
    carry a stamp not before [now]. *)
Definition resources_restamped (now : Z) : relation Db :=
  on_rows resources (restamped now) (fun r => now <= r_UpdatedAt r).

#[global] Instance resources_restamped_preorder now : PreOrder (resources_restamped now).
Proof. apply on_rows_preorder; [apply _|]. intros r r' [->|[_ ?]]; done. Qed.

Section Restamp.
Context {T : GoText} {K : WorkloadKit} (now : Z).

Lemma restamp_update p f :
  (forall w r, same_keys r (f w r)) -> (forall w r, r_UpdatedAt (f w r) = w_dbnow w) ->
  keeps_time now (resources_restamped now) (q_update resources p f).
Proof.
  intros Hk Hf. apply keeps_update; [apply _|]. intros w rs t Hw.
  apply on_rows_updated; [apply _|apply _|apply Hk|]. intros r _ _ _ _. right.
  split; [apply Hk|]. rewrite Hf. lia.
Qed.

Lemma restamp_insert mk :
  (forall w id u, row_id (mk w id u) = id /\ row_uuid (mk w id u) = u) ->
  (forall w id u, r_UpdatedAt (mk w id u) = w_dbnow w) ->
  keeps_time now (resources_restamped now) (q_insert resources mk).
Proof.
  intros Hmk Hs. apply keeps_insert; [apply _|]. intros w r t Hw.
  apply on_rows_inserted; [apply _|apply _|apply Hmk|]. intros id. rewrite Hs. lia.
Qed.

(** Every operation of the service, whatever it is given and whichever of its
    queries fail, leaves a row alone or stamps it. *)
Lemma run_restamps o : keeps_time now (resources_restamped now) (run o).
Proof.
  destruct o; cbn [run]; keep; (apply restamp_update || apply restamp_insert); done.
Qed.
End Restamp.

(** ** The number of rows ahead *)

(** A live row that was written no later than [r]: the only rows the feed can
    serve before it. *)
Definition ahead (r q : ResourceRow) : bool :=
  live q && (r_UpdatedAt q <=? r_UpdatedAt r) && negb (row_uuid q =? row_uuid r).

Definition rank (r : ResourceRow) (t : Table ResourceRow) : nat :=
  length (filter (fun q => ahead r q = true) (tbl_rows t)).

Section Rank.
Context (r : ResourceRow).

Lemma rank_restamped now l l' : r_UpdatedAt r < now -> Forall2 (restamped now) l l' ->
  (length (filter (fun q => ahead r q = true) l') <= length (filter (fun q => ahead r q = true) l))%nat.
Proof.
  intros Hr. induction 1 as [|q q' l l' Hq _ IH]; [done|]. rewrite !filter_cons.
  destruct Hq as [->|[_ Hnow]]; [case_decide; cbn; lia|].
  rewrite (decide_False (P := ahead r q' = true)); [case_decide; cbn; lia|].
  unfold ahead. intros Ha. split_bools. lia.
Qed.

Lemma rank_new now l : r_UpdatedAt r < now -> Forall (fun q => now <= r_UpdatedAt q) l ->
  filter (fun q => ahead r q = true) l = [].
Proof.
  intros Hr. induction 1 as [|q l Hq _ IH]; [done|]. rewrite filter_cons, decide_False; [done|].
  unfold ahead. intros Ha. split_bools. lia.
Qed.

(** No operation puts a row ahead of one that was written before. *)
Lemma rank_shrinks now d d' : table_wf (resources d) -> r_UpdatedAt r < now ->
  resources_restamped now d d' -> (rank r (resources d') <= rank r (resources d))%nat.
Proof.
  intros Hwf Hr Hd. destruct (Hd Hwf) as [_ (o & n & E & F & N)]. unfold rank.
  rewrite E, filter_app, length_app, (rank_new now n), Nat.add_0_r by done.
  by apply (rank_restamped now).
Qed.

(** Rows that are ahead and get stamped with a later time leave the rank. *)
Lemma rank_served (h : ResourceRow -> bool) (f : ResourceRow -> ResourceRow) l :
  (forall q, q ∈ l -> h q = true -> ahead r q = true) -> (forall q, ahead r (f q) = false) ->
  (length (filter (fun q => ahead r q = true) (map (fun q => if h q then f q else q) l))
   + length (filter (fun q => h q = true) l)
   <= length (filter (fun q => ahead r q = true) l))%nat.
Proof.
  intros Hh Hf. induction l as [|q l IH]; [done|]. cbn [map]. rewrite !filter_cons.
  assert (IH' := IH (fun q Hq => Hh q (list_elem_of_further _ _ _ Hq))). clear IH.
  destruct (h q) eqn:E.
  - rewrite (decide_True (P := true = true)), (decide_True (P := ahead r q = true))
      by (done || (apply Hh; [left|done])).
    rewrite decide_False by by rewrite Hf. cbn [length]. lia.
  - rewrite (decide_False (P := false = true)) by done. case_decide; cbn [length]; lia.
Qed.
End Rank.

(** ** A claim that passes a row over *)

Section PassedOver.
Context {T : GoText} {K : WorkloadKit} (a limit ttl : Z) (r : ResourceRow) (w w' : World).
Context (items : list WorkItem).
Hypothesis (Hwf : table_wf (resources (w_db w))) (Hr : r ∈ tbl_rows (resources (w_db w))).
Hypothesis (Hlive : live r = true) (Hcl : claimable (w_dbnow w) a r = true).
Hypothesis (Hold : r_UpdatedAt r < w_dbnow w).
Hypothesis (Hclaim : ClaimForAgent a limit ttl w = (Ok items, w')).

Lemma passed_over_rank : r_ResourceUuid r ∉ map wi_UUID items ->
  (rank r (resources (w_db w')) + Z.to_nat (normalizeFeedLimit limit)
   <= rank r (resources (w_db w)))%nat.
Proof.
  intros Hnot. pose proof (claim_inv _ _ _ _ _ _ Hclaim) as [-> Hrows]. unfold rank. rewrite Hrows.
  rewrite feed_limit_id in *. set (n := normalizeFeedLimit limit) in *.
  set (cands := claim_candidates (fun _ => false) (w_dbnow w) a n (resources (w_db w))) in *.
  pose proof (claimed_rows _ Hwf (fun _ => false) (w_dbnow w) a n) as Hperm. fold cands in Hperm.
  assert (Hout : r ∉ cands).
  { intros Hin. apply Hnot. unfold toWorkItems. rewrite !map_map.
    apply list_elem_of_fmap. exists r. split; [done|]. by rewrite Hperm. }
  destruct (passed_over (resources (w_db w)) (fun _ => false) (w_dbnow w) a n r)
    as [Hfull Hprev]; [done..|]. fold cands in Hfull, Hprev.
  rewrite <- Hfull. rewrite <- (Permutation_length Hperm). apply rank_served.
  - intros q Hq Hh. assert (Hqc : q ∈ cands) by (rewrite <- Hperm; by apply list_elem_of_filter).
    pose proof (hit_live _ _ Hh) as [Hl _]. unfold ahead, live. rewrite Hl. cbn.
    specialize (Hprev q Hqc). replace (r_UpdatedAt q <=? r_UpdatedAt r) with true by lia. cbn.
    destruct (Z.eqb_spec (r_ResourceUuid q) (r_ResourceUuid r)) as [E|E]; [|done].
    destruct Hout. by rewrite <- (wf_uuid_inj _ q r Hwf Hq Hr E).
  - intros q. unfold ahead. cbn. replace (w_dbnow w <=? r_UpdatedAt r) with false by lia.
    by rewrite andb_false_r.
Qed.
End PassedOver.

Lemma claimable_later now now' a r :
  now <= now' -> claimable now a r = true -> claimable now' a r = true.
Proof.
  unfold claimable, in_feed, lease_free, backoff_over. intros Hn Hc.
  destruct (lags r), (str_eqb (r_State r) "failed"), (opt_eqb _ _ || opt_eqb _ _); cbn in Hc |- *;
    try done; destruct (r_LeasedUntil r), (r_NextAttemptAt r); cbn in Hc |- *; lia.
Qed.

(** ** Executions in which a row waits *)

Section Waiting.
Context {T : GoText} {K : WorkloadKit} (a limit : Z) (i : nat) (r : ResourceRow).

(** From one world to another, the row at place [i] was [r] throughout: any
    operations ran (of any caller, with any faults) that did not write it, time
    went on, and agent [a] was answered [n] claims that did not hand it out. *)
Inductive waits : nat -> relation World :=
  | waits_refl w : waits 0 w w
  | waits_op n w0 w o : waits n w0 w ->
      tbl_rows (resources (w_db (snd (run o w)))) !! i = Some r -> waits n w0 (snd (run o w))
  | waits_env n w0 w w' : waits n w0 w ->
      w_db w' = w_db w -> w_dbnow w <= w_dbnow w' -> waits n w0 w'
  | waits_claim n w0 w ttl items w' : waits n w0 w ->
      ClaimForAgent a limit ttl w = (Ok items, w') -> r_ResourceUuid r ∉ map wi_UUID items ->
      waits (S n) w0 w'.

(** A claim that does not hand a row out does not write it. *)
Lemma not_claimed_kept ttl w items w' :
  tbl_rows (resources (w_db w)) !! i = Some r ->
  ClaimForAgent a limit ttl w = (Ok items, w') -> r_ResourceUuid r ∉ map wi_UUID items ->
  tbl_rows (resources (w_db w')) !! i = Some r.
Proof.
  intros Hi Hc Hnot. apply claim_inv in Hc as [-> Hrows]. rewrite Hrows.
  rewrite list_lookup_fmap, Hi. cbn. f_equal. destruct (hit _ r) eqn:Hh; [|done].
  destruct Hnot. unfold toWorkItems. rewrite !map_map. apply list_elem_of_fmap. exists r.
  split; [done|]. apply list_elem_of_filter. split; [done|]. by eapply list_elem_of_lookup_2.
Qed.

(** The claim as one of the operations. *)
Lemma claim_keeps_time ttl w items w' :
  ClaimForAgent a limit ttl w = (Ok items, w') ->
  resources_restamped (w_dbnow w) (w_db w) (w_db w') /\ w_dbnow w' = w_dbnow w.
Proof.
  intros Hc. pose proof (run_restamps (w_dbnow w) (OpClaim a limit ttl) w eq_refl) as H.
  cbn [run] in H. by rewrite (bind_run _ _ _ _ _ Hc) in H.
Qed.

Context (Hlive : live r = true).

(** While the row waits, the table stays well formed, time goes on, and every
    claim that passed the row over took a page of rows from ahead of it. *)
Lemma waits_rank n w w' :
  waits n w w' -> table_wf (resources (w_db w)) -> tbl_rows (resources (w_db w)) !! i = Some r ->
  claimable (w_dbnow w) a r = true -> r_UpdatedAt r < w_dbnow w ->
  table_wf (resources (w_db w')) /\ tbl_rows (resources (w_db w')) !! i = Some r
  /\ w_dbnow w <= w_dbnow w'
  /\ (rank r (resources (w_db w')) + n * Z.to_nat (normalizeFeedLimit limit)
      <= rank r (resources (w_db w)))%nat.
Proof.
  induction 1 as [w|n w0 w o _ IH Hi|n w0 w w' _ IH Hdb Hnow|n w0 w ttl items w' _ IH Hc Hnot];
    intros Hwf0 Hi0 Hcl Hold.
  - split_and!; [done..|lia|lia].
  - destruct IH as (Hwf & _ & Hnow & Hrank); [done..|].
    destruct (run_restamps (w_dbnow w) o w eq_refl) as [Hd Ht]. destruct (Hd Hwf) as [Hwf' _].
    pose proof (rank_shrinks r (w_dbnow w) _ _ Hwf ltac:(lia) Hd). split_and!; [done..|lia|lia].
  - destruct IH as (Hwf & Hi & Hnow' & Hrank); [done..|]. rewrite Hdb. split_and!; [done..|lia|done].
  - destruct IH as (Hwf & Hi & Hnow & Hrank); [done..|].
    destruct (claim_keeps_time _ _ _ _ Hc) as [Hd Ht]. destruct (Hd Hwf) as [Hwf' _].
    pose proof (passed_over_rank a limit ttl r w w' items Hwf (list_elem_of_lookup_2 _ _ _ Hi) Hlive
      (claimable_later _ _ _ _ Hnow Hcl) ltac:(lia) Hc Hnot).
    split_and!; [done|by eapply not_claimed_kept|lia|lia].
Qed.
End Waiting.

(** With fewer rows ahead than a page holds, the next claim that reaches the
    database hands the row out. *)
Lemma served_in_page {T : GoText} {K : WorkloadKit} a limit ttl r w :
  w_faults w = [] -> table_wf (resources (w_db w)) -> r ∈ tbl_rows (resources (w_db w)) ->
  live r = true -> claimable (w_dbnow w) a r = true -> r_UpdatedAt r < w_dbnow w ->
  (rank r (resources (w_db w)) < Z.to_nat (normalizeFeedLimit limit))%nat ->
  exists items w', ClaimForAgent a limit ttl w = (Ok items, w')
    /\ r_ResourceUuid r ∈ map wi_UUID items.
Proof.
  intros Hf Hwf Hr Hl Hcl Hold Hlt.
  destruct (claim_oldest_first a limit ttl w Hf Hwf) as (items & w' & rs & Hc & _).
  exists items, w'. split; [done|]. apply dec_stable. intros Hnot.
  pose proof (passed_over_rank a limit ttl r w w' items Hwf Hr Hl Hcl Hold Hc Hnot). lia.
Qed.

(** The item of a claimed row is that row, stamped. *)
Lemma claimed_item {T : GoText} {K : WorkloadKit} a limit ttl r w items w' :
  table_wf (resources (w_db w)) -> r ∈ tbl_rows (resources (w_db w)) ->
  ClaimForAgent a limit ttl w = (Ok items, w') -> r_ResourceUuid r ∈ map wi_UUID items ->
  toWorkItem (claim_stamp (w_dbnow w) a (claim_ttl ttl) r) ∈ items
  /\ claim_stamp (w_dbnow w) a (claim_ttl ttl) r ∈ tbl_rows (resources (w_db w'))
  /\ table_wf (resources (w_db w')).
Proof.
  intros Hwf Hr Hc Hin.
  destruct (claim_item_row _ _ _ _ _ _ _ Hwf Hc Hin) as (q & Hq & Eq & _ & _ & Hq2).
  assert (q = r) as -> by by apply (wf_uuid_inj _ q r Hwf Hq Hr).
  destruct (claim_keeps_time a limit ttl w items w' Hc) as [Hst _]. destruct (Hst Hwf) as [Hwf2 _].
  split; [|done]. pose proof (claim_inv _ _ _ _ _ _ Hc) as [Eits _].
  apply list_elem_of_fmap in Hin as (it0 & Eu & Hin). rewrite Eits in Hin. unfold toWorkItems in Hin.
  pose proof Hin as Hit. apply list_elem_of_fmap in Hin as (r1 & -> & Hin).
  apply list_elem_of_fmap in Hin as (r0 & -> & Hin). apply list_elem_of_filter in Hin as [_ Hin].
  assert (r0 = r) as -> by by apply (wf_uuid_inj _ r0 r Hwf Hin Hr). by rewrite Eits.
Qed.

(** C4: no resource starves.  While a resource waits in an agent's feed,
    whatever else the callers of the service do and whichever of their queries
    fail, the agent's claims pass it over at most once per page of live
    resources that were already waiting at least as long; then a claim that
    reaches the database hands it out. *)
Theorem no_starvation {T : GoText} {K : WorkloadKit} a limit ttl i r n w w' :
  table_wf (resources (w_db w)) -> tbl_rows (resources (w_db w)) !! i = Some r ->
  live r = true -> claimable (w_dbnow w) a r = true -> r_UpdatedAt r < w_dbnow w ->
  waits a limit i r n w w' ->
  let page := Z.to_nat (normalizeFeedLimit limit) in
  (n * page <= rank r (resources (w_db w)))%nat
  /\ (w_faults w' = [] -> (rank r (resources (w_db w)) < S n * page)%nat ->
      exists items w'', ClaimForAgent a limit ttl w' = (Ok items, w'')
        /\ r_ResourceUuid r ∈ map wi_UUID items).
Proof.
  intros Hwf Hi Hl Hcl Hold Hw page.
  destruct (waits_rank a limit i r Hl n w w' Hw Hwf Hi Hcl Hold) as (Hwf' & Hi' & Hnow & Hrank).
  split; [lia|]. intros Hf Hlt. apply served_in_page; [done|done| |done| |lia|lia].
  - by eapply list_elem_of_lookup_2.
  - by eapply claimable_later.
Qed.

(** Agent 1 pulls one item at a time: [back] waited longer than [front]. *)
Lemma no_starvation_witness :
  let w' := snd (ClaimForAgent 1 1 Minute sample_world) in
  (1 * 1 <= rank front (resources sample_db))%nat
  /\ exists items w'', ClaimForAgent 1 1 Minute w' = (Ok items, w'') /\ 401 ∈ map wi_UUID items.
Proof.
  intros w'.
  destruct (@no_starvation plain_text open_kit 1 1 Minute 0 front 1 sample_world w')
    as [H1 H2]; [apply sample_resources_wf|reflexivity|reflexivity|reflexivity|reflexivity| |].
  - eapply (waits_claim 1 1 0 front 0 sample_world sample_world Minute _ w');
      [constructor|vm_compute; reflexivity|].
    vm_compute. intros H. apply list_elem_of_In in H as [H|[]]. discriminate.
  - split; [exact H1|]. apply H2; [reflexivity|]. vm_compute. lia.
Defined.
