(* ===== verification/ConcurrentClaims.v ===== *)
(** * Concurrent claims

    [ClaimAgentWork] runs as a transaction of its own: its subselect locks the
    rows it picks ([FOR UPDATE SKIP LOCKED]), its update stamps them, and the
    commit releases the locks.  Here any number of such transactions are open
    at once and their phases interleave freely. *)

From S2P Require Import Prelude Json Storage World AppError Queries Evolution Mrn Resource Sample WorkFeed.

Record claim_tx := ClaimTx { tx_agent : Z; tx_now : Z; tx_lease : Z; tx_ids : list Z }.

Record claim_state := ClaimState { cs_table : Table ResourceRow; cs_open : list claim_tx }.

Definition locked_ids (txs : list claim_tx) : list Z := concat (map tx_ids txs).

(** The subselect: rows locked by an open transaction are skipped. *)
Definition tx_begin (agent now lease n : Z) (s : claim_state) : claim_tx :=
  ClaimTx agent now lease (map r_ResourceID
    (claim_candidates (fun id => bool_decide (id ∈ locked_ids (cs_open s))) now agent n (cs_table s))).

(** The update of the locked rows. *)
Definition tx_apply (tx : claim_tx) (t : Table ResourceRow) : Table ResourceRow :=
  mkTable (map (fun r => if hit (id_in (tx_ids tx)) r
                         then claim_stamp (tx_now tx) (tx_agent tx) (tx_lease tx) r else r)
             (tbl_rows t)) (tbl_next t).

Inductive claim_step : relation claim_state :=
  | cs_begin s agent now lease n :
      claim_step s (ClaimState (cs_table s) (tx_begin agent now lease n s :: cs_open s))
  | cs_commit t pre tx post :
      claim_step (ClaimState t (pre ++ tx :: post)) (ClaimState (tx_apply tx t) (pre ++ post))
  | cs_rollback t pre tx post :
      claim_step (ClaimState t (pre ++ tx :: post)) (ClaimState t (pre ++ post)).

(** A transaction holds a lock only on rows it may claim. *)
Definition may_claim (tx : claim_tx) (t : Table ResourceRow) : Prop :=
  forall id, id ∈ tx_ids tx -> exists r, r ∈ tbl_rows t /\ r_ResourceID r = id
    /\ live r = true /\ (r_AgentID r = Some (tx_agent tx) \/ r_AgentID r = None).

Record claims_inv (s : claim_state) : Prop := {
  ci_wf : table_wf (cs_table s);
  ci_disjoint : NoDup (locked_ids (cs_open s));
  ci_may : Forall (fun tx => may_claim tx (cs_table s)) (cs_open s);
}.

Lemma locked_ids_app xs ys : locked_ids (xs ++ ys) = locked_ids xs ++ locked_ids ys.
Proof. unfold locked_ids. by rewrite map_app, concat_app. Qed.

Lemma locked_ids_elem id txs : id ∈ locked_ids txs <-> exists tx, tx ∈ txs /\ id ∈ tx_ids tx.
Proof.
  induction txs as [|tx txs IH]; cbn.
  - split; [by intros ?%elem_of_nil | by intros (? & ?%elem_of_nil & _)].
  - rewrite elem_of_app, IH. setoid_rewrite elem_of_cons. split.
    + intros [?|(tx' & ? & ?)]; eauto.
    + intros (tx' & [->|?] & ?); eauto.
Qed.

Lemma tx_begin_ids t locked now agent n :
  table_wf t -> NoDup (map r_ResourceID (claim_candidates locked now agent n t)).
Proof.
  intros Hwf. pose proof (NoDup_fmap_1 _ _ (wf_ids _ Hwf)) as ND.
  assert (Hc : NoDup (claim_candidates locked now agent n t)).
  { unfold claim_candidates. eapply sublist_NoDup; [|apply sublist_take].
    rewrite order_by_perm. by apply NoDup_filter. }
  apply NoDup_fmap_2_strong; [|done].
  intros r r' [Hr _]%candidates_in [Hr' _]%candidates_in E. by apply (wf_id_inj t r r').
Qed.

Lemma tx_begin_inv s agent now lease n :
  claims_inv s ->
  claims_inv (ClaimState (cs_table s) (tx_begin agent now lease n s :: cs_open s)).
Proof.
  intros [Hwf Hd Hm]. split; cbn; [done| |].
  - apply NoDup_app. split_and!; [by apply tx_begin_ids | |done].
    intros id (r & -> & (_ & _ & _ & Hl)%candidates_in)%list_elem_of_fmap.
    by apply bool_decide_eq_false in Hl.
  - constructor; [|done]. intros id (r & -> & (Hr & Hlive & Hc & _)%candidates_in)%list_elem_of_fmap.
    exists r. split_and!; try done. unfold claimable, opt_eqb in Hc. split_bools.
    match goal with H : _ || _ = true |- _ => apply orb_true_iff in H as [?|?] end;
      split_bools; auto.
Qed.

Lemma tx_apply_wf tx t : table_wf t -> table_wf (tx_apply tx t).
Proof.
  intros [H1 H2 H3 H4]. split; cbn.
  - rewrite map_map. erewrite map_ext; [exact H1|]. intros r. by destruct (hit _ r).
  - rewrite map_map. erewrite map_ext; [exact H2|]. intros r. by destruct (hit _ r).
  - intros r (q & -> & Hq)%list_elem_of_fmap. specialize (H3 q Hq). by destruct (hit _ q).
  - intros r (q & -> & Hq)%list_elem_of_fmap. specialize (H4 q Hq). by destruct (hit _ q).
Qed.

(** A commit touches only the rows its transaction locked. *)
Lemma tx_apply_may tx tx' t :
  (forall id, id ∈ tx_ids tx -> id ∉ tx_ids tx') -> may_claim tx' t -> may_claim tx' (tx_apply tx t).
Proof.
  intros Hdis Hm id Hid. destruct (Hm id Hid) as (r & Hr & Er & Hl & Ha).
  exists r. split_and!; try done. cbn. apply list_elem_of_fmap. exists r. split; [|done].
  unfold hit, id_in. rewrite bool_decide_false; [by rewrite andb_false_r|].
  intros Hin. rewrite Er in Hin. by destruct (Hdis id Hin).
Qed.

Lemma NoDup_drop_middle {A} (xs ys zs : list A) : NoDup (xs ++ ys ++ zs) -> NoDup (xs ++ zs).
Proof. intros H. eapply sublist_NoDup; [exact H|]. apply sublist_app; [done|]. by apply sublist_inserts_l. Qed.

Lemma claim_step_inv s s' : claim_step s s' -> claims_inv s -> claims_inv s'.
Proof.
  intros [s0 agent now lease n|t pre tx post|t pre tx post] Hi.
  - by apply tx_begin_inv.
  - destruct Hi as [Hwf Hd Hm]; cbn [cs_table cs_open] in *.
    rewrite locked_ids_app in Hd. change (locked_ids (tx :: post)) with (tx_ids tx ++ locked_ids post) in Hd.
    pose proof Hd as Hd'. apply NoDup_app in Hd' as (_ & Hpre & (_ & Hpost & _)%NoDup_app).
    apply Forall_app in Hm as [Hm1 Hm2]. apply Forall_cons in Hm2 as [_ Hm2].
    split; cbn [cs_table cs_open]; [by apply tx_apply_wf| |].
    + rewrite locked_ids_app. by eapply NoDup_drop_middle.
    + rewrite Forall_forall in Hm1, Hm2. apply Forall_forall.
      intros tx' [Htx|Htx]%elem_of_app; apply tx_apply_may; auto; intros id Hid Hid'.
      * apply (Hpre id); [apply locked_ids_elem; eauto|]. apply elem_of_app. by left.
      * apply (Hpost id); [done|]. apply locked_ids_elem; eauto.
  - destruct Hi as [Hwf Hd Hm]; cbn [cs_table cs_open] in *.
    rewrite locked_ids_app in Hd. change (locked_ids (tx :: post)) with (tx_ids tx ++ locked_ids post) in Hd.
    split; cbn [cs_table cs_open]; [done| |].
    + rewrite locked_ids_app. by eapply NoDup_drop_middle.
    + rewrite Forall_app, Forall_cons in Hm. rewrite Forall_app. tauto.
Qed.

Lemma claim_steps_inv s s' : rtc claim_step s s' -> claims_inv s -> claims_inv s'.
Proof. induction 1; eauto using claim_step_inv. Qed.

Lemma claim_step_evolves s s' : claims_inv s -> claim_step s s' ->
  rows_advance evolves (cs_table s) (cs_table s').
Proof.
  intros Hi Hs. revert Hi.
  destruct Hs as [s0 agent now lease n|t pre tx post|t pre tx post]; intros Hi; cbn; try reflexivity.
  destruct Hi as [Hwf _ Hm]; cbn in *. apply Forall_app in Hm as [_ [Hm _]%Forall_cons].
  eexists _, []. rewrite app_nil_r. split; [done|].
  assert (Hall : Forall (fun r => hit (id_in (tx_ids tx)) r = true ->
     evolves r (claim_stamp (tx_now tx) (tx_agent tx) (tx_lease tx) r)) (tbl_rows t)).
  { apply Forall_forall. intros r Hr [Hl Hh]%hit_live. unfold id_in in Hh. split_bools.
    destruct (Hm _ Hh) as (q & Hq & Eq & _ & Ha).
    rewrite (wf_id_inj t q r Hwf Hq Hr Eq) in Ha.
    split; try done. intros a Hra. destruct Ha as [E|E]; rewrite E in Hra; [done|congruence]. }
  clear -Hall. cbn. generalize dependent (tbl_rows t). intros rows Hall.
  induction Hall as [|r l Hr _ IH]; cbn; constructor; [|done].
  destruct (hit _ r); [auto | reflexivity].
Qed.

Lemma idle_inv t : table_wf t -> claims_inv (ClaimState t []).
Proof. intros Hwf. split; [done|constructor|constructor]. Qed.

Lemma claim_steps_evolve s s' : claims_inv s -> rtc claim_step s s' ->
  rows_advance evolves (cs_table s) (cs_table s').
Proof.
  intros Hi Hs. induction Hs as [|s1 s2 s3 H12 _ IH]; [reflexivity|].
  etransitivity; [by apply claim_step_evolves | apply IH; by eapply claim_step_inv].
Qed.

(** However the phases of any number of claim transactions
    interleave, started on a well-formed table, no two open transactions hold
    the same resource, no commit takes a resource away from the agent it was
    assigned to, and every lock is on a live row its transaction may claim. *)
Theorem concurrent_claims_safe t s :
  table_wf t -> rtc claim_step (ClaimState t []) s ->
  NoDup (locked_ids (cs_open s))
  /\ Forall (fun tx => may_claim tx (cs_table s)) (cs_open s)
  /\ (forall i r a, tbl_rows t !! i = Some r -> r_AgentID r = Some a ->
      exists r', tbl_rows (cs_table s) !! i = Some r' /\ r_AgentID r' = Some a).
Proof.
  intros Hwf Hs. pose proof (idle_inv t Hwf) as Hi.
  destruct (claim_steps_inv _ _ Hs Hi) as [_ Hd Hm]. split_and!; [done..|].
  intros i r a Hr Ha.
  destruct (rows_advance_lookup _ _ _ _ _ (claim_steps_evolve _ _ Hi Hs) Hr) as (r' & Hr' & []). eauto.
Qed.

(** Two agents claim at the same time: the second skips what the first locked. *)
Definition two_claims : claim_state :=
  let s0 := ClaimState (resources sample_db) [] in
  let s1 := ClaimState (cs_table s0) (tx_begin 1 1000 Minute 2 s0 :: cs_open s0) in
  ClaimState (cs_table s1) (tx_begin 2 1000 Minute 2 s1 :: cs_open s1).

Lemma concurrent_claims_safe_witness :
  tx_ids <$> cs_open two_claims = [[]; [2; 1]] /\ NoDup (locked_ids (cs_open two_claims)).
Proof.
  split; [vm_compute; reflexivity|].
  apply (concurrent_claims_safe (resources sample_db) two_claims); [apply sample_resources_wf|].
  eapply rtc_l; [apply cs_begin|]. apply rtc_once. apply cs_begin.
Defined.
