(* ===== verification/ClaimOrder.v ===== *)
(** * Concurrent claims are serializable

    [ConcurrentClaims] lets the phases of claim transactions interleave freely.
    Here every transaction commits, and the outcome is compared with the one of
    the same claims run one after another: [FOR UPDATE SKIP LOCKED] skips
    exactly the rows that the transactions that began earlier will have leased
    by the time they are done. *)

From S2P Require Import Prelude Json Storage World AppError Queries Evolution Mrn Resource Sample WorkFeed ConcurrentClaims.

(** ** One claim after another *)

Record claim_req := ClaimReq { rq_agent : Z; rq_now : Z; rq_lease : Z; rq_n : Z }.

(** The transaction a claim runs as on its own: nothing is locked. *)
Definition alone (q : claim_req) (t : Table ResourceRow) : claim_tx :=
  tx_begin (rq_agent q) (rq_now q) (rq_lease q) (rq_n q) (ClaimState t []).

(** The claims in the order of the list: the rows each of them picked, and the
    table they leave. *)
Fixpoint serial (qs : list claim_req) (t : Table ResourceRow) : list (list Z) * Table ResourceRow :=
  match qs with
  | [] => ([], t)
  | q :: qs =>
      let tx := alone q t in
      let '(picked, t') := serial qs (tx_apply tx t) in (tx_ids tx :: picked, t')
  end.

Lemma serial_snoc qs q t :
  serial (qs ++ [q]) t =
  let '(picked, t') := serial qs t in (picked ++ [tx_ids (alone q t')], tx_apply (alone q t') t').
Proof.
  revert t. induction qs as [|q' qs IH]; intros t; [done|]. cbn [serial app].
  rewrite IH. by destruct (serial qs _).
Qed.

(** A claim that runs alone is the statement of [ClaimAgentWork]. *)
Lemma alone_statement q w : table_wf (resources (w_db w)) -> w_faults w = [] -> w_dbnow w = rq_now q ->
  exists rs, ClaimAgentWork (rq_agent q) (rq_lease q) (rq_n q) w
    = (Ok rs, w <| w_db := (w_db w) <| resources :=
         tx_apply (alone q (resources (w_db w))) (resources (w_db w)) |> |>).
Proof.
  intros Hwf Hf Hnow. eexists. unfold ClaimAgentWork, q_update. rewrite (query_run w Hf). unfold update.
  rewrite Hnow. set (t := resources (w_db w)) in *.
  rewrite (proj2 (forallb_forall _ _)).
  - unfold alone, tx_begin, tx_apply. cbn [cs_table cs_open locked_ids map concat].
    reflexivity.
  - intros r' (r & <- & Hr)%in_map_iff. apply list_elem_of_In, list_elem_of_filter in Hr as [_ Hr].
    exact (wf_columns _ Hwf r Hr).
Qed.

(** ** Runs in which every transaction commits *)

(** The transactions that are open were begun before their leases end. *)
Definition leases_hold (now : Z) (txs : list claim_tx) : Prop :=
  Forall (fun tx => now <= tx_now tx + tx_lease tx) txs.

(** The claims in the order in which they began, the rows each picked, and the
    state reached. *)
Inductive commits (t0 : Table ResourceRow) : list claim_req -> list (list Z) -> claim_state -> Prop :=
  | commits_start : commits t0 [] [] (ClaimState t0 [])
  | commits_begin qs picked s q :
      commits t0 qs picked s -> leases_hold (rq_now q) (cs_open s) ->
      let tx := tx_begin (rq_agent q) (rq_now q) (rq_lease q) (rq_n q) s in
      commits t0 (qs ++ [q]) (picked ++ [tx_ids tx]) (ClaimState (cs_table s) (tx :: cs_open s))
  | commits_commit qs picked t pre tx post :
      commits t0 qs picked (ClaimState t (pre ++ tx :: post)) ->
      commits t0 qs picked (ClaimState (tx_apply tx t) (pre ++ post)).

Lemma commits_steps t0 qs picked s : commits t0 qs picked s -> rtc claim_step (ClaimState t0 []) s.
Proof.
  induction 1 as [|? ? ? ? _ IH|? ? ? ? ? ? _ IH]; [constructor| |];
    (eapply rtc_r; [exact IH|constructor]).
Qed.

(** *** The table once the open transactions have committed *)

Definition settled (s : claim_state) : Table ResourceRow := foldr tx_apply (cs_table s) (cs_open s).

Lemma hit_stamp ids now agent lease r :
  hit (id_in ids) (claim_stamp now agent lease r) = hit (id_in ids) r.
Proof. done. Qed.

(** Transactions on different rows commute. *)
Lemma tx_apply_comm x y t : (forall id, id ∈ tx_ids x -> id ∉ tx_ids y) ->
  tx_apply x (tx_apply y t) = tx_apply y (tx_apply x t).
Proof.
  intros Hd. unfold tx_apply. cbn [tbl_rows tbl_next]. f_equal. rewrite !map_map. apply map_ext.
  intros r. destruct (hit (id_in (tx_ids x)) r) eqn:Hx, (hit (id_in (tx_ids y)) r) eqn:Hy;
    rewrite ?hit_stamp, ?Hx, ?Hy; try done.
  apply hit_live in Hx as [_ Hx], Hy as [_ Hy]. unfold id_in in Hx, Hy. split_bools.
  by destruct (Hd (r_ResourceID r)).
Qed.

Lemma settled_commit t pre tx post : NoDup (locked_ids (pre ++ tx :: post)) ->
  settled (ClaimState (tx_apply tx t) (pre ++ post)) = settled (ClaimState t (pre ++ tx :: post)).
Proof.
  intros Hd. unfold settled. cbn. rewrite !foldr_app. cbn. f_equal.
  rewrite locked_ids_app in Hd. apply NoDup_app in Hd as (_ & _ & (_ & Hpost & _)%NoDup_app).
  induction post as [|y post IH]; [done|]. cbn. rewrite IH.
  - apply tx_apply_comm. intros id Hy Hx. apply (Hpost id Hx). cbn. apply elem_of_app. by left.
  - intros id Hx Hp. apply (Hpost id Hx). cbn. apply elem_of_app. by right.
Qed.

(** What the open transactions will have done to a row. *)
Definition settle_row (txs : list claim_tx) (r : ResourceRow) : ResourceRow :=
  foldr (fun tx r => if hit (id_in (tx_ids tx)) r
                     then claim_stamp (tx_now tx) (tx_agent tx) (tx_lease tx) r else r) r txs.

Lemma settled_rows t txs :
  tbl_rows (settled (ClaimState t txs)) = map (settle_row txs) (tbl_rows t).
Proof.
  unfold settled. cbn [cs_open cs_table]. induction txs as [|tx txs IH]; cbn; [by rewrite list_fmap_id|].
  rewrite IH, map_map. done.
Qed.

Lemma settle_keys txs r :
  live (settle_row txs r) = live r /\ r_ResourceID (settle_row txs r) = r_ResourceID r.
Proof. induction txs as [|tx txs [IH1 IH2]]; cbn; [done|]. by destruct (hit _ _). Qed.

Lemma settle_hit txs ids r : hit (id_in ids) (settle_row txs r) = hit (id_in ids) r.
Proof. unfold hit, id_in. by destruct (settle_keys txs r) as [-> ->]. Qed.

Lemma settle_unlocked txs r : r_ResourceID r ∉ locked_ids txs -> settle_row txs r = r.
Proof.
  induction txs as [|tx txs IH]; [done|]. intros Hn. cbn [locked_ids map concat] in Hn.
  apply not_elem_of_app in Hn as [H1 H2]. cbn [settle_row foldr]. fold (settle_row txs r).
  rewrite IH by done. unfold hit, id_in. rewrite bool_decide_false by done. by rewrite andb_false_r.
Qed.

Lemma settle_leased txs now r : leases_hold now txs -> live r = true ->
  r_ResourceID r ∈ locked_ids txs -> lease_free now (settle_row txs r) = false.
Proof.
  intros Hl Hr. induction Hl as [|tx txs Htx _ IH]; [by intros ?%elem_of_nil|].
  cbn [locked_ids map concat settle_row foldr]. fold (settle_row txs r). intros Hin.
  rewrite settle_hit. destruct (hit (id_in (tx_ids tx)) r) eqn:Hh.
  - unfold lease_free. cbn. lia.
  - apply IH. apply elem_of_app in Hin as [Hin|Hin]; [|done].
    unfold hit, id_in in Hh. rewrite Hr, bool_decide_true in Hh by done. done.
Qed.

(** What [SKIP LOCKED] leaves to a transaction is what it would find once the
    open ones had committed. *)
Lemma skip_locked_settled s now agent n : leases_hold now (cs_open s) ->
  claim_candidates (fun id => bool_decide (id ∈ locked_ids (cs_open s))) now agent n (cs_table s)
  = claim_candidates (fun id => bool_decide (id ∈ locked_ids [])) now agent n (settled s).
Proof.
  destruct s as [t txs]. cbn [cs_open cs_table]. intros Hl. unfold claim_candidates. do 2 f_equal.
  unfold select. rewrite settled_rows. induction (tbl_rows t) as [|r rows IH]; [done|].
  cbn [map]. rewrite !filter_cons, IH. clear IH. destruct (settle_keys txs r) as [El Eid].
  rewrite El, Eid. rewrite (bool_decide_false (_ ∈ locked_ids [])) by by intros ?%elem_of_nil.
  destruct (live r) eqn:Hr; [|by rewrite !decide_False].
  destruct (decide (r_ResourceID r ∈ locked_ids txs)) as [Hin|Hout].
  - rewrite bool_decide_true by done. rewrite (decide_False (P := _ && _ = true)) by by rewrite !andb_false_r.
    rewrite decide_False; [done|]. unfold claimable, in_feed.
    rewrite (settle_leased txs now r Hl Hr Hin). by rewrite !andb_false_r.
  - by rewrite settle_unlocked, bool_decide_false.
Qed.

Lemma commits_settled t0 qs picked s : table_wf t0 -> commits t0 qs picked s ->
  serial qs t0 = (picked, settled s).
Proof.
  intros Hwf. induction 1 as [|qs picked s q Hs IH Hl tx|qs picked t pre tx post Hs IH]; [done| |].
  - rewrite serial_snoc, IH. unfold tx, alone, tx_begin. cbn [cs_open cs_table tx_ids].
    rewrite <- (skip_locked_settled s (rq_now q) (rq_agent q) (rq_n q) Hl). done.
  - rewrite IH, settled_commit; [done|].
    exact (ci_disjoint _ (claim_steps_inv _ _ (commits_steps _ _ _ _ Hs) (idle_inv _ Hwf))).
Qed.

(** C6: concurrent claims are serializable.  However the transactions of any
    number of claims interleave, if all of them commit and none begins after
    the lease of one that is still open has run out, then each claim picked the
    rows it would have picked had the claims run one after another in the order
    in which they began, and the table they leave is the same. *)
Theorem claims_serializable t0 qs picked t :
  table_wf t0 -> commits t0 qs picked (ClaimState t []) -> serial qs t0 = (picked, t).
Proof. intros Hwf Hc. by rewrite (commits_settled _ _ _ _ Hwf Hc). Qed.

(** Both agents ask for one item while the other's transaction is open; the one
    that began last commits first. *)
Definition two_requests : list claim_req := [ClaimReq 1 1000 Minute 1; ClaimReq 1 1001 Minute 1].

Lemma claims_serializable_witness :
  exists t, commits (resources sample_db) two_requests [[2]; [1]] (ClaimState t [])
    /\ serial two_requests (resources sample_db) = ([[2]; [1]], t).
Proof.
  assert (Hc : exists t, commits (resources sample_db) two_requests [[2]; [1]] (ClaimState t [])).
  { pose proof (commits_begin _ _ _ _ (ClaimReq 1 1000 Minute 1)
      (commits_start (resources sample_db)) ltac:(constructor)) as H1.
    assert (Hl : leases_hold 1001 (cs_open (ClaimState (resources sample_db) [alone
      (ClaimReq 1 1000 Minute 1) (resources sample_db)]))) by (repeat constructor; discriminate).
    pose proof (commits_begin _ _ _ _ (ClaimReq 1 1001 Minute 1) H1 Hl) as H2.
    eexists. exact (commits_commit _ _ _ _ [] _ [] (commits_commit _ _ _ _ [] _ [_] H2)). }
  destruct Hc as [t Hc]. exists t. split; [exact Hc|].
  apply (claims_serializable (resources sample_db) two_requests [[2]; [1]] t);
    [apply sample_resources_wf|exact Hc].
Defined.
