(* ===== verification/Reports.v ===== *)
(** * Reports, retries and teardown

    The functional behaviour of the operations that answer for a resource:
    the agent's status report on every branch, the exponential backoff and the
    retry budget, the teardown protocol, the promotion of health, and the
    supervisor's two writes (re-dispatch and the host-unreachable flag). *)

From S2P Require Import Prelude Json Storage World AppError Queries Evolution Mrn Resource Sample WorkFeed.

(** ** Exponential backoff *)

Lemma backoff_loop_spec n d :
  0 < d < retryCap -> backoff_loop n d = Z.min retryCap (d * 2 ^ Z.of_nat n).
Proof.
  revert d. induction n as [|n IH]; intros d Hd; cbn [backoff_loop].
  - rewrite Z.pow_0_r. destruct (Z.ltb_spec retryCap d); lia.
  - assert (Hcap : retryCap = 300000000000) by reflexivity.
    rewrite int64_id by lia. rewrite Nat2Z.inj_succ, Z.pow_succ_r by lia.
    pose proof (Z.pow_pos_nonneg 2 (Z.of_nat n)).
    destruct (Z.leb_spec retryCap (d * 2)); [nia|].
    rewrite IH by lia. f_equal. nia.
Qed.

(** The delay before the next attempt doubles from [retryBase] and
    is capped: [min(retryCap, retryBase * 2^(attempts-1))] for every positive
    [int32] attempt count, and [retryBase] for any other. *)
Theorem nextBackoff_closed_form attempts :
  nextBackoff attempts = Z.min retryCap (retryBase * 2 ^ (Z.max 1 attempts - 1)).
Proof.
  unfold nextBackoff. rewrite backoff_loop_spec by (cbv; intuition discriminate).
  destruct (Z.ltb_spec attempts 1); do 3 f_equal; lia.
Qed.

(** ** Running the service without faults *)

Section Run.
Context {T : GoText} {K : WorkloadKit}.
Context (w : World) (Hf : w_faults w = []) (Hwf : table_wf (resources (w_db w))).
Context (r : ResourceRow) (Hr : r ∈ tbl_rows (resources (w_db w))) (Hl : r_DeletedAt r = None).
Let id := r_ResourceUuid r.

Lemma get_resource_run entity :
  or_not_found entity (GetResourceByUUID id) w = (Ok r, w).
Proof.
  unfold or_not_found, map_err, GetResourceByUUID. rewrite (q_get_run w Hf).
  rewrite (select_one_unique _ r); [done..| |].
  - apply Z.eqb_refl.
  - intros q. cbn. lia.
Qed.

(** A write addressed to the row replaces it and nothing else. *)
Definition resource_written (f : ResourceRow -> ResourceRow) : World :=
  w <| w_db := (w_db w) <| resources :=
    update_hit (resources (w_db w)) (fun q => r_ResourceUuid q =? id) f |> |>.

Lemma update_resource_run entity f :
  row_ok (f w r) = true ->
  or_not_found entity (q_update_one resources (fun _ q => r_ResourceUuid q =? id) f) w
  = (Ok (f w r), resource_written (f w)).
Proof.
  intros Hok. unfold or_not_found, map_err.
  erewrite (q_update_one_run w Hf); [reflexivity|].
  apply (update_unique _ r); [done..| | |done].
  - apply Z.eqb_refl.
  - intros q. cbn. lia.
Qed.

Lemma written_self f : f r ∈ tbl_rows (resources (w_db (resource_written f))).
Proof. cbn. apply (update_hit_self _ r); [done..|]. apply Z.eqb_refl. Qed.

Lemma written_other f q : r_ResourceUuid q <> id -> q ∈ tbl_rows (resources (w_db w)) ->
  q ∈ tbl_rows (resources (w_db (resource_written f))).
Proof.
  intros Hne Hq. cbn. apply (update_hit_other _ r); [|exact Hne|done]. intros q'. cbn. lia.
Qed.

Lemma written_project f pid : w_faults (resource_written f) = [] ->
  select_one (fun p => p_ProjectID p =? pid) (projects (w_db w)) <> Err ErrNoRows ->
  exists p, resolveProjectUUID pid (resource_written f) = (Ok (p_ProjectUuid p), resource_written f).
Proof.
  intros Hf' Hp. unfold resolveProjectUUID, or_return, GetProjectByID, mbind, M_bind, map_err.
  rewrite (q_get_run _ Hf'). change (projects (w_db (resource_written f))) with (projects (w_db w)).
  destruct (select_one _ _) as [p|e] eqn:E; [by exists p|].
  unfold select_one in E. by destruct (select _ _); simplify_eq.
Qed.
End Run.

(** ** The report *)

(** A report on a live row of the sample. *)
Definition sample_report : AgentReportInput :=
  Build_AgentReportInput "running" (Some [("health", VStr "ok")])%string 3.

(** The row after a report whose status is stored as [status]. *)
Definition reported {T : GoText} (gonow now budget : Z) (status : value)
    (in_ : AgentReportInput) (r : ResourceRow) : ResourceRow :=
  ApplyAgentReport_row (reportParams (r_ResourceUuid r) gonow budget r status in_) now r.

Definition effective_budget (budget : Z) : Z := if budget <? 1 then 10 else budget.

(** The status document a report stores: the reported one, or the current one
    when the report carries none. *)
Definition reported_status (in_ : AgentReportInput) (r : ResourceRow) : result unit value :=
  match ar_Status in_ with Some _ => marshalMap (ar_Status in_) | None => Ok (r_Status r) end.

(** Without faults, a report of the assigned agent on a live
    resource is answered with the resource, rewrites exactly that row (as
    [reported] computes it) and leaves every other resource as it was. *)
Theorem report_effect {T : GoText} {K : WorkloadKit} w r agent in_ budget status :
  w_faults w = [] -> table_wf (resources (w_db w)) ->
  r ∈ tbl_rows (resources (w_db w)) -> r_DeletedAt r = None -> r_AgentID r = Some agent ->
  select_one (fun p => p_ProjectID p =? r_ProjectID r) (projects (w_db w)) <> Err ErrNoRows ->
  reported_status in_ r = Ok status ->
  let r' := reported (w_gonow w) (w_dbnow w) (effective_budget budget) status in_ r in
  row_ok r' = true ->
  exists res w', ApplyReport agent (r_ResourceUuid r) in_ budget w = (Ok res, w')
    /\ UUID res = r_ResourceUuid r /\ State res = r_State r'
    /\ r' ∈ tbl_rows (resources (w_db w'))
    /\ (forall q, q ∈ tbl_rows (resources (w_db w)) -> r_ResourceUuid q <> r_ResourceUuid r ->
          q ∈ tbl_rows (resources (w_db w')))
    /\ w_faults w' = [] /\ projects (w_db w') = projects (w_db w).
Proof.
  intros Hf Hwf Hr Hl Ha Hp Hs r' Hok.
  set (f := fun w' => ApplyAgentReport_row (reportParams (r_ResourceUuid r) (w_gonow w)
              (effective_budget budget) r status in_) (w_dbnow w')).
  assert (Hrun : forall A (k : _ -> M error A), (current ← or_not_found "resource"
      (GetResourceByUUID (r_ResourceUuid r)); k current) w = k r w)
    by (intros; apply bind_run; by apply get_resource_run).
  unfold ApplyReport. rewrite Hrun. unfold owned_by, opt_eqb. rewrite bool_decide_true by done. cbn [negb].
  erewrite bind_run; [|instantiate (1 := w); instantiate (1 := status);
    unfold reported_status in Hs; destruct (ar_Status in_) as [s|]; [|by simplify_eq];
    unfold or_validation, lift; by rewrite Hs].
  fold (effective_budget budget). erewrite bind_run; [|reflexivity].
  destruct (written_project w r (f w) (r_ProjectID r) Hf Hp) as [p Hproj].
  erewrite bind_run; [|unfold ApplyAgentReport; rewrite reportParams_uuid;
    by apply (update_resource_run w Hf Hwf r Hr Hl "resource" f)].
  erewrite bind_run; [|exact Hproj].
  eexists _, _. split; [reflexivity|]. split_and!; try done.
  - by apply (written_self w r Hr Hl (f w)).
  - intros q Hq Hne. by apply (written_other w r (f w)).
Qed.

Lemma report_effect_witness :
  exists res w', @ApplyReport plain_text 1 402 sample_report 5 sample_world = (Ok res, w')
    /\ State res = "running"%string.
Proof.
  destruct (@report_effect plain_text open_kit sample_world back 1 sample_report 5
      (VObj [("health", VStr "ok")])%string) as (res & w' & H1 & _ & H2 & _);
    [reflexivity|apply sample_resources_wf|right; left|reflexivity|reflexivity|discriminate
    |reflexivity|vm_compute; reflexivity|].
  exists res, w'. split; [exact H1|exact H2].
Defined.

(** A report for a live resource assigned to another agent, or to
    none, is refused and changes nothing, whichever queries fail; without
    faults the answer is Forbidden. *)
Theorem report_foreign_refused {T : GoText} {K : WorkloadKit} w r agent in_ budget :
  table_wf (resources (w_db w)) -> r ∈ tbl_rows (resources (w_db w)) -> r_DeletedAt r = None ->
  r_AgentID r <> Some agent ->
  let '(res, w') := ApplyReport agent (r_ResourceUuid r) in_ budget w in
  w_db w' = w_db w
  /\ (w_faults w = [] -> res = Err (NewForbidden "resource is not assigned to this agent"))
  /\ is_ok res = false.
Proof.
  intros Hwf Hr Hl Ha. unfold ApplyReport, mbind, M_bind, or_not_found, map_err, GetResourceByUUID.
  unfold q_get, query.
  destruct (w_faults w) as [|[] fs]; cbn -[owned_by select_one]; try done;
    (rewrite (select_one_unique _ r);
     [|done|done|done|apply Z.eqb_refl|intros q; cbn; lia]);
    cbn -[owned_by]; unfold owned_by, opt_eqb; rewrite bool_decide_false by done; done.
Qed.

Lemma report_foreign_refused_witness :
  let '(res, w') := @ApplyReport plain_text 2 402 sample_report 5 sample_world in
  w_db w' = w_db sample_world
  /\ (w_faults sample_world = [] ->
      res = Err (NewForbidden "resource is not assigned to this agent"))
  /\ is_ok res = false.
Proof.
  apply (@report_foreign_refused plain_text open_kit sample_world back 2 sample_report 5);
    [apply sample_resources_wf|right; left|reflexivity|discriminate].
Defined.

(** ** Branches of the report *)

Section Branches.
Context {T : GoText} (gonow now budget : Z) (status : value) (r : ResourceRow).

(** What every report does, whatever it says. *)
Lemma reported_common in_ :
  let r' := reported gonow now budget status in_ r in
  r_LeasedUntil r' = None /\ r_AgentID r' = r_AgentID r /\ r_Generation r' = r_Generation r
  /\ r_Spec r' = r_Spec r /\ r_Status r' = status
  /\ r_ObservedGeneration r <= r_ObservedGeneration r'
  /\ r_Health r' = resolveHealth (r_Health r) (ar_State in_) (ar_Status in_).
Proof.
  unfold reported. cbn. split_and!; try done; try lia.
  - unfold reportParams. by repeat case_match.
  - unfold reportParams. by repeat case_match.
Qed.

Lemma reported_failed st og :
  let r' := reported gonow now budget status (Build_AgentReportInput "failed" st og) r in
  0 <= r_ObservedGeneration r -> 0 <= r_Attempts r < max_int32 ->
  r_Attempts r' = r_Attempts r + 1
  /\ r_ObservedGeneration r' = r_ObservedGeneration r /\ r_DeletedAt r' = r_DeletedAt r
  /\ (budget <= r_Attempts r + 1 -> r_State r' = "failed" /\ r_NextAttemptAt r' = None)
  /\ (r_Attempts r + 1 < budget ->
        r_State r' = (if str_eqb (r_State r) "deleting" then "deleting" else "error")%string
        /\ r_NextAttemptAt r' = Some (gonow + nextBackoff (r_Attempts r + 1))).
Proof.
  intros r' Ho Ha. subst r'. unfold reported, reportParams. cbn [ar_State str_eqb String.eqb].
  change (str_eqb "failed" "running") with false. change (str_eqb "failed" "failed") with true.
  cbv match. unfold max_int32 in Ha. rewrite int32_id by lia.
  destruct (Z.leb_spec budget (r_Attempts r + 1)); cbn; split_and!; try done; intros; try lia.
Qed.
End Branches.

(** A run of failed reports, each with its clock readings. *)
Definition fail_in : AgentReportInput := Build_AgentReportInput "failed" None 0.
Definition failed_reports {T : GoText} (budget : Z) (status : value) (times : list (Z * Z))
    (r : ResourceRow) : ResourceRow :=
  foldl (fun r t => reported (fst t) (snd t) budget status fail_in r) r times.

Lemma failed_reports_snoc {T : GoText} budget status times t r :
  failed_reports budget status (times ++ [t]) r
  = reported (fst t) (snd t) budget status fail_in (failed_reports budget status times r).
Proof. unfold failed_reports. by rewrite foldl_app. Qed.

Lemma in_feed_failed now r : r_State r = "failed" -> in_feed now r = false.
Proof. intros E. unfold in_feed. rewrite E. cbn. by rewrite andb_false_r. Qed.

(** The state a retryable failure leaves: a wanted teardown stays wanted. *)
Definition retry_state (r : ResourceRow) : string :=
  if str_eqb (r_State r) "deleting" then "deleting" else "error".

Lemma failed_step {T : GoText} gonow now budget status r :
  let r' := reported gonow now budget status fail_in r in
  0 <= r_ObservedGeneration r < r_Generation r -> 0 <= r_Attempts r < max_int32 ->
  r_Attempts r' = r_Attempts r + 1 /\ r_ObservedGeneration r' = r_ObservedGeneration r
  /\ r_Generation r' = r_Generation r
  /\ (r_Attempts r + 1 < budget -> r_State r' = retry_state r
        /\ forall t, in_feed t r' = true <-> gonow + nextBackoff (r_Attempts r + 1) <= t)
  /\ (budget <= r_Attempts r + 1 -> r_State r' = "failed" /\ forall t, in_feed t r' = false).
Proof.
  intros r' Ho Ha.
  destruct (reported_failed gonow now budget status r None 0) as (A & O & _ & P & Q); [lia..|].
  destruct (reported_common gonow now budget status r fail_in) as (L & _ & G & _).
  fold fail_in r' in A, O, P, Q, L, G. split_and!; [done..| |].
  - intros [QS QN]%Q. split; [done|]. intros t. unfold in_feed, lags, lease_free, backoff_over.
    rewrite L, QN, QS, O, G. replace (_ <? _) with true by lia.
    destruct (str_eqb (r_State r) "deleting"); cbn; lia.
  - intros [PS _]%P. split; [done|]. intros t. by apply in_feed_failed.
Qed.

Lemma failed_reports_run {T : GoText} budget status times r :
  r_Attempts r = 0 -> 0 <= r_ObservedGeneration r < r_Generation r ->
  Z.of_nat (length times) < budget <= max_int32 ->
  let r' := failed_reports budget status times r in
  r_Attempts r' = Z.of_nat (length times) /\ r_ObservedGeneration r' = r_ObservedGeneration r
  /\ r_Generation r' = r_Generation r /\ retry_state r' = retry_state r.
Proof.
  intros Ha Ho. induction times as [|[g0 n0] times IH] using rev_ind; intros Hn; [done|].
  rewrite length_app in Hn |- *. cbn in Hn. destruct IH as (A & O & G & S); [lia|].
  rewrite failed_reports_snoc. cbn [fst snd].
  destruct (failed_step g0 n0 budget status (failed_reports budget status times r))
    as (A' & O' & G' & Q & _); [lia..|].
  destruct Q as [QS _]; [lia|]. cbn [length]. split_and!; [lia|lia|lia|].
  rewrite <- S. unfold retry_state at 1. rewrite QS. unfold retry_state.
  by destruct (str_eqb (r_State (failed_reports _ _ _ _)) "deleting").
Qed.



(** ** Teardown *)

(** C8: a report finalizes a delete exactly when it says 'removed' and
    the resource is 'deleting'; the row is then stamped with the statement's
    time in state 'removed', its observed revision caught up, and it leaves
    the feed for good.  A 'removed' report outside a teardown deletes nothing. *)
Theorem teardown_finalize {T : GoText} gonow now budget status in_ r :
  r_DeletedAt r = None ->
  let r' := reported gonow now budget status in_ r in
  (r_DeletedAt r' <> None <-> ar_State in_ = "removed" /\ r_State r = "deleting")
  /\ (r_DeletedAt r' <> None -> r_DeletedAt r' = Some now /\ r_State r' = "removed"
        /\ r_Generation r' <= r_ObservedGeneration r' /\ forall t, in_feed t r' = false).
Proof.
  intros Hl r'. unfold r', reported, reportParams.
  destruct (str_eqb (ar_State in_) "running") eqn:E1; [|
  destruct (str_eqb (ar_State in_) "failed") eqn:E2; [|
  destruct (str_eqb (ar_State in_) "removed") eqn:E3; [
  destruct (str_eqb (r_State r) "deleting") eqn:E4|]]]; split_bools; cbn; rewrite ?Hl.
  - split; [split|]; [congruence| |congruence]. intros [E _]. congruence.
  - destruct (budget <=? _); cbn; rewrite ?Hl; (split; [split|]);
      [done|intros [E _]; congruence|done|done|intros [E _]; congruence|done].
  - split; [done|]. intros _. split_and!; [done|done|lia|]. intros t. unfold in_feed, lags. cbn.
    by replace (_ <? _) with false by lia.
  - split; [split|]; [congruence| |congruence]. by intros [_ ?].
  - split; [split|]; [congruence| |congruence]. by intros [? _].
Qed.

Lemma teardown_finalize_witness :
  let r' := @reported plain_text 7 8 3 VNull (Build_AgentReportInput "removed" None 0) gone in
  r_DeletedAt r' <> None /\ in_feed 9 r' = false.
Proof.
  intros r'. destruct (@teardown_finalize plain_text 7 8 3 VNull
    (Build_AgentReportInput "removed" None 0) gone eq_refl) as [H1 H2].
  assert (H : r_DeletedAt r' <> None) by (apply H1; done).
  split; [exact H|]. by apply H2.
Defined.

(** The teardown intent does not survive a report of a
    running workload: when the owner reports 'running' for the current revision
    of a resource that is being deleted (an answer to work it pulled before the
    delete), the resource is back in state 'running', converged, and in nobody's
    feed, so no teardown is dispatched unless the delete is asked for again. *)
Theorem running_report_drops_teardown {T : GoText} gonow now budget status st r :
  r_State r = "deleting" -> r_DeletedAt r = None ->
  let r' := reported gonow now budget status
              (Build_AgentReportInput "running" st (r_Generation r)) r in
  r_State r' = "running" /\ r_DeletedAt r' = None
  /\ r_Generation r' <= r_ObservedGeneration r' /\ forall t, in_feed t r' = false.
Proof.
  intros Hs Hl r'. unfold r', reported, reportParams. cbn. split_and!; [done|done|lia|].
  intros t. unfold in_feed, lags. cbn. by replace (_ <? _) with false by lia.
Qed.

Lemma running_report_drops_teardown_witness :
  let r' := @reported plain_text 7 8 3 VNull (Build_AgentReportInput "running" None 2) gone in
  r_State r' = "running"%string /\ in_feed 9 r' = false.
Proof.
  intros r'. destruct (@running_report_drops_teardown plain_text 7 8 3 VNull None gone)
    as (H1 & _ & _ & H2); [reflexivity..|]. split; [exact H1|apply H2].
Defined.

(** ** Health *)

(** The text a reported health is promoted from. *)
Definition health_text {T : GoText} (v : value) : string := ToLower (TrimSpace (Sprint v)).

(** A health reported in ASCII always fits its column, however long
    it is; without one a running resource keeps its health, and any other
    state clears it, so no health outlives the workload it was observed on. *)
Theorem health_fits_column {T : GoText} current state status :
  varchar maxHealthLen current = true ->
  (forall v, obj_get "health" (default [] status) = Some v ->
     ascii_text (health_text v) = true) ->
  let h := resolveHealth current state status in
  varchar maxHealthLen h = true
  /\ (obj_get "health" (default [] status) = None ->
      h = if str_eqb state "running" then current else "").
Proof.
  intros Hc Hv h. unfold h, resolveHealth.
  destruct (obj_get "health" _) as [v|] eqn:E; split.
  - specialize (Hv v eq_refl). pose proof (ascii_prefix_fits maxHealthLen _ Hv) as Hfit.
    unfold health_text in Hfit. destruct v; try exact Hfit.
    destruct (str_eqb state "running"); [exact Hc|reflexivity].
  - discriminate.
  - destruct (str_eqb state "running"); [exact Hc|reflexivity].
  - reflexivity.
Qed.

Lemma health_fits_column_witness :
  let long := Some [("health", VStr "  Degraded-beyond-recognition ")]%string in
  @resolveHealth plain_text "ok" "running" long = "degraded-beyond-reco"%string
  /\ varchar maxHealthLen (@resolveHealth plain_text "ok" "running" long) = true.
Proof.
  intros long. split; [vm_compute; reflexivity|].
  apply (@health_fits_column plain_text "ok" "running" long); [vm_compute; reflexivity|].
  intros v Hv. cbn in Hv. injection Hv as <-. vm_compute. reflexivity.
Defined.

(** Nineteen ASCII bytes and a two-byte letter: the cut at twenty bytes falls
    inside the letter. *)
Definition cut_health : string :=
  "aaaaaaaaaaaaaaaaaaa" +:+ byte_string [195; 169]%nat.
Definition cut_report (gen : Z) : AgentReportInput :=
  Build_AgentReportInput "running" (Some [("health", VStr cut_health)])%string gen.

Lemma cut_text {T : GoText} :
  lower_unicode cut_health = cut_health -> health_text (VStr cut_health) = cut_health.
Proof.
  intros Hlow. unfold health_text.
  assert (E : TrimSpace (Sprint (VStr cut_health)) = cut_health) by (vm_compute; reflexivity).
  rewrite E. unfold ToLower.
  assert (E' : forallb is_ascii (list_ascii_of_string cut_health) = false) by (vm_compute; reflexivity).
  by rewrite E'.
Qed.

(** A report whose health has a multi-byte letter across byte
    twenty is cut inside the letter, the store refuses the text, and the whole
    report of the resource is lost, whatever the resource. *)
Theorem health_cut_report_lost {T : GoText} {K : WorkloadKit} w r agent budget gen :
  lower_unicode cut_health = cut_health ->
  w_faults w = [] -> table_wf (resources (w_db w)) ->
  r ∈ tbl_rows (resources (w_db w)) -> r_DeletedAt r = None -> r_AgentID r = Some agent ->
  let '(res, w') := ApplyReport agent (r_ResourceUuid r) (cut_report gen) budget w in
  is_ok res = false /\ w' = w.
Proof.
  intros Hlow Hf Hwf Hr Hl Ha.
  assert (Hh : forall cur, varchar 20 (resolveHealth cur "running" (ar_Status (cut_report gen))) = false).
  { intros cur. unfold resolveHealth.
    change (obj_get "health" _) with (Some (VStr cut_health)). cbv beta iota.
    fold (health_text (VStr cut_health)). rewrite (cut_text Hlow). vm_compute. reflexivity. }
  unfold ApplyReport. rewrite (bind_run _ _ w r w) by by apply get_resource_run.
  unfold owned_by, opt_eqb. rewrite bool_decide_true by done. cbn [negb].
  erewrite bind_run; [|reflexivity]. erewrite bind_run; [|reflexivity].
  set (p := reportParams _ _ _ _ _ _).
  assert (E : exists e, or_not_found "resource" (ApplyAgentReport p) w = (Err e, w)).
  { unfold or_not_found, map_err, ApplyAgentReport, q_update_one, q_update, mbind, M_bind.
    rewrite (query_run w Hf). unfold update.
    rewrite (filter_hit_unique _ r); [|done..|cbn; lia|cbn; intros q; lia].
    cbn [map forallb]. replace (row_ok _) with false; [by eexists|].
    symmetry. cbn -[resolveHealth varchar text bigint]. rewrite Hh. by rewrite !andb_false_r. }
  destruct E as [e E]. by rewrite (bind_run_err _ _ _ _ _ E).
Qed.

Lemma health_cut_report_lost_witness :
  let '(res, w') := @ApplyReport plain_text 1 402 (cut_report 3) 5 sample_world in
  is_ok res = false /\ w' = sample_world.
Proof.
  apply (@health_cut_report_lost plain_text open_kit sample_world back 1 5 3);
    [reflexivity|reflexivity|apply sample_resources_wf|right; left|reflexivity|reflexivity].
Defined.

(** ** The supervisor's writes *)

Section Supervised.
Context (w : World) (Hf : w_faults w = []) (Hwf : table_wf (resources (w_db w))).
Context (r : ResourceRow) (Hr : r ∈ tbl_rows (resources (w_db w))) (Hl : r_DeletedAt r = None).
Let id := r_ResourceUuid r.

Lemma flagged_row_ok now : row_ok (FlagResourceHostUnreachable_row now r) = true.
Proof.
  pose proof (wf_columns _ Hwf r Hr) as H. cbn -[varchar text bigint] in H |- *. split_bools.
  repeat match goal with E : ?x = true |- context [?x] => rewrite E end. done.
Qed.

Lemma flag_twice now : host_flagged (FlagResourceHostUnreachable_row now r) = true.
Proof.
  unfold host_flagged, jsonb_text_eq. cbn -[obj_get obj_set]. by rewrite !obj_get_set.
Qed.

(** The table after the row was flagged. *)
Definition flagged_table : Table ResourceRow :=
  update_hit (resources (w_db w))
    (fun q => (r_ResourceUuid q =? id) && negb (host_flagged q))
    (FlagResourceHostUnreachable_row (w_dbnow w)).

Lemma flag_update : host_flagged r = false ->
  update (fun q => (r_ResourceUuid q =? id) && negb (host_flagged q))
    (FlagResourceHostUnreachable_row (w_dbnow w)) (resources (w_db w))
  = Ok ([FlagResourceHostUnreachable_row (w_dbnow w) r], flagged_table).
Proof.
  intros Hu. apply (update_unique _ r); [done..| | |apply flagged_row_ok].
  - unfold id. by rewrite Z.eqb_refl, Hu.
  - intros q. cbn. intros. split_bools. done.
Qed.

Lemma flagged_row_in : host_flagged r = false ->
  FlagResourceHostUnreachable_row (w_dbnow w) r ∈ tbl_rows flagged_table.
Proof.
  intros Hu. apply (update_hit_self _ r); [done..|]. unfold id. by rewrite Z.eqb_refl, Hu.
Qed.

(** Once flagged, the statement finds no row to write. *)
Lemma flag_none : host_flagged r = false ->
  update (fun q => (r_ResourceUuid q =? id) && negb (host_flagged q))
    (FlagResourceHostUnreachable_row (w_dbnow w)) flagged_table = Ok ([], flagged_table).
Proof.
  intros Hu. apply update_none. intros q Hq. unfold hit.
  assert (Hwf' : table_wf flagged_table)
    by (eapply update_wf; [|exact (flag_update Hu)|exact Hwf]; done).
  destruct (Z.eqb_spec (r_ResourceUuid q) id) as [E|E]; [|by rewrite andb_false_r].
  rewrite (wf_uuid_inj _ q (FlagResourceHostUnreachable_row (w_dbnow w) r) Hwf' Hq);
    [by rewrite flag_twice, andb_false_r|by apply flagged_row_in|done].
Qed.
End Supervised.

(** Flagging a resource whose host is unreachable reports the
    transition once.  The first call writes the flag and the unknown health,
    and leaves the state, the owner, the lease, the revisions and the retry
    budget alone; a second call finds the flag and changes nothing. *)
Theorem flag_reported_once {T : GoText} {K : WorkloadKit} w r :
  w_faults w = [] -> table_wf (resources (w_db w)) -> r ∈ tbl_rows (resources (w_db w)) ->
  r_DeletedAt r = None -> host_flagged r = false ->
  exists w' r', FlagHostUnreachable (r_ResourceUuid r) w = (Ok true, w')
    /\ FlagHostUnreachable (r_ResourceUuid r) w' = (Ok false, w')
    /\ r' ∈ tbl_rows (resources (w_db w')) /\ r_ResourceUuid r' = r_ResourceUuid r
    /\ host_flagged r' = true /\ r_Health r' = HealthUnknown
    /\ r_State r' = r_State r /\ r_AgentID r' = r_AgentID r /\ r_LeasedUntil r' = r_LeasedUntil r
    /\ r_Generation r' = r_Generation r /\ r_ObservedGeneration r' = r_ObservedGeneration r
    /\ r_Attempts r' = r_Attempts r /\ r_DeletedAt r' = None.
Proof.
  intros Hf Hwf Hr Hl Hu.
  exists (w <| w_db := (w_db w) <| resources := flagged_table w r |> |>).
  exists (FlagResourceHostUnreachable_row (w_dbnow w) r).
  split; [|split; [|split_and!; try done]].
  - unfold FlagHostUnreachable, try, FlagResourceHostUnreachable, mbind, M_bind.
    erewrite (q_update_one_run w Hf) by by apply flag_update. done.
  - unfold FlagHostUnreachable, try, FlagResourceHostUnreachable, q_update_one, q_update, mbind, M_bind.
    rewrite query_run by done. cbn [w_db w_dbnow set_field resources].
    record_simpl. by rewrite flag_none.
  - by apply flagged_row_in.
  - apply flag_twice.
Qed.

Lemma flag_reported_once_witness :
  exists w', FlagHostUnreachable 404 sample_world = (Ok true, w')
    /\ FlagHostUnreachable 404 w' = (Ok false, w').
Proof.
  destruct (@flag_reported_once plain_text open_kit sample_world auth) as (w' & _ & H1 & H2 & _);
    [reflexivity|apply sample_resources_wf|by do 3 right; left|reflexivity|reflexivity|].
  exists w'. split; [exact H1|exact H2].
Defined.

(** A resource being torn down is never re-dispatched: the call is
    refused and nothing changes.  Any other resource is put back to work with
    its owner kept: a new revision, no lease, a fresh retry budget, and in the
    feed of its agent at once. *)
Theorem redispatch_effect {T : GoText} {K : WorkloadKit} w r :
  w_faults w = [] -> table_wf (resources (w_db w)) -> r ∈ tbl_rows (resources (w_db w)) ->
  r_DeletedAt r = None -> r_ObservedGeneration r <= r_Generation r < max_int64 ->
  let '(res, w') := RedispatchSystem (r_ResourceUuid r) w in
  (r_State r = "deleting" ->
     w' = w /\ res = Err (NewForbidden "a resource being torn down is never re-dispatched"))
  /\ (r_State r <> "deleting" -> exists r', res = Ok (toSystemInstance r')
      /\ r' ∈ tbl_rows (resources (w_db w')) /\ r_ResourceUuid r' = r_ResourceUuid r
      /\ r_AgentID r' = r_AgentID r /\ r_Generation r' = r_Generation r + 1
      /\ r_LeasedUntil r' = None /\ r_Attempts r' = 0 /\ forall t, in_feed t r' = true).
Proof.
  intros Hf Hwf Hr Hl Hg. unfold RedispatchSystem.
  rewrite (bind_run _ _ w r w) by by apply get_resource_run.
  destruct (str_eqb (r_State r) "deleting") eqn:Hd; split_bools; [by split|].
  set (p := fun q => (r_ResourceUuid q =? r_ResourceUuid r) && negb (str_eqb (r_State q) "deleting")).
  set (f := RedispatchSystemResource_row (w_dbnow w)).
  assert (Hp : p r = true) by (unfold p; rewrite Z.eqb_refl; by destruct (str_eqb_neq (r_State r) "deleting") as [_ ->]).
  assert (Hok : row_ok (f r) = true).
  { pose proof (wf_columns _ Hwf r Hr) as H. cbn -[varchar text bigint] in H |- *. split_bools.
    repeat match goal with E : ?x = true |- context [?x] => rewrite E end.
    change (varchar 20 "pending") with true. unfold bigint, max_int64 in *. lia. }
  erewrite (bind_run (or_not_found _ _)); [|unfold or_not_found, map_err, RedispatchSystemResource;
    erewrite (q_update_one_run w Hf); [reflexivity|];
    apply (update_unique _ r p Hwf Hr Hl Hp); [intros q ?; unfold p in *; by split_bools|exact Hok]].
  split; [done|]. intros _. exists (f r). split_and!; try done.
  - cbn. by apply (update_hit_self _ r p).
  - intros t. unfold in_feed, lags. cbn. by replace (_ <? _) with true by lia.
Qed.

Lemma redispatch_effect_witness :
  let '(res, w') := RedispatchSystem 404 sample_world in
  exists r', res = Ok (toSystemInstance r') /\ r_AgentID r' = Some 2 /\ in_feed 1000 r' = true.
Proof.
  pose proof (@redispatch_effect plain_text open_kit sample_world auth eq_refl
    sample_resources_wf ltac:(by do 3 right; left) eq_refl
    ltac:(vm_compute; intuition discriminate)) as H.
  change (r_ResourceUuid auth) with 404 in H. destruct (RedispatchSystem 404 sample_world) as [res w'].
  destruct H as [_ H]. destruct H as (r' & -> & _ & _ & Ha & _ & _ & _ & Hfeed); [discriminate|].
  exists r'. split; [reflexivity|]. split; [exact Ha|apply Hfeed].
Defined.
