(* ===== verification/Interleaving.v ===== *)
(** * Handlers of the resource service, interleaved

    A handler of [internal/resource/service.go] that rewrites a resource reads
    its row first, computes the new values in Go and then issues one UPDATE; no
    transaction holds the two together.  Here each such handler is split at its
    write ([prepare], [perform]), the split is proved to be the handler, and
    any number of handlers run at once: between the read and the write of one,
    any of the others may run.  The operations that are one statement
    (creation, the claim, the delete mark, the host flag) and the reads stay
    whole. *)

From S2P Require Import Prelude Json Storage World AppError Queries Evolution Mrn Resource Sample WorkFeed.

(** ** The two phases *)

(** The handlers that read before they write, with their arguments. *)
Inductive request :=
  | RqSpec (id : Z) (in_ : UpdateSpecInput)
  | RqStatus (id : Z) (in_ : UpdateStatusInput)
  | RqReport (agent id : Z) (in_ : AgentReportInput) (budget : Z)
  | RqRedispatch (id : Z).

(** The write a handler is about to issue. *)
Inductive intent :=
  | WSpec (id : Z) (spec meta : value) (mrn : mrnParts)
  | WStatus (id : Z) (status : value) (state : string) (observed : Z)
  | WReport (agent : Z) (current : ResourceRow) (params : ApplyAgentReportParams)
  | WRedispatch (id : Z).

Section Phases.
Context {T : GoText} {K : WorkloadKit}.

(** Each handler up to its write. *)
Definition UpdateSpec_prepare (id : Z) (in_ : UpdateSpecInput) : M error intent :=
  current ← or_not_found "resource" (GetResourceByUUID id);
  spec ←
    match us_Spec in_ with
    | Some _ =>
        spec ← or_validation "invalid spec" (marshalMap (us_Spec in_));
        check_spec (r_Kind current) spec;;
        mret spec
    | None => mret (r_Spec current)
    end;
  meta ←
    match us_Metadata in_ with
    | Some _ => or_validation "invalid metadata" (marshalMap (us_Metadata in_))
    | None => mret (r_Metadata current)
    end;
  let metaMap := default (JSONToMap (r_Metadata current)) (us_Metadata in_) in
  projectRow ← or_return (GetProjectByID (r_ProjectID current));
  tenantRow ← or_return (GetTenantByID (r_TenantID current));
  mrn ← lift (result_map_err NewValidation
           (buildMRN (t_Name tenantRow) (p_Name projectRow) (r_Kind current)
              (r_Name current) metaMap));
  mret (WSpec id spec meta mrn).

Definition UpdateStatus_prepare (id : Z) (in_ : UpdateStatusInput) : M error intent :=
  current ← or_not_found "resource" (GetResourceByUUID id);
  status ←
    match ut_Status in_ with
    | Some _ => or_validation "invalid status" (marshalMap (ut_Status in_))
    | None => mret (r_Status current)
    end;
  mret (WStatus id status
    (if negb (is_empty (ut_State in_)) then ut_State in_ else r_State current)
    (if 0 <? ut_ObservedGeneration in_ then ut_ObservedGeneration in_
     else r_ObservedGeneration current)).

Definition ApplyReport_prepare (agent id : Z) (in_ : AgentReportInput) (budget : Z)
    : M error intent :=
  current ← or_not_found "resource" (GetResourceByUUID id);
  if negb (owned_by agent current)
  then fail (NewForbidden "resource is not assigned to this agent")
  else
    statusJSON ←
      match ar_Status in_ with
      | Some _ => or_validation "invalid status" (marshalMap (ar_Status in_))
      | None => mret (r_Status current)
      end;
    now ← time_Now;
    mret (WReport agent current
      (reportParams id now (if budget <? 1 then 10 else budget) current statusJSON in_)).

Definition RedispatchSystem_prepare (id : Z) : M error intent :=
  current ← or_not_found "resource" (GetResourceByUUID id);
  if str_eqb (r_State current) "deleting"
  then fail (NewForbidden "a resource being torn down is never re-dispatched")
  else mret (WRedispatch id).

Definition prepare (q : request) : M error intent :=
  match q with
  | RqSpec id in_ => UpdateSpec_prepare id in_
  | RqStatus id in_ => UpdateStatus_prepare id in_
  | RqReport agent id in_ budget => ApplyReport_prepare agent id in_ budget
  | RqRedispatch id => RedispatchSystem_prepare id
  end.

(** The write. *)
Definition perform (x : intent) : M error ResourceRow :=
  match x with
  | WSpec id spec meta mrn =>
      or_return (UpdateResourceSpec id spec meta (mrn_Service mrn) (mrn_Tenant mrn)
                   (mrn_Project mrn) (mrn_ResourceType mrn) (mrn_ResourcePath mrn))
  | WStatus id status state observed => or_return (UpdateResourceStatus id status state observed)
  | WReport _ _ params => or_not_found "resource" (ApplyAgentReport params)
  | WRedispatch id => or_not_found "resource" (RedispatchSystemResource id)
  end.

(** What the handlers that answer with a resource do after the write. *)
Definition answer (row : ResourceRow) : M error Resource :=
  projectUUID ← resolveProjectUUID (r_ProjectID row);
  mret (toResource row projectUUID).

(** *** The phases are the handlers *)


(** Case analysis on the next query of the handler; a failure is the same on
    both sides. *)
Ltac next_query :=
  lazymatch goal with
  | |- (match ?X with pair _ _ => _ end) = _ => destruct X as [[?|?] ?]; [|done]
  | |- (if ?b then _ else _) _ = _ => destruct b; [done|]
  end.

Lemma UpdateSpec_phases id in_ w :
  UpdateSpec id in_ w = ((prepare (RqSpec id in_) ≫= perform) ≫= answer) w.
Proof.
  unfold UpdateSpec, prepare, UpdateSpec_prepare, answer, mbind, M_bind. cbv zeta. do 6 next_query. done.
Qed.

Lemma UpdateStatus_phases id in_ w :
  UpdateStatus id in_ w = ((prepare (RqStatus id in_) ≫= perform) ≫= answer) w.
Proof. unfold UpdateStatus, prepare, UpdateStatus_prepare, answer, mbind, M_bind. do 2 next_query. done. Qed.

Lemma ApplyReport_phases agent id in_ budget w :
  ApplyReport agent id in_ budget w
  = ((prepare (RqReport agent id in_ budget) ≫= perform) ≫= answer) w.
Proof. unfold ApplyReport, prepare, ApplyReport_prepare, answer, mbind, M_bind. do 3 next_query. done. Qed.

Lemma RedispatchSystem_phases id w :
  RedispatchSystem id w
  = ((prepare (RqRedispatch id) ≫= perform) ≫= fun row => mret (toSystemInstance row)) w.
Proof. unfold RedispatchSystem, prepare, RedispatchSystem_prepare, mbind, M_bind. do 2 next_query. done. Qed.
End Phases.

(** ** The system *)

(** The database with the writes that handlers have prepared and not issued. *)
Record sys := Sys { sy_world : World; sy_open : list intent }.

(** The operations that are whole: one statement, or no write. *)
Definition whole (o : op) : Prop :=
  match o with
  | OpUpdateSpec _ _ | OpUpdateStatus _ _ | OpReport _ _ _ _ | OpRedispatch _ => False
  | _ => True
  end.
#[global] Instance whole_dec o : Decision (whole o).
Proof. destruct o; cbn; apply _. Defined.

(** A whole operation runs, a handler reaches its write, a handler issues its
    write (the write may fail), or the environment moves: clocks, UUIDs to be
    drawn and faults to come. *)
Inductive sys_step {T : GoText} {K : WorkloadKit} : relation sys :=
  | sy_whole o w xs : whole o -> sys_step (Sys w xs) (Sys (snd (run o w)) xs)
  | sy_prepare q w xs x w' :
      prepare q w = (Ok x, w') -> sys_step (Sys w xs) (Sys w' (x :: xs))
  | sy_perform w pre x post :
      sys_step (Sys w (pre ++ x :: post)) (Sys (snd (perform x w)) (pre ++ post))
  | sy_env w w' xs : w_db w' = w_db w -> sys_step (Sys w xs) (Sys w' xs).

(** ** What a prepared write knows *)

(** A prepared report was computed from an earlier version of a row that is
    still there, for the agent that version was assigned to. *)
Definition intent_ok {T : GoText} (d : Db) (x : intent) : Prop :=
  match x with
  | WReport agent current params =>
      (exists r, r ∈ tbl_rows (resources d) /\ evolves current r)
      /\ r_AgentID current = Some agent /\ r_DeletedAt current = None
      /\ exists now budget status in_,
           params = reportParams (r_ResourceUuid current) now budget current status in_
  | _ => True
  end.

Section Prepared.
Context {T : GoText} {K : WorkloadKit}.

Lemma prepare_reads q : advances eq (prepare q).
Proof. destruct q; cbn [prepare]; advance. Qed.

Lemma prepare_ok q w x w' : prepare q w = (Ok x, w') -> intent_ok (w_db w) x.
Proof.
  destruct q; cbn [prepare]; unfold UpdateSpec_prepare, UpdateStatus_prepare, ApplyReport_prepare,
    RedispatchSystem_prepare; cbv zeta; try (intros Hp; repeat (apply bind_run_Ok_inv in Hp as (? & ? & ? & Hp)); injection Hp as <- <-; exact I).
  - intros (cur & w1 & Hg & Hp)%bind_run_Ok_inv.
    apply map_err_Ok_inv, q_get_Ok_inv in Hg as (Hr & Hl & Hid & _). apply Z.eqb_eq in Hid.
    destruct (negb _) eqn:Ho; [done|]. unfold owned_by, opt_eqb in Ho. split_bools.
    apply bind_run_Ok_inv in Hp as (status & w2 & _ & Hp).
    apply bind_run_Ok_inv in Hp as (now & w3 & _ & Hp). injection Hp as <- <-.
    cbn. rewrite Hid. split_and!; [by exists cur|done|done|eauto].
  - intros (cur & w1 & _ & Hp)%bind_run_Ok_inv. destruct (str_eqb _ _); [done|]. by injection Hp as <- <-.
Qed.

(** What a prepared write knows survives every change the service makes. *)
Lemma intent_ok_advances d d' x : rows_advance evolves (resources d) (resources d') ->
  intent_ok d x -> intent_ok d' x.
Proof.
  intros Ha. destruct x as [| |agent cur params|]; try done. cbn. intros [(r & Hr & Hev) H].
  split; [|done]. destruct (rows_advance_elem _ _ _ _ Ha Hr) as (r' & Hr' & Hev').
  exists r'. split; [done|]. by etransitivity.
Qed.
End Prepared.
