(* ===== verification/Lifecycle.v ===== *)
(** * The life of a resource

    The abstract machine behind [internal/resource]: what can happen to a
    resource, without the columns, the queries or the order in which handlers
    read and write.  The theorem of this file is that the service implements it:
    however its handlers interleave and whichever queries fail, every step of
    the system moves every resource along the machine or leaves it where it is,
    and every new resource starts in the machine's initial state. *)

From S2P Require Import Prelude Json Storage World AppError Queries Evolution Mrn Resource Sample WorkFeed Reports Interleaving.

(** ** The machine *)

Inductive stage :=
  | Pending | Running | Retrying | Parked | Teardown | Gone
  | Other (state : string).

Definition stage_of_state (s : string) : stage :=
  if str_eqb s "pending" then Pending
  else if str_eqb s "running" then Running
  else if str_eqb s "error" then Retrying
  else if str_eqb s "failed" then Parked
  else if str_eqb s "deleting" then Teardown
  else Other s.

(** Desired and observed revision, the agent the resource is assigned to, the
    end of the dispatch lease and the failed attempts of the current budget. *)
Record life := Life {
  l_stage : stage; l_owner : option Z; l_desired : Z; l_observed : Z;
  l_lease : option Z; l_attempts : Z }.

Definition life_of (r : ResourceRow) : life := {|
  l_stage := match r_DeletedAt r with Some _ => Gone | None => stage_of_state (r_State r) end;
  l_owner := r_AgentID r; l_desired := r_Generation r; l_observed := r_ObservedGeneration r;
  l_lease := r_LeasedUntil r; l_attempts := r_Attempts r |}.

Definition born : life := Life Pending None 1 0 None 0.

Definition living (l : life) : Prop := l_stage l <> Gone.
Definition lease_over (now : Z) (l : life) : Prop :=
  match l_lease l with None => True | Some until => until < now end.
(** There is work to do for the agent: the desired revision is ahead, a retry
    is due or a teardown is wanted. *)
Definition outstanding (l : life) : Prop :=
  l_observed l < l_desired l \/ l_stage l = Retrying \/ l_stage l = Teardown.
(** [c] is a version the resource had earlier in its life. *)
Definition earlier (c l : life) : Prop :=
  living c /\ l_desired c <= l_desired l /\ (forall a, l_owner c = Some a -> l_owner l = Some a).

(** What a report makes of the resource (its stage, the revision it answers for
    and the attempts), as computed from the version [c] the handler had read. *)
Inductive report (c : life) : stage -> Z -> Z -> Prop :=
  | rep_running og : report c Running og 0
  | rep_retry n : n = int32 (l_attempts c + 1) -> l_stage c <> Teardown -> report c Retrying 0 n
  | rep_retry_teardown n : n = int32 (l_attempts c + 1) -> l_stage c = Teardown ->
      report c Teardown 0 n
  | rep_park n : n = int32 (l_attempts c + 1) -> report c Parked 0 n
  | rep_removed : l_stage c = Teardown -> report c Gone (l_desired c) (l_attempts c)
  | rep_unchanged og : report c (l_stage c) og (l_attempts c)
  | rep_other s og : s <> "running" -> s <> "failed" -> s <> "" ->
      report c (stage_of_state s) og (l_attempts c).

Inductive lstep (l : life) : life -> Prop :=
  (* the operator declares a new spec *)
  | ls_respec : living l ->
      lstep l (Life Pending (l_owner l) (l_desired l + 1) (l_observed l) (l_lease l) 0)
  (* the operator overrides the observed state *)
  | ls_override s observed : living l ->
      lstep l (Life (stage_of_state s) (l_owner l) (l_desired l) observed (l_lease l) (l_attempts l))
  (* the operator asks for the removal *)
  | ls_delete : living l ->
      lstep l (Life Teardown (l_owner l) (l_desired l) (l_observed l) (l_lease l) (l_attempts l))
  (* an agent takes the work: only its own or nobody's, and under no lease *)
  | ls_claim now a ttl : living l -> l_stage l <> Parked -> outstanding l ->
      (l_owner l = Some a \/ l_owner l = None) -> lease_over now l -> 0 < ttl ->
      lstep l (Life (l_stage l) (Some a) (l_desired l) (l_observed l) (Some (now + ttl)) (l_attempts l))
  (* the owner reports; the lease ends *)
  | ls_report a c st og n : living l -> l_owner l = Some a -> l_owner c = Some a -> earlier c l ->
      report c st og n ->
      lstep l (Life st (Some a) (l_desired l) (Z.max (l_observed l) og) None n)
  (* keep-alive puts the resource back to work, never one being torn down *)
  | ls_redispatch : living l -> l_stage l <> Teardown ->
      lstep l (Life Pending (l_owner l) (l_desired l + 1) (l_observed l) None 0).

(** ** Facts about the machine *)

Lemma stage_of_state_living s : stage_of_state s <> Gone.
Proof. unfold stage_of_state. by repeat case_match. Qed.

(** The stages the feed and the teardown test for are the columns' texts. *)
Lemma stage_of_state_named s :
  (stage_of_state s = Retrying <-> s = "error") /\ (stage_of_state s = Parked <-> s = "failed")
  /\ (stage_of_state s = Teardown <-> s = "deleting").
Proof.
  unfold stage_of_state.
  repeat (case_match; [split_bools; subst; (split_and!; split; (done || discriminate))|]).
  split_bools. split_and!; split; (congruence || done).
Qed.

(** A resource that is gone stays as it is. *)
Lemma gone_final l l' : lstep l l' -> living l.
Proof. by destruct 1. Qed.

(** The assignment is sticky and the desired revision never goes back. *)
Lemma lstep_keeps l l' : lstep l l' ->
  l_desired l <= l_desired l' /\ (forall a, l_owner l = Some a -> l_owner l' = Some a).
Proof.
  destruct 1 as [| | |? ? ? ? ? ? [Ho|Ho]|? ? ? ? ? ? Ho|]; cbn; (split; [lia|]); try done;
    intros a' Ha; congruence.
Qed.

Lemma lsteps_keep l l' : rtc lstep l l' ->
  l_desired l <= l_desired l' /\ (forall a, l_owner l = Some a -> l_owner l' = Some a).
Proof.
  induction 1 as [|l1 l2 l3 H12 _ [IH1 IH2]]; [split; [lia|done]|].
  destruct (lstep_keeps _ _ H12) as [H1 H2]. split; [lia|auto].
Qed.

(** A lease is only ever replaced once it is over, or ended by the owner or by
    keep-alive. *)
Lemma lstep_removed l l' : lstep l l' -> l_stage l' = Gone ->
  l_lease l' = None /\ exists a, l_owner l = Some a.
Proof.
  destruct 1 as [Hl|? ? Hl|Hl|? ? ? Hl|? c ? ? ? Hl Ho _ _ Hrep|Hl]; cbn; try done;
    try (intros E; by destruct (stage_of_state_living s)); try (intros E; by destruct Hl).
  intros ->. split; [done|]. by exists a.
Qed.

(** ** Every write is a step *)

Definition lives (r r' : ResourceRow) : Prop := evolves r r' /\ rtc lstep (life_of r) (life_of r').
#[global] Instance lives_preorder : PreOrder lives.
Proof.
  split; unfold lives; [by split|]. intros r1 r2 r3 [H1 H2] [H3 H4]. split; by etransitivity.
Qed.

Section Writes.
Context {T : GoText}.
Implicit Types r : ResourceRow.

Lemma life_living r : r_DeletedAt r = None -> living (life_of r).
Proof. intros E. unfold living, life_of. cbn. rewrite E. apply stage_of_state_living. Qed.

Lemma life_stage r : r_DeletedAt r = None -> l_stage (life_of r) = stage_of_state (r_State r).
Proof. intros E. cbn. by rewrite E. Qed.

(** A write that evolves the row and is one step of its life. *)
Lemma lives_once r r' l' : evolves r r' -> lstep (life_of r) l' -> life_of r' = l' -> lives r r'.
Proof. intros Hev Hs <-. split; [done|by apply rtc_once]. Qed.

Ltac life_eq Hl := unfold life_of; cbn; rewrite ?Hl; reflexivity.

Lemma spec_lives r spec meta a b c d e now : r_DeletedAt r = None ->
  lives r (UpdateResourceSpec_row spec meta a b c d e now r).
Proof.
  intros Hl. eapply lives_once; [|apply ls_respec, life_living, Hl|life_eq Hl].
  by apply (evolves_all (OpUpdateSpec (r_ResourceUuid r) (Build_UpdateSpecInput None None))).
Qed.

Lemma status_lives r status state og now : r_DeletedAt r = None ->
  lives r (UpdateResourceStatus_row status state og now r).
Proof.
  intros Hl. eapply lives_once; [|apply (ls_override _ state og), life_living, Hl|life_eq Hl].
  by apply (evolves_all (OpUpdateStatus (r_ResourceUuid r) (Build_UpdateStatusInput None "" 0))).
Qed.

Lemma delete_lives r now : r_DeletedAt r = None -> lives r (MarkResourceDeleting_row now r).
Proof.
  intros Hl. eapply lives_once; [|apply ls_delete, life_living, Hl|life_eq Hl].
  by apply (evolves_all (OpDelete (r_ResourceUuid r))).
Qed.

Lemma flag_lives r now : r_DeletedAt r = None -> lives r (FlagResourceHostUnreachable_row now r).
Proof. intros Hl. split; [by apply (evolves_all (OpFlag (r_ResourceUuid r)))|]. reflexivity. Qed.

Lemma redispatch_lives r now : r_DeletedAt r = None -> r_State r <> "deleting" ->
  lives r (RedispatchSystemResource_row now r).
Proof.
  intros Hl Hs. eapply lives_once; [|apply ls_redispatch; [by apply life_living|]|life_eq Hl].
  - by apply (evolves_all (OpRedispatch (r_ResourceUuid r))).
  - rewrite life_stage by done. by intros E%stage_of_state_named.
Qed.

Lemma claim_lives r now a ttl : r_DeletedAt r = None ->
  (r_AgentID r = Some a \/ r_AgentID r = None) -> in_feed now r = true -> 0 < ttl ->
  lives r (claim_stamp now a ttl r).
Proof.
  intros Hl Ho Hf Ht. eapply lives_once;
    [by apply (evolves_all (OpClaim a 1 1) now ttl) |apply (ls_claim _ now a ttl)|life_eq Hl];
    [by apply life_living| | |exact Ho| |exact Ht]; unfold in_feed, lags, lease_free in Hf.
  - rewrite life_stage by done. intros E%stage_of_state_named. rewrite E in Hf. split_bools. done.
  - unfold outstanding. rewrite life_stage by done. split_bools.
    match goal with E : _ || _ = true |- _ => apply orb_true_iff in E as [E|E] end; split_bools.
    + match goal with E : _ || _ = true |- _ => apply orb_true_iff in E as [E|E] end; split_bools;
        [left; cbn; lia|right; right; by apply stage_of_state_named].
    + right; left. by apply stage_of_state_named.
  - unfold lease_over. cbn. destruct (r_LeasedUntil r); split_bools; [lia|done].
Qed.
Lemma evolves_earlier c r : r_DeletedAt c = None -> evolves c r -> earlier (life_of c) (life_of r).
Proof. intros Hl []. split_and!; [by apply life_living|done|done]. Qed.

(** A report, computed from a version of the row that may be out of date. *)
Lemma report_lives r c agent gonow budget status in_ now :
  r_DeletedAt r = None -> r_DeletedAt c = None -> r_AgentID c = Some agent -> evolves c r ->
  lives r (ApplyAgentReport_row (reportParams (r_ResourceUuid c) gonow budget c status in_) now r).
Proof.
  intros Hl Hc Ho Hev. pose proof (ev_agent _ _ Hev _ Ho) as Hor.
  set (p := reportParams (r_ResourceUuid c) gonow budget c status in_).
  assert (Hrep : report (life_of c)
    (if arp_Finalize p then Gone else stage_of_state (arp_State p)) (arp_ObservedGeneration p) (arp_Attempts p)).
  { unfold p, reportParams.
    destruct (str_eqb (ar_State in_) "running") eqn:E1; [apply rep_running|].
    destruct (str_eqb (ar_State in_) "failed") eqn:E2.
    { destruct (_ <=? _); cbn; [by apply rep_park|].
      destruct (str_eqb (r_State c) "deleting") eqn:E3; split_bools.
      - apply rep_retry_teardown; [done|]. rewrite life_stage by done. by apply stage_of_state_named.
      - apply rep_retry; [done|]. rewrite life_stage by done. by intros ?%stage_of_state_named. }
    destruct (str_eqb (ar_State in_) "removed") eqn:E3; split_bools.
    - rewrite E3. destruct (str_eqb (r_State c) "deleting") eqn:E4; cbn; split_bools.
      + apply rep_removed. rewrite life_stage by done. by apply stage_of_state_named.
      + by refine (rep_other (life_of c) "removed" _ _ _ _).
    - cbn. destruct (is_empty (ar_State in_)) eqn:E4.
      + rewrite <- (life_stage c Hc). apply rep_unchanged.
      + apply rep_other; try done. intros E. by rewrite E in E4. }
  eapply lives_once; [| |].
  - pose proof (evolves_all (OpReport agent (r_ResourceUuid r) in_ budget) gonow budget c status now r Hl eq_refl)
      as H. unfold p. rewrite <- (ev_uuid _ _ Hev). exact H.
  - apply (ls_report _ agent (life_of c)); [by apply life_living|done|done|by apply evolves_earlier|exact Hrep].
  - unfold life_of. cbn. rewrite Hl, Hor. by destruct (arp_Finalize p).
Qed.
End Writes.

(** ** The simulation *)

(** The rows of the table follow the machine, and new ones start at its initial
    state. *)
Definition follows : relation Db := on_rows resources lives (fun r => rtc lstep born (life_of r)).

#[global] Instance follows_preorder : PreOrder follows.
Proof. apply on_rows_preorder; [apply _|]. intros r r' [_ H] Hr. by etransitivity. Qed.

Section Simulation.
Context {T : GoText} {K : WorkloadKit}.

Lemma follows_update p f :
  (forall w r, same_keys r (f w r)) ->
  (forall w r, table_wf (resources (w_db w)) -> r ∈ tbl_rows (resources (w_db w)) ->
     r_DeletedAt r = None -> p w r = true -> lives r (f w r)) ->
  advances follows (q_update resources p f).
Proof.
  intros Hk Hf. apply advances_update; [apply _|]. intros w rs t.
  apply on_rows_updated; [apply _|apply _|apply Hk|apply Hf].
Qed.

Lemma follows_update_one p f :
  (forall w r, same_keys r (f w r)) ->
  (forall w r, table_wf (resources (w_db w)) -> r ∈ tbl_rows (resources (w_db w)) ->
     r_DeletedAt r = None -> p w r = true -> lives r (f w r)) ->
  advances follows (q_update_one resources p f).
Proof. intros Hk Hf. apply advances_bind; [apply _|by apply follows_update|]. intros [|? ?]; advance. Qed.

Lemma follows_update_one_at p f w :
  (forall w1 r, same_keys r (f w1 r)) ->
  (forall w1 r, table_wf (resources (w_db w)) -> r ∈ tbl_rows (resources (w_db w)) ->
     r_DeletedAt r = None -> p w1 r = true -> lives r (f w1 r)) ->
  follows (w_db w) (w_db (snd (q_update_one resources p f w))).
Proof.
  intros Hk Hf. set (w1 := w <| w_faults := tail (w_faults w) |>).
  assert (Hq : follows (w_db w) (w_db (snd (
    match update (p w1) (f w1) (resources (w_db w1)) with
    | Ok (rs, t) => (Ok rs, w1 <| w_db := set_field resources (fun _ => t) (w_db w1) |>)
    | Err e => (Err e, w1)
    end)))).
  { destruct (update _ _ _) as [[rs t]|e] eqn:E; [|reflexivity].
    apply (on_rows_updated resources lives _ (p w1) (f w1) (w_db w) rs t); [apply Hk|apply Hf|exact E]. }
  unfold q_update_one, q_update, query, mbind, M_bind.
  destruct (w_faults w) as [|[] ?]; cbn; try reflexivity; try exact Hq; fold w1;
    (destruct (update _ _ _) as [[[|r rs] t]|e]; exact Hq).
Qed.

Lemma follows_create p : crp_AgentID p = None -> advances follows (CreateResource p).
Proof.
  intros Hp. apply advances_insert; [apply _|]. intros w r t.
  apply on_rows_inserted; [apply _|apply _|done|]. intros id.
  apply (eq_ind born (rtc lstep born)); [reflexivity|]. unfold life_of. cbn. by rewrite Hp.
Qed.
Hint Resolve follows_create : advances.

(** Every operation that runs as a whole follows the machine. *)
Lemma whole_follows o : whole o -> advances follows (run o).
Proof.
  intros Hw. destruct o; try done; cbn [run]; advance.
  - apply follows_update; [done|]. intros w r _ _ Hl _. by apply delete_lives.
  - apply follows_update; [done|]. intros w r Hwf Hr Hl Hc.
    apply claim_hit in Hc; [|done..]. apply andb_true_iff in Hc as [[_ Hc]%andb_true_iff _].
    unfold claimable in Hc. apply andb_true_iff in Hc as [Hfeed Hc]. unfold opt_eqb in Hc.
    apply claim_lives; [done| |done|by destruct (Z.leb_spec ttl 0)].
    apply orb_true_iff in Hc as [?%bool_decide_eq_true|?%bool_decide_eq_true]; auto.
  - apply follows_update_one; [done|]. intros w r _ _ Hl _. by apply flag_lives.
Qed.

(** So does every write a handler prepared, whatever ran since. *)
Lemma perform_follows x w : intent_ok (w_db w) x -> follows (w_db w) (w_db (snd (perform x w))).
Proof.
  intros Hx. destruct x as [id spec meta mrn|id status state observed|agent cur params|id]; cbn [perform].
  - unfold or_return. rewrite map_err_db.
    apply follows_update_one_at; [done|]. intros w1 r _ _ Hl _. by apply spec_lives.
  - unfold or_return. rewrite map_err_db.
    apply follows_update_one_at; [done|]. intros w1 r _ _ Hl _. by apply status_lives.
  - unfold or_not_found. rewrite map_err_db.
    destruct Hx as ((q & Hq & Hev) & Ho & Hc & now & budget & status & in_ & ->).
    apply follows_update_one_at; [done|]. rewrite reportParams_uuid. intros w1 r Hwf Hr Hl Hp.
    apply Z.eqb_eq in Hp. assert (E : q = r).
    { apply (wf_uuid_inj _ q r Hwf Hq Hr). cbn. rewrite Hp. apply Hev. }
    subst q. by eapply report_lives.
  - unfold or_not_found. rewrite map_err_db.
    apply follows_update_one_at; [done|]. intros w1 r _ _ Hl Hp. split_bools. by apply redispatch_lives.
Qed.
End Simulation.

(** ** The system follows the machine *)

Section Refinement.
Context {T : GoText} {K : WorkloadKit}.

Definition sys_rows (s : sys) : list ResourceRow := tbl_rows (resources (w_db (sy_world s))).

Record sys_inv (s : sys) : Prop := {
  si_wf : table_wf (resources (w_db (sy_world s)));
  si_open : Forall (intent_ok (w_db (sy_world s))) (sy_open s);
}.

Lemma follows_evolves d d' : follows d d' -> table_wf (resources d) ->
  table_wf (resources d') /\ rows_advance evolves (resources d) (resources d').
Proof.
  intros Hf Hwf. destruct (Hf Hwf) as [Hwf' (old & new & E & F & _)]. split; [done|].
  exists old, new. split; [done|]. eapply Forall2_impl; [exact F|]. by intros r r' [? _].
Qed.

Lemma inv_follows w xs w' xs' : sys_inv (Sys w xs) -> follows (w_db w) (w_db w') ->
  Forall (intent_ok (w_db w)) xs' -> sys_inv (Sys w' xs').
Proof.
  intros [Hwf _] Hf Hxs. destruct (follows_evolves _ _ Hf Hwf) as [Hwf' Hev]. split; [done|].
  eapply Forall_impl; [exact Hxs|]. intros x. by apply intent_ok_advances.
Qed.

Lemma sys_step_follows s s' : sys_inv s -> sys_step s s' ->
  follows (w_db (sy_world s)) (w_db (sy_world s')) /\ sys_inv s'.
Proof.
  intros Hi Hs. revert Hi. destruct Hs as [o w xs Hw|q w xs x w' Hp|w pre x post|w w' xs E]; intros Hi;
    pose proof (si_open _ Hi) as Hx; cbn [sy_open sy_world] in *.
  - pose proof (whole_follows o Hw w) as H. split; [done|]. by apply (inv_follows w xs).
  - assert (E : w_db w' = w_db w) by (pose proof (prepare_reads q w) as E; by rewrite Hp in E).
    rewrite E. split; [reflexivity|]. apply (inv_follows w xs); [done|by rewrite E|].
    constructor; [by eapply prepare_ok|done].
  - apply Forall_app in Hx as [Hpre [Hx Hpost]%Forall_cons].
    pose proof (perform_follows x w Hx) as H. split; [done|].
    apply (inv_follows w (pre ++ x :: post)); [done..|]. by apply Forall_app.
  - rewrite E. split; [reflexivity|]. apply (inv_follows w xs); [done|by rewrite E|done].
Qed.

Lemma sys_steps_follow s s' : sys_inv s -> rtc sys_step s s' ->
  follows (w_db (sy_world s)) (w_db (sy_world s')) /\ sys_inv s'.
Proof.
  intros Hi Hs. induction Hs as [s|s1 s2 s3 H12 _ IH]; [by split|].
  destruct (sys_step_follows _ _ Hi H12) as [F Hi2]. destruct (IH Hi2) as [F' Hi3].
  split; [by etransitivity|done].
Qed.

Lemma idle_sys w : table_wf (resources (w_db w)) -> sys_inv (Sys w []).
Proof. intros Hwf. by split. Qed.
End Refinement.


(** Agent 1 is about to report the teardown of [gone] when [front] is claimed. *)
Definition removed_in : AgentReportInput := Build_AgentReportInput "removed" None 0.
Definition removal_intent : intent :=
  WReport 1 gone (@reportParams plain_text 403 1000 5 gone (VObj []) removed_in).
Definition removal_prepared : sys := Sys sample_world [removal_intent].
Definition removal_claimed : sys :=
  Sys (snd (@run plain_text open_kit (OpClaim 1 10 Minute) sample_world)) [removal_intent].
Definition removal_done : sys :=
  Sys (snd (perform removal_intent (sy_world removal_claimed))) [].

Lemma removal_run : rtc (@sys_step plain_text open_kit) removal_prepared removal_done.
Proof.
  eapply rtc_l; [exact (sy_whole (OpClaim 1 10 Minute) sample_world [removal_intent] I)|].
  apply rtc_once. exact (sy_perform (sy_world removal_claimed) [] removal_intent []).
Qed.

Lemma removal_start : rtc (@sys_step plain_text open_kit) (Sys sample_world []) removal_prepared.
Proof.
  apply rtc_once. refine (sy_prepare (RqReport 1 403 removed_in 5) _ _ _ _ _). vm_compute. reflexivity.
Qed.

