(* ===== verification/Races.v ===== *)
(** * Checks that outlive the read, and checks that do not

    A handler of the resource service checks the row it read and writes later.
    Ownership cannot change in between; the teardown intent can. *)

From S2P Require Import Prelude Json Storage World AppError Queries Evolution Mrn Resource Sample WorkFeed Reports Interleaving Lifecycle.

(** C7: a report is only ever written for the agent that owns the resource at
    that moment.  The gateway checks ownership on the row it read, and whatever
    ran between the check and the write (other agents' claims, operators,
    keep-alive), the row it is about to write is still assigned to the reporting
    agent, is a later version of the one that was checked, and no claim of
    another agent can be granted it. *)
Theorem report_check_stable {T : GoText} {K : WorkloadKit} w s agent current params r :
  table_wf (resources (w_db w)) -> rtc sys_step (Sys w []) s ->
  WReport agent current params ∈ sy_open s ->
  r ∈ sys_rows s -> r_ResourceUuid r = arp_ResourceUuid params ->
  r_AgentID r = Some agent /\ r_AgentID current = Some agent
  /\ r_ResourceUuid current = r_ResourceUuid r /\ r_Generation current <= r_Generation r
  /\ (forall now b, b <> agent -> claimable now b r = false).
Proof.
  intros Hwf Hs Hin Hr Hid. destruct (sys_steps_follow _ _ (idle_sys w Hwf) Hs) as [_ [Hwf' Hx]].
  rewrite Forall_forall in Hx. specialize (Hx _ Hin). cbn in Hx.
  destruct Hx as ((q & Hq & Hev) & Ho & _ & now & budget & status & in_ & ->).
  rewrite reportParams_uuid in Hid.
  assert (E : q = r) by (apply (wf_uuid_inj _ q r Hwf' Hq Hr); cbn; rewrite Hid; apply Hev). subst q.
  pose proof (ev_agent _ _ Hev _ Ho) as Hor.
  split_and!; [done|done|done|apply Hev|]. intros t b Hb. unfold claimable, opt_eqb. rewrite Hor.
  rewrite !bool_decide_false by congruence. by rewrite andb_false_r.
Qed.

(** [gone] as agent 1 claimed it. *)
Definition gone_claimed : ResourceRow := claim_stamp 1000 1 Minute gone.

Lemma report_check_stable_witness :
  gone_claimed ∈ sys_rows removal_claimed /\ r_AgentID gone_claimed = Some 1
  /\ claimable 1000 2 gone_claimed = false.
Proof.
  assert (Hr : gone_claimed ∈ sys_rows removal_claimed) by (vm_compute; do 2 right; left).
  split; [exact Hr|].
  destruct (@report_check_stable plain_text open_kit sample_world removal_claimed 1 gone
    (@reportParams plain_text 403 1000 5 gone (VObj []) removed_in) gone_claimed) as (H1 & _ & _ & _ & H2);
    [apply sample_resources_wf| |left|exact Hr|reflexivity|].
  - eapply rtc_r; [apply removal_start|].
    exact (sy_whole (OpClaim 1 10 Minute) sample_world [removal_intent] I).
  - split; [exact H1|]. by apply H2.
Defined.

(** ** Teardown intent *)

(** A run of the service as a list of what happens, in order. *)
Inductive event :=
  | EvPrepare (q : request)
  | EvWhole (o : op)
  | EvPerform.

Section Replay.
Context {T : GoText} {K : WorkloadKit}.

(** [EvPerform] issues the write prepared last; [None] when an event is not
    possible. *)
Definition replay_one (e : event) (s : sys) : option sys :=
  match e with
  | EvPrepare q =>
      match prepare q (sy_world s) with
      | (Ok x, w') => Some (Sys w' (x :: sy_open s))
      | (Err _, _) => None
      end
  | EvWhole o => if decide (whole o) then Some (Sys (snd (run o (sy_world s))) (sy_open s)) else None
  | EvPerform =>
      match sy_open s with
      | x :: xs => Some (Sys (snd (perform x (sy_world s))) xs)
      | [] => None
      end
  end.

Definition replay (es : list event) (s : sys) : option sys :=
  foldl (fun s e => s ≫= replay_one e) (Some s) es.
End Replay.

Section ReplaySound.
Context {T : GoText} {K : WorkloadKit}.

Lemma replay_one_step e s s' : replay_one e s = Some s' -> sys_step s s'.
Proof.
  destruct s as [w xs]. destruct e as [q|o|]; cbn.
  - destruct (prepare q w) as [[x|?] w'] eqn:E; intros ?; simplify_eq. by eapply sy_prepare.
  - case_decide; intros ?; simplify_eq. by apply sy_whole.
  - destruct xs as [|x xs]; intros ?; simplify_eq. exact (sy_perform w [] x xs).
Qed.

Lemma replay_steps es s s' : replay es s = Some s' -> rtc sys_step s s'.
Proof.
  revert s s'. unfold replay. induction es as [|e es IH] using rev_ind; intros s s'; [intros [= <-]; constructor|].
  rewrite foldl_app. cbn. intros (s1 & H1 & H2)%bind_Some.
  eapply rtc_r; [apply IH; exact H1|by apply (replay_one_step e)].
Qed.
End ReplaySound.

(** The teardown intent is lost to a report that was being handled: agent 1
    reports a failed attempt at [back], the operator asks for the removal before
    the report is written, and the write puts the resource in the retry state of
    an ordinary failure.  The resource was in teardown, and at the end no
    teardown is wanted any more. *)
Theorem stale_failure_drops_teardown :
  exists s1 s2 r1 r2,
    @replay plain_text open_kit [EvPrepare (RqReport 1 402 fail_in 5); EvWhole (OpDelete 402)] (Sys sample_world []) = Some s1
    /\ @sys_step plain_text open_kit s1 s2 /\ sy_open s2 = []
    /\ sys_rows s1 !! 1%nat = Some r1 /\ l_stage (life_of r1) = Teardown
    /\ sys_rows s2 !! 1%nat = Some r2 /\ l_stage (life_of r2) = Retrying.
Proof.
  eexists _, _, _, _. split; [vm_compute; reflexivity|].
  split; [eapply (replay_one_step EvPerform); vm_compute; reflexivity|].
  split_and!; vm_compute; reflexivity.
Qed.

(** A resource that is declared again while the report of its removal is being
    handled is erased with its new spec: the operator's update is answered, and
    the row is deleted. *)
Theorem stale_removal_erases_redeclared :
  exists s1 r1 r2 s2,
    @replay plain_text open_kit [EvPrepare (RqReport 1 403 removed_in 5);
            EvPrepare (RqSpec 403 (Build_UpdateSpecInput (Some []) None)); EvPerform]
      (Sys sample_world []) = Some s1
    /\ sys_rows s1 !! 2%nat = Some r1 /\ l_stage (life_of r1) = Pending
    /\ @sys_step plain_text open_kit s1 s2
    /\ sys_rows s2 !! 2%nat = Some r2 /\ l_stage (life_of r2) = Gone
    /\ r_ObservedGeneration r2 < r_Generation r2.
Proof.
  eexists _, _, _, _. split; [vm_compute; reflexivity|]. split; [vm_compute; reflexivity|].
  split; [vm_compute; reflexivity|].
  split; [eapply (replay_one_step EvPerform); vm_compute; reflexivity|].
  split_and!; vm_compute; reflexivity.
Qed.
