(* ===== verification/Agent.v ===== *)
(** * The agent service

    [internal/agent/service.go] and [internal/agent/enrollment.go]: the hosts
    that execute work.  An agent row is created with the hash of a one-time
    join token; enrollment consumes the token and issues a client certificate;
    the first authenticated Register pins the row to a token subject; the
    heartbeat and the sweep move the row between 'online' and 'offline'.

    The random bytes a call draws are arguments of it ([None] when the read of
    the system's randomness fails).  [crypto/sha256] and [crypto/x509] are
    parameters ([Crypto]); what surrounds them (hexadecimal and base64 text,
    the checks on PEM blocks, the certificate template) is defined. *)

From S2P Require Import Prelude Json Storage World AppError Queries Resource.

(** ** Cryptography *)

(** The fields of a parsed certificate request the source reads. *)
Record CertificateRequest := {
  csr_DNSNames : list string; csr_IPAddresses : list string; csr_URIs : list string;
  csr_PublicKey : string; csr_Raw : string }.

Record CertificateTemplate := {
  tpl_SerialNumber : Z; tpl_CommonName : string; tpl_NotBefore : Z; tpl_NotAfter : Z;
  tpl_KeyUsageDigitalSignature : bool; tpl_ExtKeyUsageClientAuth : bool;
  tpl_BasicConstraintsValid : bool; tpl_IsCA : bool;
  tpl_DNSNames : list string; tpl_IPAddresses : list string; tpl_URIs : list string }.

Record CACertificate := { ca_IsCA : bool; ca_Raw : string }.

(** A parsed private key, and whether it implements [crypto.Signer]. *)
Record PrivateKey := { key_signer : bool; key_Raw : string }.

Class Crypto := {
  sha256_Sum256 : string -> string;
  sha256_size : forall s, String.length (sha256_Sum256 s) = 32%nat;
  (* the type and the contents of the first PEM block *)
  pem_Decode : string -> option (string * string);
  pem_EncodeToMemory : string -> string -> string;
  x509_ParseCertificateRequest : string -> result string CertificateRequest;
  x509_CheckSignature : CertificateRequest -> option string;
  x509_ParseCertificate : string -> result string CACertificate;
  x509_ParsePKCS8PrivateKey : string -> option PrivateKey;
  x509_ParsePKCS1PrivateKey : string -> option PrivateKey;
  x509_ParseECPrivateKey : string -> option PrivateKey;
  x509_CreateCertificate :
    CertificateTemplate -> CACertificate -> string -> PrivateKey -> result string string;
}.

(** ** Text encodings *)

Definition hex_digit (n : nat) : ascii :=
  ascii_of_nat (if Nat.ltb n 10 then 48 + n else 87 + n).
Definition hex_value (a : ascii) : option nat :=
  let n := nat_of_ascii a in
  if between 48 57 n then Some (n - 48)%nat
  else if between 97 102 n then Some (n - 87)%nat
  else if between 65 70 n then Some (n - 55)%nat
  else None.

Fixpoint hex_EncodeToString (s : string) : string :=
  match s with
  | EmptyString => EmptyString
  | String a s' =>
      String (hex_digit (nat_of_ascii a / 16))
        (String (hex_digit (nat_of_ascii a mod 16)) (hex_EncodeToString s'))
  end.

(** [None] when the text has an odd length or a character that is no digit. *)
Fixpoint hex_DecodeString (s : string) : option string :=
  match s with
  | EmptyString => Some EmptyString
  | String a (String b s') =>
      match hex_value a, hex_value b, hex_DecodeString s' with
      | Some x, Some y, Some r => Some (String (ascii_of_nat (16 * x + y)) r)
      | _, _, _ => None
      end
  | String _ EmptyString => None
  end.

Definition base64url_digit (n : nat) : ascii :=
  ascii_of_nat (if Nat.ltb n 26 then 65 + n else if Nat.ltb n 52 then 71 + n
    else if Nat.ltb n 62 then n - 4 else if Nat.eqb n 62 then 45 else 95).

(** [base64.RawURLEncoding.EncodeToString]: no padding. *)
Fixpoint base64_RawURLEncoding (l : list nat) : string :=
  match l with
  | a :: b :: c :: r =>
      String (base64url_digit (a / 4))
        (String (base64url_digit (a mod 4 * 16 + b / 16))
          (String (base64url_digit (b mod 16 * 4 + c / 64))
            (String (base64url_digit (c mod 64)) (base64_RawURLEncoding r))))
  | [a; b] =>
      String (base64url_digit (a / 4))
        (String (base64url_digit (a mod 4 * 16 + b / 16))
          (String (base64url_digit (b mod 16 * 4)) EmptyString))
  | [a] => String (base64url_digit (a / 4)) (String (base64url_digit (a mod 4 * 16)) EmptyString)
  | [] => EmptyString
  end%nat.

(** ** Data *)

Definition uuid_Nil : Z := 0.

Record Agent := {
  ag_ID : Z; ag_BoundSubject : string; ag_UUID : Z; ag_TenantUUID : Z; ag_Name : string;
  ag_Status : string; ag_Endpoint : string; ag_Version : string; ag_Capabilities : list string;
  ag_LastSeenAt : option Z; ag_Metadata : object; ag_JoinToken : string;
  ag_CreatedAt : Z; ag_UpdatedAt : Z }.
#[global] Instance Agent_eta : EtaRecord Agent := fun a =>
  Build_Agent (ag_ID a) (ag_BoundSubject a) (ag_UUID a) (ag_TenantUUID a) (ag_Name a)
    (ag_Status a) (ag_Endpoint a) (ag_Version a) (ag_Capabilities a) (ag_LastSeenAt a)
    (ag_Metadata a) (ag_JoinToken a) (ag_CreatedAt a) (ag_UpdatedAt a).

Record CreateInput := {
  aci_TenantUUID : Z; aci_Name : string; aci_Endpoint : string; aci_Version : string;
  aci_Capabilities : option (list string); aci_Metadata : option object }.
Record UpdateInput := {
  aui_Status : string; aui_Endpoint : string; aui_Version : string;
  aui_Capabilities : option (list string) }.
Record SignAgentCSRInput := {
  sci_AgentUUID : Z; sci_CSRPEM : string; sci_CACertPEM : string; sci_CAKeyPEM : string;
  sci_TTL : Z }.
Record EnrollInput := {
  ei_AgentUUID : Z; ei_JoinToken : string; ei_CSRPem : string; ei_CACertPEM : string;
  ei_CAKeyPEM : string; ei_CertTTL : Z }.
Record Enrollment := {
  en_Agent : Agent; en_CertificatePEM : string; en_CACertPEM : string; en_ExpiresAt : Z }.

Definition toAgent (m : AgentRow) (tenantUUID : Z) : Agent := {|
  ag_ID := a_AgentID m; ag_BoundSubject := a_BoundSubject m; ag_UUID := a_AgentUuid m;
  ag_TenantUUID := tenantUUID; ag_Name := a_Name m; ag_Status := a_Status m;
  ag_Endpoint := a_Endpoint m; ag_Version := a_Version m;
  ag_Capabilities := unmarshalStrings (a_Capabilities m); ag_LastSeenAt := a_LastSeenAt m;
  ag_Metadata := JSONToMap (a_Metadata m); ag_JoinToken := "";
  ag_CreatedAt := a_CreatedAt m; ag_UpdatedAt := a_UpdatedAt m |}.

Definition resolveTenantUUID (tenantID : Z) : M error Z :=
  t ← or_return (GetTenantByID tenantID);
  mret (t_TenantUuid t).

Section Service.
Context {T : GoText} {C : Crypto}.

(** ** Join tokens *)

Definition joinTokenHash (token : string) : string := hex_EncodeToString (sha256_Sum256 token).

(** [b] is the 32 random bytes; the error of a failed read is passed on. *)
Definition newJoinToken (b : option (list nat)) : result error (string * string) :=
  match b with
  | None => Err (PlainError "rand: read failed")
  | Some b => let token := base64_RawURLEncoding b in Ok (token, joinTokenHash token)
  end.

Definition joinTokenMatches (hash token : string) : bool :=
  match hex_DecodeString hash with
  | None => false
  | Some want => str_eqb want (sha256_Sum256 token)
  end.

(** ** Certificates *)

(** The contents of the first PEM block, when it has the type [ty]. *)
Definition pem_block (ty pemBytes : string) : option string :=
  match pem_Decode pemBytes with
  | Some (t, bytes) => if str_eqb t ty then Some bytes else None
  | None => None
  end.

Definition parseCACert (pemBytes : string) : result string CACertificate :=
  match pem_block "CERTIFICATE" pemBytes with
  | None => Err "agent_ca_cert_pem must contain a PEM certificate"%string
  | Some bytes =>
      match x509_ParseCertificate bytes with
      | Err e => Err ("parse agent CA cert: " +:+ e)
      | Ok cert =>
          if negb (ca_IsCA cert) then Err "agent CA certificate is not a CA"%string else Ok cert
      end
  end.

Definition parseCAKey (pemBytes : string) : result string PrivateKey :=
  match pem_Decode pemBytes with
  | None => Err "agent_ca_key_pem must contain a PEM private key"%string
  | Some (_, bytes) =>
      match x509_ParsePKCS8PrivateKey bytes with
      | Some key =>
          if negb (key_signer key) then Err "agent CA PKCS8 key is not a signer"%string
          else Ok key
      | None =>
          match x509_ParsePKCS1PrivateKey bytes with
          | Some key => Ok key
          | None =>
              match x509_ParseECPrivateKey bytes with
              | Some key => Ok key
              | None => Err "unsupported agent CA private key format"%string
              end
          end
      end
  end.

Definition agentTemplate (in_ : SignAgentCSRInput) (csr : CertificateRequest) (serial now : Z)
    : CertificateTemplate :=
  let ttl := if sci_TTL in_ <=? 0 then 24 * Hour else sci_TTL in_ in {|
  tpl_SerialNumber := serial;
  tpl_CommonName := "maintainerd-agent:" +:+ uuid_String (sci_AgentUUID in_);
  tpl_NotBefore := now - Minute; tpl_NotAfter := now + ttl;
  tpl_KeyUsageDigitalSignature := true; tpl_ExtKeyUsageClientAuth := true;
  tpl_BasicConstraintsValid := true; tpl_IsCA := false;
  tpl_DNSNames := csr_DNSNames csr; tpl_IPAddresses := csr_IPAddresses csr;
  tpl_URIs := csr_URIs csr |}.

(** [serial] is the random 128-bit serial number. *)
Definition SignAgentCSR (in_ : SignAgentCSRInput) (serial : option Z) (now : Z)
    : result string (string * Z) :=
  if sci_AgentUUID in_ =? uuid_Nil then Err "agent_uuid is required"%string
  else match pem_block "CERTIFICATE REQUEST" (sci_CSRPEM in_) with
  | None => Err "csr_pem must contain a PEM certificate request"%string
  | Some bytes =>
      match x509_ParseCertificateRequest bytes with
      | Err e => Err ("parse csr: " +:+ e)
      | Ok csr =>
          match x509_CheckSignature csr with
          | Some e => Err ("verify csr signature: " +:+ e)
          | None =>
              ca ← parseCACert (sci_CACertPEM in_);
              key ← parseCAKey (sci_CAKeyPEM in_);
              match serial with
              | None => Err "generate serial: read failed"%string
              | Some serial =>
                  let tpl := agentTemplate in_ csr serial now in
                  match x509_CreateCertificate tpl ca (csr_PublicKey csr) key with
                  | Err e => Err ("sign certificate: " +:+ e)
                  | Ok certDER =>
                      Ok (pem_EncodeToMemory "CERTIFICATE" certDER, tpl_NotAfter tpl)
                  end
              end
          end
      end
  end.

(** ** Operations *)

Definition Create (random : option (list nat)) (in_ : CreateInput) : M error Agent :=
  if is_empty (aci_Name in_) then fail (NewValidation "name is required")
  else
    t ← or_not_found "tenant" (GetTenantByUUID (aci_TenantUUID in_));
    let caps := marshalStrings (aci_Capabilities in_) in
    meta ← or_validation "invalid metadata" (marshalMap (aci_Metadata in_));
    token ← lift (newJoinToken random);
    row ← or_return (CreateAgent (t_TenantID t) (aci_Name in_) "pending" (aci_Endpoint in_)
            (aci_Version in_) caps meta (snd token));
    mret ((toAgent row (t_TenantUuid t)) <| ag_JoinToken := fst token |>).

Definition answer (row : AgentRow) : M error Agent :=
  tenantUUID ← resolveTenantUUID (a_TenantID row);
  mret (toAgent row tenantUUID).

Definition Get (id : Z) : M error Agent :=
  row ← or_not_found "agent" (GetAgentByUUID id);
  answer row.

Definition List (tenantUUID page limit : Z) : M error (list Agent * Z) :=
  t ← or_not_found "tenant" (GetTenantByUUID tenantUUID);
  let '(page, limit) := normalizePage page limit in
  rows ← or_return (ListAgentsByTenant (t_TenantID t) (int32 limit) (page_offset page limit));
  total ← or_return (CountAgentsByTenant (t_TenantID t));
  mret (map (fun r => toAgent r (t_TenantUuid t)) rows, total).

Definition Update (id : Z) (in_ : UpdateInput) : M error Agent :=
  current ← or_not_found "agent" (GetAgentByUUID id);
  let status := if negb (is_empty (aui_Status in_)) then aui_Status in_ else a_Status current in
  let endpoint := if negb (is_empty (aui_Endpoint in_)) then aui_Endpoint in_
                  else a_Endpoint current in
  let version := if negb (is_empty (aui_Version in_)) then aui_Version in_
                 else a_Version current in
  let caps := match aui_Capabilities in_ with
              | Some _ => marshalStrings (aui_Capabilities in_)
              | None => a_Capabilities current
              end in
  row ← or_not_found "agent" (UpdateAgentStatus id status endpoint version caps);
  answer row.

Definition BindSubject (id : Z) (subject : string) : M error Agent :=
  if is_empty subject then fail (NewValidation "subject is required")
  else
    r ← try (BindAgentSubject id subject);
    match r with
    | Err ErrNoRows =>
        g ← try (GetAgentByUUID id);
        match g with
        | Err ErrNoRows => fail (NewNotFound "agent")
        | _ => fail (NewForbidden "agent is bound to a different subject")
        end
    | Err e => fail (DbError e)
    | Ok row => answer row
    end.

Definition RequireSubject (id : Z) (subject : string) : M error Agent :=
  row ← or_not_found "agent" (GetAgentByUUID id);
  if is_empty (a_BoundSubject row)
  then fail (NewForbidden "agent is not bound to a subject yet — Register first")
  else if is_empty subject || negb (str_eqb (a_BoundSubject row) subject)
  then fail (NewForbidden "agent is bound to a different subject")
  else answer row.

Definition Heartbeat (id : Z) : M error Agent :=
  row ← or_not_found "agent" (AgentHeartbeat id);
  answer row.

Definition SweepOffline (staleAfter : Z) : M error (list Agent) :=
  if staleAfter <=? 0 then fail (NewValidation "staleAfter must be positive")
  else
    rows ← or_return (MarkStaleAgentsOffline staleAfter);
    mret (map (fun r => toAgent r uuid_Nil) rows).

Definition ListOffline : M error (list Agent) :=
  rows ← or_return ListOfflineAgents;
  mret (map (fun r => toAgent r uuid_Nil) rows).

Definition Enroll (serial : option Z) (in_ : EnrollInput) : M error Enrollment :=
  if ei_AgentUUID in_ =? uuid_Nil then fail (NewValidation "agent_uuid is required")
  else if is_empty (ei_JoinToken in_) then fail (NewValidation "join_token is required")
  else if is_empty (ei_CSRPem in_) then fail (NewValidation "csr_pem is required")
  else
    current ← or_not_found "agent" (GetAgentByUUID (ei_AgentUUID in_));
    if is_empty (a_JoinTokenHash current)
       || match a_JoinTokenUsedAt current with Some _ => true | None => false end
    then fail (NewForbidden "agent join token has already been used")
    else if negb (joinTokenMatches (a_JoinTokenHash current) (ei_JoinToken in_))
    then fail (NewForbidden "invalid agent join token")
    else
      now ← time_Now;
      signed ← lift (result_map_err NewValidation (SignAgentCSR {|
                  sci_AgentUUID := ei_AgentUUID in_; sci_CSRPEM := ei_CSRPem in_;
                  sci_CACertPEM := ei_CACertPEM in_; sci_CAKeyPEM := ei_CAKeyPEM in_;
                  sci_TTL := ei_CertTTL in_ |} serial now));
      row ← map_err (fun e => match e with
              | ErrNoRows => NewForbidden "agent join token has already been used"
              | _ => DbError e end)
            (MarkAgentEnrolled (ei_AgentUUID in_) (fst signed));
      a ← answer row;
      mret {| en_Agent := a; en_CertificatePEM := fst signed;
              en_CACertPEM := ei_CACertPEM in_; en_ExpiresAt := snd signed |}.

Definition Delete (id : Z) : M error () :=
  or_return (SoftDeleteAgent id);; mret ().
End Service.
