(* ===== verification/Hosts.v ===== *)
(** * Hosts: identity, enrollment and liveness of agents

    What the agent service promises through any sequence of its operations and
    whichever queries fail: the first-writer-wins binding of the token subject,
    the one-time join token, and the liveness protocol of heartbeat and sweep. *)

From S2P Require Import Prelude Json Storage World AppError Queries Evolution Mrn Resource Sample Agent.

(** ** Evolution of an agent row *)

Record agent_evolves (a a' : AgentRow) : Prop := {
  ae_keys : same_keys a a';
  ae_tenant : a_TenantID a' = a_TenantID a;
  ae_name : a_Name a' = a_Name a;
  ae_hash : a_JoinTokenHash a' = a_JoinTokenHash a;
  ae_bound : a_BoundSubject a <> ""%string -> a_BoundSubject a' = a_BoundSubject a;
  ae_used : a_JoinTokenUsedAt a <> None ->
    a_JoinTokenUsedAt a' = a_JoinTokenUsedAt a /\ a_ClientCertPem a' = a_ClientCertPem a;
  ae_frozen : a_DeletedAt a <> None -> a' = a;
}.

#[global] Instance agent_evolves_preorder : PreOrder agent_evolves.
Proof.
  split.
  - intros a. split; done.
  - intros a b c [[K1 K2] T1 N1 H1 B1 U1 F1] [[K3 K4] T2 N2 H2 B2 U2 F2]. split; try congruence.
    + split; congruence.
    + intros Hb. rewrite B2, B1; [done..|]. by rewrite B1.
    + intros Hu. destruct (U1 Hu) as [E1 E2]. destruct U2 as [E3 E4]; [congruence|].
      split; congruence.
    + intros Hd. rewrite (F1 Hd) in *. auto.
Qed.

Inductive agent_op :=
  | AgCreate (random : option (list nat)) (in_ : CreateInput)
  | AgGet (id : Z)
  | AgList (tenant page limit : Z)
  | AgUpdate (id : Z) (in_ : UpdateInput)
  | AgBind (id : Z) (subject : string)
  | AgRequire (id : Z) (subject : string)
  | AgHeartbeat (id : Z)
  | AgSweep (staleAfter : Z)
  | AgListOffline
  | AgEnroll (serial : option Z) (in_ : EnrollInput)
  | AgDelete (id : Z).

Section Ops.
Context {T : GoText} {C : Crypto}.

Definition agent_run (o : agent_op) : M error () :=
  match o with
  | AgCreate random in_ => Create random in_;; mret ()
  | AgGet id => Get id;; mret ()
  | AgList t p l => List t p l;; mret ()
  | AgUpdate id in_ => Update id in_;; mret ()
  | AgBind id s => BindSubject id s;; mret ()
  | AgRequire id s => RequireSubject id s;; mret ()
  | AgHeartbeat id => Heartbeat id;; mret ()
  | AgSweep s => SweepOffline s;; mret ()
  | AgListOffline => ListOffline;; mret ()
  | AgEnroll serial in_ => Enroll serial in_;; mret ()
  | AgDelete id => Delete id
  end.

(** A step runs one operation, or lets the environment move: clocks,
    randomness and faults change, the database does not. *)
Inductive agent_step : relation World :=
  | ag_step_op o w : agent_step w (snd (agent_run o w))
  | ag_step_env w w' : w_db w' = w_db w -> agent_step w w'.

Ltac row_evolves := intros w a Hwf Ha Hl Hp; cbn in Hp; cbn [row_deleted AgentRow_table] in Hl;
  split; try done; try (cbn; congruence).

Lemma heartbeat_evolves id : advances (on_table agents agent_evolves) (AgentHeartbeat id).
Proof. apply table_update_one; [apply _|apply _|done|]. row_evolves. Qed.
Lemma sweep_evolves s : advances (on_table agents agent_evolves) (MarkStaleAgentsOffline s).
Proof. apply table_update; [apply _|apply _|done|]. row_evolves. Qed.
Lemma status_evolves id st ep ver caps :
  advances (on_table agents agent_evolves) (UpdateAgentStatus id st ep ver caps).
Proof. apply table_update_one; [apply _|apply _|done|]. row_evolves. Qed.
Lemma delete_evolves id : advances (on_table agents agent_evolves) (SoftDeleteAgent id).
Proof. apply table_update; [apply _|apply _|done|]. row_evolves. Qed.
Lemma bind_evolves id s : advances (on_table agents agent_evolves) (BindAgentSubject id s).
Proof.
  apply table_update_one; [apply _|apply _|done|]. row_evolves.
  intros Hb. cbn. apply andb_true_iff in Hp as [_ Hp].
  apply orb_true_iff in Hp as [Hp|Hp]; split_bools; congruence.
Qed.
Lemma enrolled_evolves id c : advances (on_table agents agent_evolves) (MarkAgentEnrolled id c).
Proof.
  apply table_update_one; [apply _|apply _|done|]. row_evolves.
  intros Hu. by destruct (a_JoinTokenUsedAt a); rewrite ?andb_false_r in Hp.
Qed.
Lemma create_evolves t n s e v c m h :
  advances (on_table agents agent_evolves) (CreateAgent t n s e v c m h).
Proof. by apply table_insert; [apply _|apply _|]. Qed.
Hint Resolve heartbeat_evolves sweep_evolves status_evolves delete_evolves bind_evolves
  enrolled_evolves create_evolves : advances.

Lemma agent_run_evolves o : advances (on_table agents agent_evolves) (agent_run o).
Proof. destruct o; advance. Qed.

Lemma agent_steps_evolve w w' :
  rtc agent_step w w' -> on_table agents agent_evolves (w_db w) (w_db w').
Proof.
  induction 1 as [w|w1 w2 w3 [o w|? ? E] _ IH]; [reflexivity| |by rewrite <- E].
  etransitivity; [apply agent_run_evolves | exact IH].
Qed.
End Ops.

(** ** Calls that succeeded *)

Section Inversions.
Context {T : GoText} {C : Crypto}.

Lemma BindSubject_inv id s w a w' :
  BindSubject id s w = (Ok a, w') ->
  s <> ""%string /\ exists r, r ∈ tbl_rows (agents (w_db w)) /\ a_DeletedAt r = None
    /\ a_AgentUuid r = id /\ (a_BoundSubject r = "" \/ a_BoundSubject r = s)%string.
Proof.
  unfold BindSubject. destruct (is_empty s) eqn:Es; [done|]. split_bools.
  intros (r & w1 & H1 & H2)%try_run_inv. split; [done|].
  destruct r as [row|[]]; try done; [|by apply try_run_inv in H2 as ([|[]] & ? & _ & ?)].
  apply q_update_one_Ok_inv in H1 as (r0 & t & Hin & [Hl Hp]%hit_live & _).
  apply andb_true_iff in Hp as [Hid Hp]. exists r0. split_and!; [done|done|lia|].
  apply orb_true_iff in Hp as [?|?]; split_bools; auto.
Qed.

Lemma answer_db row w a w' : answer row w = (Ok a, w') -> w_db w' = w_db w /\ a = toAgent row (ag_TenantUUID a).
Proof.
  intros (u & w1 & H1 & H2)%bind_run_Ok_inv. injection H2 as <- <-.
  apply bind_run_Ok_inv in H1 as (t & w2 & H1 & H2). apply map_err_Ok_inv in H1.
  apply q_get_Ok_inv in H1 as (_ & _ & _ & H1). injection H2 as <- <-. done.
Qed.

Lemma answer_run row w : w_faults w = [] ->
  select_one (fun t => t_TenantID t =? a_TenantID row) (tenants (w_db w)) <> Err ErrNoRows ->
  exists u, answer row w = (Ok (toAgent row u), w).
Proof.
  intros Hf Ht. unfold answer, resolveTenantUUID, or_return, GetTenantByID, mbind, M_bind, map_err.
  rewrite (q_get_run w Hf). destruct (select_one _ _) as [t|e] eqn:E; [by exists (t_TenantUuid t)|].
  unfold select_one in E. by destruct (select _ _); simplify_eq.
Qed.

Lemma RequireSubject_inv id s w a w' :
  RequireSubject id s w = (Ok a, w') ->
  s <> ""%string /\ w_db w' = w_db w /\ exists r, r ∈ tbl_rows (agents (w_db w))
    /\ a_DeletedAt r = None /\ a_AgentUuid r = id /\ a_BoundSubject r = s
    /\ ag_ID a = a_AgentID r /\ ag_UUID a = a_AgentUuid r.
Proof.
  intros (row & w1 & H1 & H2)%bind_run_Ok_inv. apply map_err_Ok_inv in H1.
  apply q_get_Ok_inv in H1 as (Hin & Hl & Hid & Hdb).
  destruct (is_empty (a_BoundSubject row)) eqn:E1; [done|].
  destruct (is_empty s) eqn:E2; [done|]. destruct (str_eqb _ s) eqn:E3; cbn in H2; [|done].
  apply answer_db in H2 as [Hdb' ->]. split_bools. split_and!; [done|congruence|].
  exists row. split_and!; try done.
Qed.

Lemma MarkAgentEnrolled_inv id cert w r w' :
  MarkAgentEnrolled id cert w = (Ok r, w') ->
  exists r0, r0 ∈ tbl_rows (agents (w_db w)) /\ a_DeletedAt r0 = None /\ a_AgentUuid r0 = id
    /\ a_JoinTokenUsedAt r0 = None /\ r ∈ tbl_rows (agents (w_db w'))
    /\ a_AgentUuid r = id /\ a_JoinTokenUsedAt r <> None.
Proof.
  intros (r0 & t & Hin & [Hl Hp]%hit_live & -> & Hin' & ->)%q_update_one_Ok_inv.
  apply andb_true_iff in Hp as [Hid Hu]. exists r0. cbn.
  destruct (a_JoinTokenUsedAt r0); [done|]. split_and!; try done; lia.
Qed.

Lemma Enroll_inv serial in_ w e w' :
  Enroll serial in_ w = (Ok e, w') ->
  exists r w1 w2, MarkAgentEnrolled (ei_AgentUUID in_) (en_CertificatePEM e) w1 = (Ok r, w2)
    /\ w_db w1 = w_db w /\ w_db w' = w_db w2.
Proof.
  unfold Enroll. do 3 (case_match; [done|]).
  intros (cur & w1 & Hg & Hk)%bind_run_Ok_inv. apply map_err_Ok_inv in Hg.
  apply q_get_Ok_inv in Hg as (_ & _ & _ & Hdb). do 2 (case_match; [done|]).
  apply bind_run_Ok_inv in Hk as (now & w2 & E & Hk). injection E as <- <-.
  apply bind_run_Ok_inv in Hk as (sg & w3 & E & Hk). injection E as E <-.
  apply bind_run_Ok_inv in Hk as (row & w4 & E' & Hk). apply map_err_Ok_inv in E'.
  apply bind_run_Ok_inv in Hk as (a & w5 & Ha & Hk). injection Hk as <- <-.
  apply answer_db in Ha as [Ha _]. exists row, w1, w4. cbn. by split_and!.
Qed.
End Inversions.

(** ** A sample certificate authority

    PEM text is a word for the type and the contents after a blank; the hash of
    a text repeats its length. *)
Definition sample_pem (s : string) : option (string * string) :=
  if HasPrefix s "csr " then Some ("CERTIFICATE REQUEST", str_drop 4 s)%string
  else if HasPrefix s "crt " then Some ("CERTIFICATE", str_drop 4 s)%string
  else if HasPrefix s "key " then Some ("PRIVATE KEY", str_drop 4 s)%string else None.

#[refine] Definition sample_crypto : Crypto := {|
  sha256_Sum256 s := string_of_list_ascii (repeat (ascii_of_nat (String.length s)) 32);
  pem_Decode := sample_pem;
  pem_EncodeToMemory _ der := "crt " +:+ der;
  x509_ParseCertificateRequest s := Ok (Build_CertificateRequest [] [] [s] s s);
  x509_CheckSignature _ := None;
  x509_ParseCertificate s := Ok (Build_CACertificate true s);
  x509_ParsePKCS8PrivateKey s := Some (Build_PrivateKey true s);
  x509_ParsePKCS1PrivateKey _ := None;
  x509_ParseECPrivateKey _ := None;
  x509_CreateCertificate tpl ca pub key := Ok (tpl_CommonName tpl) |}.
Proof. reflexivity. Defined.

(** Host a, bound to a subject. *)
Definition bound_a : AgentRow := host_a <| a_BoundSubject := "alice" |>.
Definition bound_db : Db := sample_db <| agents := mkTable [bound_a; host_b] 3 |>.
Definition bound_world : World := sample_world <| w_db := bound_db |>.
Lemma bound_agents_wf : table_wf (agents (w_db bound_world)).
Proof. apply table_wfb_sound. vm_compute. reflexivity. Qed.

(** ** Identity *)

Section Identity.
Context {T : GoText} {C : Crypto} (w w' : World) (a : AgentRow).
Hypothesis (Hwf : table_wf (agents (w_db w))) (Hs : rtc agent_step w w').
Hypothesis (Ha : a ∈ tbl_rows (agents (w_db w))).

(** The one row that carries the agent's UUID later. *)
Lemma agent_later : exists a', a' ∈ tbl_rows (agents (w_db w')) /\ agent_evolves a a'
  /\ forall q, q ∈ tbl_rows (agents (w_db w')) -> a_AgentUuid q = a_AgentUuid a -> q = a'.
Proof.
  destruct (agent_steps_evolve w w' Hs Hwf) as [Hwf' Hrows].
  destruct (rows_advance_elem _ _ _ _ Hrows Ha) as (a' & Ha' & He).
  exists a'. split_and!; [done..|]. intros q Hq Eq. apply (wf_uuid_inj _ _ _ Hwf' Hq Ha').
  destruct He as [[_ K] _ _ _ _ _ _]. cbn in *. congruence.
Qed.
End Identity.

(** C10: the binding of an agent to a token subject is first-writer-wins and
    sticky.  Once a row is bound, through every sequence of operations it stays
    bound to the same subject, and every attempt of another subject to bind it
    or to act as it is refused. *)
Theorem binding_sticky {T : GoText} {C : Crypto} w w' a :
  table_wf (agents (w_db w)) -> rtc agent_step w w' ->
  a ∈ tbl_rows (agents (w_db w)) -> a_BoundSubject a <> ""%string ->
  exists a', a' ∈ tbl_rows (agents (w_db w')) /\ a_AgentUuid a' = a_AgentUuid a
    /\ a_BoundSubject a' = a_BoundSubject a
    /\ forall s, s <> a_BoundSubject a ->
         is_ok (fst (BindSubject (a_AgentUuid a) s w')) = false
         /\ is_ok (fst (RequireSubject (a_AgentUuid a) s w')) = false.
Proof.
  intros Hwf Hs Ha Hb. destruct (agent_later w w' a Hwf Hs Ha) as (a' & Ha' & He & Hu).
  destruct He as [[_ K] _ _ _ B _ _]. specialize (B Hb).
  exists a'. split_and!; [done..|]. intros s Hne. split.
  - destruct (BindSubject _ s w') as [[ag|] ?] eqn:E; [|done].
    apply BindSubject_inv in E as (_ & q & Hq & _ & Eq & Hbq). rewrite (Hu q Hq Eq) in Hbq.
    destruct Hbq; congruence.
  - destruct (RequireSubject _ s w') as [[ag|] ?] eqn:E; [|done].
    apply RequireSubject_inv in E as (_ & _ & q & Hq & _ & Eq & Hbq & _ & _).
    rewrite (Hu q Hq Eq) in Hbq. congruence.
Qed.

Lemma binding_sticky_witness :
  is_ok (fst (BindSubject 301 "mallory" (snd (@agent_run plain_text sample_crypto
    (AgSweep 1) bound_world)))) = false.
Proof.
  destruct (@binding_sticky plain_text sample_crypto bound_world
      (snd (@agent_run plain_text sample_crypto (AgSweep 1) bound_world)) bound_a)
    as (a' & _ & _ & _ & H); [apply bound_agents_wf| |left|discriminate|].
  - apply rtc_once. exact (@ag_step_op plain_text sample_crypto (AgSweep 1) bound_world).
  - exact (proj1 (H "mallory"%string ltac:(discriminate))).
Defined.

(** The identity check fails closed: for a live agent and without
    faults it lets a caller act as the agent exactly when the caller's subject is
    not empty and is the subject the agent is bound to, so an unbound agent lets
    nobody through. *)
Theorem require_subject_spec {T : GoText} {C : Crypto} w a s :
  table_wf (agents (w_db w)) -> a ∈ tbl_rows (agents (w_db w)) -> a_DeletedAt a = None ->
  w_faults w = [] -> select_one (fun t => t_TenantID t =? a_TenantID a) (tenants (w_db w)) <> Err ErrNoRows ->
  is_ok (fst (RequireSubject (a_AgentUuid a) s w)) = true
  <-> s <> ""%string /\ a_BoundSubject a = s.
Proof.
  intros Hwf Ha Hl Hf Ht. split.
  - destruct (RequireSubject _ s w) as [[ag|] w'] eqn:E; [|done]. intros _.
    apply RequireSubject_inv in E as (? & _ & q & Hq & _ & Eq & Hbq & _).
    rewrite (wf_uuid_inj _ q a Hwf Hq Ha Eq) in Hbq. done.
  - intros [Hs Hb]. unfold RequireSubject, or_not_found, GetAgentByUUID.
    erewrite bind_run; [|unfold map_err; rewrite (q_get_run w Hf);
      rewrite (select_one_unique _ a); [reflexivity|done..|apply Z.eqb_refl|intros q; cbn; lia]].
    rewrite Hb. unfold is_empty. rewrite (proj2 (str_eqb_neq s "")) by done. rewrite str_eqb_refl. cbn.
    by destruct (answer_run a w Hf Ht) as [u ->].
Qed.

Lemma require_subject_spec_witness :
  is_ok (fst (RequireSubject 301 "alice" bound_world)) = true.
Proof.
  apply (@require_subject_spec plain_text sample_crypto bound_world bound_a "alice");
    [apply bound_agents_wf|left|reflexivity|reflexivity|discriminate|split; [discriminate|reflexivity]].
Defined.

(** C11: a join token is spent at most once.  After an enrollment succeeded,
    through every sequence of operations, neither another enrollment of that
    agent succeeds nor the final write of one whose checks had passed before. *)
Theorem join_token_single_use {T : GoText} {C : Crypto} serial in_ w e w1 w2 :
  table_wf (agents (w_db w)) ->
  Enroll serial in_ w = (Ok e, w1) -> rtc agent_step w1 w2 ->
  (forall cert, is_ok (fst (MarkAgentEnrolled (ei_AgentUUID in_) cert w2)) = false)
  /\ (forall serial2 in2, ei_AgentUUID in2 = ei_AgentUUID in_ ->
        is_ok (fst (Enroll serial2 in2 w2)) = false).
Proof.
  intros Hwf He Hs.
  assert (Hwf1 : table_wf (agents (w_db w1))).
  { destruct (agent_run_evolves (AgEnroll serial in_) w Hwf) as [H _].
    cbn in H. by rewrite (bind_run _ _ _ _ _ He) in H. }
  apply Enroll_inv in He as (r & wa & wb & Hm & Ea & Eb).
  apply MarkAgentEnrolled_inv in Hm as (_ & _ & _ & _ & _ & Hr & Hid & Hused).
  rewrite <- Eb in Hr. destruct (agent_later w1 w2 r Hwf1 Hs Hr) as (r' & Hr' & Hev & Hu).
  assert (Hno : forall cert w3, w_db w3 = w_db w2 ->
    is_ok (fst (MarkAgentEnrolled (ei_AgentUUID in_) cert w3)) = false).
  { intros cert w3 Edb. destruct (MarkAgentEnrolled _ _ w3) as [[q|] ?] eqn:E; [|done].
    apply MarkAgentEnrolled_inv in E as (q0 & Hq & _ & Eq & Hn & _). rewrite Edb in Hq.
    rewrite (Hu q0 Hq) in Hn by congruence. destruct Hev as [_ _ _ _ _ U _].
    destruct (U Hused) as [U1 _]. congruence. }
  split; [intros cert; by apply Hno|]. intros serial2 in2 Hid2.
  destruct (Enroll serial2 in2 w2) as [[e2|] ?] eqn:E; [|done].
  apply Enroll_inv in E as (q & wc & wd & Hm & Ec & _). rewrite Hid2 in Hm.
  specialize (Hno (en_CertificatePEM e2) wc Ec). by rewrite Hm in Hno.
Qed.

(** A world whose host a waits for enrollment with the token "abc". *)
Definition fresh_a : AgentRow :=
  host_a <| a_JoinTokenHash := @joinTokenHash sample_crypto "abc" |>.
Definition fresh_world : World :=
  sample_world <| w_db := sample_db <| agents := mkTable [fresh_a; host_b] 3 |> |>.
Definition sample_enroll : EnrollInput :=
  Build_EnrollInput 301 "abc" "csr r" "crt ca" "key k" 0.

Lemma join_token_single_use_witness :
  exists e w1, @Enroll plain_text sample_crypto (Some 7) sample_enroll fresh_world = (Ok e, w1)
    /\ is_ok (fst (@Enroll plain_text sample_crypto (Some 8) sample_enroll w1)) = false.
Proof.
  eexists _, _.
  assert (H : @Enroll plain_text sample_crypto (Some 7) sample_enroll fresh_world = (Ok _, _))
    by (vm_compute; reflexivity).
  split; [exact H|].
  refine (proj2 (@join_token_single_use plain_text sample_crypto (Some 7) sample_enroll
    fresh_world _ _ _ _ H (rtc_refl _ _)) (Some 8) sample_enroll eq_refl).
  apply table_wfb_sound. vm_compute. reflexivity.
Defined.

(** The token is spent before the answer is complete: when the lookup of the
    tenant that follows the write fails, the enrollment is answered with an error,
    no certificate is handed out, and no repetition of it can succeed. *)
Theorem enrollment_lost :
  let w := fresh_world <| w_faults := [FaultNone; FaultNone; FaultBefore] |> in
  let '(first, w1) := @Enroll plain_text sample_crypto (Some 7) sample_enroll w in
  let '(again, _) := @Enroll plain_text sample_crypto (Some 8) sample_enroll w1 in
  is_ok first = false /\ w_faults w1 = []
  /\ again = Err (NewForbidden "agent join token has already been used").
Proof. vm_compute. done. Qed.

(** ** Liveness *)

Section Sweep.
Context (w : World) (s : Z).
Let stale := agent_stale (w_dbnow w) s.
Definition sweep_row (now : Z) (a : AgentRow) : AgentRow :=
  a <| a_Status := "offline" |> <| a_UpdatedAt := now |>.

Lemma sweep_row_ok a : row_ok a = true -> row_ok (sweep_row (w_dbnow w) a) = true.
Proof.
  cbn -[varchar text]. intros H. split_bools.
  repeat match goal with E : ?x = true |- context [?x] => rewrite E end. done.
Qed.

(** The table a sweep leaves. *)
Definition swept : Table AgentRow :=
  mkTable (map (fun a => if hit stale a then sweep_row (w_dbnow w) a else a)
             (tbl_rows (agents (w_db w)))) (tbl_next (agents (w_db w))).

Lemma sweep_update : table_wf (agents (w_db w)) ->
  update stale (sweep_row (w_dbnow w)) (agents (w_db w))
  = Ok (map (sweep_row (w_dbnow w))
          (filter (fun a => hit stale a = true) (tbl_rows (agents (w_db w)))), swept).
Proof.
  intros Hwf. unfold update.
  rewrite (proj2 (forallb_forall _ _)); [done|].
  intros a' (a & <- & Ha)%in_map_iff. apply list_elem_of_In, list_elem_of_filter in Ha as [_ Ha].
  apply sweep_row_ok. by apply (wf_columns _ Hwf).
Qed.

Lemma swept_none a : a ∈ tbl_rows swept -> hit stale a = false.
Proof.
  cbn. intros (a0 & -> & _)%list_elem_of_fmap. destruct (hit stale a0) eqn:E; [|done].
  unfold hit, stale, agent_stale. cbn. by rewrite andb_false_r.
Qed.
End Sweep.

(** Without faults a sweep returns exactly the live agents it takes
    from not-offline to offline, those last seen longer ago than the threshold;
    afterwards every such agent is offline, and sweeping again at the same time
    returns nothing and changes nothing.  An agent never seen is not swept. *)
Theorem sweep_transitions {T : GoText} {C : Crypto} w s :
  w_faults w = [] -> table_wf (agents (w_db w)) -> 0 < s ->
  exists out w', SweepOffline s w = (Ok out, w')
    /\ map ag_UUID out = map a_AgentUuid (select (agent_stale (w_dbnow w) s) (agents (w_db w)))
    /\ Forall (fun a => ag_Status a = "offline"%string) out
    /\ (forall a seen, a ∈ tbl_rows (agents (w_db w')) -> a_DeletedAt a = None ->
          a_LastSeenAt a = Some seen -> seen < w_dbnow w - s -> a_Status a = "offline"%string)
    /\ SweepOffline s w' = (Ok [], w').
Proof.
  intros Hf Hwf Hs.
  set (w' := w <| w_db := (w_db w) <| agents := swept w s |> |>).
  assert (Hswept : forall a, a ∈ tbl_rows (swept w s) -> hit (agent_stale (w_dbnow w) s) a = false)
    by apply swept_none.
  exists (map (fun r => toAgent r uuid_Nil) (map (sweep_row (w_dbnow w))
      (filter (fun a => hit (agent_stale (w_dbnow w) s) a = true) (tbl_rows (agents (w_db w)))))), w'.
  split_and!.
  - unfold SweepOffline. replace (s <=? 0) with false by lia. erewrite bind_run; [reflexivity|].
    unfold or_return, map_err, MarkStaleAgentsOffline, q_update. rewrite (query_run w Hf).
    fold (sweep_row (w_dbnow w)). by rewrite sweep_update.
  - rewrite !map_map. reflexivity.
  - apply Forall_forall. rewrite map_map. intros a (r & -> & _)%list_elem_of_fmap. done.
  - intros a seen Ha Hl Hseen Hlt. specialize (Hswept a Ha).
    unfold hit, live, agent_stale in Hswept. cbn in Hswept. rewrite Hl, Hseen in Hswept. cbn in Hswept.
    destruct (str_eqb (a_Status a) "offline") eqn:E; [by split_bools|]. cbn in Hswept. lia.
  - unfold SweepOffline. replace (s <=? 0) with false by lia. rewrite (bind_run _ _ w' [] w'); [reflexivity|].
    unfold or_return, map_err, MarkStaleAgentsOffline, q_update. rewrite query_run by done.
    change (agents (w_db w')) with (swept w s). change (w_dbnow w') with (w_dbnow w).
    rewrite update_none by done. reflexivity.
Qed.

Lemma sweep_transitions_witness :
  exists out w', SweepOffline 50 sample_world = (Ok out, w') /\ map ag_UUID out = [301]
    /\ SweepOffline 50 w' = (Ok [], w').
Proof.
  destruct (@sweep_transitions plain_text sample_crypto sample_world 50)
    as (out & w' & H1 & H2 & _ & _ & H3); [reflexivity|apply sample_agents_wf|lia|].
  exists out, w'. split; [exact H1|]. split; [exact H2|exact H3].
Defined.

(** A row the statement does not match survives it, whatever fails. *)
Lemma q_update_spares {R} `{!TableRow R} (tbl : Db -> Table R) `{!FieldSetter tbl, !TableField tbl} p f w r :
  r ∈ tbl_rows (tbl (w_db w)) -> hit (p (w <| w_faults := tail (w_faults w) |>)) r = false ->
  r ∈ tbl_rows (tbl (w_db (snd (q_update tbl p f w)))).
Proof.
  intros Hr Hh. set (w1 := w <| w_faults := tail (w_faults w) |>) in *.
  assert (H : r ∈ tbl_rows (tbl (w_db (snd (
    match update (p w1) (f w1) (tbl (w_db w1)) with
    | Ok (rs, t) => (Ok rs, w1 <| w_db := set_field tbl (fun _ => t) (w_db w1) |>)
    | Err e => (Err e, w1)
    end))))).
  { destruct (update _ _ _) as [[rs t]|e] eqn:E; [|done]. cbn. rewrite table_get_set.
    apply update_inv in E as (_ & -> & _). apply list_elem_of_fmap. exists r. by rewrite Hh. }
  unfold q_update, query. destruct (w_faults w) as [|[] ?]; cbn in *; exact H || exact Hr.
Qed.

(** A heartbeat is the recovery path.  Without faults it answers with
    the agent online and seen at the time of the statement, and no sweep within
    the threshold of that beat, whichever queries fail, takes it offline again. *)
Theorem heartbeat_recovers {T : GoText} {C : Crypto} w a :
  w_faults w = [] -> table_wf (agents (w_db w)) -> a ∈ tbl_rows (agents (w_db w)) ->
  a_DeletedAt a = None ->
  select_one (fun t => t_TenantID t =? a_TenantID a) (tenants (w_db w)) <> Err ErrNoRows ->
  exists ag w' a', Heartbeat (a_AgentUuid a) w = (Ok ag, w')
    /\ ag_Status ag = "online"%string /\ ag_LastSeenAt ag = Some (w_dbnow w)
    /\ a' ∈ tbl_rows (agents (w_db w')) /\ a_AgentUuid a' = a_AgentUuid a
    /\ a_Status a' = "online"%string
    /\ forall w2 s, w_db w2 = w_db w' -> w_dbnow w2 - s <= w_dbnow w ->
         a' ∈ tbl_rows (agents (w_db (snd (SweepOffline s w2)))).
Proof.
  intros Hf Hwf Ha Hl Ht.
  set (f := fun q => q <| a_LastSeenAt := Some (w_dbnow w) |> <| a_Status := "online" |>
                       <| a_UpdatedAt := w_dbnow w |>).
  set (p := fun q => a_AgentUuid q =? a_AgentUuid a).
  assert (Hp : p a = true) by apply Z.eqb_refl.
  assert (Hok : row_ok (f a) = true).
  { pose proof (wf_columns _ Hwf a Ha) as H. cbn -[varchar text] in H |- *. split_bools.
    repeat match goal with E : ?x = true |- context [?x] => rewrite E end. done. }
  set (w' := w <| w_db := (w_db w) <| agents := update_hit (agents (w_db w)) p f |> |>).
  destruct (answer_run (f a) w') as [u Hu]; [done|exact Ht|].
  exists (toAgent (f a) u), w', (f a). split_and!; try done.
  - unfold Heartbeat, or_not_found, AgentHeartbeat. erewrite bind_run;
      [|unfold map_err; erewrite (q_update_one_run w Hf); [reflexivity|];
        apply (update_unique _ a p); [done..| |exact Hok]; intros q; unfold p; cbn; lia].
    exact Hu.
  - cbn. by apply (update_hit_self _ a p).
  - intros w2 s Edb Hnow.
    assert (Hin : f a ∈ tbl_rows (agents (w_db w2)))
      by (rewrite Edb; cbn; by apply (update_hit_self _ a p)).
    unfold SweepOffline. destruct (s <=? 0); [done|].
    unfold mbind, M_bind, or_return, map_err.
    pose proof (q_update_spares agents (fun w => agent_stale (w_dbnow w) s)
      (fun w a => a <| a_Status := "offline" |> <| a_UpdatedAt := w_dbnow w |>) w2 (f a) Hin) as Hsp.
    unfold MarkStaleAgentsOffline. destruct (q_update _ _ _ w2) as [[]]; cbn; apply Hsp;
      unfold hit, agent_stale; cbn; lia.
Qed.

Lemma heartbeat_recovers_witness :
  exists ag w', Heartbeat 302 sample_world = (Ok ag, w') /\ ag_Status ag = "online"%string.
Proof.
  destruct (@heartbeat_recovers plain_text sample_crypto sample_world host_b)
    as (ag & w' & _ & H1 & H2 & _);
    [reflexivity|apply sample_agents_wf|right; left|reflexivity|discriminate|].
  exists ag, w'. split; [exact H1|exact H2].
Defined.

(** ** Join tokens *)

Lemma hex_byte a :
  hex_value (hex_digit (nat_of_ascii a / 16)) = Some (nat_of_ascii a / 16)%nat
  /\ hex_value (hex_digit (nat_of_ascii a mod 16)) = Some (nat_of_ascii a mod 16)%nat
  /\ ascii_of_nat (16 * (nat_of_ascii a / 16) + nat_of_ascii a mod 16) = a.
Proof. destruct a as [[] [] [] [] [] [] [] []]; vm_compute; auto. Qed.

Lemma hex_roundtrip s : hex_DecodeString (hex_EncodeToString s) = Some s.
Proof.
  induction s as [|a s IH]; [done|]. cbn -[Nat.div Nat.modulo Nat.mul].
  destruct (hex_byte a) as (-> & -> & E). rewrite IH. by rewrite E.
Qed.

Section Token.
Context {T : GoText} {C : Crypto}.

Lemma token_matches token : joinTokenMatches (joinTokenHash token) token = true.
Proof. unfold joinTokenMatches, joinTokenHash. rewrite hex_roundtrip. apply str_eqb_refl. Qed.

Lemma token_hash_nonempty token : joinTokenHash token <> ""%string.
Proof.
  unfold joinTokenHash. pose proof (sha256_size token) as H.
  destruct (sha256_Sum256 token); done.
Qed.

Lemma base64_nonempty l : l <> [] -> base64_RawURLEncoding l <> ""%string.
Proof. by destruct l as [|? [|? [|? ?]]]. Qed.

Lemma Create_inv random in_ w ag w1 :
  Agent.Create (Some random) in_ w = (Ok ag, w1) ->
  exists t row, t ∈ tbl_rows (tenants (w_db w1)) /\ t_DeletedAt t = None
    /\ row ∈ tbl_rows (agents (w_db w1)) /\ a_DeletedAt row = None
    /\ a_TenantID row = t_TenantID t /\ a_AgentUuid row = ag_UUID ag
    /\ ag_JoinToken ag = base64_RawURLEncoding random
    /\ a_JoinTokenHash row = joinTokenHash (ag_JoinToken ag) /\ a_JoinTokenUsedAt row = None
    /\ a_BoundSubject row = ""%string /\ a_Status row = "pending"%string
    /\ (w_faults w = [] -> w_faults w1 = []).
Proof.
  unfold Agent.Create. case_match; [done|].
  intros (t & wa & Ht & Hk)%bind_run_Ok_inv. apply map_err_Ok_inv in Ht.
  pose proof Ht as Ht'. apply query_Ok_inv in Ht'. injection Ht' as _ Ew.
  apply q_get_Ok_inv in Ht as (Ht & Htl & _ & Hdb).
  apply bind_run_Ok_inv in Hk as (meta & wb & E & Hk). injection E as _ <-.
  apply bind_run_Ok_inv in Hk as (tk & wb & E & Hk). injection E as <- <-.
  apply bind_run_Ok_inv in Hk as (row & wb & E & Hk). injection Hk as <- <-.
  apply map_err_Ok_inv, q_insert_Ok_inv in E as (tb & Hi & ->). apply insert_inv in Hi as (-> & Hrows & _).
  exists t. eexists. split_and!; [| |cbn; rewrite Hrows; apply elem_of_app; right; left|..]; try done.
  - cbn. by rewrite Hdb.
  - cbn. subst wa. cbn. by intros ->.
Qed.
End Token.

(** An agent just created can enroll with the token it was handed:
    when its certificate request can be signed and nothing fails, enrollment
    answers with the signed certificate. *)
Theorem created_agent_enrolls {T : GoText} {C : Crypto} w w1 random in_ ag serial csr ca key ttl cert exp :
  w_faults w = [] -> random <> [] -> table_wf (agents (w_db w1)) ->
  Agent.Create (Some random) in_ w = (Ok ag, w1) -> ag_UUID ag <> uuid_Nil -> csr <> ""%string ->
  SignAgentCSR (Build_SignAgentCSRInput (ag_UUID ag) csr ca key ttl) serial (w_gonow w1) = Ok (cert, exp) ->
  text cert = true ->
  exists e w2, Enroll serial (Build_EnrollInput (ag_UUID ag) (ag_JoinToken ag) csr ca key ttl) w1 = (Ok e, w2)
    /\ en_CertificatePEM e = cert /\ en_ExpiresAt e = exp /\ ag_UUID (en_Agent e) = ag_UUID ag.
Proof.
  intros Hf Hrnd Hwf Hc Hid Hcsr Hsig Htext.
  destruct (Create_inv _ _ _ _ _ Hc) as (t & row & Ht & Htl & Hrow & Hrl & Htid & Hu & Htok & Hh & Hused & _ & _ & Hf1).
  specialize (Hf1 Hf). unfold Enroll. cbn [ei_AgentUUID ei_JoinToken ei_CSRPem ei_CACertPEM ei_CAKeyPEM ei_CertTTL].
  replace (_ =? uuid_Nil) with false by lia.
  unfold is_empty. rewrite (proj2 (str_eqb_neq csr "")) by done.
  rewrite (proj2 (str_eqb_neq (ag_JoinToken ag) "")) by (rewrite Htok; by apply base64_nonempty).
  erewrite (bind_run (or_not_found _ _)); [|unfold or_not_found, map_err, GetAgentByUUID;
    rewrite (q_get_run w1 Hf1), (select_one_unique _ row); [reflexivity|done..|cbn; lia|intros q; cbn; lia]].
  rewrite (proj2 (str_eqb_neq (a_JoinTokenHash row) "")) by (rewrite Hh; apply token_hash_nonempty).
  rewrite Hused, Hh, token_matches. cbn [orb negb].
  erewrite (bind_run time_Now); [|reflexivity].
  erewrite (bind_run (lift _)); [|unfold lift; rewrite Hsig; reflexivity]. cbn [fst snd].
  set (p := fun q => (a_AgentUuid q =? ag_UUID ag) && match a_JoinTokenUsedAt q with None => true | Some _ => false end).
  set (f := fun q => q <| a_JoinTokenUsedAt := Some (w_dbnow w1) |> <| a_ClientCertPem := cert |>
                       <| a_UpdatedAt := w_dbnow w1 |>).
  set (w2 := w1 <| w_db := (w_db w1) <| agents := update_hit (agents (w_db w1)) p f |> |>).
  destruct (answer_run (f row) w2) as [u Hans]; [done|..].
  { destruct (select_one_some (fun q => t_TenantID q =? a_TenantID row) (tenants (w_db w1)) t)
      as [q Hq]; [done|done|lia|]. cbn -[select_one] in Hq |- *. by rewrite Hq. }
  erewrite (bind_run (map_err _ _)); [|unfold map_err, MarkAgentEnrolled;
    erewrite (q_update_one_run w1 Hf1); [reflexivity|]; apply (update_unique _ row p Hwf Hrow Hrl)].
  - erewrite bind_run; [|exact Hans]. eexists _, _. split; [reflexivity|]. by split_and!.
  - unfold p. rewrite Hused. lia.
  - intros q Hq. unfold p in Hq. cbn. lia.
  - pose proof (wf_columns _ Hwf row Hrow) as H. cbn -[varchar text] in H |- *. split_bools.
    repeat match goal with E : ?x = true |- context [?x] => rewrite E end. done.
Qed.

Definition sample_create : Agent.CreateInput := Agent.Build_CreateInput 101 "c" "" "" None None.
Definition created_world : World :=
  snd (@Agent.Create sample_crypto (Some [1; 2; 3]%nat) sample_create sample_world).

Lemma created_agent_enrolls_witness :
  exists ag e w2, @Agent.Create sample_crypto (Some [1; 2; 3]%nat) sample_create sample_world
      = (Ok ag, created_world)
    /\ @Enroll plain_text sample_crypto (Some 7)
         (Build_EnrollInput (ag_UUID ag) (ag_JoinToken ag) "csr r" "crt ca" "key k" 0) created_world
       = (Ok e, w2).
Proof.
  assert (Hwf : table_wf (agents (w_db created_world)))
    by (apply table_wfb_sound; vm_compute; reflexivity).
  assert (Hc : exists ag, @Agent.Create sample_crypto (Some [1; 2; 3]%nat) sample_create sample_world
      = (Ok ag, created_world) /\ ag_UUID ag = 501)
    by (eexists; split; [vm_compute; reflexivity|reflexivity]).
  destruct Hc as (ag & Hc & Hid).
  destruct (@created_agent_enrolls plain_text sample_crypto sample_world created_world
      [1; 2; 3]%nat sample_create ag (Some 7) "csr r" "crt ca" "key k" 0
      "crt maintainerd-agent:501" (1000 + 24 * Hour)) as (e & w2 & H & _);
    [reflexivity|discriminate|exact Hwf|exact Hc|rewrite Hid; discriminate|discriminate
    |rewrite Hid; vm_compute; reflexivity|vm_compute; reflexivity|].
  exists ag, e, w2. split; [exact Hc|exact H].
Defined.

(** ** Certificates *)

(** Whatever the certificate library does, a certificate is only issued
    for a request with a valid signature, by a CA certificate, for the key of
    the request; it is a client-authentication certificate, not a CA, named
    after the agent, valid from a minute ago until the returned expiry, the TTL
    (a day when none is given) from now.  Its alternative names, the URIs
    included, are those of the request: the agent's UUID is only in the common
    name. *)
Theorem signed_certificate {T : GoText} {C : Crypto} in_ serial now cert exp :
  SignAgentCSR in_ serial now = Ok (cert, exp) ->
  exists csr ca key tpl der,
    x509_CheckSignature csr = None /\ parseCACert (sci_CACertPEM in_) = Ok ca /\ ca_IsCA ca = true
    /\ parseCAKey (sci_CAKeyPEM in_) = Ok key
    /\ x509_CreateCertificate tpl ca (csr_PublicKey csr) key = Ok der
    /\ cert = pem_EncodeToMemory "CERTIFICATE" der
    /\ tpl_CommonName tpl = ("maintainerd-agent:" +:+ uuid_String (sci_AgentUUID in_))%string
    /\ tpl_ExtKeyUsageClientAuth tpl = true /\ tpl_IsCA tpl = false
    /\ tpl_NotBefore tpl = now - Minute /\ tpl_NotAfter tpl = exp
    /\ exp = now + (if sci_TTL in_ <=? 0 then 24 * Hour else sci_TTL in_)
    /\ tpl_URIs tpl = csr_URIs csr /\ tpl_DNSNames tpl = csr_DNSNames csr.
Proof.
  unfold SignAgentCSR. case_match; [done|]. destruct (pem_block _ _); [|done].
  destruct (x509_ParseCertificateRequest _) as [csr|e]; [|done].
  destruct (x509_CheckSignature csr) eqn:Hsig; [done|].
  intros (ca & Hca & Hk)%bind_Ok_inv. apply bind_Ok_inv in Hk as (key & Hkey & Hk).
  destruct serial as [n|]; [|done].
  destruct (x509_CreateCertificate _ _ _ _) as [der|e] eqn:Hd; [|done]. injection Hk as <- <-.
  exists csr, ca, key, (agentTemplate in_ csr n now), der. split_and!; try done.
  revert Hca. unfold parseCACert.
  destruct (pem_block _ _); [|done]. destruct (x509_ParseCertificate _) as [c|]; [|done].
  destruct (negb (ca_IsCA c)) eqn:E; intros; simplify_eq. by split_bools.
Qed.

Lemma signed_certificate_witness :
  exists csr ca key tpl der,
    @x509_CreateCertificate sample_crypto tpl ca (csr_PublicKey csr) key = Ok der
    /\ tpl_URIs tpl = csr_URIs csr /\ tpl_NotAfter tpl = 10 + 24 * Hour.
Proof.
  destruct (@signed_certificate plain_text sample_crypto
      (Build_SignAgentCSRInput 301 "csr r" "crt ca" "key k" 0) (Some 7) 10
      "crt maintainerd-agent:301" (10 + 24 * Hour))
    as (csr & ca & key & tpl & der & _ & _ & _ & _ & H1 & _ & _ & _ & _ & _ & H2 & _ & H3 & _);
    [vm_compute; reflexivity|].
  exists csr, ca, key, tpl, der. split; [exact H1|]. split; [exact H3|exact H2].
Defined.
