(* ===== verification/Registry.v ===== *)
(** * The service registry

    [internal/service/service.go]: the control-plane services of a tenant, the
    system services the platform cannot run without, and the convergence of a
    capability's row by the steward ([EnsureRegistered]). *)

From S2P Require Import Prelude Json Storage World AppError Queries Evolution Mrn Resource Sample.

Record Registration := {
  rg_UUID : Z; rg_TenantUUID : Z; rg_Name : string; rg_Kind : string; rg_IsSystem : bool;
  rg_Status : string; rg_Endpoint : string; rg_Version : string; rg_Metadata : object;
  rg_RegisteredAt : option Z; rg_CreatedAt : Z; rg_UpdatedAt : Z }.

Record CreateInput := {
  sc_TenantUUID : Z; sc_Name : string; sc_Kind : string; sc_IsSystem : bool;
  sc_Endpoint : string; sc_Version : string; sc_Metadata : option object }.
Record UpdateStatusInput := { su_Status : string; su_Endpoint : string }.

Definition regFrom (row : ServiceRow) (tenantUUID : Z) : Registration := {|
  rg_UUID := s_ServiceUuid row; rg_TenantUUID := tenantUUID; rg_Name := s_Name row;
  rg_Kind := s_Kind row; rg_IsSystem := s_IsSystem row; rg_Status := s_Status row;
  rg_Endpoint := s_Endpoint row; rg_Version := s_Version row;
  rg_Metadata := JSONToMap (s_Metadata row); rg_RegisteredAt := s_RegisteredAt row;
  rg_CreatedAt := s_CreatedAt row; rg_UpdatedAt := s_UpdatedAt row |}.

Definition resolveTenantUUID (tenantID : Z) : M error Z :=
  t ← or_return (GetTenantByID tenantID);
  mret (t_TenantUuid t).

Definition StatusRegistered : string := "registered".

(** ** Operations *)

Definition Create (in_ : CreateInput) : M error Registration :=
  if is_empty (sc_Name in_) || is_empty (sc_Kind in_)
  then fail (NewValidation "name and kind are required")
  else
    tenantRow ← or_not_found "tenant" (GetTenantByUUID (sc_TenantUUID in_));
    meta ← or_validation "invalid metadata" (marshalMap (sc_Metadata in_));
    row ← or_return (CreateService (t_TenantID tenantRow) (sc_Name in_) (sc_Kind in_) "pending"
            (sc_Endpoint in_) (sc_Version in_) meta None (sc_IsSystem in_));
    mret (regFrom row (t_TenantUuid tenantRow)).

Definition Get (id : Z) : M error Registration :=
  row ← or_not_found "service" (GetServiceByUUID id);
  tenantUUID ← resolveTenantUUID (s_TenantID row);
  mret (regFrom row tenantUUID).

Definition ListByTenant (tenantUUID page limit : Z) : M error (list Registration * Z) :=
  tenantRow ← or_not_found "tenant" (GetTenantByUUID tenantUUID);
  let '(page, limit) := normalizePage page limit in
  rows ← or_return (ListServicesByTenant (t_TenantID tenantRow) (int32 limit)
                      (page_offset page limit));
  total ← or_return (CountServicesByTenant (t_TenantID tenantRow));
  mret (map (fun r => regFrom r (t_TenantUuid tenantRow)) rows, total).

(** The stamp of a status write: the first 'running' registers the service. *)
Definition stamp_running (status : string) (current : option Z) (now : Z) : option Z :=
  match current with
  | Some t => Some t
  | None => if str_eqb status "running" then Some now else None
  end.

Definition UpdateStatus (id : Z) (in_ : UpdateStatusInput) : M error Registration :=
  current ← or_not_found "service" (GetServiceByUUID id);
  let status := if negb (is_empty (su_Status in_)) then su_Status in_ else s_Status current in
  let endpoint := if negb (is_empty (su_Endpoint in_)) then su_Endpoint in_
                  else s_Endpoint current in
  now ← time_Now;
  row ← or_return (UpdateServiceStatus id status endpoint
                     (stamp_running status (s_RegisteredAt current) now));
  tenantUUID ← resolveTenantUUID (s_TenantID row);
  mret (regFrom row tenantUUID).

Definition Delete (id : Z) : M error () :=
  row ← or_not_found "service" (GetServiceByUUID id);
  if s_IsSystem row
  then fail (NewForbidden "system services are required by the platform and cannot be removed")
  else or_return (SoftDeleteService id);; mret ().

Definition EnsureRegistered (name kind : string) (isSystem : bool) : M error () :=
  if is_empty name || is_empty kind then fail (NewValidation "name and kind are required")
  else
    tenantRow ← or_not_found "system tenant" GetSystemTenant;
    r ← try (GetServiceByTenantAndName (t_TenantID tenantRow) name);
    now ← time_Now;
    match r with
    | Err ErrNoRows =>
        or_return (CreateService (t_TenantID tenantRow) name kind StatusRegistered "" ""
          (VObj []) (Some now) isSystem);; mret ()
    | Err e => fail (DbError e)
    | Ok current =>
        if negb (str_eqb (s_Status current) "pending")
           && match s_RegisteredAt current with Some _ => true | None => false end
        then mret ()
        else
          let status := if str_eqb (s_Status current) "pending" then StatusRegistered
                        else s_Status current in
          let registeredAt := match s_RegisteredAt current with Some t => Some t
                              | None => Some now end in
          or_return (UpdateServiceStatus (s_ServiceUuid current) status (s_Endpoint current)
            registeredAt);; mret ()
    end.

Fixpoint list_system_loop (rows : list ServiceRow) : M error (list Registration) :=
  match rows with
  | [] => mret []
  | r :: rows =>
      tenantUUID ← resolveTenantUUID (s_TenantID r);
      out ← list_system_loop rows;
      mret (regFrom r tenantUUID :: out)
  end.

Definition ListSystem : M error (list Registration) :=
  rows ← or_return ListSystemServices;
  list_system_loop rows.

(** ** Evolution of a registration *)

(** A system service is never deleted, and a registration is stamped once. *)
Record service_evolves (s s' : ServiceRow) : Prop := {
  se_keys : same_keys s s';
  se_name : s_Name s' = s_Name s;
  se_kind : s_Kind s' = s_Kind s;
  se_system : s_IsSystem s' = s_IsSystem s;
  se_stamp : forall t, s_RegisteredAt s = Some t -> s_RegisteredAt s' = Some t;
  se_kept : s_IsSystem s = true -> s_DeletedAt s = None -> s_DeletedAt s' = None;
  se_frozen : s_DeletedAt s <> None -> s' = s;
}.

#[global] Instance service_evolves_preorder : PreOrder service_evolves.
Proof.
  split.
  - intros s. split; done.
  - intros a b c [[K1 K2] N1 D1 S1 R1 P1 F1] [[K3 K4] N2 D2 S2 R2 P2 F2]. split; try congruence; auto.
    + split; congruence.
    + intros Hs Hl. apply P2; [congruence|auto].
    + intros H. rewrite (F1 H) in *. auto.
Qed.

Inductive service_op :=
  | SvCreate (in_ : CreateInput)
  | SvGet (id : Z)
  | SvList (tenant page limit : Z)
  | SvUpdateStatus (id : Z) (in_ : UpdateStatusInput)
  | SvDelete (id : Z)
  | SvEnsure (name kind : string) (isSystem : bool)
  | SvListSystem.

Definition service_run (o : service_op) : M error () :=
  match o with
  | SvCreate in_ => Create in_;; mret ()
  | SvGet id => Get id;; mret ()
  | SvList t p l => ListByTenant t p l;; mret ()
  | SvUpdateStatus id in_ => UpdateStatus id in_;; mret ()
  | SvDelete id => Delete id
  | SvEnsure n k s => EnsureRegistered n k s
  | SvListSystem => ListSystem;; mret ()
  end.

Inductive service_step : relation World :=
  | sv_step_op o w : service_step w (snd (service_run o w))
  | sv_step_env w w' : w_db w' = w_db w -> service_step w w'.

Abbreviation on_services := (on_table services service_evolves).

Lemma list_system_advances (Rel : relation Db) `{!PreOrder Rel} rows :
  advances Rel (list_system_loop rows).
Proof. induction rows as [|r rows IH]; cbn; advance. Qed.

(** A status write that keeps the stamp of the row with this UUID. *)
Lemma status_write_advances id status endpoint stamp w :
  (table_wf (services (w_db w)) -> forall r t, r ∈ tbl_rows (services (w_db w)) ->
     s_ServiceUuid r = id -> s_RegisteredAt r = Some t -> stamp = Some t) ->
  on_services (w_db w) (w_db (snd (UpdateServiceStatus id status endpoint stamp w))).
Proof.
  intros Hst. apply table_update_one_at; [apply _|apply _|done|].
  intros w1 r _ Hwf Hr Hl Hp. cbn in Hl, Hp. split; try done.
  intros t Ht. cbn. apply (Hst Hwf r t Hr); [lia|done].
Qed.

Lemma delete_advances id : advances on_services (Delete id).
Proof.
  apply advances_get_bind; [apply _|]. intros w r Hr Hl Hid.
  destruct (s_IsSystem r) eqn:Es; [reflexivity|].
  apply bind_advances_at; [apply _| |intros ?; advance].
  unfold or_return. rewrite map_err_db. apply table_update_at; [apply _|apply _|done|].
  intros w1 q _ Hwf Hq Hql Hp. cbn in Hp, Hid.
  rewrite (wf_uuid_inj _ q r Hwf Hq Hr) in * by (cbn; lia).
  cbn in Hl. split; try done; cbn; congruence.
Qed.

Lemma update_status_advances id in_ : advances on_services (UpdateStatus id in_).
Proof.
  apply advances_get_bind; [apply _|]. intros w r Hr Hl Hid. cbn in Hid.
  rewrite (bind_run _ _ _ _ _ (eq_refl : time_Now w = (Ok (w_gonow w), w))).
  apply bind_advances_at; [apply _| |intros ?; advance].
  unfold or_return. rewrite map_err_db. apply status_write_advances.
  intros Hwf q t Hq Eq Ht. rewrite (wf_uuid_inj _ q r Hwf Hq Hr) in Ht by (cbn; lia).
  by rewrite Ht.
Qed.

Lemma ensure_advances name kind isSystem : advances on_services (EnsureRegistered name kind isSystem).
Proof.
  unfold EnsureRegistered. case_match; [advance|].
  apply advances_bind; [apply _|advance|]. intros tn w.
  unfold try, mbind at 1, M_bind at 1.
  destruct (GetServiceByTenantAndName (t_TenantID tn) name w) as [r w1] eqn:Eg.
  assert (Hdb : w_db w1 = w_db w).
  { assert (Ha : advances (fun d d' => d' = d) (GetServiceByTenantAndName (t_TenantID tn) name))
      by (apply advances_query; [split; congruence|done]).
    specialize (Ha w). by rewrite Eg in Ha. }
  rewrite (bind_run _ _ _ _ _ (eq_refl : time_Now w1 = (Ok (w_gonow w1), w1))). rewrite <- Hdb.
  destruct r as [cur|[]]; try reflexivity.
  - apply q_get_Ok_inv in Eg as (Hcur & _). destruct (_ && _); [reflexivity|].
    apply bind_advances_at; [apply _| |intros ?; advance].
    unfold or_return. rewrite map_err_db. apply status_write_advances.
    intros Hwf q t Hq Eq Ht. rewrite Hdb in *.
    rewrite (wf_uuid_inj _ q cur Hwf Hq Hcur Eq) in Ht. by rewrite Ht.
  - apply (advances_bind on_services); [|intros ?; advance].
    advance. by apply table_insert; [apply _|apply _|].
Qed.

Lemma service_run_advances o : advances on_services (service_run o).
Proof.
  destruct o; cbn [service_run].
  - advance. by apply table_insert; [apply _|apply _|].
  - advance.
  - advance.
  - apply advances_bind; [apply _|apply update_status_advances|intros ?; advance].
  - apply delete_advances.
  - apply ensure_advances.
  - apply advances_bind; [apply _| |intros ?; advance].
    apply advances_bind; [apply _|advance|]. intros rows. apply list_system_advances. apply _.
Qed.

Lemma service_steps_advance w w' : rtc service_step w w' -> on_services (w_db w) (w_db w').
Proof.
  induction 1 as [w|w1 w2 w3 [o w|? ? E] _ IH]; [reflexivity| |by rewrite <- E].
  etransitivity; [apply service_run_advances | exact IH].
Qed.

(** Through every sequence of registry operations, whichever queries
    fail, a live system service stays registered: it is never deleted, it keeps
    its name and kind and stays a system service, and the time it was first
    registered is never lost or rewritten. *)
Theorem system_service_kept w w' i s :
  table_wf (services (w_db w)) -> rtc service_step w w' ->
  tbl_rows (services (w_db w)) !! i = Some s -> s_IsSystem s = true -> s_DeletedAt s = None ->
  exists s', tbl_rows (services (w_db w')) !! i = Some s' /\ s_DeletedAt s' = None
    /\ s_ServiceUuid s' = s_ServiceUuid s /\ s_IsSystem s' = true
    /\ s_Name s' = s_Name s /\ s_Kind s' = s_Kind s
    /\ (forall t, s_RegisteredAt s = Some t -> s_RegisteredAt s' = Some t).
Proof.
  intros Hwf Hs Hi Hsys Hl. destruct (service_steps_advance w w' Hs Hwf) as [_ Hrows].
  destruct (rows_advance_lookup _ _ _ _ _ Hrows Hi) as (s' & Hs' & [[_ K] N D S R P _]).
  exists s'. split_and!; auto; congruence.
Qed.

(** ** Convergence of a registration *)

Definition named (tenant : Z) (name : string) (s : ServiceRow) : bool :=
  (s_TenantID s =? tenant) && str_eqb (s_Name s) name.
Definition converged (s : ServiceRow) : Prop :=
  s_Status s <> "pending"%string /\ s_RegisteredAt s <> None.

Section Ensure.
Context (w : World) (tn : TenantRow) (name kind : string) (isSystem : bool).
Hypothesis (Hf : w_faults w = []) (Hn : name <> ""%string) (Hk : kind <> ""%string).
Hypothesis (Ht : select_one t_IsSystem (tenants (w_db w)) = Ok tn).
Let found := select_one (named (t_TenantID tn) name) (services (w_db w)).

(** Without faults the call reads the tenant and the row, then acts. *)
Lemma ensure_run :
  EnsureRegistered name kind isSystem w =
  match found with
  | Ok s =>
      if negb (str_eqb (s_Status s) "pending")
         && match s_RegisteredAt s with Some _ => true | None => false end
      then (Ok (), w)
      else (or_return (UpdateServiceStatus (s_ServiceUuid s)
              (if str_eqb (s_Status s) "pending" then StatusRegistered else s_Status s)
              (s_Endpoint s)
              (match s_RegisteredAt s with Some t => Some t | None => Some (w_gonow w) end));;
            mret ()) w
  | Err _ =>
      (or_return (CreateService (t_TenantID tn) name kind StatusRegistered "" "" (VObj [])
         (Some (w_gonow w)) isSystem);; mret ()) w
  end.
Proof.
  unfold EnsureRegistered, is_empty.
  rewrite (proj2 (str_eqb_neq name "")), (proj2 (str_eqb_neq kind "")) by done. cbn [orb].
  erewrite bind_run; [|unfold or_not_found, map_err, GetSystemTenant;
    rewrite (q_get_run w Hf), Ht; reflexivity].
  erewrite bind_run; [|unfold try, GetServiceByTenantAndName; rewrite (q_get_run w Hf); reflexivity].
  erewrite bind_run; [|reflexivity]. fold (named (t_TenantID tn) name). fold found.
  unfold found, select_one. destruct (select _ _) as [|s l]; [reflexivity|].
  by destruct (negb _ && _).
Qed.

Lemma ensure_idle s : found = Ok s -> converged s ->
  EnsureRegistered name kind isSystem w = (Ok (), w).
Proof.
  intros Hs [H1 H2]. rewrite ensure_run, Hs, (proj2 (str_eqb_neq _ _) H1).
  by destruct (s_RegisteredAt s).
Qed.
End Ensure.

Section EnsureWrites.
Context (w : World) (tn : TenantRow) (name kind : string) (isSystem : bool).
Hypothesis (Hf : w_faults w = []) (Hwf : table_wf (services (w_db w))).
Let p := named (t_TenantID tn) name.

(** The row a call advances, and the table it leaves. *)
Definition ensured_row (s : ServiceRow) : ServiceRow :=
  s <| s_Status := (if str_eqb (s_Status s) "pending" then StatusRegistered else s_Status s) |>
    <| s_Endpoint := s_Endpoint s |>
    <| s_RegisteredAt := (match s_RegisteredAt s with Some t => Some t | None => Some (w_gonow w) end) |>
    <| s_UpdatedAt := w_dbnow w |>.
Lemma ensured_converged s : converged (ensured_row s).
Proof.
  split; cbn; [|by destruct (s_RegisteredAt s)].
  destruct (str_eqb (s_Status s) "pending") eqn:E; by split_bools.
Qed.

Lemma ensured_update s : select_one p (services (w_db w)) = Ok s ->
  exists t, (or_return (UpdateServiceStatus (s_ServiceUuid s)
      (if str_eqb (s_Status s) "pending" then StatusRegistered else s_Status s) (s_Endpoint s)
      (match s_RegisteredAt s with Some t => Some t | None => Some (w_gonow w) end));; mret ()) w
    = (Ok (), w <| w_db := (w_db w) <| services := t |> |>)
    /\ select_one p t = Ok (ensured_row s).
Proof.
  intros (Hs & Hl & Hp & l & Hsel)%select_one_Ok_inv.
  set (f := fun r => r
    <| s_Status := (if str_eqb (s_Status s) "pending" then StatusRegistered else s_Status s) |>
    <| s_Endpoint := s_Endpoint s |>
    <| s_RegisteredAt := (match s_RegisteredAt s with Some t => Some t | None => Some (w_gonow w) end) |>
    <| s_UpdatedAt := w_dbnow w |>).
  set (u := fun r => s_ServiceUuid r =? s_ServiceUuid s).
  assert (Hu : u s = true) by apply Z.eqb_refl.
  assert (Hok : row_ok (f s) = true).
  { pose proof (wf_columns _ Hwf s Hs) as H. cbn -[varchar text] in H |- *. split_bools.
    repeat match goal with E : ?x = true |- context [?x] => rewrite E end.
    destruct (str_eqb (s_Status s) "pending"); [done|].
    by repeat match goal with E : ?x = true |- context [?x] => rewrite E end. }
  exists (update_hit (services (w_db w)) u f). split.
  - erewrite bind_run; [reflexivity|]. unfold or_return, map_err, UpdateServiceStatus.
    erewrite (q_update_one_run w Hf); [reflexivity|].
    apply (update_unique _ s u); [done..| |exact Hok]. intros q; unfold u; cbn; lia.
  - unfold update_hit, select_one.
    rewrite (select_rewritten _ (fun q => if hit u q then f q else q) _ _ (tbl_next (services (w_db w)))).
    + destruct (services (w_db w)) as [rows next]. cbn [tbl_rows tbl_next]. rewrite Hsel. cbn [map].
      unfold hit, live. cbn. cbn in Hl. rewrite Hl, Hu. done.
    + intros q. by destruct (hit u q).
Qed.

Lemma ensured_insert :
  select_one p (services (w_db w)) = Err ErrNoRows ->
  varchar 100 name = true -> varchar 50 kind = true ->
  (forall q, q ∈ tbl_rows (services (w_db w)) -> s_ServiceUuid q <> draw_uuid w) ->
  exists w' s', (or_return (CreateService (t_TenantID tn) name kind StatusRegistered "" "" (VObj [])
      (Some (w_gonow w)) isSystem);; mret ()) w = (Ok (), w')
    /\ w_faults w' = [] /\ tenants (w_db w') = tenants (w_db w)
    /\ select_one p (services (w_db w')) = Ok s' /\ converged s'.
Proof.
  intros Hnone Hvn Hvk Hfresh. unfold select_one in Hnone.
  destruct (select p (services (w_db w))) as [|q l] eqn:Esel; [|done].
  set (r := Build_ServiceRow (tbl_next (services (w_db w))) (draw_uuid w) (t_TenantID tn) name kind
    StatusRegistered "" "" (VObj []) (Some (w_gonow w)) None None (w_dbnow w) (w_dbnow w) None isSystem).
  assert (Hok : row_ok r = true) by (cbn -[varchar text]; by rewrite Hvn, Hvk).
  assert (Hclash : existsb (fun q => (row_uuid q =? row_uuid r) || (live q && row_key_eqb q r))
    (tbl_rows (services (w_db w))) = false).
  { apply not_true_iff_false. intros (q & Hq & Hc)%existsb_exists. apply list_elem_of_In in Hq.
    specialize (Hfresh q Hq). cbn in Hc. apply orb_true_iff in Hc as [Hc|Hc]; [lia|].
    assert (Hin : q ∈ select p (services (w_db w))) by (by apply list_elem_of_filter).
    rewrite Esel in Hin. by apply elem_of_nil in Hin. }
  exists (w <| w_uuids := tail (w_uuids w) |> <| w_db := (w_db w) <| services :=
    mkTable (tbl_rows (services (w_db w)) ++ [r]) (tbl_next (services (w_db w)) + 1) |> |>), r.
  split_and!; try done.
  - erewrite bind_run; [reflexivity|]. unfold or_return, map_err, CreateService, q_insert.
    rewrite (query_run w Hf). unfold insert. fold r. rewrite Hok, Hclash. reflexivity.
  - unfold select_one, select in *. cbn [w_db services tbl_rows set_field]. record_simpl.
    rewrite filter_app. cbn in Esel. rewrite Esel. cbn.
    rewrite decide_True; [done|]. unfold p, named. cbn. by rewrite Z.eqb_refl, str_eqb_refl.
Qed.
End EnsureWrites.

(** Without faults, once the system tenant exists, ensuring a
    capability succeeds and converges: its row exists afterwards, is not
    'pending' and is stamped; a status past 'pending' is never rewritten; and a
    second call writes nothing. *)
Theorem ensure_registered_converges w tn name kind isSystem :
  w_faults w = [] -> table_wf (services (w_db w)) ->
  select_one t_IsSystem (tenants (w_db w)) = Ok tn ->
  name <> ""%string -> kind <> ""%string -> varchar 100 name = true -> varchar 50 kind = true ->
  (forall q, q ∈ tbl_rows (services (w_db w)) -> s_ServiceUuid q <> draw_uuid w) ->
  exists w' s', EnsureRegistered name kind isSystem w = (Ok (), w')
    /\ select_one (named (t_TenantID tn) name) (services (w_db w')) = Ok s' /\ converged s'
    /\ EnsureRegistered name kind isSystem w' = (Ok (), w')
    /\ (forall s, select_one (named (t_TenantID tn) name) (services (w_db w)) = Ok s ->
          s_ServiceUuid s' = s_ServiceUuid s
          /\ (s_Status s <> "pending"%string -> s_Status s' = s_Status s)).
Proof.
  intros Hf Hwf Ht Hn Hk Hvn Hvk Hu.
  assert (Hrun := ensure_run w tn name kind isSystem Hf Hn Hk Ht). cbn zeta in Hrun.
  destruct (select_one (named _ name) (services (w_db w))) as [s|e] eqn:Efound.
  - destruct (negb _ && _) eqn:Edone.
    + exists w, s. assert (Hc : converged s).
      { apply andb_true_iff in Edone as [E1 E2]. split_bools. split; [done|].
        by destruct (s_RegisteredAt s). }
      split_and!; try done. intros s0 E. by simplify_eq.
    + destruct (ensured_update w tn name Hf Hwf s Efound) as (t & Hup & Hsel).
      pose proof (ensured_converged w s) as Hc. rewrite Hup in Hrun.
      set (w' := w <| w_db := (w_db w) <| services := t |> |>) in *.
      exists w', (ensured_row w s). split_and!; try done.
      * by apply (ensure_idle w' tn name kind isSystem Hf Hn Hk Ht (ensured_row w s)).
      * intros s0 E. simplify_eq. split; [done|]. intros Hp. cbn.
        by rewrite (proj2 (str_eqb_neq _ _) Hp).
  - assert (Hnone : e = ErrNoRows)
      by (unfold select_one in Efound; destruct (select _ _); by simplify_eq). subst e.
    destruct (ensured_insert w tn name kind isSystem Hf Efound Hvn Hvk Hu)
      as (w' & s' & Hins & Hf' & Ht' & Hsel & Hc). rewrite Hins in Hrun.
    exists w', s'. split_and!; try done.
    apply (ensure_idle w' tn name kind isSystem Hf' Hn Hk ltac:(by rewrite Ht') s' Hsel Hc).
Qed.

(** A registry whose auth service setup left 'pending'. *)
Definition auth_service : ServiceRow :=
  Build_ServiceRow 1 601 1 "auth" "auth" "pending" "" "" (VObj []) None None None 0 0 None true.
Definition registry_world : World :=
  sample_world <| w_db := sample_db <| services := mkTable [auth_service] 2 |> |>.
Lemma registry_wf : table_wf (services (w_db registry_world)).
Proof. apply table_wfb_sound. vm_compute. reflexivity. Qed.

Lemma ensure_registered_converges_witness :
  exists w' s', EnsureRegistered "auth" "auth" true registry_world = (Ok (), w')
    /\ select_one (named 1 "auth") (services (w_db w')) = Ok s' /\ converged s'
    /\ EnsureRegistered "auth" "auth" true w' = (Ok (), w').
Proof.
  destruct (ensure_registered_converges registry_world acme "auth" "auth" true)
    as (w' & s' & H1 & H2 & H3 & H4 & _);
    [reflexivity|apply registry_wf|reflexivity|discriminate|discriminate|reflexivity|reflexivity| |].
  - intros q Hq. apply list_elem_of_singleton in Hq as ->. vm_compute. discriminate.
  - exists w', s'. split; [exact H1|]. split; [exact H2|]. split; [exact H3|exact H4].
Defined.

Lemma system_service_kept_witness :
  exists s', tbl_rows (services (w_db (snd (service_run (SvDelete 601) registry_world)))) !! 0%nat = Some s'
    /\ s_DeletedAt s' = None.
Proof.
  destruct (system_service_kept registry_world (snd (service_run (SvDelete 601) registry_world))
      0%nat auth_service) as (s' & H1 & H2 & _);
    [apply registry_wf| |reflexivity|reflexivity|reflexivity|exists s'; split; [exact H1|exact H2]].
  apply rtc_once. exact (sv_step_op (SvDelete 601) registry_world).
Defined.
