(* ===== verification/EventLog.v ===== *)
(** * The platform event log

    [internal/event/service.go]: the durable record of escalations.  Events are
    only ever appended; kinds, severities and subject types are cut to the width
    of their columns rather than refused. *)

From S2P Require Import Prelude Json Storage World AppError Queries Evolution Mrn Resource Sample.

Definition KindAgentOffline : string := "agent.offline".
Definition KindSystemHostUnreachable : string := "system.host_unreachable".
Definition KindSystemInstanceMissing : string := "system.instance_missing".
Definition KindSystemRedispatchEscalated : string := "system.redispatch_escalated".
Definition KindSystemRecovered : string := "system.recovered".
Definition SeverityInfo : string := "info".
Definition SeverityWarning : string := "warning".
Definition SeverityCritical : string := "critical".
Definition SubjectAgent : string := "agent".
Definition SubjectResource : string := "resource".
Definition SubjectService : string := "service".
Definition maxKindLen : nat := 50.
Definition maxSeverityLen : nat := 20.
Definition maxSubjectTypeLen : nat := 50.

Record Event := {
  ev_UUID : Z; ev_Kind : string; ev_Severity : string; ev_SubjectType : string;
  ev_SubjectUUID : option Z; ev_Message : string; ev_Details : object; ev_CreatedAt : Z }.

Record Input := {
  in_Kind : string; in_Severity : string; in_SubjectType : string; in_SubjectUUID : option Z;
  in_Message : string; in_Details : option object }.

Definition from (row : EventRow) : Event := {|
  ev_UUID := e_EventUuid row; ev_Kind := e_Kind row; ev_Severity := e_Severity row;
  ev_SubjectType := e_SubjectType row; ev_SubjectUUID := e_SubjectUuid row;
  ev_Message := e_Message row; ev_Details := JSONToMap (e_Details row);
  ev_CreatedAt := e_CreatedAt row |}.

Definition truncate (s : string) (max : nat) : string :=
  if Nat.ltb max (String.length s) then str_take max s else s.

Definition Emit (in_ : Input) : M error Event :=
  let kind := TrimSpace (in_Kind in_) in
  let message := TrimSpace (in_Message in_) in
  if is_empty kind || is_empty message
  then fail (NewValidation "kind and message are required")
  else
    let severity := TrimSpace (in_Severity in_) in
    let severity := if is_empty severity then SeverityWarning else severity in
    details ← or_validation "invalid details" (marshalMap (in_Details in_));
    row ← or_return (CreatePlatformEvent None (truncate kind maxKindLen)
            (truncate severity maxSeverityLen)
            (truncate (TrimSpace (in_SubjectType in_)) maxSubjectTypeLen)
            (in_SubjectUUID in_) message details);
    mret (from row).

Definition List (page limit : Z) : M error (list Event * Z) :=
  let '(page, limit) := normalizePage page limit in
  rows ← or_return (ListPlatformEvents (int32 limit) (page_offset page limit));
  total ← or_return CountPlatformEvents;
  mret (map from rows, total).

Definition ListBySubject (subjectType : string) (subjectUUID page limit : Z)
    : M error (list Event) :=
  if is_empty (TrimSpace subjectType) then fail (NewValidation "subject_type is required")
  else
    let '(page, limit) := normalizePage page limit in
    rows ← or_return (ListPlatformEventsBySubject subjectType subjectUUID (int32 limit)
                        (page_offset page limit));
    mret (map from rows).

(** ** The log is append-only *)

Inductive event_op :=
  | EvEmit (in_ : Input)
  | EvList (page limit : Z)
  | EvListBySubject (ty : string) (id page limit : Z).

Definition event_run (o : event_op) : M error () :=
  match o with
  | EvEmit in_ => Emit in_;; mret ()
  | EvList p l => List p l;; mret ()
  | EvListBySubject ty id p l => ListBySubject ty id p l;; mret ()
  end.

Lemma emit_advances in_ : advances (on_table events eq) (Emit in_).
Proof. advance. by apply table_insert; [apply _|apply _|]. Qed.

Lemma event_run_advances o : advances (on_table events eq) (event_run o).
Proof.
  destruct o; cbn [event_run].
  - apply advances_bind; [apply _|apply emit_advances|intros ?; advance].
  - advance.
  - advance.
Qed.

Inductive event_step : relation World :=
  | ev_step_op o w : event_step w (snd (event_run o w))
  | ev_step_env w w' : w_db w' = w_db w -> event_step w w'.

(** Events are only appended: through every sequence of operations of the
    log, whichever queries fail, the log before is a prefix of the log after. *)
Theorem events_append_only w w' :
  table_wf (events (w_db w)) -> rtc event_step w w' ->
  tbl_rows (events (w_db w)) `prefix_of` tbl_rows (events (w_db w')).
Proof.
  intros Hwf Hs.
  assert (H : on_table events eq (w_db w) (w_db w')).
  { induction Hs as [w|w1 w2 w3 [o w|? ? E] _ IH]; [reflexivity| |].
    - etransitivity; [apply event_run_advances|]. apply IH.
      by apply (event_run_advances o w).
    - rewrite <- E. apply IH. by rewrite E. }
  destruct (H Hwf) as [_ (old & new & E & F)]. exists new. rewrite E. f_equal.
  clear -F. induction F; congruence.
Qed.

(** ** Nothing is lost to a column width *)

(** An event is not lost to the width of a column.  When its texts are
    ASCII (whatever their length), its kind and message not blank, and its
    details can be encoded, then without faults it is recorded: the kind is cut
    to its column, a blank severity is 'warning', and the log grows by exactly
    this event. *)
Theorem emit_recorded w in_ details :
  w_faults w = [] -> (forall q, q ∈ tbl_rows (events (w_db w)) -> e_EventUuid q <> draw_uuid w) ->
  TrimSpace (in_Kind in_) <> ""%string -> TrimSpace (in_Message in_) <> ""%string ->
  ascii_text (TrimSpace (in_Kind in_)) = true -> ascii_text (TrimSpace (in_Severity in_)) = true ->
  ascii_text (TrimSpace (in_SubjectType in_)) = true -> ascii_text (TrimSpace (in_Message in_)) = true ->
  marshalMap (in_Details in_) = Ok details ->
  exists ev w' row, Emit in_ w = (Ok ev, w')
    /\ tbl_rows (events (w_db w')) = tbl_rows (events (w_db w)) ++ [row]
    /\ ev = from row /\ e_Kind row = truncate (TrimSpace (in_Kind in_)) maxKindLen
    /\ e_SubjectUuid row = in_SubjectUUID in_ /\ e_Message row = TrimSpace (in_Message in_)
    /\ e_Details row = details
    /\ (TrimSpace (in_Severity in_) = ""%string -> e_Severity row = SeverityWarning).
Proof.
  intros Hf Hfresh Hk Hm Ak As Ast Am Hd. unfold Emit, is_empty.
  rewrite (proj2 (str_eqb_neq _ _) Hk), (proj2 (str_eqb_neq _ _) Hm). cbn [orb].
  erewrite bind_run; [|unfold or_validation, lift; rewrite Hd; reflexivity].
  set (sev := if str_eqb (TrimSpace (in_Severity in_)) "" then SeverityWarning else TrimSpace (in_Severity in_)).
  assert (Asev : ascii_text sev = true) by (unfold sev; by destruct (str_eqb _ _)).
  set (row := Build_EventRow (tbl_next (events (w_db w))) (draw_uuid w) None
    (truncate (TrimSpace (in_Kind in_)) maxKindLen) (truncate sev maxSeverityLen)
    (truncate (TrimSpace (in_SubjectType in_)) maxSubjectTypeLen) (in_SubjectUUID in_)
    (TrimSpace (in_Message in_)) details (w_dbnow w)).
  assert (Hok : row_ok row = true).
  { cbn -[varchar text truncate]. unfold truncate. by rewrite !ascii_prefix_fits, ascii_fits. }
  assert (Hclash : existsb (fun q => (row_uuid q =? row_uuid row) || (live q && row_key_eqb q row))
    (tbl_rows (events (w_db w))) = false).
  { apply not_true_iff_false. intros (q & Hq & Hc)%existsb_exists. apply list_elem_of_In in Hq.
    specialize (Hfresh q Hq). cbn in Hc. rewrite orb_false_r in Hc. lia. }
  erewrite bind_run; [|unfold or_return, map_err, CreatePlatformEvent, q_insert;
    rewrite (query_run w Hf); unfold insert; fold row; rewrite Hok, Hclash; reflexivity].
  eexists _, _, row. split; [reflexivity|]. split_and!; try done.
  intros E. unfold row, sev. cbn. by rewrite E.
Qed.

Definition sample_event : Input :=
  Build_Input KindAgentOffline "" SubjectAgent (Some 302) " host b is gone " None.

Lemma emit_recorded_witness :
  exists ev w', Emit sample_event sample_world = (Ok ev, w') /\ ev_Severity ev = "warning"%string.
Proof.
  destruct (emit_recorded sample_world sample_event (VObj []))
    as (ev & w' & row & H1 & _ & -> & _ & _ & _ & _ & H2);
    [reflexivity|intros q Hq; by apply elem_of_nil in Hq|vm_compute; discriminate
    |vm_compute; discriminate|reflexivity..|].
  exists (from row), w'. split; [exact H1|]. exact (H2 eq_refl).
Defined.

Lemma events_append_only_witness :
  tbl_rows (events (w_db sample_world))
  `prefix_of` tbl_rows (events (w_db (snd (event_run (EvEmit sample_event) sample_world)))).
Proof.
  apply events_append_only; [apply empty_wf|].
  apply rtc_once. exact (ev_step_op (EvEmit sample_event) sample_world).
Defined.

(** Forty-nine ASCII bytes and a two-byte letter, as the kind of an event. *)
Definition cut_kind : string :=
  string_of_list_ascii (repeat "k"%char 49) +:+ byte_string [195; 169]%nat.

(** A kind with a multi-byte letter across byte fifty is cut inside
    the letter, so the store refuses the row and the event is lost. *)
Theorem event_cut_lost w sev ty id msg :
  w_faults w = [] -> TrimSpace msg <> ""%string ->
  let in_ := Build_Input cut_kind sev ty id msg None in
  is_ok (fst (Emit in_ w)) = false /\ events (w_db (snd (Emit in_ w))) = events (w_db w).
Proof.
  intros Hf Hm in_. unfold Emit, is_empty. cbn [in_Kind in_Message in_].
  assert (Ek : TrimSpace cut_kind = cut_kind) by (vm_compute; reflexivity).
  cbn [in_Kind in_Message in_ in_Details]. rewrite Ek.
  replace (str_eqb cut_kind "") with false by (vm_compute; reflexivity).
  rewrite (proj2 (str_eqb_neq _ _) Hm). cbn [orb].
  erewrite bind_run; [|reflexivity].
  unfold or_return, map_err, mbind, M_bind, CreatePlatformEvent, q_insert.
  rewrite (query_run w Hf). unfold insert. cbn -[varchar text truncate].
  replace (varchar 50 (truncate cut_kind maxKindLen)) with false by (vm_compute; reflexivity).
  cbn. done.
Qed.

Lemma event_cut_lost_witness :
  is_ok (fst (Emit (Build_Input cut_kind "" "" None "m" None) sample_world)) = false.
Proof. apply (event_cut_lost sample_world "" "" None "m"); [reflexivity|vm_compute; discriminate]. Defined.
