(* ===== verification/Tenant.v ===== *)
(** * Tenants

    [internal/tenant/service.go]: the tenants Core keys its inventory to, one of
    which is the system tenant the platform cannot run without. *)

From S2P Require Import Prelude Json Storage World AppError Queries Evolution Mrn Resource Sample.

Record Tenant := {
  tn_UUID : Z; tn_AuthTenantUUID : option Z; tn_Name : string; tn_DisplayName : string;
  tn_Status : string; tn_IsSystem : bool; tn_Metadata : object;
  tn_CreatedAt : Z; tn_UpdatedAt : Z }.

Record CreateInput := {
  tc_Name : string; tc_DisplayName : string; tc_Status : string; tc_IsSystem : bool;
  tc_AuthTenantUUID : option Z; tc_Metadata : option object }.
Record UpdateInput := {
  tu_DisplayName : string; tu_Status : string; tu_AuthTenantUUID : option Z;
  tu_Metadata : option object }.

Definition toTenant (m : TenantRow) : Tenant := {|
  tn_UUID := t_TenantUuid m; tn_AuthTenantUUID := t_AuthTenantUuid m; tn_Name := t_Name m;
  tn_DisplayName := t_DisplayName m; tn_Status := t_Status m; tn_IsSystem := t_IsSystem m;
  tn_Metadata := JSONToMap (t_Metadata m); tn_CreatedAt := t_CreatedAt m;
  tn_UpdatedAt := t_UpdatedAt m |}.

Definition Create (in_ : CreateInput) : M error Tenant :=
  if is_empty (tc_Name in_) then fail (NewValidation "name is required")
  else
    let status := if is_empty (tc_Status in_) then "active"%string else tc_Status in_ in
    meta ← or_validation "invalid metadata" (marshalMap (tc_Metadata in_));
    row ← or_return (CreateTenant (tc_Name in_) (tc_DisplayName in_) status (tc_IsSystem in_)
                       (tc_AuthTenantUUID in_) meta);
    mret (toTenant row).

Definition Get (id : Z) : M error Tenant :=
  row ← or_not_found "tenant" (GetTenantByUUID id);
  mret (toTenant row).

Definition List (page limit : Z) : M error (list Tenant * Z) :=
  let '(page, limit) := normalizePage page limit in
  rows ← or_return (ListTenants (int32 limit) (page_offset page limit));
  total ← or_return CountTenants;
  mret (map toTenant rows, total).

Definition Update (id : Z) (in_ : UpdateInput) : M error Tenant :=
  current ← or_not_found "tenant" (GetTenantByUUID id);
  let displayName := if negb (is_empty (tu_DisplayName in_)) then tu_DisplayName in_
                     else t_DisplayName current in
  let status := if negb (is_empty (tu_Status in_)) then tu_Status in_ else t_Status current in
  let authUUID := match tu_AuthTenantUUID in_ with Some u => Some u
                  | None => t_AuthTenantUuid current end in
  meta ← match tu_Metadata in_ with
         | Some _ => or_validation "invalid metadata" (marshalMap (tu_Metadata in_))
         | None => mret (t_Metadata current)
         end;
  row ← or_not_found "tenant" (UpdateTenant id displayName status authUUID meta);
  mret (toTenant row).

Definition Delete (id : Z) : M error () :=
  current ← or_not_found "tenant" (GetTenantByUUID id);
  if t_IsSystem current
  then fail (NewForbidden "the system tenant is required by the platform and cannot be removed")
  else or_return (SoftDeleteTenant id);; mret ().

Definition GetSystem : M error Tenant :=
  row ← or_not_found "system tenant" GetSystemTenant;
  mret (toTenant row).

(** ** The system tenant *)

Record tenant_evolves (t t' : TenantRow) : Prop := {
  te_keys : same_keys t t';
  te_name : t_Name t' = t_Name t;
  te_system : t_IsSystem t' = t_IsSystem t;
  te_kept : t_IsSystem t = true -> t_DeletedAt t = None -> t_DeletedAt t' = None;
  te_frozen : t_DeletedAt t <> None -> t' = t;
}.
#[global] Instance tenant_evolves_preorder : PreOrder tenant_evolves.
Proof.
  split.
  - intros t. split; done.
  - intros a b c [[K1 K2] N1 S1 P1 F1] [[K3 K4] N2 S2 P2 F2]. split; try congruence.
    + split; congruence.
    + intros Hs Hl. apply P2; [congruence|auto].
    + intros H. rewrite (F1 H) in *. auto.
Qed.

(** At most one live row is the system tenant (the partial unique index). *)
Definition one_system (t : Table TenantRow) : Prop :=
  forall a b, a ∈ tbl_rows t -> b ∈ tbl_rows t -> t_DeletedAt a = None -> t_DeletedAt b = None ->
    t_IsSystem a = true -> t_IsSystem b = true -> a = b.

Definition tenants_ok (d d' : Db) : Prop :=
  table_wf (tenants d) -> one_system (tenants d) ->
  table_wf (tenants d') /\ one_system (tenants d')
  /\ rows_advance tenant_evolves (tenants d) (tenants d').
#[global] Instance tenants_ok_preorder : PreOrder tenants_ok.
Proof.
  split; unfold tenants_ok.
  - intros d H1 H2. split_and!; [done..|reflexivity].
  - intros a b c H1 H2 Hwf Ho. destruct (H1 Hwf Ho) as (W & O & A). destruct (H2 W O) as (W' & O' & A').
    split_and!; [done..|by etransitivity].
Qed.

Lemma one_system_update p f (t : Table TenantRow) rs t' :
  update p f t = Ok (rs, t') -> one_system t ->
  (forall r, r ∈ tbl_rows t -> hit p r = true -> tenant_evolves r (f r)) -> one_system t'.
Proof.
  intros (_ & Hrows & _)%update_inv Ho Hf a b Ha Hb La Lb Sa Sb. rewrite Hrows in Ha, Hb.
  set (g := fun r => if hit p r then f r else r) in *.
  assert (Hg : forall r, r ∈ tbl_rows t -> t_IsSystem (g r) = t_IsSystem r
    /\ (t_DeletedAt (g r) = None -> t_DeletedAt r = None)).
  { intros r Hr. unfold g. destruct (hit p r) eqn:Hh; [|done].
    split; [by apply te_system, Hf|]. by apply hit_live in Hh as [? _]. }
  apply list_elem_of_fmap in Ha as (a0 & -> & Ha). apply list_elem_of_fmap in Hb as (b0 & -> & Hb).
  destruct (Hg a0 Ha) as [Ea La0], (Hg b0 Hb) as [Eb Lb0].
  rewrite (Ho a0 b0); try done; [by apply La0|by apply Lb0|congruence|congruence].
Qed.

Lemma one_system_insert mk u (t : Table TenantRow) r t' :
  insert mk u t = Ok (r, t') -> one_system t -> one_system t'.
Proof.
  intros Hi Ho. pose proof Hi as Hi'. apply insert_inv in Hi' as (_ & Hrows & _).
  assert (Hc : forall q, q ∈ tbl_rows t -> t_DeletedAt q = None -> t_IsSystem q = true ->
    t_IsSystem r = true -> False).
  { intros q Hq Hl Hs Hr. revert Hi. unfold insert. case_match; [done|].
    destruct (existsb _ _) eqn:E; [done|]. intros Hi. simplify_eq.
    apply not_true_iff_false in E. apply E, existsb_exists. exists q.
    split; [by apply list_elem_of_In|]. cbn in *. unfold live. cbn.
    rewrite Hl, Hs, Hr. cbn. by rewrite !orb_true_r. }
  intros a b Ha Hb La Lb Sa Sb. rewrite Hrows in Ha, Hb.
  apply elem_of_app in Ha as [Ha|Ha%list_elem_of_singleton], Hb as [Hb|Hb%list_elem_of_singleton];
    subst; [by apply Ho|exfalso; eauto..|done].
Qed.

Lemma tenant_update_at p f w :
  (forall w r, same_keys r (f w r)) ->
  (forall w1 r, w_db w1 = w_db w -> table_wf (tenants (w_db w)) -> r ∈ tbl_rows (tenants (w_db w)) ->
     t_DeletedAt r = None -> p w1 r = true -> tenant_evolves r (f w1 r)) ->
  tenants_ok (w_db w) (w_db (snd (q_update tenants p f w))).
Proof.
  intros Hk H Hwf Ho. destruct (table_update_at tenants tenant_evolves p f w Hk H Hwf) as [Hwf' Hadv].
  split_and!; [done| |done]. clear Hwf' Hadv. set (w1 := w <| w_faults := tail (w_faults w) |>).
  assert (Hq : one_system (tenants (w_db (snd (
    match update (p w1) (f w1) (tenants (w_db w1)) with
    | Ok (rs, t) => (Ok rs, w1 <| w_db := set_field tenants (fun _ => t) (w_db w1) |>)
    | Err e => (Err e, w1)
    end))))).
  { destruct (update _ _ _) as [[rs t]|e] eqn:E; [|done]. cbn.
    eapply one_system_update; [exact E|done|]. intros r Hr [Hl Hp]%hit_live. by apply H. }
  unfold q_update, query. destruct (w_faults w) as [|[] ?]; cbn; exact Hq || exact Ho.
Qed.

Inductive tenant_op :=
  | TnCreate (in_ : CreateInput)
  | TnGet (id : Z)
  | TnList (page limit : Z)
  | TnUpdate (id : Z) (in_ : UpdateInput)
  | TnDelete (id : Z)
  | TnGetSystem.

Definition tenant_run (o : tenant_op) : M error () :=
  match o with
  | TnCreate in_ => Create in_;; mret ()
  | TnGet id => Get id;; mret ()
  | TnList p l => List p l;; mret ()
  | TnUpdate id in_ => Update id in_;; mret ()
  | TnDelete id => Delete id
  | TnGetSystem => GetSystem;; mret ()
  end.

Inductive tenant_step : relation World :=
  | tn_step_op o w : tenant_step w (snd (tenant_run o w))
  | tn_step_env w w' : w_db w' = w_db w -> tenant_step w w'.

Lemma create_tenant_ok name display status sys au meta :
  advances tenants_ok (CreateTenant name display status sys au meta).
Proof.
  apply advances_insert; [apply _|]. intros w r t Hi Hwf Ho. cbn. split_and!.
  - by eapply insert_wf; [|exact Hi|].
  - by eapply one_system_insert.
  - by eapply insert_advance; [apply _|].
Qed.

Lemma update_tenant_ok id display status au meta : advances tenants_ok (UpdateTenant id display status au meta).
Proof.
  apply advances_bind; [apply _| |intros [|? ?]; advance]. intros w.
  apply tenant_update_at; [done|]. intros w1 r _ _ _ Hl _. split; done.
Qed.

Lemma delete_tenant_ok id : advances tenants_ok (Delete id).
Proof.
  apply advances_get_bind; [apply _|]. intros w r Hr Hl Hid. cbn in Hid, Hl.
  destruct (t_IsSystem r) eqn:Es; [reflexivity|].
  apply bind_advances_at; [apply _| |intros ?; advance].
  unfold or_return. rewrite map_err_db. apply tenant_update_at; [done|].
  intros w1 q _ Hwf Hq Hql Hp. cbn in Hp.
  rewrite (wf_uuid_inj _ q r Hwf Hq Hr) in * by (cbn; lia). split; try done; cbn; congruence.
Qed.

Lemma tenant_run_ok o : advances tenants_ok (tenant_run o).
Proof.
  destruct o; cbn [tenant_run].
  - apply advances_bind; [apply _| |intros ?; advance]. unfold Create.
    case_match; [advance|]. apply advances_bind; [apply _|advance|]. intros meta.
    apply advances_bind; [apply _| |intros ?; advance]. apply advances_map_err, create_tenant_ok.
  - advance.
  - advance.
  - apply advances_bind; [apply _| |intros ?; advance]. unfold Update.
    apply advances_bind; [apply _|advance|]. intros cur. apply advances_bind; [apply _|advance|].
    intros meta. apply advances_bind; [apply _| |intros ?; advance].
    apply advances_map_err, update_tenant_ok.
  - apply delete_tenant_ok.
  - advance.
Qed.

(** The platform always has its one system tenant.  From a store with
    at most one live system tenant, through every sequence of tenant operations
    and whichever queries fail, there is never a second one, and the one there
    is is never deleted and keeps its identity. *)
Theorem system_tenant_kept w w' i t :
  table_wf (tenants (w_db w)) -> one_system (tenants (w_db w)) -> rtc tenant_step w w' ->
  tbl_rows (tenants (w_db w)) !! i = Some t -> t_IsSystem t = true -> t_DeletedAt t = None ->
  one_system (tenants (w_db w'))
  /\ exists t', tbl_rows (tenants (w_db w')) !! i = Some t' /\ t_DeletedAt t' = None
    /\ t_TenantUuid t' = t_TenantUuid t /\ t_TenantID t' = t_TenantID t
    /\ t_Name t' = t_Name t /\ t_IsSystem t' = true.
Proof.
  intros Hwf Ho Hs Hi Hsys Hl.
  assert (H : tenants_ok (w_db w) (w_db w')).
  { clear Hi Hwf Ho. induction Hs as [w|w1 w2 w3 [o w|? ? E] _ IH]; [reflexivity| |by rewrite <- E].
    etransitivity; [apply tenant_run_ok | exact IH]. }
  destruct (H Hwf Ho) as (_ & Ho' & Hrows). split; [done|].
  destruct (rows_advance_lookup _ _ _ _ _ Hrows Hi) as (t' & Ht' & [[K1 K2] N S P _]).
  exists t'. cbn in *. split_and!; try done; [auto|congruence].
Qed.

Lemma system_tenant_kept_witness :
  exists t', tbl_rows (tenants (w_db (snd (tenant_run (TnDelete 101) sample_world)))) !! 0%nat = Some t'
    /\ t_DeletedAt t' = None.
Proof.
  destruct (system_tenant_kept sample_world (snd (tenant_run (TnDelete 101) sample_world)) 0%nat acme)
    as (_ & t' & H1 & H2 & _); [apply table_wfb_sound; vm_compute; reflexivity| |
      |reflexivity|reflexivity|reflexivity|exists t'; split; [exact H1|exact H2]].
  - intros a b Ha%list_elem_of_singleton Hb%list_elem_of_singleton _ _ _ _. congruence.
  - apply rtc_once. exact (tn_step_op (TnDelete 101) sample_world).
Defined.

(** ** Pages *)

(** The tenants of page [page], newest first. *)
Definition tenant_page (page limit : Z) (t : Table TenantRow) : list TenantRow :=
  take (Z.to_nat limit) (drop (Z.to_nat ((page - 1) * limit))
    (order_by (fun t => - t_CreatedAt t) (select (fun _ => true) t))).

(** A listing returns the page asked for, newest first, and the number
    of live tenants, as long as the offset fits 32 bits; past that the offset
    wraps, and for page 21474838 of a hundred it is negative and the listing
    fails. *)
Theorem list_tenants_page w page limit :
  w_faults w = [] -> 1 <= page -> 1 <= limit <= 100 -> (page - 1) * limit <= max_int32 ->
  List page limit w = (Ok (map toTenant (tenant_page page limit (tenants (w_db w))),
                           Z.of_nat (length (select (fun _ => true) (tenants (w_db w))))), w)
  /\ List 21474838 100 w = (Err (DbError (PgError invalid_row_count)), w).
Proof.
  intros Hf Hp Hl Ho. unfold max_int32 in Ho. unfold List, normalizePage. split.
  - replace (page <? 1) with false by lia. replace (limit <? 1) with false by lia.
    replace (100 <? limit) with false by lia. cbn [orb]. unfold page_offset.
    rewrite (int64_id ((page - 1) * limit)), (int32_id ((page - 1) * limit)), (int32_id limit) by nia.
    unfold or_return, map_err, ListTenants, CountTenants, q_page, q_count, mbind, M_bind.
    rewrite (query_run w Hf). unfold limit_offset.
    replace (limit <? 0) with false by lia. replace (_ <? 0) with false by nia. cbn [orb].
    by rewrite (query_run w Hf).
  - unfold or_return, map_err, ListTenants, q_page, mbind, M_bind. cbn.
    by rewrite (query_run w Hf).
Qed.

Lemma list_tenants_page_witness :
  fst (List 1 20 sample_world) = Ok ([toTenant acme], 1).
Proof.
  rewrite (proj1 (list_tenants_page sample_world 1 20 eq_refl ltac:(lia) ltac:(lia)
    ltac:(vm_compute; discriminate))). reflexivity.
Defined.
