(* ===== verification/Project.v ===== *)
(** * Projects

    [internal/project/service.go]: the projects of a tenant. *)

From S2P Require Import Prelude Json Storage World AppError Queries Evolution Mrn Resource Sample.

Record Project := {
  pj_UUID : Z; pj_TenantUUID : Z; pj_Name : string; pj_DisplayName : string;
  pj_Description : string; pj_Status : string; pj_Metadata : object;
  pj_CreatedAt : Z; pj_UpdatedAt : Z }.

Record CreateInput := {
  pc_TenantUUID : Z; pc_Name : string; pc_DisplayName : string; pc_Description : string;
  pc_Metadata : option object }.
Record UpdateInput := {
  pu_DisplayName : string; pu_Description : string; pu_Status : string;
  pu_Metadata : option object }.

Definition toProject (m : ProjectRow) (tenantUUID : Z) : Project := {|
  pj_UUID := p_ProjectUuid m; pj_TenantUUID := tenantUUID; pj_Name := p_Name m;
  pj_DisplayName := p_DisplayName m; pj_Description := p_Description m;
  pj_Status := p_Status m; pj_Metadata := JSONToMap (p_Metadata m);
  pj_CreatedAt := p_CreatedAt m; pj_UpdatedAt := p_UpdatedAt m |}.

Definition resolveTenantUUID (tenantID : Z) : M error Z :=
  t ← or_return (GetTenantByID tenantID);
  mret (t_TenantUuid t).

Definition Create (in_ : CreateInput) : M error Project :=
  if is_empty (pc_Name in_) then fail (NewValidation "name is required")
  else
    t ← or_not_found "tenant" (GetTenantByUUID (pc_TenantUUID in_));
    meta ← or_validation "invalid metadata" (marshalMap (pc_Metadata in_));
    row ← or_return (CreateProject (t_TenantID t) (pc_Name in_) (pc_DisplayName in_)
                       (pc_Description in_) "active" meta);
    mret (toProject row (t_TenantUuid t)).

Definition Get (id : Z) : M error Project :=
  row ← or_not_found "project" (GetProjectByUUID id);
  tenantUUID ← resolveTenantUUID (p_TenantID row);
  mret (toProject row tenantUUID).

Definition List (tenantUUID page limit : Z) : M error (list Project * Z) :=
  t ← or_not_found "tenant" (GetTenantByUUID tenantUUID);
  let '(page, limit) := normalizePage page limit in
  rows ← or_return (ListProjectsByTenant (t_TenantID t) (int32 limit) (page_offset page limit));
  total ← or_return (CountProjectsByTenant (t_TenantID t));
  mret (map (fun r => toProject r (t_TenantUuid t)) rows, total).

Definition Update (id : Z) (in_ : UpdateInput) : M error Project :=
  current ← or_not_found "project" (GetProjectByUUID id);
  let displayName := if negb (is_empty (pu_DisplayName in_)) then pu_DisplayName in_
                     else p_DisplayName current in
  let description := if negb (is_empty (pu_Description in_)) then pu_Description in_
                     else p_Description current in
  let status := if negb (is_empty (pu_Status in_)) then pu_Status in_ else p_Status current in
  meta ← match pu_Metadata in_ with
         | Some _ => or_validation "invalid metadata" (marshalMap (pu_Metadata in_))
         | None => mret (p_Metadata current)
         end;
  row ← or_not_found "project" (UpdateProject id displayName description status meta);
  tenantUUID ← resolveTenantUUID (p_TenantID row);
  mret (toProject row tenantUUID).

Definition Delete (id : Z) : M error () :=
  or_return (SoftDeleteProject id);; mret ().

(** A project that was just created reads back as it was answered,
    under the tenant it was created for. *)
Theorem create_get_roundtrip w w' in_ p :
  w_faults w = [] -> table_wf (tenants (w_db w)) -> table_wf (projects (w_db w)) ->
  Create in_ w = (Ok p, w') ->
  Get (pj_UUID p) w' = (Ok p, w') /\ pj_TenantUUID p = pc_TenantUUID in_.
Proof.
  intros Hf Hwt Hwp. unfold Create. case_match; [done|].
  intros (t & wa & Ht & Hk)%bind_run_Ok_inv. apply map_err_Ok_inv in Ht.
  unfold GetTenantByUUID in Ht. rewrite (q_get_run w Hf) in Ht. injection Ht as Ht <-.
  apply bind_run_Ok_inv in Hk as (meta & wb & E & Hk). injection E as _ <-.
  apply bind_run_Ok_inv in Hk as (row & wb & E & Hk). injection Hk as <- <-.
  apply map_err_Ok_inv, q_insert_Ok_inv in E as (tb & Hi & Hwb).
  assert (Hwf' : table_wf tb) by (by eapply insert_wf; [|exact Hi|]).
  apply insert_inv in Hi as (Hrow & Hrows & _).
  apply select_one_Ok_inv in Ht as (Htin & Htl & Htu & _).
  assert (Hf' : w_faults wb = []) by (subst wb; cbn; by rewrite Hf).
  assert (Hdb : tenants (w_db wb) = tenants (w_db w) /\ projects (w_db wb) = tb) by (by subst wb).
  destruct Hdb as [Hdt Hdp]. cbn [pj_UUID pj_TenantUUID toProject]. split; [|cbn in Htu; lia].
  unfold Get, or_not_found, GetProjectByUUID.
  erewrite bind_run; [|unfold map_err; rewrite (q_get_run wb Hf'), Hdp;
    rewrite (select_one_unique tb row); [reflexivity|done| |by subst row|apply Z.eqb_refl|intros q; cbn; lia]];
    [|rewrite Hrows; apply elem_of_app; right; by left].
  unfold resolveTenantUUID, or_return, GetTenantByID, mbind, M_bind, map_err.
  rewrite (q_get_run wb Hf'), Hdt.
  destruct (select_one_some (fun q => t_TenantID q =? p_TenantID row) (tenants (w_db w)) t)
    as [q Hq]; [done|done|subst row; cbn; lia|].
  rewrite Hq. apply select_one_Ok_inv in Hq as (Hqin & _ & Hqid & _).
  rewrite (wf_id_inj _ q t Hwt Hqin Htin); [done|]. subst row. cbn in *. lia.
Qed.

Definition sample_project : CreateInput := Build_CreateInput 101 "api" "API" "" None.

Lemma create_get_roundtrip_witness :
  exists p w', Create sample_project sample_world = (Ok p, w') /\ Get (pj_UUID p) w' = (Ok p, w').
Proof.
  eexists _, _.
  assert (H : Create sample_project sample_world = (Ok _, _)) by (vm_compute; reflexivity).
  split; [exact H|].
  refine (proj1 (create_get_roundtrip sample_world _ sample_project _ eq_refl _ _ H));
    apply table_wfb_sound; vm_compute; reflexivity.
Defined.
