(* ===== verification/Provider.v ===== *)
(** * Providers

    [internal/provider/service.go]: which driver provides a kind of resource for
    a tenant. *)

From S2P Require Import Prelude Json Storage World AppError Queries Evolution Mrn Resource Sample.

Record Provider := {
  pv_UUID : Z; pv_TenantUUID : Z; pv_Name : string; pv_ResourceKind : string;
  pv_Driver : string; pv_Config : object; pv_Status : string; pv_Metadata : object;
  pv_CreatedAt : Z; pv_UpdatedAt : Z }.

Record CreateInput := {
  vc_TenantUUID : Z; vc_Name : string; vc_ResourceKind : string; vc_Driver : string;
  vc_Config : option object; vc_Metadata : option object }.
Record UpdateInput := {
  vu_Driver : string; vu_Config : option object; vu_Status : string; vu_Metadata : option object }.

Definition toProvider (m : ProviderRow) (tenantUUID : Z) : Provider := {|
  pv_UUID := v_ProviderUuid m; pv_TenantUUID := tenantUUID; pv_Name := v_Name m;
  pv_ResourceKind := v_ResourceKind m; pv_Driver := v_Driver m;
  pv_Config := JSONToMap (v_Config m); pv_Status := v_Status m;
  pv_Metadata := JSONToMap (v_Metadata m); pv_CreatedAt := v_CreatedAt m;
  pv_UpdatedAt := v_UpdatedAt m |}.

Definition resolveTenantUUID (tenantID : Z) : M error Z :=
  t ← or_return (GetTenantByID tenantID);
  mret (t_TenantUuid t).

Definition Create (in_ : CreateInput) : M error Provider :=
  if is_empty (vc_Name in_) || is_empty (vc_ResourceKind in_) || is_empty (vc_Driver in_)
  then fail (NewValidation "name, resource_kind and driver are required")
  else
    t ← or_not_found "tenant" (GetTenantByUUID (vc_TenantUUID in_));
    config ← or_validation "invalid config" (marshalMap (vc_Config in_));
    meta ← or_validation "invalid metadata" (marshalMap (vc_Metadata in_));
    row ← or_return (CreateProvider (t_TenantID t) (vc_Name in_) (vc_ResourceKind in_)
                       (vc_Driver in_) config "active" meta);
    mret (toProvider row (t_TenantUuid t)).

Definition Get (id : Z) : M error Provider :=
  row ← or_not_found "provider" (GetProviderByUUID id);
  tenantUUID ← resolveTenantUUID (v_TenantID row);
  mret (toProvider row tenantUUID).

Definition List (tenantUUID page limit : Z) : M error (list Provider * Z) :=
  t ← or_not_found "tenant" (GetTenantByUUID tenantUUID);
  let '(page, limit) := normalizePage page limit in
  rows ← or_return (ListProvidersByTenant (t_TenantID t) (int32 limit) (page_offset page limit));
  total ← or_return (CountProvidersByTenant (t_TenantID t));
  mret (map (fun r => toProvider r (t_TenantUuid t)) rows, total).

Definition Update (id : Z) (in_ : UpdateInput) : M error Provider :=
  current ← or_not_found "provider" (GetProviderByUUID id);
  let driver := if negb (is_empty (vu_Driver in_)) then vu_Driver in_ else v_Driver current in
  let status := if negb (is_empty (vu_Status in_)) then vu_Status in_ else v_Status current in
  config ← match vu_Config in_ with
           | Some _ => or_validation "invalid config" (marshalMap (vu_Config in_))
           | None => mret (v_Config current)
           end;
  meta ← match vu_Metadata in_ with
         | Some _ => or_validation "invalid metadata" (marshalMap (vu_Metadata in_))
         | None => mret (v_Metadata current)
         end;
  row ← or_not_found "provider" (UpdateProvider id driver config status meta);
  tenantUUID ← resolveTenantUUID (v_TenantID row);
  mret (toProvider row tenantUUID).

Definition Delete (id : Z) : M error () :=
  or_return (SoftDeleteProvider id);; mret ().
