(* ===== verification/Steward.v ===== *)
(** * The steward's catalog and its reconciliation

    [internal/steward/catalog.go], [reconcile.go] and [builtin.go]: the ordered
    desired state of the control plane and the pass that converges Auth to it
    through an [Applier].  The appliers and the key sink drive other services;
    here they are the operations of an interface over a state of their own. *)

From S2P Require Import Prelude Json Storage World AppError Queries Evolution Mrn Resource Sample.

Definition APIVersion : string := "control.maintainerd/v1".
Definition KindService : string := "Service".
Definition KindResourceAPI : string := "ResourceAPI".
Definition KindServiceClient : string := "ServiceClient".
Definition KindServicePolicy : string := "ServicePolicy".

Definition Tier : Type := string.
Definition TierSystem : Tier := "system".
Definition TierApp : Tier := "app".
Definition Tier_IsSystem (t : Tier) : bool := str_eqb t TierSystem.

Record Permission := { pm_Name : string; pm_Description : string }.
Record ServiceSpec := {
  ss_DisplayName : string; ss_Description : string; ss_Version : string;
  ss_RegistryKind : string; ss_Tier : Tier }.
Record ResourceAPISpec := {
  as_Service : string; as_Identifier : string; as_DisplayName : string;
  as_Permissions : list Permission }.
Record ServiceClientSpec := {
  cs_Service : string; cs_Audience : string; cs_AllowedScopes : list string }.
Record ServicePolicySpec := {
  ps_Service : string; ps_PolicyName : string; ps_AllowedActions : list string }.

(** The dynamic type behind the interface [Spec]; [OtherSpec] is an
    implementation the package does not know. *)
Inductive Spec :=
  | SpecService (s : ServiceSpec)
  | SpecResourceAPI (s : ResourceAPISpec)
  | SpecServiceClient (s : ServiceClientSpec)
  | SpecServicePolicy (s : ServicePolicySpec)
  | OtherSpec (kind : string).

Definition Spec_Kind (s : Spec) : string :=
  match s with
  | SpecService _ => KindService
  | SpecResourceAPI _ => KindResourceAPI
  | SpecServiceClient _ => KindServiceClient
  | SpecServicePolicy _ => KindServicePolicy
  | OtherSpec k => k
  end.

(** [ob_Spec] is [None] for a nil spec. *)
Record Object := { ob_APIVersion : string; ob_Kind : string; ob_Name : string; ob_Spec : option Spec }.
Record Catalog := { Objects : list Object }.

Fixpoint ServiceTier_loop (objs : list Object) (name : string) : option Tier :=
  match objs with
  | [] => None
  | o :: objs =>
      if negb (str_eqb (ob_Kind o) KindService) || negb (str_eqb (ob_Name o) name)
      then ServiceTier_loop objs name
      else match ob_Spec o with
      | Some (SpecService spec) => Some (ss_Tier spec)
      | _ => ServiceTier_loop objs name
      end
  end.
Definition ServiceTier (c : Catalog) (name : string) : option Tier :=
  ServiceTier_loop (Objects c) name.

(** ** Reconcile *)

Record GeneratedClient := {
  gc_ClientID : string; gc_OAuthClientID : string; gc_PrivateKeyPEM : string;
  gc_AlreadyExisted : bool }.

(** The transport and the key sink, over a state [St]. *)
Record Applier (St : Type) := {
  EnsureService : string -> ServiceSpec -> St -> result call_error () * St;
  EnsureResourceAPI : string -> ResourceAPISpec -> St -> result call_error () * St;
  EnsureServiceClient : string -> ServiceClientSpec -> St ->
    result call_error (option GeneratedClient) * St;
  EnsureServicePolicy : string -> ServicePolicySpec -> St -> result call_error () * St;
  (* [None] when no KeySink is configured *)
  KeySink_Record : option (string -> string -> St -> result call_error () * St);
}.
Arguments EnsureService {St}.
Arguments EnsureResourceAPI {St}.
Arguments EnsureServiceClient {St}.
Arguments EnsureServicePolicy {St}.
Arguments KeySink_Record {St}.

Record Report := { rp_Services : Z; rp_APIs : Z; rp_Clients : Z; rp_Policies : Z; rp_NewKeys : Z }.
#[global] Instance Report_eta : EtaRecord Report := fun r =>
  Build_Report (rp_Services r) (rp_APIs r) (rp_Clients r) (rp_Policies r) (rp_NewKeys r).

(** The message of the error, [None] when every action is an enumerated grant. *)
Fixpoint validatePolicyActions (actions : list string) : option string :=
  match actions with
  | [] => None
  | action :: rest =>
      let action := TrimSpace action in
      if is_empty action then Some "allowedActions contains an empty action"%string
      else if str_eqb action "*" then Some "allowedActions must enumerate grants, not bare *"%string
      else validatePolicyActions rest
  end.

Section Reconcile.
Context {T : GoText} {St : Type} (a : Applier St).

(** One object: the error it stops the pass with, and the report after it. *)
Definition apply_object (i : nat) (obj : Object) (rep : Report) (s : St)
    : option call_error * Report * St :=
  let name := ob_Name obj in
  if negb (str_eqb (ob_APIVersion obj) APIVersion) then
    (Some (errorf ("steward: object " +:+ pretty (Z.of_nat i) +:+ " (" +:+ ob_Kind obj +:+ "/" +:+ name
      +:+ ") has unsupported apiVersion " +:+ fmt_q (ob_APIVersion obj))), rep, s)
  else if is_empty name then
    (Some (errorf ("steward: object " +:+ pretty (Z.of_nat i) +:+ " has empty metadata.name")), rep, s)
  else match ob_Spec obj with
  | None => (Some (errorf ("steward: object " +:+ pretty (Z.of_nat i) +:+ " " +:+ fmt_q name
               +:+ " has nil spec")), rep, s)
  | Some spec =>
    if negb (str_eqb (ob_Kind obj) (Spec_Kind spec)) then
      (Some (errorf ("steward: object " +:+ pretty (Z.of_nat i) +:+ " " +:+ fmt_q name +:+ " kind "
        +:+ fmt_q (ob_Kind obj) +:+ " does not match spec kind " +:+ fmt_q (Spec_Kind spec))), rep, s)
    else match spec with
    | SpecService spec =>
        match EnsureService a name spec s with
        | (Err e, s) => (Some (wrapf ("steward: ensure Service " +:+ fmt_q name +:+ ": ") e), rep, s)
        | (Ok _, s) => (None, rep <| rp_Services := rp_Services rep + 1 |>, s)
        end
    | SpecResourceAPI spec =>
        match EnsureResourceAPI a name spec s with
        | (Err e, s) => (Some (wrapf ("steward: ensure ResourceAPI " +:+ fmt_q name +:+ ": ") e), rep, s)
        | (Ok _, s) => (None, rep <| rp_APIs := rp_APIs rep + 1 |>, s)
        end
    | SpecServiceClient spec =>
        match EnsureServiceClient a name spec s with
        | (Err e, s) => (Some (wrapf ("steward: ensure ServiceClient " +:+ fmt_q name +:+ ": ") e), rep, s)
        | (Ok gc, s) =>
            let rep := rep <| rp_Clients := rp_Clients rep + 1 |> in
            let pem := match gc with Some gc => gc_PrivateKeyPEM gc | None => "" end in
            if is_empty pem then (None, rep, s)
            else match KeySink_Record a with
            | None => (Some (errorf ("steward: ServiceClient " +:+ fmt_q name
                         +:+ " produced a key but no KeySink is configured")), rep, s)
            | Some record =>
                match record (cs_Service spec) pem s with
                | (Err e, s) => (Some (wrapf ("steward: record key for " +:+ fmt_q (cs_Service spec)
                                   +:+ ": ") e), rep, s)
                | (Ok _, s) => (None, rep <| rp_NewKeys := rp_NewKeys rep + 1 |>, s)
                end
            end
        end
    | SpecServicePolicy spec =>
        match validatePolicyActions (ps_AllowedActions spec) with
        | Some e => (Some (errorf ("steward: ServicePolicy " +:+ fmt_q name +:+ ": " +:+ e)), rep, s)
        | None =>
            match EnsureServicePolicy a name spec s with
            | (Err e, s) => (Some (wrapf ("steward: ensure ServicePolicy " +:+ fmt_q name +:+ ": ") e), rep, s)
            | (Ok _, s) => (None, rep <| rp_Policies := rp_Policies rep + 1 |>, s)
            end
        end
    | OtherSpec _ =>
        (Some (errorf ("steward: object " +:+ pretty (Z.of_nat i) +:+ " " +:+ fmt_q name
           +:+ " has unknown kind " +:+ fmt_q (ob_Kind obj))), rep, s)
    end
  end%string.

Fixpoint Reconcile_loop (i : nat) (objs : list Object) (rep : Report) (s : St)
    : option call_error * Report * St :=
  match objs with
  | [] => (None, rep, s)
  | obj :: objs =>
      match apply_object i obj rep s with
      | (Some e, rep, s) => (Some e, rep, s)
      | (None, rep, s) => Reconcile_loop (S i) objs rep s
      end
  end.

Definition Reconcile (cat : Catalog) (s : St) : option call_error * Report * St :=
  Reconcile_loop 0 (Objects cat) (Build_Report 0 0 0 0 0) s.
End Reconcile.

(** What every operation of a transport keeps on the catalog's objects, a pass
    keeps. *)
Section Invariant.
Context {T : GoText} {St : Type} (a : Applier St) (I : St -> Prop) (cat : Catalog).
Hypothesis keeps_service : forall n s st, I st -> I (snd (EnsureService a n s st)).
Hypothesis keeps_api : forall n s st, I st -> I (snd (EnsureResourceAPI a n s st)).
Hypothesis keeps_client : forall o s st, o ∈ Objects cat -> ob_Spec o = Some (SpecServiceClient s) ->
  I st -> I (snd (EnsureServiceClient a (ob_Name o) s st)).
Hypothesis keeps_policy : forall n s st, I st -> I (snd (EnsureServicePolicy a n s st)).
Hypothesis keeps_sink : forall record, KeySink_Record a = Some record ->
  forall svc pem st, I st -> I (snd (record svc pem st)).

Lemma apply_object_keeps i o rep st :
  o ∈ Objects cat -> I st -> I (snd (apply_object a i o rep st)).
Proof.
  intros Ho Hst. unfold apply_object. repeat (case_match; [done|]).
  destruct (ob_Spec o) as [[s|s|s|s|k]|] eqn:Es; [..|done]; (case_match; [done|]).
  - pose proof (keeps_service (ob_Name o) s st Hst) as Hk.
    by destruct (EnsureService a _ _ _) as [[] ?].
  - pose proof (keeps_api (ob_Name o) s st Hst) as Hk.
    by destruct (EnsureResourceAPI a _ _ _) as [[] ?].
  - pose proof (keeps_client o s st Ho Es Hst) as Hk.
    destruct (EnsureServiceClient a _ _ _) as [[gc|] st1]; cbn in *; [|done].
    case_match; [done|]. destruct (KeySink_Record a) as [rec|] eqn:Er; [|done].
    pose proof (keeps_sink rec eq_refl (cs_Service s)
      (match gc with Some gc => gc_PrivateKeyPEM gc | None => "" end) st1 Hk) as Hk2.
    by destruct (rec _ _ _) as [[] ?].
  - destruct (validatePolicyActions _); [done|].
    pose proof (keeps_policy (ob_Name o) s st Hst) as Hk.
    by destruct (EnsureServicePolicy a _ _ _) as [[] ?].
  - done.
Qed.

Lemma Reconcile_loop_keeps objs i rep st :
  objs ⊆ Objects cat -> I st -> I (snd (Reconcile_loop a i objs rep st)).
Proof.
  revert i rep st. induction objs as [|o objs IH]; intros i rep st Hin Hst; [done|].
  cbn [Reconcile_loop].
  pose proof (apply_object_keeps i o rep st (Hin o (list_elem_of_here _ _)) Hst) as H1.
  destruct (apply_object _ _ _ _ _) as [[[e|] rep1] st1]; [done|]. apply IH; [|done].
  intros x Hx. apply Hin. by right.
Qed.

Lemma Reconcile_keeps st : I st -> I (snd (Reconcile a cat st)).
Proof. by apply Reconcile_loop_keeps. Qed.
End Invariant.

(** ** What reaches Auth *)

(** A call on the transport. *)
Inductive call :=
  | CallService (name : string) (s : ServiceSpec)
  | CallResourceAPI (name : string) (s : ResourceAPISpec)
  | CallServiceClient (name : string) (s : ServiceClientSpec)
  | CallServicePolicy (name : string) (s : ServicePolicySpec).

(** Any transport, with its calls logged. *)
Definition logged {St} (a : Applier St) : Applier (St * list call) := {|
  EnsureService n s st := let '(r, st') := EnsureService a n s (fst st) in
    (r, (st', snd st ++ [CallService n s]));
  EnsureResourceAPI n s st := let '(r, st') := EnsureResourceAPI a n s (fst st) in
    (r, (st', snd st ++ [CallResourceAPI n s]));
  EnsureServiceClient n s st := let '(r, st') := EnsureServiceClient a n s (fst st) in
    (r, (st', snd st ++ [CallServiceClient n s]));
  EnsureServicePolicy n s st := let '(r, st') := EnsureServicePolicy a n s (fst st) in
    (r, (st', snd st ++ [CallServicePolicy n s]));
  KeySink_Record := (fun rec n pem st => let '(r, st') := rec n pem (fst st) in
    (r, (st', snd st))) <$> KeySink_Record a |}.

Definition call_of (o : Object) : option call :=
  match ob_Spec o with
  | Some (SpecService s) => Some (CallService (ob_Name o) s)
  | Some (SpecResourceAPI s) => Some (CallResourceAPI (ob_Name o) s)
  | Some (SpecServiceClient s) => Some (CallServiceClient (ob_Name o) s)
  | Some (SpecServicePolicy s) => Some (CallServicePolicy (ob_Name o) s)
  | _ => None
  end.

(** An enumerated grant: no policy call carries a blank action or a bare star. *)
Definition enumerated (c : call) : Prop :=
  match c with
  | CallServicePolicy _ s => forall act, act ∈ ps_AllowedActions s ->
      TrimSpace act <> ""%string /\ TrimSpace act <> "*"%string
  | _ => True
  end.

Lemma validate_enumerated actions : validatePolicyActions actions = None ->
  forall act, act ∈ actions -> TrimSpace act <> ""%string /\ TrimSpace act <> "*"%string.
Proof.
  induction actions as [|x l IH]; [by intros _ ? ?%elem_of_nil|]. cbn.
  destruct (is_empty (TrimSpace x)) eqn:E1; [done|].
  destruct (str_eqb (TrimSpace x) "*") eqn:E2; [done|]. split_bools.
  intros Hv act [->|Hin]%elem_of_cons; auto.
Qed.

Section Calls.
Context {T : GoText} {St : Type} (a : Applier St).

(** An object makes at most its one call, and exactly it when it succeeds. *)
Lemma apply_object_calls i o rep st err rep' st' :
  apply_object (logged a) i o rep st = (err, rep', st') ->
  (snd st' = snd st /\ err <> None
   \/ exists c, call_of o = Some c /\ enumerated c /\ snd st' = snd st ++ [c]).
Proof.
  unfold apply_object. do 2 (case_match; [intros; simplify_eq; by left|]).
  destruct (ob_Spec o) as [spec|] eqn:Es; [|intros; simplify_eq; by left].
  case_match; [intros; simplify_eq; by left|]. unfold call_of. rewrite Es.
  destruct spec as [s|s|s|s|k]; cbn.
  - destruct (EnsureService a _ _ _) as [[] ?]; intros; simplify_eq; right; by eexists.
  - destruct (EnsureResourceAPI a _ _ _) as [[] ?]; intros; simplify_eq; right; by eexists.
  - destruct (EnsureServiceClient a _ _ _) as [[gc|] ?]; [|intros; simplify_eq; right; by eexists].
    case_match; [intros; simplify_eq; right; by eexists|].
    destruct (KeySink_Record a) as [rec|]; cbn; [|intros; simplify_eq; right; by eexists].
    destruct (rec _ _ _) as [[] ?]; intros; simplify_eq; right; by eexists.
  - destruct (validatePolicyActions _) eqn:Ev; [intros; simplify_eq; by left|].
    pose proof (validate_enumerated _ Ev) as He.
    destruct (EnsureServicePolicy a _ _ _) as [[] ?]; intros; simplify_eq; right; by eexists.
  - intros; simplify_eq; by left.
Qed.

Lemma loop_calls i objs rep st err rep' st' :
  Reconcile_loop (logged a) i objs rep st = (err, rep', st') ->
  exists done, snd st' = snd st ++ done /\ Forall enumerated done
    /\ done `prefix_of` omap call_of objs
    /\ (err = None -> done = omap call_of objs /\ length done = length objs).
Proof.
  revert i rep st. induction objs as [|o objs IH]; intros i rep st.
  - cbn. intros. simplify_eq. exists []. rewrite app_nil_r. split_and!; done || apply prefix_nil.
  - cbn [Reconcile_loop].
    destruct (apply_object _ _ _ _ _) as [[[e|] rep1] st1] eqn:E;
      apply apply_object_calls in E as [[Hs He]|(c & Hc & Hen & Hs)]; try done.
    + intros. simplify_eq. exists []. rewrite app_nil_r. split_and!; try done. apply prefix_nil.
    + intros. simplify_eq. exists [c]. split_and!; [done|by constructor| |done].
      cbn. rewrite Hc. apply prefix_cons, prefix_nil.
    + intros (dn & Hd & Hf & Hp & Hok)%IH. exists (c :: dn). cbn. rewrite Hc.
      split_and!; [by rewrite Hd, Hs, <- app_assoc|by constructor|by apply prefix_cons|].
      intros Herr. destruct (Hok Herr) as [-> Hlen]. split; [done|]. cbn. by rewrite Hlen.
Qed.
End Calls.

(** Whatever the transport answers, a pass calls it on the objects
    of the catalog in their order, once each, and stops at the first error: the
    calls are a prefix of the catalog, and all of it exactly when the pass
    succeeds; and no policy with a blank action or a bare star ever reaches it. *)
Theorem reconcile_in_order {T : GoText} {St} (a : Applier St) cat s :
  let '(err, _, st) := Reconcile (logged a) cat (s, []) in
  snd st `prefix_of` omap call_of (Objects cat)
  /\ Forall enumerated (snd st)
  /\ (err = None -> snd st = omap call_of (Objects cat)
        /\ length (snd st) = length (Objects cat)).
Proof.
  destruct (Reconcile _ _ _) as [[err rep] st] eqn:E. apply loop_calls in E as (dn & Hd & H).
  cbn in Hd. subst dn. tauto.
Qed.

(** ** The builtin catalog *)

Definition bc_svc (name display desc registryKind : string) : Object :=
  Build_Object APIVersion KindService name (Some (SpecService
    (Build_ServiceSpec display desc "v1" registryKind TierSystem))).
Definition bc_api (name display ident : string) (perms : list Permission) : Object :=
  Build_Object APIVersion KindResourceAPI (name +:+ "-api") (Some (SpecResourceAPI
    (Build_ResourceAPISpec name ident display perms))).
Definition bc_client (name ident : string) (scopes : list string) : Object :=
  Build_Object APIVersion KindServiceClient (name +:+ "-control") (Some (SpecServiceClient
    (Build_ServiceClientSpec name ident scopes))).
Definition bc_policy (name : string) (actions : list string) : Object :=
  Build_Object APIVersion KindServicePolicy (name +:+ "-service") (Some (SpecServicePolicy
    (Build_ServicePolicySpec name (name +:+ "-service") actions))).
Definition perm (n d : string) : Permission := Build_Permission n d.

Definition runtimeActions : list string := ["secret:GetSecret"]%string.
Definition agentActions : list string :=
  ["runtime:Run"; "runtime:Stop"; "runtime:Restart"; "runtime:ReadLogs"; "runtime:Exec";
   "runtime:ReadStats"; "secret:GetSecret"]%string.

Definition secretPermissions : list Permission :=
  [perm "secret:GetSecret" "Reveal a secret value";
   perm "secret:PutSecret" "Create or update a secret";
   perm "secret:DeleteSecret" "Delete, restore or destroy a secret";
   perm "secret:ListSecrets" "List secrets";
   perm "secret:RotateSecret" "Rotate a secret now";
   perm "secret:ReadMetadata" "Read secret and hierarchy metadata, never a value";
   perm "secret:ManageProject" "Create, update and delete projects";
   perm "secret:ManageEnvironment" "Create, update and delete environments";
   perm "secret:ManageFolder" "Create, move and delete folders, and manage scope imports";
   perm "secret:ManageRotation" "Manage rotation policies and webhook endpoints";
   perm "secret:ReadAudit" "Read the audit trail";
   perm "secret:ManageDynamicRole" "Configure dynamic roles: target, SQL templates and TTLs";
   perm "secret:IssueDynamicCredential" "Obtain and revoke an on-demand database credential";
   perm "secret:Encrypt" "Seal a plaintext under a transit key";
   perm "secret:Decrypt" "Recover a plaintext from a transit ciphertext token";
   perm "secret:ManageTransitKey" "Create, rotate, update and delete transit keys";
   perm "secret:ManageLease" "Set lease policy on a secret and revoke outstanding leases";
   perm "secret:Admin" "Full administrative access to Maintainerd Secret"].
Definition runtimePermissions : list Permission :=
  [perm "runtime:List" "List owned workloads";
   perm "runtime:Inspect" "Inspect an owned workload";
   perm "runtime:Run" "Start a workload";
   perm "runtime:Stop" "Stop a workload";
   perm "runtime:Restart" "Restart a workload";
   perm "runtime:ReadLogs" "Read workload logs";
   perm "runtime:Exec" "Open an exec session in a workload";
   perm "runtime:ReadStats" "Read workload resource usage"].
Definition agentPermissions : list Permission :=
  [perm "agent:register" "Register an agent with core";
   perm "agent:heartbeat" "Report agent liveness";
   perm "agent:pull" "Pull work from core";
   perm "agent:report" "Report work status to core"].

(** [aud] resolves a service name to the audience of its API. *)
Definition BuiltinCatalog (aud : string -> string) : Catalog := {| Objects :=
  [bc_svc "secret" "Maintainerd Secret" "Encrypted secret storage" "Secret";
   bc_api "secret" "Maintainerd Secret API" (aud "secret"%string) secretPermissions;
   bc_client "secret" (aud "secret"%string) [aud "secret"%string];
   bc_policy "secret" [];
   bc_svc "runtime" "Maintainerd Runtime" "Mode-neutral workload operations" "Runtime";
   bc_api "runtime" "Maintainerd Runtime API" (aud "runtime"%string) runtimePermissions;
   bc_client "runtime" (aud "runtime"%string) runtimeActions;
   bc_policy "runtime" runtimeActions;
   bc_svc "agent" "Maintainerd Agent" "Workload agent" "Agent";
   bc_api "agent" "Maintainerd Agent API" (aud "agent"%string) agentPermissions;
   bc_client "agent" (aud "agent"%string) agentActions;
   bc_policy "agent" agentActions] |}.

(** The permissions the APIs of a list of objects define. *)
Definition declared (objs : list Object) : list string :=
  concat (map (fun o => match ob_Spec o with
    | Some (SpecResourceAPI s) => map pm_Name (as_Permissions s) | _ => [] end) objs).

(** A transport to which every call succeeds and which mints no key. *)
Definition accepting : Applier () := {|
  EnsureService _ _ s := (Ok (), s); EnsureResourceAPI _ _ s := (Ok (), s);
  EnsureServiceClient _ _ s := (Ok None, s); EnsureServicePolicy _ _ s := (Ok (), s);
  KeySink_Record := None |}.

Lemma ServiceTier_declared objs name t : ServiceTier_loop objs name = Some t ->
  exists o s, o ∈ objs /\ ob_Spec o = Some (SpecService s) /\ t = ss_Tier s.
Proof.
  induction objs as [|o objs IH]; cbn; [done|]. intros H.
  destruct (_ || _); [destruct (IH H) as (q & s & ? & ? & ?); exists q, s; split_and!; auto; by right|].
  destruct (ob_Spec o) as [[]|] eqn:E; try (destruct (IH H) as (q & s' & ? & ? & ?);
    exists q, s'; split_and!; auto; by right).
  simplify_eq. exists o, s. split_and!; auto. by left.
Qed.

(** Every policy only grants what was declared before it, as a test. *)
Fixpoint grants_ok (seen : list string) (objs : list Object) : bool :=
  match objs with
  | [] => true
  | o :: objs =>
      match ob_Spec o with
      | Some (SpecServicePolicy s) =>
          forallb (fun act => existsb (str_eqb act) seen) (ps_AllowedActions s)
      | _ => true
      end && grants_ok (seen ++ declared [o]) objs
  end.

Lemma grants_ok_sound seen objs i o s act :
  grants_ok seen objs = true -> objs !! i = Some o -> ob_Spec o = Some (SpecServicePolicy s) ->
  act ∈ ps_AllowedActions s -> act ∈ seen ++ declared (take i objs).
Proof.
  revert seen i. induction objs as [|q objs IH]; intros seen i Hg Hi Ho Hact; [done|].
  cbn in Hg. apply andb_true_iff in Hg as [Hq Hg]. destruct i as [|i]; cbn in Hi.
  - simplify_eq. rewrite Ho in Hq. rewrite forallb_forall in Hq.
    apply list_elem_of_In, Hq, existsb_exists in Hact as (x & Hx & E). apply str_eqb_eq in E. subst.
    apply elem_of_app. left. by apply list_elem_of_In.
  - specialize (IH _ i Hg Hi Ho Hact). unfold declared in *. cbn in IH |- *.
    by rewrite app_nil_r, <- app_assoc in IH.
Qed.

Lemma catalog_tiers cat tier0 :
  (forall o s, o ∈ Objects cat -> ob_Spec o = Some (SpecService s) -> ss_Tier s = tier0) ->
  forall name tier, ServiceTier cat name = Some tier -> tier = tier0.
Proof.
  intros H name tier (o & s & Ho & Hs & ->)%ServiceTier_declared. by apply (H o s).
Qed.

Lemma catalog_grants cat : grants_ok [] (Objects cat) = true ->
  forall i o s act, Objects cat !! i = Some o -> ob_Spec o = Some (SpecServicePolicy s) ->
    act ∈ ps_AllowedActions s -> act ∈ declared (take i (Objects cat)).
Proof. intros H i o s act. by apply (grants_ok_sound []). Qed.

Section Builtin.
Context {T : GoText} (aud : string -> string).

Lemma builtin_accepted : fst (fst (Reconcile accepting (BuiltinCatalog aud) ())) = None.
Proof. vm_compute. reflexivity. Qed.

Lemma builtin_grants : grants_ok [] (Objects (BuiltinCatalog aud)) = true.
Proof. vm_compute. reflexivity. Qed.

Lemma builtin_tiers o s : o ∈ Objects (BuiltinCatalog aud) -> ob_Spec o = Some (SpecService s) ->
  ss_Tier s = TierSystem.
Proof.
  cbn [Objects BuiltinCatalog]. intros Ho Hs.
  repeat (apply elem_of_cons in Ho as [->|Ho]; [cbn in Hs; by simplify_eq|]).
  by apply elem_of_nil in Ho.
Qed.

Lemma builtin_scopes o s : o ∈ Objects (BuiltinCatalog aud) ->
  ob_Spec o = Some (SpecServiceClient s) -> cs_AllowedScopes s <> [].
Proof.
  cbn [Objects BuiltinCatalog]. intros Ho Hs.
  repeat (apply elem_of_cons in Ho as [->|Ho]; [cbn in Hs; by simplify_eq|]).
  by apply elem_of_nil in Ho.
Qed.
End Builtin.

(** The builtin catalog is sound for every choice of audiences: an
    accepting transport takes all of it, the services it declares are of the
    system tier, every policy only grants permissions some API of the catalog
    defines before it, and every client that may request scopes at all is bounded
    by its policy or its own audience. *)
Theorem builtin_catalog_sound {T : GoText} aud :
  fst (fst (Reconcile accepting (BuiltinCatalog aud) ())) = None
  /\ (forall name tier, ServiceTier (BuiltinCatalog aud) name = Some tier -> tier = TierSystem)
  /\ (forall i o s act, Objects (BuiltinCatalog aud) !! i = Some o ->
        ob_Spec o = Some (SpecServicePolicy s) -> act ∈ ps_AllowedActions s ->
        act ∈ declared (take i (Objects (BuiltinCatalog aud))))
  /\ (forall o s, o ∈ Objects (BuiltinCatalog aud) -> ob_Spec o = Some (SpecServiceClient s) ->
        cs_AllowedScopes s <> []).
Proof.
  split; [apply builtin_accepted|]. split; [exact (catalog_tiers _ _ (builtin_tiers aud))|].
  split; [exact (catalog_grants _ (builtin_grants aud))|exact (builtin_scopes aud)].
Qed.
