(* ===== verification/Supervisor.v ===== *)
(** * The supervisor

    [internal/supervisor/supervisor.go]: Core's availability loop.  A pass
    sweeps agent liveness, flags system workloads stranded on an offline host,
    and keeps the system services alive by re-dispatching them, escalating once
    per incident.

    The collaborators of the loop are an interface ([Deps]) with the methods the
    Go interfaces [Agents], [Resources], [Registry], [Emitter] and [Tiers] have;
    [core_deps] is the one the program wires.  The loop keeps the open incidents
    ([episodes]) in memory; a pass runs under no lock but the one on that map,
    and here as one sequence of calls. *)

From S2P Require Import Prelude Json Storage World AppError Queries Evolution Mrn Resource.
From S2P Require Agent Registry EventLog Steward.

(** ** Interfaces *)

Record Deps := {
  d_SweepOffline : Z -> M error (list Agent.Agent);
  d_ListOffline : M error (list Agent.Agent);
  d_ListSystemTier : M error (list SystemInstance);
  d_RedispatchSystem : Z -> M error SystemInstance;
  d_FlagHostUnreachable : Z -> M error bool;
  d_ListSystem : M error (list Registry.Registration);
  (* nil when no emitter is configured *)
  d_Emit : option (EventLog.Input -> M error EventLog.Event);
  d_ServiceTier : string -> option Steward.Tier;
}.

Definition core_deps (cat : Steward.Catalog) : Deps := {|
  d_SweepOffline := Agent.SweepOffline; d_ListOffline := Agent.ListOffline;
  d_ListSystemTier := ListSystemTier; d_RedispatchSystem := RedispatchSystem;
  d_FlagHostUnreachable := FlagHostUnreachable; d_ListSystem := Registry.ListSystem;
  d_Emit := Some EventLog.Emit; d_ServiceTier := Steward.ServiceTier cat |}.

Record Options := {
  o_Interval : Z; o_AgentOfflineAfter : Z; o_StaleAfter : Z; o_EscalateAfter : Z;
  o_DeploymentMode : string }.

Definition DefaultInterval : Z := 15 * Second.
Definition DefaultAgentOfflineAfter : Z := 90 * Second.
Definition DefaultStaleAfter : Z := 5 * Minute.
Definition DefaultEscalateAfter : Z := 5.

Definition withDefaults (o : Options) : Options := {|
  o_Interval := if o_Interval o <=? 0 then DefaultInterval else o_Interval o;
  o_AgentOfflineAfter := if o_AgentOfflineAfter o <=? 0 then DefaultAgentOfflineAfter
                         else o_AgentOfflineAfter o;
  o_StaleAfter := if o_StaleAfter o <=? 0 then DefaultStaleAfter else o_StaleAfter o;
  o_EscalateAfter := if o_EscalateAfter o <? 1 then DefaultEscalateAfter else o_EscalateAfter o;
  o_DeploymentMode := if is_empty (o_DeploymentMode o) then "docker"%string
                      else o_DeploymentMode o |}.

Definition systemInstancePrefix : string := "system-".
Definition runningState : string := "running".
Definition substrateServices (name : string) : bool :=
  existsb (str_eqb name) ["core"; "agent"; "docker"; "runtime"]%string.

(** ** State of the loop *)

Record episode := { ep_missingReported : bool; ep_redispatches : Z; ep_escalated : bool }.
#[global] Instance episode_eta : EtaRecord episode := fun e =>
  Build_episode (ep_missingReported e) (ep_redispatches e) (ep_escalated e).
Definition new_episode : episode := Build_episode false 0 false.

Record Sup := mkSup { sv_episodes : gmap string episode; sv_world : World }.
#[global] Instance Sup_eta : EtaRecord Sup := fun s => mkSup (sv_episodes s) (sv_world s).

(** A step of the loop: nothing it calls can stop it, so it has no error. *)
Definition S (A : Type) : Type := Sup -> A * Sup.
#[global] Instance S_ret : MRet S := fun _ a s => (a, s).
#[global] Instance S_bind : MBind S := fun _ _ k m s => let '(a, s') := m s in k a s'.

Definition call {E A} (m : M E A) : S (result E A) := fun s =>
  let '(r, w) := m (sv_world s) in (r, s <| sv_world := w |>).
Definition get_episodes : S (gmap string episode) := fun s => (sv_episodes s, s).
Definition put_episodes (e : gmap string episode) : S () := fun s => ((), s <| sv_episodes := e |>).
Definition now : S Z := fun s => (w_gonow (sv_world s), s).

(** [for _, x := range l { f(x) }]. *)
Fixpoint for_each {A} (f : A -> S ()) (l : list A) : S () :=
  match l with
  | [] => mret ()
  | x :: l => f x;; for_each f l
  end.

Definition episode_of (e : gmap string episode) (key : string) : episode :=
  default new_episode (e !! key).

Section Supervisor.
Context {T : GoText} (d : Deps) (opts : Options).

Definition lastSeen (a : Agent.Agent) : string :=
  match Agent.ag_LastSeenAt a with None => "never"%string | Some t => time_RFC3339 t end.

Definition emit (in_ : EventLog.Input) : S () :=
  match d_Emit d with
  | None => mret ()
  | Some e => call (e in_);; mret ()
  end.

(** ** (a) agent liveness *)

Definition offline_event (a : Agent.Agent) : EventLog.Input := {|
  EventLog.in_Kind := EventLog.KindAgentOffline; EventLog.in_Severity := EventLog.SeverityWarning;
  EventLog.in_SubjectType := EventLog.SubjectAgent;
  EventLog.in_SubjectUUID := Some (Agent.ag_UUID a);
  EventLog.in_Message := "agent " +:+ fmt_q (Agent.ag_Name a)
    +:+ " stopped reporting; no heartbeat for more than "
    +:+ duration_String (o_AgentOfflineAfter opts);
  EventLog.in_Details := Some [("agent_uuid", VStr (uuid_String (Agent.ag_UUID a)));
    ("agent_name", VStr (Agent.ag_Name a)); ("last_seen_at", VStr (lastSeen a));
    ("offline_after", VStr (duration_String (o_AgentOfflineAfter opts)))] |}%string.

Definition sweepAgents : S (gmap Z Agent.Agent) :=
  r ← call (d_SweepOffline d (o_AgentOfflineAfter opts));
  for_each (fun a => emit (offline_event a)) (match r with Ok l => l | Err _ => [] end);;
  standing ← call (d_ListOffline d);
  match standing with
  | Err _ => mret ∅
  | Ok l => mret (foldl (fun m a => <[Agent.ag_ID a := a]> m) ∅ l)
  end.

(** ** (b) stranded system workloads *)

Definition stranded_event (inst : SystemInstance) (host : Agent.Agent) : EventLog.Input := {|
  EventLog.in_Kind := EventLog.KindSystemHostUnreachable;
  EventLog.in_Severity := EventLog.SeverityCritical;
  EventLog.in_SubjectType := EventLog.SubjectResource;
  EventLog.in_SubjectUUID := Some (si_UUID inst);
  EventLog.in_Message := "system workload " +:+ fmt_q (si_Name inst)
    +:+ " is stranded: its agent " +:+ fmt_q (Agent.ag_Name host)
    +:+ " is offline. It was NOT rescheduled — there is no scheduler in "
    +:+ o_DeploymentMode opts +:+ " mode and the workload's data may be host-local, "
    +:+ "so recovering the host or reassigning the workload is an operator decision.";
  EventLog.in_Details := Some [("resource_uuid", VStr (uuid_String (si_UUID inst)));
    ("resource_name", VStr (si_Name inst));
    ("agent_uuid", VStr (uuid_String (Agent.ag_UUID host)));
    ("agent_name", VStr (Agent.ag_Name host)); ("agent_last_seen", VStr (lastSeen host));
    ("deployment_mode", VStr (o_DeploymentMode opts)); ("rescheduled", VBool false)] |}%string.

Definition flag_one (offline : gmap Z Agent.Agent) (inst : SystemInstance) : S () :=
  if (si_AgentID inst =? 0) || Terminating inst then mret ()
  else match offline !! si_AgentID inst with
  | None => mret ()
  | Some host =>
      r ← call (d_FlagHostUnreachable d (si_UUID inst));
      match r with
      | Ok true => emit (stranded_event inst host)
      | _ => mret ()
      end
  end.

Definition flagStranded (instances : list SystemInstance) (offline : gmap Z Agent.Agent) : S () :=
  for_each (flag_one offline) instances.

(** ** (c) keep-alive *)

Definition supervises (name : string) : bool :=
  if substrateServices name then false
  else match d_ServiceTier d name with
  | Some tier => str_eqb tier Steward.TierSystem
  | None => true
  end.

(** [d.Truncate(time.Second)]. *)
Definition truncate_seconds (dur : Z) : Z := Z.quot dur Second * Second.

Definition redispatchReason (gonow : Z) (inst : SystemInstance) : string :=
  let silent := gonow - si_UpdatedAt inst in
  if str_eqb (si_Health inst) HealthUnhealthy then
    "the agent reports health=unhealthy (running is not working)"
  else if str_eqb (si_Health inst) HealthUnknown then
    "health is unknown since the reporting host went offline"
  else if str_eqb (si_State inst) "failed" then
    "parked as terminally 'failed' — a system service is retried forever"
  else if str_eqb (si_State inst) runningState && Converged inst then ""
  else if Converged inst then "the last agent report says state=" +:+ si_State inst
  else if o_StaleAfter opts <? silent then
    "out of sync and silent for " +:+ duration_String (truncate_seconds silent)
      +:+ " (generation " +:+ pretty (si_Generation inst)
      +:+ ", observed " +:+ pretty (si_ObservedGeneration inst) +:+ ")"
  else "".

(** The bookkeeping of a re-dispatch, under the lock: the episode after it,
    and whether this one escalates. *)
Definition count_redispatch (ep : episode) : episode * bool :=
  let ep := ep <| ep_redispatches := int64 (ep_redispatches ep + 1) |> in
  let escalate := (o_EscalateAfter opts <? ep_redispatches ep) && negb (ep_escalated ep) in
  (if escalate then ep <| ep_escalated := true |> else ep, escalate).

Definition escalated_event (inst : SystemInstance) (reason : string) (count : Z)
    : EventLog.Input := {|
  EventLog.in_Kind := EventLog.KindSystemRedispatchEscalated;
  EventLog.in_Severity := EventLog.SeverityCritical;
  EventLog.in_SubjectType := EventLog.SubjectResource;
  EventLog.in_SubjectUUID := Some (si_UUID inst);
  EventLog.in_Message := "system service " +:+ fmt_q (si_Name inst)
    +:+ " has been re-dispatched " +:+ pretty count
    +:+ " consecutive times without reaching healthy (" +:+ reason +:+ "). "
    +:+ "Core keeps retrying — it never gives up on a system service — but the cause needs a human.";
  EventLog.in_Details := Some [("resource_uuid", VStr (uuid_String (si_UUID inst)));
    ("resource_name", VStr (si_Name inst)); ("consecutive_redispatches", VNum (pretty count));
    ("escalate_after", VNum (pretty (o_EscalateAfter opts))); ("state", VStr (si_State inst));
    ("health", VStr (si_Health inst)); ("reason", VStr reason);
    ("attempts", VNum (pretty (si_Attempts inst)))] |}%string.

Definition redispatch (key : string) (inst : SystemInstance) (reason : string) : S () :=
  r ← call (d_RedispatchSystem d (si_UUID inst));
  match r with
  | Err _ => mret ()
  | Ok _ =>
      eps ← get_episodes;
      let '(ep, escalate) := count_redispatch (episode_of eps key) in
      put_episodes (<[key := ep]> eps);;
      if escalate then emit (escalated_event inst reason (ep_redispatches ep)) else mret ()
  end.

Definition recovered_event (inst : SystemInstance) (redispatches : Z) : EventLog.Input := {|
  EventLog.in_Kind := EventLog.KindSystemRecovered; EventLog.in_Severity := EventLog.SeverityInfo;
  EventLog.in_SubjectType := EventLog.SubjectResource;
  EventLog.in_SubjectUUID := Some (si_UUID inst);
  EventLog.in_Message := "system service " +:+ fmt_q (si_Name inst)
    +:+ " is running and converged again after " +:+ pretty redispatches +:+ " re-dispatches";
  EventLog.in_Details := Some [("resource_uuid", VStr (uuid_String (si_UUID inst)));
    ("resource_name", VStr (si_Name inst)); ("redispatches", VNum (pretty redispatches));
    ("health", VStr (si_Health inst))] |}%string.

Definition noteRecovered (key : string) (inst : SystemInstance) : S () :=
  eps ← get_episodes;
  match eps !! key with
  | None => mret ()
  | Some ep =>
      put_episodes (<[key := ep <| ep_redispatches := 0 |> <| ep_escalated := false |>]> eps);;
      if ep_escalated ep then emit (recovered_event inst (ep_redispatches ep)) else mret ()
  end.

Definition missing_event (reg : Registry.Registration) (instanceName : string)
    : EventLog.Input := {|
  EventLog.in_Kind := EventLog.KindSystemInstanceMissing;
  EventLog.in_Severity := EventLog.SeverityCritical;
  EventLog.in_SubjectType := EventLog.SubjectService;
  EventLog.in_SubjectUUID := Some (Registry.rg_UUID reg);
  EventLog.in_Message := "system service " +:+ fmt_q (Registry.rg_Name reg)
    +:+ " is registered as platform-critical but has no system-tier resource named "
    +:+ fmt_q instanceName +:+ ", so there is nothing for Core to keep alive. Publish its workload (SYSTEM_"
    +:+ ToUpper (Registry.rg_Name reg)
    +:+ "_IMAGE) — Core will not invent a spec for a system service.";
  EventLog.in_Details := Some [("service_uuid", VStr (uuid_String (Registry.rg_UUID reg)));
    ("service_name", VStr (Registry.rg_Name reg)); ("service_kind", VStr (Registry.rg_Kind reg));
    ("expected_resource_name", VStr instanceName)] |}%string.

Definition reportMissingInstance (key : string) (reg : Registry.Registration)
    (instanceName : string) : S () :=
  eps ← get_episodes;
  let ep := episode_of eps key in
  put_episodes (<[key := ep <| ep_missingReported := true |>]> eps);;
  if ep_missingReported ep then mret () else emit (missing_event reg instanceName).

Definition clearMissing (key : string) : S () :=
  eps ← get_episodes;
  match eps !! key with
  | None => mret ()
  | Some ep => put_episodes (<[key := ep <| ep_missingReported := false |>]> eps)
  end.

Definition forget (key : string) : S () :=
  eps ← get_episodes; put_episodes (base.delete key eps).

Definition prune (live : gset string) : S () :=
  eps ← get_episodes; put_episodes (filter (fun kv => fst kv ∈ live) eps).

(** The registry name as the loop compares it, and the key of its episode. *)
Definition service_name (reg : Registry.Registration) : string :=
  ToLower (TrimSpace (Registry.rg_Name reg)).
Definition service_key (name : string) : string := "service:" +:+ name.
Definition supervised (reg : Registry.Registration) : bool :=
  negb (is_empty (service_name reg)) && supervises (service_name reg).

Definition keep_one (byName : gmap string SystemInstance) (offline : gmap Z Agent.Agent)
    (reg : Registry.Registration) : S () :=
  if negb (supervised reg) then mret ()
  else
    let name := service_name reg in
    let key := service_key name in
    let instanceName := systemInstancePrefix +:+ name in
    match byName !! instanceName with
    | None => reportMissingInstance key reg instanceName
    | Some inst =>
        clearMissing key;;
        if Terminating inst then forget key
        else if negb (si_AgentID inst =? 0)
             && match offline !! si_AgentID inst with Some _ => true | None => false end
        then mret ()
        else
          t ← now;
          let reason := redispatchReason t inst in
          if is_empty reason then noteRecovered key inst
          else redispatch key inst reason
    end.

Definition by_name (instances : list SystemInstance) : gmap string SystemInstance :=
  foldl (fun m inst => <[si_Name inst := inst]> m) ∅ instances.

Definition live_keys (regs : list Registry.Registration) : gset string :=
  list_to_set (map (fun reg => service_key (service_name reg)) (filter (fun reg => supervised reg = true) regs)).

Definition keepAlive (instances : list SystemInstance) (offline : gmap Z Agent.Agent) : S () :=
  r ← call (d_ListSystem d);
  match r with
  | Err _ => mret ()
  | Ok regs =>
      for_each (keep_one (by_name instances) offline) regs;;
      prune (live_keys regs)
  end.

(** [cancelled] is whether the context is already done. *)
Definition Tick (cancelled : bool) : S () :=
  if cancelled then mret ()
  else
    offline ← sweepAgents;
    r ← call (d_ListSystemTier d);
    match r with
    | Err _ => mret ()
    | Ok instances =>
        flagStranded instances offline;;
        keepAlive instances offline
    end.
End Supervisor.

(** ** The loop *)

(** [New]: the options a supervisor runs with, and its state. *)
Definition New (opts : Options) (w : World) : Options * Sup := (withDefaults opts, mkSup ∅ w).

(** What ends a wait of the loop: the context is done, or the ticker fired after
    the rest of the program did [between] to the world; [cancelled] is whether the
    context is done by the time the pass looks at it. *)
Inductive wake := CtxDone | TickerFired (between : World -> World) (cancelled : bool).

Definition meanwhile (f : World -> World) : S () := fun s => ((), s <| sv_world := f (sv_world s) |>).

(** A pass, then the wait; the list of the wake-ups ends where the process does. *)
Fixpoint Run {T : GoText} (d : Deps) (opts : Options) (cancelled : bool) (wakes : list wake) : S () :=
  Tick d opts cancelled;;
  match wakes with
  | [] => mret ()
  | CtxDone :: _ => mret ()
  | TickerFired between cancelled :: wakes => meanwhile between;; Run d opts cancelled wakes
  end.
