(* ===== verification/Availability.v ===== *)
(** * What the supervisor promises

    The writes of a pass on the resources, the episodes it keeps, the hosts it
    does not dispatch to, and the escalation of an incident. *)

From S2P Require Import Prelude Json Storage World AppError Queries Evolution Mrn Resource Sample.
From S2P Require Import Supervisor.
From S2P Require Agent Registry EventLog Steward.

(** ** What a pass may do to a resource *)

(** Supervision cannot create, delete, re-spec or reassign; a resource being
    torn down keeps its revision, its lease and its retry budget. *)
Record spared (r r' : ResourceRow) : Prop := {
  sp_keys : same_keys r r';
  sp_agent : r_AgentID r' = r_AgentID r;
  sp_spec : r_Spec r' = r_Spec r;
  sp_meta : r_Metadata r' = r_Metadata r;
  sp_deleted : r_DeletedAt r' = r_DeletedAt r;
  sp_observed : r_ObservedGeneration r' = r_ObservedGeneration r;
  sp_generation : r_Generation r <= r_Generation r';
  sp_deleting : r_State r = "deleting"%string ->
    r_State r' = "deleting"%string /\ r_Generation r' = r_Generation r
    /\ r_LeasedUntil r' = r_LeasedUntil r /\ r_Attempts r' = r_Attempts r;
  sp_state : r_State r' = r_State r \/ r_State r' = "pending"%string;
}.
#[global] Instance spared_preorder : PreOrder spared.
Proof.
  split.
  - intros r. split; auto with lia. by split.
  - intros a b c [[K1 K2] A1 S1 M1 D1 O1 G1 T1 P1] [[K3 K4] A2 S2 M2 D2 O2 G2 T2 P2].
    split; try congruence; [split; congruence|lia| |].
    + intros H. destruct (T1 H) as (H1 & H2 & H3 & H4). destruct (T2 H1) as (? & ? & ? & ?).
      split_and!; congruence.
    + destruct P2 as [-> | ->]; [done|by right].
Qed.

(** No resource appears or disappears, and each is spared. *)
Definition resources_spared (d d' : Db) : Prop :=
  table_wf (resources d) -> table_wf (resources d')
  /\ Forall2 spared (tbl_rows (resources d)) (tbl_rows (resources d')).
#[global] Instance resources_spared_preorder : PreOrder resources_spared.
Proof.
  split; unfold resources_spared.
  - intros d H. split; [done|reflexivity].
  - intros a b c H1 H2 H. destruct (H1 H) as [W1 F1]. destruct (H2 W1) as [W2 F2].
    split; [done|by etransitivity].
Qed.

Lemma same_resources (d d' : Db) : resources d' = resources d -> resources_spared d d'.
Proof. intros E. unfold resources_spared. rewrite E. intros H. split; [done|reflexivity]. Qed.

Lemma resources_spared_update p f :
  (forall w r, same_keys r (f w r)) ->
  (forall w r, r_DeletedAt r = None -> p w r = true -> spared r (f w r)) ->
  advances resources_spared (q_update resources p f).
Proof.
  intros Hk H. apply advances_update; [apply _|]. intros w rs t Hu Hwf. cbn. split.
  - eapply update_wf; [|exact Hu|done]. intros r _. apply Hk.
  - apply update_inv in Hu as (_ & Hrows & _). cbn. rewrite Hrows.
    apply Forall2_fmap_r. apply Forall_Forall2_diag, Forall_forall.
    intros r _. unfold compose. destruct (hit (p w) r) eqn:Hh; [|reflexivity].
    apply hit_live in Hh as [? ?]. by apply H.
Qed.

(** Writes on other tables leave the resources alone. *)
Lemma agents_spare p f : advances resources_spared (q_update agents p f).
Proof. apply advances_update; [apply _|]. intros. by apply same_resources. Qed.
Lemma events_spare mk : advances resources_spared (q_insert events mk).
Proof. apply advances_insert; [apply _|]. intros. by apply same_resources. Qed.

Lemma redispatch_spares id : advances resources_spared (RedispatchSystem id).
Proof.
  advance. apply advances_bind; [apply _| |intros [|? ?]; advance].
  apply resources_spared_update; [done|]. intros w r Hl Hp. split_bools.
  split; try done; cbn; try lia; auto.
Qed.

Lemma flag_spares id : advances resources_spared (FlagHostUnreachable id).
Proof.
  advance. apply advances_bind; [apply _| |intros [|? ?]; advance].
  apply resources_spared_update; [done|]. intros w r Hl Hp.
  split; try done; cbn; try lia; auto.
Qed.

Lemma list_system_spares : advances resources_spared Registry.ListSystem.
Proof.
  unfold Registry.ListSystem. apply advances_bind; [apply _|advance|].
  intros rows. apply Registry.list_system_advances. apply _.
Qed.

(** ** Passes advance what their collaborators advance *)

(** A step of the loop, and a handler, seen as a relation on worlds; what
    [advances] says of the database is the case [on_db]. *)
Definition s_moves {A} (RW : relation World) (m : S A) : Prop :=
  forall s, RW (sv_world s) (sv_world (snd (m s))).
Definition moves {E A} (RW : relation World) (m : M E A) : Prop := forall w, RW w (snd (m w)).

Definition on_db (Rel : relation Db) : relation World := fun w w' => Rel (w_db w) (w_db w').
#[global] Instance on_db_preorder Rel `{!PreOrder Rel} : PreOrder (on_db Rel).
Proof.
  split; unfold on_db; [intros w; reflexivity|]. intros w1 w2 w3 H1 H2. by etransitivity.
Qed.

Section Passes.
Context (RW : relation World) `{!PreOrder RW} {T : GoText} (d : Deps) (opts : Options).

Lemma s_ret {A} (a : A) : s_moves RW (mret a).
Proof. intros s. reflexivity. Qed.
Lemma s_bind {A B} (m : S A) (k : A -> S B) :
  s_moves RW m -> (forall a, s_moves RW (k a)) -> s_moves RW (m ≫= k).
Proof.
  intros Hm Hk s. unfold mbind, S_bind. specialize (Hm s). destruct (m s) as [a s']; cbn in *.
  etransitivity; [exact Hm|apply Hk].
Qed.
Lemma s_call {E A} (m : M E A) : moves RW m -> s_moves RW (call m).
Proof. intros Hm s. unfold call. specialize (Hm (sv_world s)). by destruct (m (sv_world s)). Qed.
Lemma s_get : s_moves RW get_episodes.
Proof. intros s. reflexivity. Qed.
Lemma s_put e : s_moves RW (put_episodes e).
Proof. intros s. reflexivity. Qed.
Lemma s_now : s_moves RW now.
Proof. intros s. reflexivity. Qed.
Lemma s_for_each {A} (f : A -> S ()) l : (forall a, s_moves RW (f a)) -> s_moves RW (for_each f l).
Proof. intros Hf. induction l as [|x l IH]; cbn; [apply s_ret|by apply s_bind]. Qed.

Lemma s_emit in_ : (forall e, d_Emit d = Some e -> moves RW (e in_)) -> s_moves RW (emit d in_).
Proof.
  intros He. unfold emit. destruct (d_Emit d) as [e|]; [|apply s_ret].
  apply s_bind; [by apply s_call, He|intros; apply s_ret].
Qed.

(** The sweep of the agents uses two of the collaborators. *)
Lemma s_sweep : (forall z, moves RW (d_SweepOffline d z)) -> moves RW (d_ListOffline d) ->
  (forall e in_, d_Emit d = Some e -> moves RW (e in_)) -> s_moves RW (sweepAgents d opts).
Proof.
  intros Hs Ho He. unfold sweepAgents. apply s_bind; [by apply s_call|]. intros r.
  apply s_bind; [|intros _; apply s_bind; [by apply s_call|intros []; apply s_ret]].
  apply s_for_each. intros a. apply s_emit. intros e. apply He.
Qed.

(** The collaborators move by the relation. *)
Record deps_move : Prop := {
  dm_sweep : forall z, moves RW (d_SweepOffline d z); dm_offline : moves RW (d_ListOffline d);
  dm_tier : moves RW (d_ListSystemTier d); dm_redispatch : forall id, moves RW (d_RedispatchSystem d id);
  dm_flag : forall id, moves RW (d_FlagHostUnreachable d id);
  dm_registry : moves RW (d_ListSystem d);
  dm_emit : forall e in_, d_Emit d = Some e -> moves RW (e in_) }.
Context (D : deps_move).

Ltac s_step := repeat (match goal with
  | |- s_moves _ (mbind _ _) => apply s_bind; [|intros ?]
  | |- s_moves _ (match ?x with _ => _ end) => destruct x
  | |- s_moves _ (let '(_, _) := ?x in _) => destruct x
  end || first [apply s_ret | apply s_get | apply s_put | apply s_now
               | apply s_emit; intros ? ?; by apply (dm_emit D)
               | apply s_call; by apply D]).

Lemma s_flag instances offline : s_moves RW (flagStranded d opts instances offline).
Proof. apply s_for_each. intros inst. unfold flag_one. s_step. Qed.
Lemma s_keep_one byName offline reg : s_moves RW (keep_one d opts byName offline reg).
Proof.
  unfold keep_one. destruct (negb _); [apply s_ret|]. cbv zeta. destruct (_ !! _) as [inst|].
  - apply s_bind; [unfold clearMissing; s_step|]. intros _. destruct (Terminating inst);
      [unfold forget; s_step|]. destruct (_ && _); [apply s_ret|].
    apply s_bind; [apply s_now|]. intros t. destruct (is_empty _).
    + unfold noteRecovered. s_step.
    + unfold redispatch. apply s_bind; [by apply s_call, D|]. intros [a|e]; [|apply s_ret]. s_step.
  - unfold reportMissingInstance. s_step.
Qed.
Lemma s_prune keys : s_moves RW (prune keys).
Proof. unfold prune. s_step. Qed.
Lemma s_keep instances offline : s_moves RW (keepAlive d opts instances offline).
Proof.
  unfold keepAlive. apply s_bind; [by apply s_call, D|]. intros [regs|e]; [|apply s_ret].
  apply s_bind; [|intros _; apply s_prune]. apply s_for_each. intros reg. apply s_keep_one.
Qed.
Lemma s_tick cancelled : s_moves RW (Tick d opts cancelled).
Proof.
  unfold Tick. destruct cancelled; [apply s_ret|]. apply s_bind; [apply s_sweep; apply D|]. intros off.
  apply s_bind; [by apply s_call, D|]. intros [insts|e]; [|apply s_ret].
  apply s_bind; [apply s_flag|]. intros _. apply s_keep.
Qed.
End Passes.

Lemma core_spares cat : deps_move (on_db resources_spared) (core_deps cat).
Proof.
  split; cbn.
  - intros z. change (advances resources_spared (Agent.SweepOffline z)). advance. apply agents_spare.
  - change (advances resources_spared Agent.ListOffline). advance.
  - change (advances resources_spared ListSystemTier). advance.
  - exact redispatch_spares.
  - exact flag_spares.
  - exact list_system_spares.
  - intros e in_ E. simplify_eq. change (advances resources_spared (EventLog.Emit in_)).
    advance. apply events_spare.
Qed.

(** C24: a pass of the supervisor, whatever the catalog, the state of its
    episodes and the queries that fail, makes only the two writes it is allowed
    on resources: none appears, disappears, is re-specified, deleted or moved to
    another agent; a resource being torn down keeps its state, revision, lease
    and retry budget; and any other resource keeps its state or goes back to
    'pending' under a revision that never decreases. *)
Theorem tick_spares_resources {T : GoText} cat opts cancelled s :
  table_wf (resources (w_db (sv_world s))) ->
  let s' := snd (Tick (core_deps cat) opts cancelled s) in
  Forall2 spared (tbl_rows (resources (w_db (sv_world s))))
    (tbl_rows (resources (w_db (sv_world s')))).
Proof.
  intros Hwf s'. by apply (s_tick (on_db resources_spared) (core_deps cat) opts (core_spares cat)).
Qed.

Lemma tick_spares_resources_witness :
  let s := mkSup ∅ sample_world in
  Forall2 spared (tbl_rows (resources sample_db))
    (tbl_rows (resources (w_db (sv_world
      (snd (@Tick plain_text (core_deps (Steward.Build_Catalog []))
              (withDefaults (Build_Options 0 0 0 0 "")) false s)))))).
Proof.
  intros s. exact (@tick_spares_resources plain_text (Steward.Build_Catalog [])
    (withDefaults (Build_Options 0 0 0 0 "")) false s sample_resources_wf).
Defined.

(** ** Episodes *)

Lemma bind_S {A B} (m : S A) (k : A -> S B) s :
  (m ≫= k) s = let '(a, s') := m s in k a s'.
Proof. done. Qed.

Section Episodes.
Context {T : GoText} (d : Deps) (opts : Options).

Lemma emit_episodes in_ s : sv_episodes (snd (emit d in_ s)) = sv_episodes s.
Proof.
  unfold emit. destruct (d_Emit d) as [e|]; [|done]. unfold mbind, S_bind, call.
  by destruct (e in_ (sv_world s)).
Qed.

Lemma call_episodes {E A} (m : M E A) s : sv_episodes (snd (call m s)) = sv_episodes s.
Proof. unfold call. by destruct (m (sv_world s)). Qed.

Lemma for_each_episodes {A} (f : A -> S ()) l s :
  (forall x s, sv_episodes (snd (f x s)) = sv_episodes s) ->
  sv_episodes (snd (for_each f l s)) = sv_episodes s.
Proof.
  intros Hf. revert s. induction l as [|x l IH]; intros s; [done|]. cbn. unfold mbind, S_bind.
  specialize (Hf x s). destruct (f x s) as [? s1]. cbn in *. by rewrite IH.
Qed.

Lemma sweep_episodes s : sv_episodes (snd (sweepAgents d opts s)) = sv_episodes s.
Proof.
  unfold sweepAgents, mbind, S_bind. pose proof (call_episodes (d_SweepOffline d (o_AgentOfflineAfter opts)) s) as E1.
  destruct (call _ s) as [r s1]. cbn in E1. set (l := match r with Ok l => l | Err _ => [] end).
  pose proof (for_each_episodes (fun a => emit d (offline_event opts a)) l s1
    (fun x s => emit_episodes _ s)) as E2.
  destruct (for_each _ l s1) as [? s2]. cbn in E2.
  pose proof (call_episodes (d_ListOffline d) s2) as E3. destruct (call _ s2) as [r3 s3]. cbn in E3.
  destruct r3; cbn; congruence.
Qed.

Lemma flag_episodes instances offline s :
  sv_episodes (snd (flagStranded d opts instances offline s)) = sv_episodes s.
Proof.
  apply for_each_episodes. intros inst s0. unfold flag_one. destruct (_ || _); [done|].
  destruct (offline !! _) as [host|]; [|done]. unfold mbind, S_bind.
  pose proof (call_episodes (d_FlagHostUnreachable d (si_UUID inst)) s0) as E.
  destruct (call _ s0) as [[[]|] s1]; cbn in *; [by rewrite emit_episodes|done..].
Qed.

Lemma prune_live live s : dom (sv_episodes (snd (prune live s))) ⊆ live.
Proof.
  unfold prune. rewrite bind_S. cbn. intros key Hk. apply elem_of_dom in Hk as [ep Hep].
  by apply map_lookup_filter_Some in Hep as [_ Hin].
Qed.

Lemma keep_bounded insts off s :
  sv_episodes (snd (keepAlive d opts insts off s)) = sv_episodes s
  \/ exists w w' regs, d_ListSystem d w = (Ok regs, w')
     /\ dom (sv_episodes (snd (keepAlive d opts insts off s))) ⊆ live_keys d regs.
Proof.
  unfold keepAlive. rewrite bind_S. unfold call.
  destruct (d_ListSystem d (sv_world s)) as [[regs|e] w'] eqn:Er; [|by left].
  right. exists (sv_world s), w', regs. split; [done|].
  rewrite bind_S. destruct (for_each _ _ _) as [? s4]. apply prune_live.
Qed.
End Episodes.

(** The memory of the loop is bounded by the registry: a pass either
    leaves the episodes as they are (cancelled, or a listing it needs failed) or
    ends with an episode for none but the supervised services of the
    registrations it read. *)
Theorem episodes_bounded {T : GoText} d opts cancelled s :
  let s' := snd (Tick d opts cancelled s) in
  sv_episodes s' = sv_episodes s
  \/ exists w w' regs, d_ListSystem d w = (Ok regs, w')
     /\ dom (sv_episodes s') ⊆ live_keys d regs.
Proof.
  unfold Tick. destruct cancelled; [by left|]. unfold mbind, S_bind.
  pose proof (sweep_episodes d opts s) as E1. destruct (sweepAgents d opts s) as [off s1]. cbn in E1.
  pose proof (call_episodes (d_ListSystemTier d) s1) as E2.
  destruct (call (d_ListSystemTier d) s1) as [[insts|e] s2]; cbn in E2; [|left; cbn; congruence].
  pose proof (flag_episodes d opts insts off s2) as E3.
  destruct (flagStranded d opts insts off s2) as [? s3]. cbn in E3.
  destruct (keep_bounded d opts insts off s3) as [E4|H]; [left; congruence|by right].
Qed.

(** ** Standing down *)

Lemma clear_spec key s :
  sv_world (snd (clearMissing key s)) = sv_world s
  /\ forall k, (fun e => (ep_redispatches e, ep_escalated e)) <$> sv_episodes (snd (clearMissing key s)) !! k
     = (fun e => (ep_redispatches e, ep_escalated e)) <$> sv_episodes s !! k.
Proof.
  unfold clearMissing. rewrite bind_S. cbn. destruct (sv_episodes s !! key) as [ep|] eqn:E; [|done].
  cbn. split; [done|]. intros k. destruct (decide (k = key)) as [->|Hne].
  - by rewrite lookup_insert_eq, E.
  - by rewrite lookup_insert_ne.
Qed.

(** Keep-alive stands down where it must.  The substrate services
    are never touched whatever the catalog says.  For an instance being torn
    down nothing is dispatched and its incident is forgotten.  For an instance
    whose host is offline nothing is dispatched and recorded, and the count
    towards escalation does not move. *)
Theorem keep_alive_stands_down {T : GoText} d opts byName offline reg inst s :
  let name := service_name reg in
  let s' := snd (keep_one d opts byName offline reg s) in
  (name ∈ ["core"; "agent"; "docker"; "runtime"]%string -> s' = s)
  /\ (byName !! (systemInstancePrefix +:+ name)%string = Some inst -> supervised d reg = true ->
      (Terminating inst = true -> sv_world s' = sv_world s /\ sv_episodes s' !! service_key name = None)
      /\ (Terminating inst = false -> si_AgentID inst <> 0 -> is_Some (offline !! si_AgentID inst) ->
          sv_world s' = sv_world s
          /\ forall k, (fun e => (ep_redispatches e, ep_escalated e)) <$> sv_episodes s' !! k
             = (fun e => (ep_redispatches e, ep_escalated e)) <$> sv_episodes s !! k)).
Proof.
  intros name s'. unfold s'. unfold keep_one. split.
  - intros Hin. replace (supervised d reg) with false; [done|].
    unfold supervised, supervises. fold name.
    replace (substrateServices name) with true; [by rewrite andb_false_r|].
    symmetry. apply existsb_exists. exists name. split; [by apply list_elem_of_In|apply str_eqb_refl].
  - intros Hfound Hsup. rewrite Hsup. cbn [negb]. fold name. cbv zeta. rewrite Hfound.
    rewrite bind_S. pose proof (clear_spec (service_key name) s) as [Hw He].
    destruct (clearMissing (service_key name) s) as [? s1]. cbn in Hw, He. split.
    + intros Hterm. rewrite Hterm. unfold forget. rewrite bind_S. cbn. split; [done|].
      by rewrite lookup_delete_eq.
    + intros Hterm Hid [host Hhost]. rewrite Hterm, Hhost. replace (_ =? 0) with false by lia. done.
Qed.

(** A service without an instance is reported once per incident:
    the first report opens the incident, and every further one of the same
    service changes nothing and records nothing. *)
Theorem missing_reported_once {T : GoText} d key reg name s :
  let s' := snd (reportMissingInstance d key reg name s) in
  (exists ep, sv_episodes s' !! key = Some ep /\ ep_missingReported ep = true)
  /\ forall reg' name', snd (reportMissingInstance d key reg' name' s') = s'.
Proof.
  intros s'.
  assert (H : exists ep, sv_episodes s' !! key = Some ep /\ ep_missingReported ep = true).
  { unfold s', reportMissingInstance. rewrite bind_S. unfold get_episodes. rewrite bind_S. cbn.
    eexists. destruct (ep_missingReported _); cbn; [|rewrite emit_episodes; cbn];
      (rewrite lookup_insert_eq; split; [done|done]). }
  split; [exact H|]. destruct H as (ep & Hep & Hm). intros reg' name'. clearbody s'.
  unfold reportMissingInstance. rewrite bind_S. unfold get_episodes. rewrite bind_S.
  unfold episode_of. rewrite Hep. cbn. rewrite Hm. cbn.
  assert (E : ep <| ep_missingReported := true |> = ep) by (destruct ep; cbn in *; by subst).
  destruct s' as [eps w]. cbn in *. rewrite E, (insert_id eps key ep Hep). reflexivity.
Qed.

(** ** Escalation *)

(** [n] re-dispatches in a row, with the escalations they ask for. *)
Fixpoint count_redispatches (opts : Options) (n : nat) (ep : episode) : episode * list bool :=
  match n with
  | O => (ep, [])
  | Datatypes.S n =>
      let '(ep, esc) := count_redispatch opts ep in
      let '(ep, escs) := count_redispatches opts n ep in (ep, esc :: escs)
  end.

Lemma count_redispatches_spec opts n ep :
  0 <= ep_redispatches ep -> ep_redispatches ep + Z.of_nat n < 2 ^ 63 ->
  ep_escalated ep = (o_EscalateAfter opts <? ep_redispatches ep) ->
  let '(ep', escs) := count_redispatches opts n ep in
  ep_redispatches ep' = ep_redispatches ep + Z.of_nat n
  /\ ep_escalated ep' = (o_EscalateAfter opts <? ep_redispatches ep')
  /\ escs = map (fun i => ep_redispatches ep + Z.of_nat i =? o_EscalateAfter opts) (seq 0 n).
Proof.
  revert ep. induction n as [|n IH]; intros ep H0 Hn He; cbn [count_redispatches]; [split_and!; try done; lia|].
  unfold count_redispatch. cbn [ep_redispatches ep_escalated]. record_simpl.
  rewrite int64_id by lia. rewrite He.
  set (esc := (o_EscalateAfter opts <? ep_redispatches ep + 1) && negb (o_EscalateAfter opts <? ep_redispatches ep)).
  assert (Eesc : esc = (ep_redispatches ep =? o_EscalateAfter opts)) by (unfold esc; lia).
  set (ep1 := if esc then _ else _).
  assert (E1 : ep_redispatches ep1 = ep_redispatches ep + 1) by (unfold ep1; by destruct esc).
  assert (E2 : ep_escalated ep1 = (o_EscalateAfter opts <? ep_redispatches ep1)).
  { rewrite E1. unfold ep1. destruct esc eqn:E; cbn; [lia|]. rewrite He. unfold esc in E. lia. }
  specialize (IH ep1 ltac:(lia) ltac:(lia) E2).
  destruct (count_redispatches opts n ep1) as [ep' escs]. destruct IH as (R & F & L).
  split_and!; [lia|done|]. cbn [seq map]. rewrite Eesc, L. f_equal; [f_equal; lia|].
  rewrite <- (seq_shift n 0), map_map. apply map_ext. intros i. rewrite E1, Nat2Z.inj_succ. f_equal. lia.
Qed.

(** While a service is re-dispatched again and again without a
    recovery in between, the incident escalates exactly once: at the re-dispatch
    after the [EscalateAfter]-th, and at no other, however many follow. *)
Theorem escalates_once opts n :
  let o := withDefaults opts in
  Z.of_nat n < 2 ^ 63 ->
  let '(ep, escs) := count_redispatches o n new_episode in
  ep_redispatches ep = Z.of_nat n
  /\ 1 <= o_EscalateAfter o
  /\ escs = map (fun i => Z.of_nat i =? o_EscalateAfter o) (seq 0 n).
Proof.
  intros o Hn.
  assert (Ho : 1 <= o_EscalateAfter o) by (cbn; destruct (Z.ltb_spec (o_EscalateAfter opts) 1); unfold DefaultEscalateAfter; lia).
  pose proof (count_redispatches_spec o n new_episode ltac:(cbn; lia) ltac:(cbn; lia)) as H.
  cbn [ep_redispatches ep_escalated new_episode] in H. specialize (H ltac:(lia)).
  destruct (count_redispatches o n new_episode) as [ep escs]. destruct H as (H1 & _ & H2).
  split_and!; [lia|done|exact H2].
Qed.

Definition default_options : Options := Build_Options 0 0 0 0 "".

Lemma escalates_once_witness :
  let '(ep, escs) := count_redispatches (withDefaults default_options) 8 new_episode in
  escs = [false; false; false; false; false; true; false; false] /\ ep_redispatches ep = 8.
Proof.
  pose proof (escalates_once default_options 8 ltac:(vm_compute; reflexivity)) as H.
  destruct (count_redispatches (withDefaults default_options) 8 new_episode) as [ep escs].
  destruct H as (H1 & _ & H2). split; [exact H2|exact H1].
Defined.

Lemma not_stale_no_reason {T : GoText} opts gonow inst :
  si_Health inst <> HealthUnhealthy -> si_Health inst <> HealthUnknown ->
  si_State inst = "pending"%string -> Converged inst = false ->
  gonow - si_UpdatedAt inst <= o_StaleAfter opts ->
  redispatchReason opts gonow inst = ""%string.
Proof.
  intros H1 H2 Hs Hc Hst. unfold redispatchReason.
  rewrite (proj2 (str_eqb_neq _ _) H1), (proj2 (str_eqb_neq _ _) H2), Hs, Hc. cbn.
  by replace (_ <? _) with false by lia.
Qed.

(** The sample's system service, registered, and its instance just
    re-dispatched at the database time of the sample. *)
Definition auth_registration : Registry.Registration :=
  Registry.Build_Registration 601 101 "Auth" "auth" true "registered" "" "" [] None 0 0.
Definition redispatched (now : Z) (r : ResourceRow) : SystemInstance :=
  toSystemInstance (RedispatchSystemResource_row now r).

(** The pass after a re-dispatch forgets it.  An instance that was just
    re-dispatched, that no agent has answered for and that is still 'pending'
    within the stale window needs nothing, and keep-alive then treats it as
    recovered: the count of consecutive re-dispatches is back to zero and an
    escalation is closed with a 'recovered' record, although the service never
    ran.  Only a health the row keeps across the re-dispatch ('unhealthy' or
    'unknown') escapes this. *)
Theorem redispatch_forgotten {T : GoText} d opts byName offline reg r now s ep :
  let inst := redispatched now r in
  let key := service_key (service_name reg) in
  supervised d reg = true ->
  byName !! (systemInstancePrefix +:+ service_name reg)%string = Some inst ->
  offline !! si_AgentID inst = None ->
  r_Health r <> HealthUnhealthy -> r_Health r <> HealthUnknown ->
  r_ObservedGeneration r <= r_Generation r ->
  w_gonow (sv_world s) - now <= o_StaleAfter opts ->
  sv_episodes s !! key = Some ep ->
  let s' := snd (keep_one d opts byName offline reg s) in
  si_State inst = "pending"%string
  /\ (exists ep', sv_episodes s' !! key = Some ep'
        /\ ep_redispatches ep' = 0 /\ ep_escalated ep' = false)
  /\ (ep_escalated ep = true -> sv_world s'
        = sv_world (snd (emit d (recovered_event inst (ep_redispatches ep)) s))).
Proof.
  intros inst key Hsup Hfound Hoff H1 H2 Hobs Hst Hep s'. split; [done|].
  unfold s', keep_one. rewrite Hsup. cbn [negb]. cbv zeta. rewrite Hfound. rewrite bind_S.
  unfold clearMissing at 1 2. rewrite bind_S. unfold get_episodes. fold key. rewrite Hep.
  unfold put_episodes. change (Terminating inst) with false. cbv iota.
  rewrite Hoff, andb_false_r. rewrite bind_S. unfold Supervisor.now at 1 2. cbn [sv_world set_field]. record_simpl.
  rewrite not_stale_no_reason; [|done|done|done|unfold Converged; cbn; lia|exact Hst].
  change (is_empty "") with true. cbv iota. unfold noteRecovered. rewrite bind_S. unfold get_episodes. cbn -[emit]. rewrite lookup_insert_eq.
  rewrite bind_S. cbn -[emit]. destruct (ep_escalated ep) eqn:Eesc; cbn -[emit].
  - split.
    + eexists. rewrite emit_episodes. cbn. rewrite lookup_insert_eq. by split_and!.
    + intros _. unfold emit. destruct (d_Emit d) as [e|]; [|done]. rewrite !bind_S. unfold call. cbn.
      by destruct (e _ (sv_world s)).
  - split; [|done]. eexists. rewrite lookup_insert_eq. by split_and!.
Qed.

Lemma redispatch_forgotten_witness :
  let s := mkSup {["service:auth" := Build_episode false 6 true]}%string sample_world in
  let s' := snd (@keep_one plain_text (core_deps (Steward.Build_Catalog []))
    (withDefaults default_options) {["system-auth" := redispatched 1000 auth]}%string ∅
    auth_registration s) in
  exists ep', sv_episodes s' !! "service:auth"%string = Some ep' /\ ep_redispatches ep' = 0.
Proof.
  intros s s'.
  destruct (@redispatch_forgotten plain_text (core_deps (Steward.Build_Catalog []))
      (withDefaults default_options) {["system-auth" := redispatched 1000 auth]}%string ∅
      auth_registration auth 1000 s (Build_episode false 6 true))
    as (_ & (ep' & H1 & H2 & _) & _);
    [reflexivity|reflexivity|reflexivity|discriminate|discriminate|vm_compute; discriminate
    |vm_compute; discriminate|reflexivity|].
  exists ep'. split; [exact H1|exact H2].
Defined.
