(* ===== verification/Recovery.v ===== *)
(** * A dead system service comes back

    The promise the supervisor exists for: one pass re-dispatches a system
    service that is down.  [Availability] bounds what a pass may do; here is what
    it must do, when the database answers.  The pass is followed from the sweep
    of the agents through the listing of the instances and of the registry to the
    one write that puts the resource back into the work feed. *)

From S2P Require Import Prelude Json Storage World AppError Queries Evolution Mrn Resource Sample.
From S2P Require Import Supervisor Availability.
From S2P Require Agent Registry EventLog Steward Tenant.

(** ** Worlds in which nothing fails stay so *)

Definition still (w w' : World) : Prop :=
  w_faults w = [] -> w_faults w' = [] /\ w_gonow w' = w_gonow w /\ w_dbnow w' = w_dbnow w.
#[global] Instance still_preorder : PreOrder still.
Proof.
  split; unfold still; [done|]. intros w1 w2 w3 H1 H2 H.
  destruct (H1 H) as (F1 & G1 & D1). destruct (H2 F1) as (F2 & G2 & D2). split_and!; congruence.
Qed.

Lemma still_bind {E A B} (m : M E A) (k : A -> M E B) :
  moves still m -> (forall a, moves still (k a)) -> moves still (m ≫= k).
Proof.
  intros Hm Hk w. unfold mbind, M_bind. specialize (Hm w). destruct (m w) as [[a|e] w1]; [|done].
  etransitivity; [exact Hm|apply Hk].
Qed.
Lemma still_try {E F A} (m : M E A) : moves still m -> moves still (try m : M F _).
Proof. intros Hm w. unfold try. specialize (Hm w). by destruct (m w). Qed.
Lemma still_map_err {E F A} (f : E -> F) (m : M E A) : moves still m -> moves still (map_err f m).
Proof. intros Hm w. unfold map_err. specialize (Hm w). by destruct (m w). Qed.
Lemma still_query {A} (q : World -> result dberr A * World) : moves still q -> moves still (query q).
Proof.
  intros Hq w Hf. unfold query. rewrite Hf.
  specialize (Hq (w <| w_faults := tail [] |>) eq_refl). exact Hq.
Qed.
Section StillTable.
Context {R : Type} `{!TableRow R} (tbl : Db -> Table R) `{!FieldSetter tbl}.
Lemma still_update p f : moves still (q_update tbl p f).
Proof. apply still_query. intros w Hf. by destruct (update _ _ _) as [[]|]. Qed.
Lemma still_insert mk : moves still (q_insert tbl mk).
Proof. apply still_query. intros w Hf. by destruct (insert _ _ _) as [[]|]. Qed.
End StillTable.

Ltac still_step :=
  lazymatch goal with
  | |- moves still (mbind _ _) => apply still_bind; [|intros ?]
  | |- moves still (try _) => apply still_try
  | |- moves still (map_err _ _) => apply still_map_err
  | |- moves still (q_update _ _ _) => apply still_update
  | |- moves still (q_insert _ _) => apply still_insert
  | |- moves still (query _) => apply still_query; done
  | |- moves still (mret _) => done
  | |- moves still (fail _) => done
  | |- moves still (lift _) => done
  | |- moves still (match ?x with _ => _ end) => destruct x
  | |- moves still (if ?x then _ else _) => destruct x
  | |- moves still (let _ := _ in _) => cbv zeta
  | |- moves still ?m => let h := head_of m in unfold h
  end.

Lemma core_still cat : deps_move still (core_deps cat).
Proof.
  split; cbn; try (intros; repeat still_step; done).
  - unfold Registry.ListSystem. apply still_bind; [repeat still_step|]. intros rows.
    induction rows as [|r rows IH]; cbn; [done|]. repeat still_step; done.
  - intros e in_ E. simplify_eq. repeat still_step.
Qed.

(** ** What happens to a row until it is re-dispatched, and afterwards *)

(** Back in the work feed: nobody's lease, no delay and a fresh retry budget. *)
Record ready (r : ResourceRow) : Prop := {
  rd_state : r_State r = "pending"%string; rd_lease : r_LeasedUntil r = None;
  rd_next : r_NextAttemptAt r = None; rd_attempts : r_Attempts r = 0 }.

(** A pass leaves what decides over a re-dispatch as it was, or the row is ready
    under a newer revision. *)
Record moved (r r' : ResourceRow) : Prop := {
  mv_keys : same_keys r r'; mv_deleted : r_DeletedAt r' = r_DeletedAt r;
  mv_agent : r_AgentID r' = r_AgentID r; mv_observed : r_ObservedGeneration r' = r_ObservedGeneration r;
  mv_either : (r_Generation r' = r_Generation r /\ r_State r' = r_State r
               /\ r_LeasedUntil r' = r_LeasedUntil r /\ r_NextAttemptAt r' = r_NextAttemptAt r
               /\ r_Attempts r' = r_Attempts r)
              \/ (r_Generation r < r_Generation r' /\ ready r') }.
#[global] Instance moved_preorder : PreOrder moved.
Proof.
  split.
  - intros r. split; try done. by left.
  - intros a b c [[K1 K1'] D1 A1 O1 E1] [[K2 K2'] D2 A2 O2 E2].
    split; try congruence; [split; congruence|].
    destruct E1 as [(G1 & S1 & L1 & N1 & T1)|[G1 [S1 L1 N1 T1]]],
             E2 as [(G2 & S2 & L2 & N2 & T2)|[G2 R2]].
    + left. split_and!; congruence.
    + right. split; [lia|done].
    + right. split; [lia|]. split; congruence.
    + right. split; [lia|done].
Qed.

(** The tables a pass reads are kept, and every resource is moved in place. *)
Definition passes (d d' : Db) : Prop :=
  (tenants d' = tenants d /\ services d' = services d) /\ on_table resources moved d d'.
#[global] Instance passes_preorder : PreOrder passes.
Proof.
  split; unfold passes.
  - intros d. split; [done|reflexivity].
  - intros d1 d2 d3 [[A1 B1] C1] [[A2 B2] C2]. split; [split; congruence|by etransitivity].
Qed.

Lemma passes_other (d d' : Db) :
  tenants d' = tenants d -> services d' = services d -> resources d' = resources d -> passes d d'.
Proof.
  intros Ht Hs Hr. split; [done|]. unfold on_table. rewrite Hr. intros. split; [done|reflexivity].
Qed.

Lemma passes_update p f :
  (forall w r, same_keys r (f w r)) ->
  (forall w r, r_DeletedAt r = None -> p w r = true -> moved r (f w r)) ->
  advances passes (q_update resources p f).
Proof.
  intros Hk H. apply advances_update; [apply _|]. intros w rs t Hu. split; [done|]. intros Hwf. cbn. split.
  - eapply update_wf; [|exact Hu|done]. intros r _. apply Hk.
  - eapply update_advance; [apply _| |exact Hu]. intros r Hr [Hl Hp]%hit_live _. by apply H.
Qed.

Lemma core_passes cat : deps_move (on_db passes) (core_deps cat).
Proof.
  split; cbn.
  - intros z. change (advances passes (Agent.SweepOffline z)). advance.
    apply advances_update; [apply _|]. intros. by apply passes_other.
  - change (advances passes Agent.ListOffline). advance.
  - change (advances passes ListSystemTier). advance.
  - intros id. change (advances passes (RedispatchSystem id)). advance.
    apply advances_bind; [apply _| |intros [|? ?]; advance].
    apply passes_update; [done|]. intros w r _ _. split; try done. right. split; [cbn; lia|done].
  - intros id. change (advances passes (FlagHostUnreachable id)). advance.
    apply advances_bind; [apply _| |intros [|? ?]; advance].
    apply passes_update; [done|]. intros w r _ _. split; try done. by left.
  - change (advances passes Registry.ListSystem). unfold Registry.ListSystem.
    apply advances_bind; [apply _|advance|]. intros rows. apply Registry.list_system_advances. apply _.
  - intros e in_ E. simplify_eq. change (advances passes (EventLog.Emit in_)). advance.
    apply advances_insert; [apply _|]. intros. by apply passes_other.
Qed.

(** Both at once, for a step of the loop. *)
Definition pass_step (w w' : World) : Prop := still w w' /\ passes (w_db w) (w_db w').
#[global] Instance pass_step_preorder : PreOrder pass_step.
Proof.
  split; unfold pass_step.
  - intros w. split; reflexivity.
  - intros w1 w2 w3 [A1 B1] [A2 B2]. split; by etransitivity.
Qed.
Lemma core_steps cat : deps_move pass_step (core_deps cat).
Proof.
  pose proof (core_still cat) as A. pose proof (core_passes cat) as B.
  split; intros; intros w; (split; [by eapply A | by eapply B]).
Qed.

(** ** The parts of a pass *)

Lemma insert_key_perm {A} (kv : string * A) l : insert_key kv l ≡ₚ kv :: l.
Proof.
  induction l as [|kv' l IH]; cbn; [done|]. destruct (string_leb _ _); [done|].
  rewrite IH. apply Permutation_swap.
Qed.
Lemma order_by_text_perm {R} (key : R -> string) l : order_by_text key l ≡ₚ l.
Proof.
  unfold order_by_text, sort_keys.
  transitivity (map snd (map (fun r => (key r, r)) l)); [|rewrite map_map; by rewrite map_id].
  apply Permutation_map. induction (map _ l) as [|kv l' IH]; cbn; [done|]. by rewrite insert_key_perm, IH.
Qed.

(** A map that is filled from a list holds the last value of a key. *)
Lemma filled_lookup {K A} `{Countable K} (key : A -> K) (l : list A) k a :
  foldl (fun m a => <[key a := a]> m) (∅ : gmap K A) l !! k = Some a -> a ∈ l /\ key a = k.
Proof.
  enough (G : forall m : gmap K A, foldl (fun m a => <[key a := a]> m) m l !! k = Some a ->
    (a ∈ l /\ key a = k) \/ m !! k = Some a).
  { intros E. destruct (G ∅ E) as [?|E']; [done|]. by rewrite lookup_empty in E'. }
  induction l as [|b l IH]; intros m; cbn; [by right|]. intros E.
  destruct (IH _ E) as [[? ?]|E']; [left; split; [by right|done]|].
  destruct (decide (key b = k)) as [<-|Hne].
  - rewrite lookup_insert_eq in E'. left. simplify_eq. split; [by left|done].
  - rewrite lookup_insert_ne in E' by done. by right.
Qed.
Lemma filled_some {K A} `{Countable K} (key : A -> K) (l : list A) a :
  a ∈ l -> is_Some (foldl (fun m a => <[key a := a]> m) (∅ : gmap K A) l !! key a).
Proof.
  enough (G : forall m : gmap K A, a ∈ l \/ is_Some (m !! key a) ->
    is_Some (foldl (fun m a => <[key a := a]> m) m l !! key a)) by (intros; apply G; by left).
  induction l as [|b l IH]; intros m [Hin|Hs]; cbn; [by apply elem_of_nil in Hin|done|..]; apply IH.
  - apply elem_of_cons in Hin as [->|Hin]; [right; rewrite lookup_insert_eq; eauto|by left].
  - right. destruct (decide (key b = key a)) as [->|?];
      [rewrite lookup_insert_eq|rewrite lookup_insert_ne by done]; eauto.
Qed.
Lemma filled_unique {K A} `{Countable K} (key : A -> K) (l : list A) a :
  a ∈ l -> (forall b, b ∈ l -> key b = key a -> b = a) ->
  foldl (fun m a => <[key a := a]> m) (∅ : gmap K A) l !! key a = Some a.
Proof.
  intros Hin Hu. destruct (filled_some key l a Hin) as [b E]. rewrite E.
  apply filled_lookup in E as [Hb Ek]. by rewrite (Hu b Hb Ek).
Qed.

(** The registry answers when the tenant of every system service is there. *)
Lemma registry_answers w :
  w_faults w = [] ->
  (forall sv, sv ∈ tbl_rows (services (w_db w)) -> s_DeletedAt sv = None -> s_IsSystem sv = true ->
     exists t, t ∈ tbl_rows (tenants (w_db w)) /\ t_DeletedAt t = None /\ t_TenantID t = s_TenantID sv) ->
  exists regs, Registry.ListSystem w = (Ok regs, w)
    /\ forall sv, sv ∈ tbl_rows (services (w_db w)) -> s_DeletedAt sv = None -> s_IsSystem sv = true ->
         exists u, Registry.regFrom sv u ∈ regs.
Proof.
  intros Hf Ht. unfold Registry.ListSystem, or_return, map_err, ListSystemServices, q_select, mbind, M_bind.
  rewrite query_run by done. cbn [mret M_ret result_map_err].
  set (rows := order_by_text s_Kind (select s_IsSystem (services (w_db w)))).
  assert (Hrows : forall sv, sv ∈ rows <->
    sv ∈ tbl_rows (services (w_db w)) /\ s_DeletedAt sv = None /\ s_IsSystem sv = true).
  { intros sv. unfold rows. rewrite order_by_text_perm. unfold select. rewrite list_elem_of_filter.
    unfold live. cbn. destruct (s_DeletedAt sv); cbn; intuition congruence. }
  clearbody rows.
  enough (G : exists regs, Registry.list_system_loop rows w = (Ok regs, w)
    /\ forall sv, sv ∈ rows -> exists u, Registry.regFrom sv u ∈ regs).
  { destruct G as (regs & E & G). exists regs. split; [done|]. intros. apply G, Hrows. done. }
  assert (Hr : forall sv, sv ∈ rows -> exists t, GetTenantByID (s_TenantID sv) w = (Ok t, w)).
  { intros sv (H1 & H2 & H3)%Hrows. destruct (Ht sv H1 H2 H3) as (t & Hin & Hl & Hid).
    unfold GetTenantByID. rewrite q_get_run by done.
    destruct (select_one_some (fun t => t_TenantID t =? s_TenantID sv) (tenants (w_db w)) t) as [q ->];
      [done|done|lia|eauto]. }
  clear Hrows Ht. induction rows as [|sv rows IH]; [exists []; split; [done|by intros ? ?%elem_of_nil]|].
  destruct (Hr sv) as [t Et]; [by left|]. destruct IH as (regs & E & G); [intros; apply Hr; by right|].
  cbn [Registry.list_system_loop]. unfold Registry.resolveTenantUUID, or_return, mbind, M_bind, map_err.
  rewrite Et. cbn. rewrite E. eexists. split; [done|]. intros sv' [->|Hin]%elem_of_cons.
  - eexists. by left.
  - destruct (G sv' Hin) as [u Hu]. exists u. by right.
Qed.

(** The host of a resource is up: no live agent row with its key is offline or
    silent for longer than the sweep allows. *)
Definition host_up (opts : Options) (w : World) (r : ResourceRow) : Prop :=
  forall id row, r_AgentID r = Some id -> row ∈ tbl_rows (agents (w_db w)) -> a_DeletedAt row = None ->
    a_AgentID row = id ->
    a_Status row <> "offline"%string /\ agent_stale (w_dbnow w) (o_AgentOfflineAfter opts) row = false.

(** What the sweep leaves alone. *)
Definition swept (w w' : World) : Prop :=
  still w w' /\ tenants (w_db w') = tenants (w_db w) /\ services (w_db w') = services (w_db w)
  /\ resources (w_db w') = resources (w_db w).
#[global] Instance swept_preorder : PreOrder swept.
Proof.
  split; unfold swept; [intros w; split_and!; reflexivity|].
  intros w1 w2 w3 (A & B & C & D) (A' & B' & C' & D'). split_and!; [by etransitivity|congruence..].
Qed.

Lemma swept_by {E A} (m : M E A) : moves still m ->
  advances (fun d d' => tenants d' = tenants d /\ services d' = services d /\ resources d' = resources d) m ->
  moves swept m.
Proof. intros Hs Ha w. split; [apply Hs|apply Ha]. Qed.

Definition agents_kept (d d' : Db) : Prop := agents d' = agents d.
#[global] Instance agents_kept_preorder : PreOrder agents_kept.
Proof. split; unfold agents_kept; congruence. Qed.

Definition others_same (d d' : Db) : Prop :=
  tenants d' = tenants d /\ services d' = services d /\ resources d' = resources d.
#[global] Instance others_same_preorder : PreOrder others_same.
Proof. split; unfold others_same; [done|]. intros d1 d2 d3 (A & B & C) (A' & B' & C'). split_and!; congruence. Qed.

Section Sweep.
Context {T : GoText} (cat : Steward.Catalog) (opts : Options).
Abbreviation deps := (core_deps cat).

Lemma sweep_swept : s_moves swept (sweepAgents deps opts).
Proof.
  apply s_sweep; [apply _|intros z|..|intros e in_ E]; cbn in *; simplify_eq;
    (apply swept_by; [apply (core_still cat); done|]); fold others_same.
  - change (advances others_same (Agent.SweepOffline z)). advance. apply advances_update; [apply _|done].
  - change (advances others_same Agent.ListOffline). advance.
  - change (advances others_same (EventLog.Emit in_)). advance. apply advances_insert; [apply _|done].
Qed.

(** An agent the sweep leaves offline was offline or silent before. *)
Lemma sweep_marks w row :
  w_faults w = [] -> row ∈ tbl_rows (agents (w_db (snd (Agent.SweepOffline (o_AgentOfflineAfter opts) w)))) ->
  a_DeletedAt row = None -> a_Status row = "offline"%string ->
  exists row0, row0 ∈ tbl_rows (agents (w_db w)) /\ a_DeletedAt row0 = None /\ a_AgentID row0 = a_AgentID row
    /\ (a_Status row0 = "offline"%string
        \/ agent_stale (w_dbnow w) (o_AgentOfflineAfter opts) row0 = true).
Proof.
  intros Hf. unfold Agent.SweepOffline. destruct (_ <=? 0); [cbn; eauto 6|].
  unfold or_return, map_err, MarkStaleAgentsOffline, q_update, mbind, M_bind. rewrite query_run by done.
  destruct (update _ _ _) as [[rs t]|e] eqn:Hu; cbn; [|eauto 6].
  apply update_inv in Hu as (_ & -> & _). intros (row0 & -> & Hin)%list_elem_of_fmap.
  destruct (hit _ row0) eqn:Hh; [|eauto 6].
  apply hit_live in Hh as [Hl Hp]. cbn. intros _ _. exists row0. auto.
Qed.

(** So the host of a resource that was up is not among the offline ones. *)
Lemma sweep_host s off s' r : w_faults (sv_world s) = [] -> host_up opts (sv_world s) r ->
  sweepAgents deps opts s = (off, s') -> default 0 (r_AgentID r) <> 0 ->
  off !! default 0 (r_AgentID r) = None.
Proof.
  intros Hf Hup. unfold sweepAgents, call. cbn [deps core_deps d_SweepOffline d_ListOffline].
  pose proof (dm_sweep _ _ (core_still cat) (o_AgentOfflineAfter opts) (sv_world s) Hf) as (Hf1 & _ & _).
  pose proof (sweep_marks (sv_world s)) as Hm. cbn [core_deps d_SweepOffline] in Hf1. rewrite !bind_S.
  destruct (Agent.SweepOffline _ (sv_world s)) as [res w1]. cbn [snd] in Hf1, Hm. rewrite bind_S.
  set (l := match res with Ok l => l | Err _ => [] end). set (s1 := s <| sv_world := w1 |>).
  assert (Hw : s_moves (on_db agents_kept) (for_each (fun a => emit deps (offline_event opts a)) l)).
  { apply s_for_each; [apply _|]. intros a. apply s_emit; [apply _|]. intros e E. cbn in E. simplify_eq.
    match goal with |- moves _ ?m => change (advances agents_kept m) end.
    advance. apply advances_insert; [apply _|done]. }
  assert (Hs2 : s_moves still (for_each (fun a => emit deps (offline_event opts a)) l)).
  { apply s_for_each; [apply _|]. intros a. apply s_emit; [apply _|]. intros e. apply core_still. }
  specialize (Hw s1). specialize (Hs2 s1 Hf1). destruct (for_each _ l s1) as [? s2]. cbn [snd] in Hw, Hs2.
  destruct Hs2 as (Hf2 & _ & _). rewrite bind_S. unfold on_db, agents_kept in Hw. cbn [s1 sv_world] in Hw.
  unfold call, Agent.ListOffline, or_return, map_err, ListOfflineAgents, q_select, mbind, M_bind.
  rewrite query_run by done. cbn. intros [= <- <-] Hne.
  destruct (_ !! default 0 (r_AgentID r)) as [a|] eqn:E; [|done].
  apply (filled_lookup Agent.ag_ID) in E as [(row & -> & Hin)%list_elem_of_fmap Hid]. cbn in Hid.
  assert (Hrow : row ∈ select (fun a => str_eqb (a_Status a) "offline") (agents (w_db (sv_world s2)))).
  { revert Hin. unfold nulls_last. rewrite elem_of_app, order_by_perm, !list_elem_of_filter. tauto. }
  unfold select in Hrow. apply list_elem_of_filter in Hrow as [Hp Hrow]. unfold live in Hp. cbn in Hp.
  destruct (a_DeletedAt row) eqn:Hl; [done|]. split_bools. rewrite Hw in Hrow.
  destruct (Hm row) as (row0 & H1 & H2 & H3 & H4); [done..|].
  destruct (r_AgentID r) as [id|] eqn:Ea; [|done]. cbn in Hid.
  destruct (Hup id row0) as [H5 H6]; [done..|congruence|]. destruct H4 as [H4|H4]; congruence.
Qed.
End Sweep.

(** ** The write *)

(** The row at place [i], in a world that answers. *)
Record at_row (w : World) (i : nat) (r : ResourceRow) : Prop := {
  at_faults : w_faults w = []; at_wf : table_wf (resources (w_db w));
  at_lookup : tbl_rows (resources (w_db w)) !! i = Some r }.

Lemma step_at w w' i r : pass_step w w' -> at_row w i r -> exists r', at_row w' i r' /\ moved r r'.
Proof.
  intros [Hs [_ Ht]] [Hf Hwf Hi]. destruct (Ht Hwf) as [Hwf' Hadv].
  destruct (rows_advance_lookup moved _ _ i r Hadv Hi) as (r' & Hi' & Hm).
  exists r'. split; [|done]. split; [by apply Hs|done|done].
Qed.

(** Re-dispatched since it was [r]. *)
Definition restarted (r r' : ResourceRow) : Prop := moved r r' /\ r_Generation r < r_Generation r'.

Lemma restarted_moved r r1 r2 : restarted r r1 -> moved r1 r2 -> restarted r r2.
Proof.
  intros [H1 G] H2. split; [by etransitivity|].
  destruct (mv_either _ _ H2) as [(-> & _)|[? _]]; lia.
Qed.

Lemma redispatch_writes w i r :
  at_row w i r -> r_DeletedAt r = None -> r_State r <> "deleting"%string ->
  r_Generation r < max_int64 ->
  exists w', snd (RedispatchSystem (r_ResourceUuid r) w) = w'
    /\ tbl_rows (resources (w_db w')) !! i = Some (RedispatchSystemResource_row (w_dbnow w) r).
Proof.
  intros [Hf Hwf Hi] Hl Hs Hg. set (p := fun q => r_ResourceUuid q =? r_ResourceUuid r).
  assert (Hin : r ∈ tbl_rows (resources (w_db w))) by (by eapply list_elem_of_lookup_2).
  assert (E1 : select_one p (resources (w_db w)) = Ok r).
  { apply select_one_unique; [done..|apply Z.eqb_refl|intros q Hq; by apply Z.eqb_eq in Hq]. }
  set (p2 := fun q => (r_ResourceUuid q =? r_ResourceUuid r) && negb (str_eqb (r_State q) "deleting")).
  assert (Hp2 : p2 r = true).
  { unfold p2. rewrite Z.eqb_refl. unfold str_eqb. by rewrite (proj2 (String.eqb_neq _ _) Hs). }
  set (f := RedispatchSystemResource_row (w_dbnow w)).
  assert (E2 : update p2 f (resources (w_db w)) = Ok ([f r], update_hit (resources (w_db w)) p2 f)).
  { apply update_unique; [done..|intros q; unfold p2; intros Hq; split_bools; cbn; lia|].
    pose proof (wf_columns _ Hwf r Hin) as Hok. cbn in Hok |- *. unfold bigint in *. split_bools.
    repeat (apply andb_true_iff; split); try done; apply Z.leb_le; rewrite ?Z.leb_le in *; lia. }
  unfold RedispatchSystem, or_not_found, map_err, mbind, M_bind, GetResourceByUUID.
  rewrite q_get_run by done. fold p. rewrite E1. cbn [result_map_err].
  unfold str_eqb at 1. rewrite (proj2 (String.eqb_neq _ _) Hs).
  unfold RedispatchSystemResource. rewrite (q_update_one_run w Hf resources (fun _ => p2)
    (fun w => RedispatchSystemResource_row (w_dbnow w)) _ _ E2).
  cbn. eexists. split; [done|]. cbn. rewrite list_lookup_fmap, Hi. cbn. f_equal.
  unfold hit, live. cbn. by rewrite Hl, Hp2.
Qed.

(** The keep-alive step of one registration, on an instance that has a reason. *)
Lemma keep_one_restarts {T : GoText} cat opts byName off reg s i r r1 :
  supervised (core_deps cat) reg = true ->
  byName !! (systemInstancePrefix +:+ service_name reg)%string = Some (toSystemInstance r) ->
  (default 0 (r_AgentID r) <> 0 -> off !! default 0 (r_AgentID r) = None) ->
  r_DeletedAt r = None -> r_State r <> "deleting"%string -> r_Generation r < max_int64 ->
  is_empty (redispatchReason opts (w_gonow (sv_world s)) (toSystemInstance r)) = false ->
  at_row (sv_world s) i r1 -> moved r r1 ->
  exists r2, at_row (sv_world (snd (keep_one (core_deps cat) opts byName off reg s))) i r2 /\ restarted r r2.
Proof.
  intros Hsup Hby Hoff Hl Hs Hg Hreason Hat Hmv.
  pose proof (s_keep_one pass_step (core_deps cat) opts (core_steps cat) byName off reg s) as Hstep.
  destruct (step_at _ _ _ _ Hstep Hat) as (r2 & Hat2 & Hmv2). exists r2. split; [done|].
  destruct (mv_either _ _ Hmv) as [(Eg & Es & El & En & Ea)|[Hgt _]]; [|by eapply restarted_moved].
  split; [by etransitivity|]. destruct Hat2 as [_ _ Hi2]. revert Hi2. clear Hstep Hmv2.
  unfold keep_one. rewrite Hsup, Hby. cbn [negb]. cbv zeta.
  rewrite bind_S.
  assert (Hw : sv_world (snd (clearMissing (service_key (service_name reg)) s)) = sv_world s).
  { unfold clearMissing. rewrite bind_S. unfold get_episodes. by destruct (sv_episodes s !! _). }
  destruct (clearMissing _ s) as [? s1]. cbn [snd] in Hw.
  unfold Terminating. cbn [si_State toSystemInstance]. unfold str_eqb at 1.
  rewrite (proj2 (String.eqb_neq _ _) Hs).
  change (si_AgentID (toSystemInstance r)) with (default 0 (r_AgentID r)).
  assert (Ho : negb (default 0 (r_AgentID r) =? 0)
    && match off !! default 0 (r_AgentID r) with Some _ => true | None => false end = false).
  { destruct (Z.eqb_spec (default 0 (r_AgentID r)) 0); [done|]. by rewrite Hoff. }
  rewrite Ho, bind_S. unfold now. rewrite Hw, Hreason.
  unfold redispatch. rewrite bind_S. unfold call at 1. cbn [core_deps d_RedispatchSystem].
  change (si_UUID (toSystemInstance r)) with (r_ResourceUuid r).
  destruct (redispatch_writes (sv_world s) i r1) as (w' & Ew & Hi'); [done|by rewrite (mv_deleted _ _ Hmv)|
    by rewrite Es|by rewrite Eg|].
  destruct (mv_keys _ _ Hmv) as [_ Eu]. cbn in Eu. rewrite Eu in Ew. rewrite Hw.
  destruct (RedispatchSystem (r_ResourceUuid r) (sv_world s)) as [res w1] eqn:ER. cbn in Ew. subst w1.
  assert (Hat' : at_row w' i (RedispatchSystemResource_row (w_dbnow (sv_world s)) r1)).
  { pose proof (dm_redispatch _ _ (core_steps cat) (r_ResourceUuid r) (sv_world s)) as Hm. cbn in Hm.
    rewrite ER in Hm. cbn in Hm. destruct (step_at _ _ _ _ Hm Hat) as (r' & [Hf Hwf _] & _). by split. }
  assert (Hend : forall (m : S ()) s2, sv_world s2 = w' -> s_moves pass_step m ->
    tbl_rows (resources (w_db (sv_world (snd (m s2))))) !! i = Some r2 -> r_Generation r < r_Generation r2).
  { intros m s2 <- Hm Hi2. destruct (step_at _ _ _ _ (Hm s2) Hat') as (r' & [_ _ Hi3] & Hmv').
    rewrite Hi2 in Hi3. simplify_eq. destruct (mv_either _ _ Hmv') as [(G & _)|[G _]]; cbn in G; lia. }
  apply Hend; [done|]. destruct res as [x|e]; [|apply s_ret; apply _]. apply s_bind; [apply _|apply s_get; apply _|].
  intros eps. destruct (count_redispatch _ _) as [ep escalate].
  apply s_bind; [apply _|apply s_put; apply _|]. intros _. destruct escalate; [|apply s_ret; apply _].
  apply s_emit; [apply _|]. intros e. apply (core_steps cat).
Qed.

(** ** The pass *)

(** A resource is down: its agent says so, nobody knows since its host vanished,
    it was given up, what was observed is not a running service, or its desired
    revision stays unobserved for too long. *)
Definition down (opts : Options) (gonow : Z) (r : ResourceRow) : bool :=
  str_eqb (r_Health r) HealthUnhealthy || str_eqb (r_Health r) HealthUnknown
  || str_eqb (r_State r) "failed"
  || (if r_Generation r <=? r_ObservedGeneration r then negb (str_eqb (r_State r) runningState)
      else o_StaleAfter opts <? gonow - r_UpdatedAt r).

Lemma down_reason {T : GoText} opts gonow r : down opts gonow r = true ->
  is_empty (redispatchReason opts gonow (toSystemInstance r)) = false.
Proof.
  unfold down, redispatchReason, Converged. cbn [toSystemInstance si_Health si_State si_Generation
    si_ObservedGeneration si_UpdatedAt].
  destruct (str_eqb (r_Health r) HealthUnhealthy); [done|].
  destruct (str_eqb (r_Health r) HealthUnknown); [done|].
  destruct (str_eqb (r_State r) "failed"); [done|]. cbn [orb].
  destruct (r_Generation r <=? r_ObservedGeneration r).
  - intros ->%negb_true_iff. done.
  - intros ->. by rewrite andb_false_r.
Qed.

(** [r] is the instance of the system service [sv], and both can be seen: they
    are live, the name of the instance is the service's and no other system
    instance has it, and the registry resolves the tenant of each system
    service. *)
Record instance_of {T : GoText} (cat : Steward.Catalog) (w : World) (sv : ServiceRow) (r : ResourceRow)
    : Prop := {
  io_service : sv ∈ tbl_rows (services (w_db w)); io_service_live : s_DeletedAt sv = None;
  io_system : s_IsSystem sv = true;
  io_supervised : supervised (core_deps cat) (Registry.regFrom sv 0) = true;
  io_resource : r ∈ tbl_rows (resources (w_db w)); io_live : r_DeletedAt r = None;
  io_tier : system_tier r = true;
  io_name : r_Name r = (systemInstancePrefix +:+ ToLower (TrimSpace (s_Name sv)))%string;
  io_unique : forall q, q ∈ tbl_rows (resources (w_db w)) -> r_DeletedAt q = None -> system_tier q = true ->
    r_Name q = r_Name r -> q = r;
  io_tenants : forall q, q ∈ tbl_rows (services (w_db w)) -> s_DeletedAt q = None -> s_IsSystem q = true ->
    exists t, t ∈ tbl_rows (tenants (w_db w)) /\ t_DeletedAt t = None /\ t_TenantID t = s_TenantID q }.

(** The instances the pass reads, with [r] under its name. *)
Lemma tier_listed {T : GoText} cat w sv r : w_faults w = [] -> instance_of cat w sv r ->
  exists instances, ListSystemTier w = (Ok instances, w)
    /\ by_name instances !! r_Name r = Some (toSystemInstance r).
Proof.
  intros Hf []. unfold ListSystemTier, or_return, map_err, ListSystemTierResources, q_select, mbind, M_bind.
  rewrite query_run by done. cbn. eexists. split; [done|].
  change (r_Name r) with (si_Name (toSystemInstance r)). apply (filled_unique si_Name).
  - apply (list_elem_of_fmap_2 toSystemInstance). rewrite order_by_text_perm. unfold select. apply list_elem_of_filter.
    split; [|done]. unfold live. cbn. by rewrite io_live0, io_tier0.
  - intros b (q & -> & Hq)%list_elem_of_fmap Hn. f_equal. rewrite order_by_text_perm in Hq. unfold select in Hq.
    apply list_elem_of_filter in Hq as [Hp Hq]. unfold live in Hp. cbn in Hp.
    destruct (r_DeletedAt q) eqn:E; [done|]. by apply io_unique0.
Qed.

Section Pass.
Context {T : GoText} (cat : Steward.Catalog) (opts : Options) (r : ResourceRow).
Context (byName : gmap string SystemInstance) (off : gmap Z Agent.Agent) (gonow : Z) (i : nat).
Abbreviation deps := (core_deps cat).
Hypothesis (Hoff : default 0 (r_AgentID r) <> 0 -> off !! default 0 (r_AgentID r) = None).
Hypothesis (Hl : r_DeletedAt r = None) (Hs : r_State r <> "deleting"%string) (Hg : r_Generation r < max_int64).
Hypothesis (Hreason : is_empty (redispatchReason opts gonow (toSystemInstance r)) = false).

Lemma keep_all_restart regs reg s r1 :
  reg ∈ regs -> supervised deps reg = true ->
  byName !! (systemInstancePrefix +:+ service_name reg)%string = Some (toSystemInstance r) ->
  w_gonow (sv_world s) = gonow -> at_row (sv_world s) i r1 -> moved r r1 ->
  exists r2, at_row (sv_world (snd (for_each (keep_one deps opts byName off) regs s))) i r2 /\ restarted r r2.
Proof.
  intros Hin Hsup Hby. revert s r1. induction regs as [|reg' regs IH]; intros s r1 Hnow Hat Hmv;
    [by apply elem_of_nil in Hin|].
  pose proof (s_keep_one pass_step deps opts (core_steps cat) byName off reg' s) as Hstep.
  destruct (step_at _ _ _ _ Hstep Hat) as (r1' & Hat1 & Hmv1).
  apply elem_of_cons in Hin as [<-|Hin]; cbn [for_each]; rewrite bind_S.
  - destruct (keep_one_restarts cat opts byName off reg s i r r1) as (r2 & Hat2 & Hr2); try done; [by rewrite Hnow|].
    destruct (keep_one deps opts byName off reg s) as [? s']. cbn [snd] in Hat2.
    assert (Hrest : s_moves pass_step (for_each (keep_one deps opts byName off) regs)).
    { apply s_for_each; [apply _|]. intros a. apply s_keep_one; [apply _|apply core_steps]. }
    destruct (step_at _ _ _ _ (Hrest s') Hat2) as (r3 & Hat3 & Hmv3).
    exists r3. split; [done|]. by eapply restarted_moved.
  - destruct Hstep as [Hstill _]. specialize (Hstill (at_faults _ _ _ Hat)) as (_ & Hn & _).
    destruct (keep_one deps opts byName off reg' s) as [? s']. cbn [snd] in *.
    apply (IH Hin s' r1'); [congruence|done|by etransitivity].
Qed.
End Pass.

Lemma instance_swept {T : GoText} cat w w' sv r : instance_of cat w sv r ->
  tenants (w_db w') = tenants (w_db w) -> services (w_db w') = services (w_db w) ->
  resources (w_db w') = resources (w_db w) -> instance_of cat w' sv r.
Proof. intros [] Ht Hs Hr. split; rewrite ?Ht, ?Hs, ?Hr; done. Qed.

(** The keep-alive part of the pass: the registry answers, and one of its
    registrations is the service's. *)
Lemma keep_alive_restarts {T : GoText} cat opts instances off s sv r r1 i :
  let w := sv_world s in
  by_name instances !! r_Name r = Some (toSystemInstance r) ->
  (default 0 (r_AgentID r) <> 0 -> off !! default 0 (r_AgentID r) = None) ->
  r_DeletedAt r = None -> r_State r <> "deleting"%string -> r_Generation r < max_int64 ->
  down opts (w_gonow w) r = true -> at_row w i r1 -> moved r r1 ->
  sv ∈ tbl_rows (services (w_db w)) -> s_DeletedAt sv = None -> s_IsSystem sv = true ->
  supervised (core_deps cat) (Registry.regFrom sv 0) = true ->
  r_Name r = (systemInstancePrefix +:+ ToLower (TrimSpace (s_Name sv)))%string ->
  (forall q, q ∈ tbl_rows (services (w_db w)) -> s_DeletedAt q = None -> s_IsSystem q = true ->
    exists t, t ∈ tbl_rows (tenants (w_db w)) /\ t_DeletedAt t = None /\ t_TenantID t = s_TenantID q) ->
  exists r2, at_row (sv_world (snd (keepAlive (core_deps cat) opts instances off s))) i r2 /\ restarted r r2.
Proof.
  intros w Hby Hoff Hl Hs Hg Hdown Hat Hmv Hsv Hsl Hsys Hsup Hname Hten.
  destruct (registry_answers w (at_faults _ _ _ Hat) Hten) as (regs & E & Hregs).
  destruct (Hregs sv Hsv Hsl Hsys) as [u Hin]. unfold keepAlive. rewrite bind_S. unfold call.
  cbn [core_deps d_ListSystem]. fold w. rewrite E. cbn beta iota zeta. rewrite bind_S.
  set (s1 := s <| sv_world := w |>).
  destruct (keep_all_restart cat opts r (by_name instances) off (w_gonow w) i Hoff Hl Hs Hg
    (down_reason opts _ r Hdown) regs (Registry.regFrom sv u) s1 r1) as (r2 & Hat2 & Hr2); try done.
  { by rewrite Hname in Hby. }
  destruct (for_each _ regs s1) as [? s2]. cbn [snd] in Hat2. exists r2. split; [|done].
  unfold prune. by rewrite bind_S.
Qed.

(** One pass re-dispatches the instance of a system service that is down, unless
    it is being torn down or its host is known to be away. *)
Lemma pass_restarts {T : GoText} cat opts s sv r :
  let w := sv_world s in
  w_faults w = [] -> table_wf (resources (w_db w)) -> instance_of cat w sv r ->
  r_State r <> "deleting"%string -> host_up opts w r -> down opts (w_gonow w) r = true ->
  r_Generation r < max_int64 ->
  exists i r', at_row (sv_world (snd (Tick (core_deps cat) opts false s))) i r' /\ restarted r r'.
Proof.
  intros w Hf Hwf Hin Hs Hup Hdown Hg. pose proof (io_live _ _ _ _ Hin) as Hl.
  destruct (list_elem_of_lookup_1 _ _ (io_resource _ _ _ _ Hin)) as [i Hi]. exists i. unfold Tick. rewrite bind_S.
  pose proof (sweep_swept cat opts s) as (Hst & Ht & Hsv & Hr).
  pose proof (fun off s' => sweep_host cat opts s off s' r Hf Hup) as Hoff.
  destruct (sweepAgents (core_deps cat) opts s) as [off s1]. cbn [snd] in *. specialize (Hoff off s1 eq_refl).
  destruct (Hst Hf) as (Hf1 & Hn1 & _). fold w in Ht, Hsv, Hr, Hn1.
  pose proof (instance_swept cat w (sv_world s1) sv r Hin Ht Hsv Hr) as Hin1.
  destruct (tier_listed cat (sv_world s1) sv r Hf1 Hin1) as (instances & E & Hby).
  rewrite bind_S. unfold call. cbn [core_deps d_ListSystemTier]. rewrite E. cbn beta iota zeta.
  set (s2 := s1 <| sv_world := sv_world s1 |>).
  assert (Hat : at_row (sv_world s2) i r) by (split; cbn; by rewrite ?Hr).
  rewrite bind_S. pose proof (s_flag pass_step (core_deps cat) opts (core_steps cat) instances off s2) as Hfl.
  destruct (step_at _ _ _ _ Hfl Hat) as (r2 & Hat2 & Hmv2). destruct Hfl as [Hst2 [[Ht2 Hsv2] _]].
  destruct (flagStranded _ _ _ _ s2) as [? s3]. cbn [snd] in *.
  destruct (Hst2 Hf1) as (_ & Hn2 & _). change (sv_world s2) with (sv_world s1) in Ht2, Hsv2, Hn2.
  destruct Hin1. apply (keep_alive_restarts cat opts instances off s3 sv r r2 i); try done.
  - by rewrite Hn2, Hn1.
  - by rewrite Hsv2.
  - rewrite Hsv2, Ht2. done.
Qed.

(** A row that was re-dispatched waits in the feed at any time. *)
Lemma restarted_waits r r' : r_ObservedGeneration r <= r_Generation r -> restarted r r' ->
  ready r' /\ forall now, in_feed now r' = true.
Proof.
  intros Hobs [[_ _ _ O E] G]. destruct E as [(E & _)|[_ R]]; [lia|]. split; [done|]. destruct R as [Rs Rl Rn Ra].
  intros now. unfold in_feed, lags, lease_free, backoff_over. rewrite Rs, Rl, Rn, O. cbn.
  by rewrite (proj2 (Z.ltb_lt _ _)) by lia.
Qed.

(** When the database answers, one pass of the supervisor re-dispatches the
    instance of every registered system service it watches that is down (reported
    unhealthy, lost with its host, given up after its last attempt, converged on
    something that does not run, or unobserved for too long), unless the instance
    is being torn down or its host is known to be away: afterwards the resource is
    in the work feed at any time, under a new revision, for the agent it had, with
    nobody's lease and a full retry budget, whatever else the pass does before and
    after. *)
Theorem dead_service_redispatched {T : GoText} cat opts s sv r :
  let w := sv_world s in
  w_faults w = [] -> table_wf (resources (w_db w)) -> instance_of cat w sv r ->
  r_State r <> "deleting"%string -> host_up opts w r -> down opts (w_gonow w) r = true ->
  r_ObservedGeneration r <= r_Generation r < max_int64 ->
  exists r', r' ∈ tbl_rows (resources (w_db (sv_world (snd (Tick (core_deps cat) opts false s)))))
    /\ r_ResourceUuid r' = r_ResourceUuid r /\ r_Generation r < r_Generation r' /\ r_Attempts r' = 0
    /\ r_AgentID r' = r_AgentID r /\ r_DeletedAt r' = None
    /\ (forall now, in_feed now r' = true).
Proof.
  intros w Hf Hwf Hin Hs Hup Hdown [Hobs Hg].
  destruct (pass_restarts cat opts s sv r) as (i & r' & [_ _ Hi] & Hr); [done..|].
  destruct (restarted_waits r r' Hobs Hr) as [[_ _ _ Ra] Hfeed].
  exists r'. split; [by eapply list_elem_of_lookup_2|]. pose proof (io_live _ _ _ _ Hin) as Hl.
  destruct Hr as [[[_ K] D A _ _] G]. split_and!; try done; congruence.
Qed.

(** ** A concrete pass *)

Definition auth_service : ServiceRow :=
  Build_ServiceRow 1 601 1 "Auth" "auth" "registered" "" "" (VObj []) None None None 0 0 None true.
Definition auth_failed : ResourceRow :=
  container 4 404 "system-auth" "failed" "" 3 3 (Some 1) 30 system_meta.
Definition failed_world : World :=
  mkWorld (mkDb (mkTable [acme] 2) (mkTable [web] 2) (mkTable [] 1) (mkTable [auth_service] 2)
    (mkTable [host_a; host_b] 3) (mkTable [front; back; gone; auth_failed] 5) (mkTable [] 1)
    (mkTable [] 1) None) 1000 1000 [501; 502; 503; 504] [].

Lemma failed_instance : @instance_of plain_text (Steward.Build_Catalog []) failed_world auth_service auth_failed.
Proof.
  split; try (vm_compute; reflexivity).
  - by left.
  - cbn. set_solver.
  - intros q Hq. cbn in Hq. intros _ Ht Hn. set_unfold in Hq.
    destruct Hq as [->|[->|[->|[->|[]]]]]; done.
  - intros q [->|[]%elem_of_nil]%elem_of_cons _ _. exists acme. split; [by left|done].
Qed.

Lemma failed_host : host_up (withDefaults (Build_Options 0 0 0 0 "")) failed_world auth_failed.
Proof.
  intros id row [= <-] Hrow _ Hid. cbn in Hrow. set_unfold in Hrow.
  destruct Hrow as [->|[->|[]]]; [|done]. split; [done|]. vm_compute. done.
Qed.

Lemma dead_service_redispatched_witness :
  let opts := withDefaults (Build_Options 0 0 0 0 "") in
  exists r', r' ∈ tbl_rows (resources (w_db (sv_world
      (snd (@Tick plain_text (core_deps (Steward.Build_Catalog [])) opts false (mkSup ∅ failed_world))))))
    /\ r_ResourceUuid r' = 404 /\ 3 < r_Generation r' /\ (forall now, in_feed now r' = true).
Proof.
  intros opts.
  destruct (@dead_service_redispatched plain_text (Steward.Build_Catalog []) opts (mkSup ∅ failed_world)
    auth_service auth_failed) as (r' & H1 & H2 & H3 & _ & _ & _ & H4).
  - reflexivity.
  - apply table_wfb_sound. vm_compute. reflexivity.
  - exact failed_instance.
  - discriminate.
  - exact failed_host.
  - vm_compute. reflexivity.
  - vm_compute. split; [discriminate|reflexivity].
  - exists r'. auto.
Defined.

(** *** One orphan stops the keep-alive of every service *)

(** Another tenant, which is not the platform's own and may be deleted, and a
    service it registered as a system service. *)
Definition beta : TenantRow :=
  Build_TenantRow 2 102 None "beta" "Beta" "active" false (VObj []) None None 0 0 None.
Definition beta_service : ServiceRow :=
  Build_ServiceRow 2 602 2 "billing" "billing" "registered" "" "" (VObj []) None None None 0 0 None true.
Definition shared_world : World :=
  mkWorld (mkDb (mkTable [acme; beta] 3) (mkTable [web] 2) (mkTable [] 1) (mkTable [auth_service; beta_service] 3)
    (mkTable [host_a; host_b] 3) (mkTable [front; back; gone; auth_failed] 5) (mkTable [] 1)
    (mkTable [] 1) None) 1000 1000 [501; 502; 503; 504] [].

Definition state_after_pass (w : World) : list string :=
  map r_State (filter (fun r => r_ResourceUuid r = 404) (tbl_rows (resources (w_db (sv_world (snd
    (@Tick plain_text (core_deps (Steward.Build_Catalog [])) (withDefaults (Build_Options 0 0 0 0 "")) false
       (mkSup ∅ w)))))))).

(** The hypothesis on the tenants is needed, and nothing in the program upholds
    it: a tenant can be deleted while a system service of its is live.  The
    registry then lists no system service at all, and the pass that would have
    put the failed instance of another service back to 'pending' leaves it
    'failed'. *)
Theorem orphan_stops_keep_alive :
  state_after_pass shared_world = ["pending"%string]
  /\ fst (Tenant.Delete 102 shared_world) = Ok ()
  /\ state_after_pass (snd (Tenant.Delete 102 shared_world)) = ["failed"%string].
Proof. vm_compute. done. Qed.

(** ** The loop around the passes *)

Section Loop.
Context {T : GoText} (d : Deps) (opts : Options).

(** What the passes and the rest of the program do, the whole run does, however
    long it is. *)
Theorem run_moves RW `{!PreOrder RW} cancelled wakes :
  deps_move RW d ->
  Forall (fun k => match k with CtxDone => True | TickerFired between _ => forall w, RW w (between w) end) wakes ->
  s_moves RW (Run d opts cancelled wakes).
Proof.
  intros HD Hw. revert cancelled. induction Hw as [|k wakes Hk _ IH]; intros c; cbn [Run];
    (apply s_bind; [apply _|by apply s_tick|intros _]); [by apply s_ret|].
  destruct k as [|between c']; [by apply s_ret|]. apply s_bind; [apply _|intros s; apply Hk|]. intros _. apply IH.
Qed.

(** Once the context is done the loop is over: no wake-up after it is heeded, and
    passes that start with the context done do nothing. *)
Theorem run_stops cancelled wakes rest s :
  Run d opts cancelled (wakes ++ CtxDone :: rest) s = Run d opts cancelled (wakes ++ [CtxDone]) s
  /\ (Run d opts true (CtxDone :: rest) s = ((), s)).
Proof.
  split; [|done]. revert cancelled s. induction wakes as [|k wakes IH]; intros c s; [done|].
  cbn [app Run]. rewrite !bind_S. destruct (Tick d opts c s) as [[] s1].
  destruct k as [|between c']; [done|]. rewrite !bind_S. destruct (meanwhile between s1) as [[] s2]. apply IH.
Qed.
End Loop.

(** However long Core runs, and whatever the rest of the program does meanwhile
    that spares the resources, the supervisor's loop as a whole spares them. *)
Corollary run_spares {T : GoText} cat opts cancelled wakes s :
  Forall (fun k => match k with CtxDone => True
                   | TickerFired between _ => forall w, resources_spared (w_db w) (w_db (between w)) end) wakes ->
  table_wf (resources (w_db (sv_world s))) ->
  Forall2 spared (tbl_rows (resources (w_db (sv_world s))))
    (tbl_rows (resources (w_db (sv_world (snd (Run (core_deps cat) opts cancelled wakes s)))))).
Proof.
  intros Hw Hwf. apply (run_moves (core_deps cat) opts (on_db resources_spared) cancelled wakes); [|done..].
  apply core_spares.
Qed.
