(* ===== verification/Healing.v ===== *)
(** * A dead system service runs again

    The loop the platform promises, closed over its three components: the
    supervisor ([Recovery]) puts a dead service back into the work feed, its agent
    claims it ([Fairness]) and reports it running ([Reports]), and to the next
    pass of the supervisor nothing is wrong with it any more. *)

From S2P Require Import Prelude Json Storage World AppError Queries Evolution Mrn Resource Sample WorkFeed.
From S2P Require Import Fairness Reports Supervisor Availability Recovery.
From S2P Require Agent Registry EventLog Steward Tenant.

(** A report that says the revision [g] runs and carries the health [h], which is
    neither of the two that call for a re-dispatch. *)
Record well_report {T : GoText} {K : WorkloadKit} (g : Z) (h : string) (in_ : AgentReportInput) : Prop := {
  wl_state : ar_State in_ = "running"%string; wl_revision : ar_ObservedGeneration in_ = g;
  wl_health : forall current, resolveHealth current "running" (ar_Status in_) = h;
  wl_fits : varchar 20 h = true; wl_ok : h <> HealthUnhealthy; wl_known : h <> HealthUnknown }.

(** A page of the feed that holds every live resource. *)
Lemma rank_live r t : (rank r t <= length (select (fun _ => true) t))%nat.
Proof.
  unfold rank, select. induction (tbl_rows t) as [|q l IH]; [done|]. rewrite !filter_cons.
  case_decide as H1; case_decide as H2; cbn [length]; try lia.
  destruct H2. unfold ahead in H1. split_bools. by rewrite andb_true_r.
Qed.

Lemma live_rank r t : table_wf t -> r ∈ tbl_rows t -> live r = true ->
  (rank r t < length (select (fun _ => true) t))%nat.
Proof.
  intros _ Hr Hl. apply list_elem_of_split in Hr as (l1 & l2 & E). unfold rank, select. rewrite E.
  rewrite !filter_app, !length_app, !filter_cons.
  rewrite (decide_False (P := ahead r r = true)) by (unfold ahead; rewrite Z.eqb_refl, andb_false_r; done).
  rewrite decide_True by (by rewrite Hl). cbn [length].
  pose proof (rank_live r (mkTable l1 0)) as A. pose proof (rank_live r (mkTable l2 0)) as B.
  unfold rank, select in A, B. cbn in A, B. lia.
Qed.

Lemma report_settles {T : GoText} {K : WorkloadKit} opts w r agent in_ budget status h :
  w_faults w = [] -> table_wf (resources (w_db w)) ->
  r ∈ tbl_rows (resources (w_db w)) -> r_DeletedAt r = None -> r_AgentID r = Some agent ->
  select_one (fun p => p_ProjectID p =? r_ProjectID r) (projects (w_db w)) <> Err ErrNoRows ->
  reported_status in_ r = Ok status -> well_report (r_Generation r) h in_ ->
  r_ObservedGeneration r <= r_Generation r ->
  exists res w' r', ApplyReport agent (r_ResourceUuid r) in_ budget w = (Ok res, w')
    /\ r' ∈ tbl_rows (resources (w_db w')) /\ r_ResourceUuid r' = r_ResourceUuid r
    /\ r_State r' = "running"%string /\ r_ObservedGeneration r' = r_Generation r'
    /\ forall gonow, redispatchReason opts gonow (toSystemInstance r') = ""%string.
Proof.
  intros Hf Hwf Hr Hl Ha Hp Hs [Rs Rg Rh Rf Ro Rk] Hobs.
  destruct (report_effect w r agent in_ budget status) as (res & w' & Hrep & _ & _ & Hr' & _); try done.
  { pose proof (wf_columns _ Hwf r Hr) as H. unfold reported, reportParams. rewrite Rs, Rg.
    cbn -[varchar text bigint] in H |- *. rewrite Rh. split_bools.
    rewrite Z.max_r by done.
    repeat match goal with E : ?x = true |- context [?x] => rewrite E end. done. }
  eexists res, w', _. split; [exact Hrep|]. split; [exact Hr'|].
  unfold reported, reportParams. rewrite Rs, Rg. cbn. rewrite Rh, Z.max_r by done.
  split_and!; [done..|]. intros gonow. unfold redispatchReason, Converged. cbn -[Z.leb].
  unfold str_eqb. rewrite (proj2 (String.eqb_neq _ _) Ro), (proj2 (String.eqb_neq _ _) Rk), Z.max_r, Z.leb_refl by done. done.
Qed.


(** ** A concrete recovery *)

#[local] Existing Instance plain_text.
#[local] Existing Instance open_kit.

Definition no_catalog : Steward.Catalog := Steward.Build_Catalog [].
Definition supervision : Options := withDefaults (Build_Options 0 0 0 0 "").
Definition later (w : World) : World := w <| w_dbnow := 1001 |>.
Definition supervised_world : World :=
  later (sv_world (snd (Tick (core_deps no_catalog) supervision false (mkSup ∅ failed_world)))).
Lemma later_db w : w_db (later w) = w_db w.
Proof. done. Qed.
Definition healthy_report : AgentReportInput :=
  Build_AgentReportInput "running" (Some [("health", VStr "healthy")])%string 4.


(** *** A report without a health does not clear an unknown one *)

(** The host of a running service vanishes and comes back: Core has marked the
    health as unknown.  A report that says the service runs, but carries no health,
    keeps the mark, so that the supervisor has a reason to re-dispatch it after
    every such report, for ever. *)
Theorem unknown_health_sticks {T : GoText} {K : WorkloadKit} opts gonow now budget status g r :
  r_Health r = HealthUnknown ->
  redispatchReason opts gonow (toSystemInstance
    (reported gonow now budget status (Build_AgentReportInput "running" None g) r))
  = "health is unknown since the reporting host went offline"%string.
Proof. intros Hh. unfold reported, reportParams, redispatchReason. cbn. by rewrite Hh. Qed.
