(* ===== verification/Gateway.v ===== *)
(** * The agent gateway

    [internal/grpcserver]: the gRPC surface the agents call, its interceptors
    and the posture the listener comes up with.

    A call carries its context: the authorization metadata, what the transport
    knows of the peer, and the verified claims an interceptor adds.  The token
    verifier ([VerifyFunc], the sdk in production) is a parameter, and so is the
    reading of a JSON text ([json_Unmarshal]); the documents the gateway writes
    are [value]s. *)

From S2P Require Import Prelude Json Storage World AppError Queries Evolution Mrn Resource.
From S2P Require Agent.

Record Claims := { cl_Subject : string; cl_Scopes : list string; cl_Permissions : list string }.

(** What the transport knows of the peer: nothing, a peer without TLS, or the
    numbers of certificates presented and of verified chains. *)
Inductive peer_info := NoPeer | PlainPeer | TLSPeer (certs chains : nat).

Record RpcContext := {
  rc_authorization : option (list string);
  rc_peer : peer_info;
  rc_claims : option Claims }.
#[global] Instance RpcContext_eta : EtaRecord RpcContext := fun c =>
  Build_RpcContext (rc_authorization c) (rc_peer c) (rc_claims c).

(** [None] stands for a nil [*Claims]. *)
Definition VerifyFunc : Type := string -> result string (option Claims).

(** ** Interceptors *)

Definition gatewayPermission : string := "core:agent:gateway".
Definition service_path : string := "/maintainerd.core.v1.AgentGatewayService/".
Definition Enroll_FullMethodName : string := service_path +:+ "Enroll".
Definition Register_FullMethodName : string := service_path +:+ "Register".
Definition Heartbeat_FullMethodName : string := service_path +:+ "Heartbeat".
Definition PullWork_FullMethodName : string := service_path +:+ "PullWork".
Definition ReportStatus_FullMethodName : string := service_path +:+ "ReportStatus".

Definition methodPermissions (method : string) : option string :=
  if str_eqb method Enroll_FullMethodName then Some ""%string
  else if str_eqb method Register_FullMethodName then Some gatewayPermission
  else if str_eqb method Heartbeat_FullMethodName then Some gatewayPermission
  else if str_eqb method PullWork_FullMethodName then Some gatewayPermission
  else if str_eqb method ReportStatus_FullMethodName then Some gatewayPermission
  else None.

Definition healthServicePrefix : string := "/grpc.health.v1.Health/".

Definition hasPermission (c : option Claims) (perm : string) : bool :=
  match c with
  | None => false
  | Some c => existsb (fun s => str_eqb s perm) (cl_Scopes c)
              || existsb (fun p => str_eqb p perm) (cl_Permissions c)
  end.

(** [strings.EqualFold] against a text of ASCII letters other than k and s,
    whose only case variants are ASCII. *)
Definition equal_fold_ascii (a b : string) : bool :=
  str_eqb (string_map lower_ascii a) (string_map lower_ascii b).

Definition bearerFromMD (ctx : RpcContext) : string :=
  match rc_authorization ctx with
  | Some (header :: _) =>
      if Nat.ltb 7 (String.length header) && equal_fold_ascii (str_take 7 header) "bearer "
      then TrimSpace (str_drop 7 header) else ""
  | _ => ""
  end.

Section Interceptors.
Context {A : Type}.
Definition UnaryHandler : Type := RpcContext -> M status A.

Definition AuthUnaryInterceptor (verify : VerifyFunc) (method : string) (handler : UnaryHandler)
    : UnaryHandler := fun ctx =>
  if HasPrefix method healthServicePrefix then handler ctx
  else if str_eqb method Enroll_FullMethodName then handler ctx
  else
    let token := bearerFromMD ctx in
    if is_empty token then fail (Status codes_Unauthenticated "missing bearer token")
    else match verify token with
    | Err _ => fail (Status codes_Unauthenticated "invalid token")
    | Ok claims =>
        match methodPermissions method with
        | None => fail (Status codes_PermissionDenied
                    ("method " +:+ method +:+ " has no permission mapping"))
        | Some required =>
            if negb (is_empty required) && negb (hasPermission claims required)
            then fail (Status codes_PermissionDenied ("requires permission " +:+ required))
            else handler (ctx <| rc_claims := claims |>)
        end
    end.

Definition hasHealthPrefix (method : string) : bool :=
  Nat.leb (String.length healthServicePrefix) (String.length method)
  && str_eqb (str_take (String.length healthServicePrefix) method) healthServicePrefix.

Definition RequireClientCertUnaryInterceptor (method : string) (handler : UnaryHandler)
    : UnaryHandler := fun ctx =>
  if str_eqb method Enroll_FullMethodName || hasHealthPrefix method then handler ctx
  else match rc_peer ctx with
  | NoPeer => fail (Status codes_Unauthenticated "missing peer information")
  | PlainPeer | TLSPeer O _ => fail (Status codes_Unauthenticated "client certificate required")
  | TLSPeer (S _) O => fail (Status codes_Unauthenticated "client certificate is not trusted")
  | TLSPeer (S _) (S _) => handler ctx
  end.

Inductive GuardMode := GuardEnforced | GuardDevOpen | GuardHealthOnly.

(** The posture [Serve] brings the gateway up with: the interceptors in front
    of its methods, or the methods not registered at all. *)
Definition Serve (mode : GuardMode) (requireClientCert : bool) (verify : VerifyFunc)
    (method : string) (handler : UnaryHandler) : UnaryHandler :=
  match mode with
  | GuardEnforced =>
      let guarded := AuthUnaryInterceptor verify method handler in
      if requireClientCert then RequireClientCertUnaryInterceptor method guarded else guarded
  | GuardDevOpen => handler
  | GuardHealthOnly => fun _ => fail (Status codes_Unimplemented "unknown service")
  end.
End Interceptors.
Arguments UnaryHandler A : clear implicits.

(** ** Handlers *)

Record Options := {
  g_EnforceBinding : bool; g_LeaseTTL : Z; g_AttemptBudget : Z;
  g_AgentCACertPEM : string; g_AgentCAKeyPEM : string; g_AgentCertTTL : Z }.

(** [NewAgentGateway]. *)
Definition gateway_options (o : Options) : Options := {|
  g_EnforceBinding := g_EnforceBinding o;
  g_LeaseTTL := if g_LeaseTTL o <=? 0 then Minute else g_LeaseTTL o;
  g_AttemptBudget := if g_AttemptBudget o <? 1 then 10 else g_AttemptBudget o;
  g_AgentCACertPEM := g_AgentCACertPEM o; g_AgentCAKeyPEM := g_AgentCAKeyPEM o;
  g_AgentCertTTL := g_AgentCertTTL o |}.

Class JsonText := { json_Unmarshal : string -> option value }.

Record EnrollRequest := { er_AgentUuid : string; er_JoinToken : string; er_CsrPem : string }.
Record EnrollResponse := {
  es_CertificatePem : string; es_CaCertificatePem : string; es_ExpiresAt : string }.
Record RegisterRequest := {
  rr_AgentUuid : string; rr_Version : string; rr_Capabilities : list string }.
Record WireItem := {
  wx_ResourceUuid : string; wx_Kind : string; wx_Name : string; wx_SpecJson : value;
  wx_Generation : Z }.
Record WireReport := {
  wr_ResourceUuid : string; wr_State : string; wr_StatusJson : string;
  wr_ObservedGeneration : Z }.

(** The document of a work item's [spec_json]: fields marked omitempty are left
    out when they are zero. *)
Definition buildEnvelope (it : WorkItem) : option value :=
  let workload :=
    match obj_get "workload" (wi_Spec it) with
    | Some (VObj (_ :: _) as w) => w
    | _ => VObj (wi_Spec it)
    end in
  let system := match obj_get "tier" (wi_Metadata it) with
                | Some (VStr t) => str_eqb t "system" | _ => false end in
  let teardown := str_eqb (wi_State it) "deleting" in
  let env := VObj ([("workload"%string, workload)]
    ++ (if system then [("tier", VStr "system")]%string else [])
    ++ (if teardown then [("teardown"%string, VBool true)] else [])) in
  if marshalable env then Some env else None.

Section Gateway.
Context {T : GoText} {C : Agent.Crypto} {J : JsonText} (opts : Options).

Definition bad_uuid : status := Status codes_InvalidArgument "invalid agent_uuid".

Definition parse_uuid (s : string) : M status Z :=
  match uuid_Parse s with Some id => mret id | None => fail bad_uuid end.

Definition Enroll (serial : option Z) (req : EnrollRequest) : UnaryHandler EnrollResponse :=
  fun ctx =>
  if is_empty (g_AgentCACertPEM opts) || is_empty (g_AgentCAKeyPEM opts)
  then fail (Status codes_FailedPrecondition "agent enrollment CA is not configured")
  else
    id ← parse_uuid (er_AgentUuid req);
    enrolled ← map_err toStatus (Agent.Enroll serial {|
      Agent.ei_AgentUUID := id; Agent.ei_JoinToken := er_JoinToken req;
      Agent.ei_CSRPem := er_CsrPem req; Agent.ei_CACertPEM := g_AgentCACertPEM opts;
      Agent.ei_CAKeyPEM := g_AgentCAKeyPEM opts; Agent.ei_CertTTL := g_AgentCertTTL opts |});
    mret {| es_CertificatePem := Agent.en_CertificatePEM enrolled;
            es_CaCertificatePem := Agent.en_CACertPEM enrolled;
            es_ExpiresAt := time_RFC3339 (Agent.en_ExpiresAt enrolled) |}.

Definition callerSubject (ctx : RpcContext) : M status string :=
  if negb (g_EnforceBinding opts) then mret ""%string
  else
    let denied := fail (Status codes_PermissionDenied
                          "token has no subject to bind an agent identity to") in
    match rc_claims ctx with
    | None => denied
    | Some claims => if is_empty (cl_Subject claims) then denied else mret (cl_Subject claims)
    end.

Definition requireAgent (ctx : RpcContext) (agentUUID : string) : M status Agent.Agent :=
  id ← parse_uuid agentUUID;
  if negb (g_EnforceBinding opts) then map_err toStatus (Agent.Get id)
  else
    subject ← callerSubject ctx;
    map_err toStatus (Agent.RequireSubject id subject).

Definition Register (req : RegisterRequest) : UnaryHandler bool := fun ctx =>
  id ← parse_uuid (rr_AgentUuid req);
  (if g_EnforceBinding opts
   then subject ← callerSubject ctx;
        map_err toStatus (Agent.BindSubject id subject);; mret ()
   else mret ());;
  map_err toStatus (Agent.Update id {|
    Agent.aui_Status := "online"; Agent.aui_Endpoint := ""; Agent.aui_Version := rr_Version req;
    Agent.aui_Capabilities := match rr_Capabilities req with [] => None | l => Some l end |});;
  mret true.

Definition Heartbeat (agentUUID : string) : UnaryHandler bool := fun ctx =>
  a ← requireAgent ctx agentUUID;
  map_err toStatus (Agent.Heartbeat (Agent.ag_UUID a));;
  mret true.

Definition wire_item (it : WorkItem) : option WireItem :=
  spec ← buildEnvelope it;
  Some {| wx_ResourceUuid := uuid_String (wi_UUID it); wx_Kind := wi_Kind it;
          wx_Name := wi_Name it; wx_SpecJson := spec; wx_Generation := wi_Generation it |}.

Definition PullWork (agentUUID : string) (maxItems : Z) : UnaryHandler (list WireItem) :=
  fun ctx =>
  a ← requireAgent ctx agentUUID;
  items ← map_err toStatus (ClaimForAgent (Agent.ag_ID a) maxItems (g_LeaseTTL opts));
  mret (omap wire_item items).

(** [json.Unmarshal] into a map: anything but an object leaves it nil. *)
Definition report_status (raw : string) : option object :=
  if is_empty raw then None
  else match json_Unmarshal raw with Some (VObj m) => Some m | _ => None end.

(** One report of a batch: whether it was accepted. *)
Definition report_one (agentID : Z) (rep : WireReport) : M status bool :=
  match uuid_Parse (wr_ResourceUuid rep) with
  | None => mret false
  | Some id =>
      r ← try (ApplyReport agentID id {|
            ar_State := wr_State rep; ar_Status := report_status (wr_StatusJson rep);
            ar_ObservedGeneration := wr_ObservedGeneration rep |} (g_AttemptBudget opts));
      mret (is_ok r)
  end.

Fixpoint report_loop (agentID accepted : Z) (reports : list WireReport) : M status Z :=
  match reports with
  | [] => mret accepted
  | rep :: reports =>
      report_one agentID rep ≫= fun ok : bool =>
      report_loop agentID (if ok then int32 (accepted + 1) else accepted) reports
  end.

Definition ReportStatus (agentUUID : string) (reports : list WireReport) : UnaryHandler Z :=
  fun (ctx : RpcContext) =>
  a ← requireAgent ctx agentUUID;
  report_loop (Agent.ag_ID a) 0 reports.
End Gateway.
