(* ===== verification/AgentAccess.v ===== *)
(** * What the gateway lets an agent do

    Fail-closed interception, the binding of a call to the agent it acts as,
    the work it is handed, and the isolation of a batch of reports. *)

From S2P Require Import Prelude Json Storage World AppError Queries Evolution Mrn Resource Sample WorkFeed Gateway.
From S2P Require Agent Hosts.

(** ** Interception *)

Definition guarded_methods : list string :=
  [Register_FullMethodName; Heartbeat_FullMethodName; PullWork_FullMethodName;
   ReportStatus_FullMethodName].

Lemma method_guarded method required :
  methodPermissions method = Some required -> method <> Enroll_FullMethodName ->
  method ∈ guarded_methods /\ required = gatewayPermission.
Proof.
  unfold methodPermissions. intros H Hne.
  destruct (str_eqb method Enroll_FullMethodName) eqn:E0; [split_bools; done|].
  destruct (str_eqb method Register_FullMethodName) eqn:E1;
    [split_bools; simplify_eq; split; [by left|done]|].
  destruct (str_eqb method Heartbeat_FullMethodName) eqn:E2;
    [split_bools; simplify_eq; split; [by right; left|done]|].
  destruct (str_eqb method PullWork_FullMethodName) eqn:E3;
    [split_bools; simplify_eq; split; [by do 2 right; left|done]|].
  destruct (str_eqb method ReportStatus_FullMethodName) eqn:E4;
    [split_bools; simplify_eq; split; [by do 3 right; left|done]|done].
Qed.

Lemma guarded_no_health method : method ∈ guarded_methods -> hasHealthPrefix method = false.
Proof.
  intros H. repeat (apply elem_of_cons in H as [->|H]; [vm_compute; reflexivity|]).
  by apply elem_of_nil in H.
Qed.

(** A call that was turned away: an authentication or permission error, and
    nothing happened. *)
Definition turned_away {A} (w : World) (out : result status A * World) : Prop :=
  exists st, out = (Err st, w)
    /\ (st_code st = codes_Unauthenticated \/ st_code st = codes_PermissionDenied).

Lemma auth_interceptor_cases {A} verify method (h : UnaryHandler A) ctx w :
  HasPrefix method healthServicePrefix = false -> method <> Enroll_FullMethodName ->
  let out := AuthUnaryInterceptor verify method h ctx w in
  turned_away w out
  \/ (exists claims, bearerFromMD ctx <> ""%string /\ verify (bearerFromMD ctx) = Ok (Some claims)
        /\ hasPermission (Some claims) gatewayPermission = true /\ method ∈ guarded_methods
        /\ out = h (ctx <| rc_claims := Some claims |>) w).
Proof.
  intros Hh He. unfold AuthUnaryInterceptor. rewrite Hh, (proj2 (str_eqb_neq _ _) He). cbv zeta.
  destruct (is_empty (bearerFromMD ctx)) eqn:Et; [left; eexists; split; [reflexivity|by left]|].
  destruct (verify _) as [claims|e] eqn:Ev; [|left; eexists; split; [reflexivity|by left]].
  destruct (methodPermissions method) as [req|] eqn:Em; [|left; eexists; split; [reflexivity|by right]].
  destruct (method_guarded _ _ Em He) as [Hm ->].
  change (is_empty gatewayPermission) with false. cbn [negb andb].
  destruct (hasPermission claims gatewayPermission) eqn:Ep; cbn [negb];
    [|left; eexists; split; [reflexivity|by right]].
  destruct claims as [claims|]; [|done]. split_bools. right. exists claims. by split_and!.
Qed.

(** C13: the gateway fails closed.  In the enforced posture a call on
    anything but the health protocol and the enrollment is either turned away
    with an authentication or permission error and no effect, or it is one of
    the four gateway methods, its bearer token was verified, the token carries
    the gateway permission, and, when client certificates are required, the peer
    presented a verified one; the handler then runs with exactly the verified
    claims.  In the health-only posture no call reaches a handler. *)
Theorem gateway_fail_closed {A} requireCert verify method (h : UnaryHandler A) ctx w :
  HasPrefix method healthServicePrefix = false -> method <> Enroll_FullMethodName ->
  let out := Serve GuardEnforced requireCert verify method h ctx w in
  (turned_away w out
   \/ (exists claims, bearerFromMD ctx <> ""%string /\ verify (bearerFromMD ctx) = Ok (Some claims)
        /\ hasPermission (Some claims) gatewayPermission = true /\ method ∈ guarded_methods
        /\ (requireCert = true -> exists c n, rc_peer ctx = TLSPeer (S c) (S n))
        /\ out = h (ctx <| rc_claims := Some claims |>) w))
  /\ exists st, Serve GuardHealthOnly requireCert verify method h ctx w = (Err st, w).
Proof.
  intros Hh He out. split; [|by eexists].
  pose proof (auth_interceptor_cases verify method h ctx w Hh He) as H. unfold out, Serve.
  destruct requireCert; [|destruct H as [H|(c & H1 & H2 & H3 & H4 & H5)]; [by left|right];
    exists c; by split_and!].
  unfold RequireClientCertUnaryInterceptor. rewrite (proj2 (str_eqb_neq _ _) He). cbn [orb].
  destruct (hasHealthPrefix method) eqn:Ehp.
  - destruct H as [H|(c & H1 & H2 & H3 & H4 & H5)]; [by left|].
    by rewrite guarded_no_health in Ehp.
  - destruct (rc_peer ctx) as [| |[|k] [|n]];
      try (left; eexists; split; [reflexivity|by left]).
    destruct H as [H|(c & H1 & H2 & H3 & H4 & H5)]; [by left|right]. exists c.
    split_and!; try done. intros _. by exists k, n.
Qed.

Definition sample_claims : Claims := Build_Claims "alice" [gatewayPermission] [].
Definition sample_verify : VerifyFunc := fun token =>
  if str_eqb token "t" then Ok (Some sample_claims) else Err "bad signature"%string.
Definition sample_ctx : RpcContext := Build_RpcContext (Some ["Bearer t"]%string) (TLSPeer 1 1) None.

Lemma gateway_fail_closed_witness :
  let out := Serve GuardEnforced true sample_verify PullWork_FullMethodName
    (fun ctx => mret (rc_claims ctx)) sample_ctx sample_world in
  turned_away sample_world out \/ exists claims, out = (Ok (Some claims), sample_world).
Proof.
  destruct (gateway_fail_closed true sample_verify PullWork_FullMethodName
      (fun ctx => mret (rc_claims ctx)) sample_ctx sample_world)
    as [[H|(c & _ & _ & _ & _ & _ & H)] _]; [vm_compute; reflexivity|discriminate|by left|].
  right. exists c. exact H.
Defined.

(** ** Acting as an agent *)

(** The caller of [ctx] is bound to the live agent [r] named by [uuid]. *)
Definition bound_caller {T : GoText} (ctx : RpcContext) (uuid : string) (w : World) (r : AgentRow) : Prop :=
  exists c, rc_claims ctx = Some c /\ cl_Subject c <> ""%string
    /\ r ∈ tbl_rows (agents (w_db w)) /\ a_DeletedAt r = None
    /\ uuid_Parse uuid = Some (a_AgentUuid r) /\ a_BoundSubject r = cl_Subject c.

Section Binding.
Context {T : GoText} {C : Agent.Crypto} {J : JsonText} (opts : Options).
Hypothesis (Hb : g_EnforceBinding opts = true).

Lemma requireAgent_inv ctx uuid w a w' :
  requireAgent opts ctx uuid w = (Ok a, w') ->
  w_db w' = w_db w
  /\ exists r, bound_caller ctx uuid w r /\ Agent.ag_ID a = a_AgentID r
       /\ Agent.ag_UUID a = a_AgentUuid r.
Proof.
  unfold requireAgent, parse_uuid. destruct (uuid_Parse uuid) as [id|] eqn:Eu; [|done].
  rewrite bind_ret_M, Hb. cbn [negb]. unfold callerSubject. rewrite Hb. cbn [negb].
  destruct (rc_claims ctx) as [c|] eqn:Ec; [|done].
  destruct (is_empty (cl_Subject c)) eqn:Es; [done|]. rewrite bind_ret_M.
  intros H%map_err_Ok_inv. apply Hosts.RequireSubject_inv in H as (Hs & Hdb & r & Hr & Hl & Hid & Hbd & Ha & Hu).
  split; [done|]. exists r. split; [|done]. exists c. split_and!; try done. by rewrite Hid.
Qed.

(** Queries do not move the clocks. *)
Lemma requireAgent_now ctx uuid w a w' :
  requireAgent opts ctx uuid w = (Ok a, w') -> w_dbnow w' = w_dbnow w.
Proof.
  unfold requireAgent, parse_uuid. destruct (uuid_Parse uuid) as [id|]; [|done].
  rewrite bind_ret_M, Hb. cbn [negb]. unfold callerSubject. rewrite Hb. cbn [negb].
  destruct (rc_claims ctx) as [c|]; [|done].
  destruct (is_empty (cl_Subject c)); [done|]. rewrite bind_ret_M.
  intros H%map_err_Ok_inv. unfold Agent.RequireSubject in H.
  apply bind_run_Ok_inv in H as (row & w1 & H1 & H). apply map_err_Ok_inv in H1.
  apply q_get_now in H1. do 2 (case_match; [done|]).
  apply bind_run_Ok_inv in H as (u & w2 & Ht & H). injection H as _ <-.
  apply bind_run_Ok_inv in Ht as (t & w3 & Ht & Hw). apply map_err_Ok_inv in Ht.
  apply q_get_now in Ht. injection Hw as _ <-. congruence.
Qed.

(** The check never writes. *)
Lemma requireAgent_db ctx uuid w : w_db (snd (requireAgent opts ctx uuid w)) = w_db w.
Proof.
  assert (H : advances (fun d d' => d' = d) (requireAgent opts ctx uuid)).
  { assert (PreOrder (fun d d' : Db => d' = d)) by (split; congruence).
    unfold requireAgent, parse_uuid, callerSubject. advance. }
  apply H.
Qed.

(** A handler that starts with the check does nothing for a caller that is
    not bound. *)
Lemma unbound_refused {A} (k : Agent.Agent -> M status A) ctx uuid w :
  (forall r, ~ bound_caller ctx uuid w r) ->
  is_ok (fst ((requireAgent opts ctx uuid ≫= k) w)) = false
  /\ w_db (snd ((requireAgent opts ctx uuid ≫= k) w)) = w_db w.
Proof.
  intros Hno. pose proof (requireAgent_db ctx uuid w) as Hdb. unfold mbind, M_bind.
  destruct (requireAgent opts ctx uuid w) as [[a|e] w'] eqn:E; [|done].
  apply requireAgent_inv in E as (_ & r & Hr & _). by destruct (Hno r).
Qed.
End Binding.

(** C12: with binding enforced, knowing an agent's UUID is not enough
    to act as it: a caller whose verified subject is not the one the live agent
    row is bound to gets an error from the heartbeat, the work pull and the
    status report, and the database does not change, whichever queries fail. *)
Theorem unbound_caller_refused {T : GoText} {C : Agent.Crypto} {J : JsonText} opts ctx uuid n reports w :
  g_EnforceBinding opts = true -> (forall r, ~ bound_caller ctx uuid w r) ->
  (is_ok (fst (Heartbeat opts uuid ctx w)) = false /\ w_db (snd (Heartbeat opts uuid ctx w)) = w_db w)
  /\ (is_ok (fst (PullWork opts uuid n ctx w)) = false
      /\ w_db (snd (PullWork opts uuid n ctx w)) = w_db w)
  /\ (is_ok (fst (ReportStatus opts uuid reports ctx w)) = false
      /\ w_db (snd (ReportStatus opts uuid reports ctx w)) = w_db w).
Proof. intros Hb Hno. split_and!; by apply unbound_refused. Qed.

(** Text in which the UUID 301 is written "301", and nothing else is a UUID. *)
Definition uuid_text : GoText := {|
  lower_unicode s := s; upper_unicode s := s; fmt_q s := s; duration_String := pretty;
  time_RFC3339 := pretty; uuid_String := pretty;
  uuid_Parse s := if str_eqb s "301" then Some 301 else if str_eqb s "402" then Some 402 else
                  if str_eqb s "401" then Some 401 else None |}.
Definition no_json : JsonText := {| json_Unmarshal _ := None |}.
Definition bound_options : Options := gateway_options (Build_Options true 0 0 "" "" 0).
Definition caller (subject : string) : RpcContext :=
  Build_RpcContext None NoPeer (Some (Build_Claims subject [] [])).

Lemma unbound_caller_refused_witness :
  is_ok (fst (@PullWork uuid_text bound_options "301" 10 (caller "mallory") Hosts.bound_world)) = false.
Proof.
  apply (@unbound_caller_refused uuid_text Hosts.sample_crypto no_json bound_options (caller "mallory")
    "301" 10 [] Hosts.bound_world); [reflexivity|].
  intros r (c & Hc & _ & Hr & _ & Hu & Hb). injection Hc as <-. cbn in Hr, Hu.
  apply elem_of_cons in Hr as [->|Hr]; [discriminate|].
  apply list_elem_of_singleton in Hr as ->. discriminate.
Defined.

(** ** Pulling work *)

(** A pull only hands out work of the caller.  Every item of the answer
    stands for a row that is, after the call, assigned to the agent the caller
    is bound to and leased to it for the lease time from now. *)
Theorem pulled_work_is_own {T : GoText} {C : Agent.Crypto} {J : JsonText} opts ctx uuid n w items w' :
  g_EnforceBinding opts = true -> table_wf (resources (w_db w)) ->
  PullWork opts uuid n ctx w = (Ok items, w') ->
  exists r, bound_caller ctx uuid w r
    /\ forall it, it ∈ items -> exists q, q ∈ tbl_rows (resources (w_db w'))
         /\ uuid_String (r_ResourceUuid q) = wx_ResourceUuid it
         /\ r_AgentID q = Some (a_AgentID r)
         /\ r_LeasedUntil q = Some (w_dbnow w + claim_ttl (g_LeaseTTL opts)).
Proof.
  intros Hb Hwf (a & w1 & Ha & Hk)%bind_run_Ok_inv.
  pose proof (requireAgent_now opts Hb ctx uuid w a w1 Ha) as Hnow.
  apply requireAgent_inv in Ha as (Hdb & r & Hr & Hid & _); [|done].
  exists r. split; [done|]. apply bind_run_Ok_inv in Hk as (its & w2 & Hc & Hk). injection Hk as <- <-.
  apply map_err_Ok_inv in Hc. intros it (i & Hi & Hit)%list_elem_of_omap.
  unfold wire_item in Hit. destruct (buildEnvelope i) as [env|]; [|done]. injection Hit as <-. cbn.
  rewrite <- Hdb in Hwf.
  destruct (claim_item_row _ _ _ _ _ _ (wi_UUID i) Hwf Hc) as (q & _ & Hq & _ & _ & Hin);
    [by apply (list_elem_of_fmap_2 wi_UUID)|].
  eexists. split; [exact Hin|]. cbn. rewrite Hq, Hid, Hnow. by split_and!.
Qed.

Lemma pulled_work_is_own_witness :
  exists items w', @PullWork uuid_text bound_options "301" 10 (caller "alice") Hosts.bound_world = (Ok items, w')
    /\ forall it, it ∈ items -> exists q, q ∈ tbl_rows (resources (w_db w')) /\ r_AgentID q = Some 1.
Proof.
  eexists _, _.
  assert (H : @PullWork uuid_text bound_options "301" 10 (caller "alice") Hosts.bound_world = (Ok _, _))
    by (vm_compute; reflexivity).
  split; [exact H|].
  destruct (@pulled_work_is_own uuid_text Hosts.sample_crypto no_json bound_options (caller "alice") "301"
    10 Hosts.bound_world _ _ eq_refl sample_resources_wf H) as (r & (c & Hc & _ & Hr & _ & Hu & Hb) & Hi).
  intros it Hit. destruct (Hi it Hit) as (q & Hq & _ & Ha & _). exists q. split; [exact Hq|].
  rewrite Ha. apply elem_of_cons in Hr as [->|Hr]; [reflexivity|].
  apply list_elem_of_singleton in Hr as ->. discriminate.
Defined.

(** ** Batches of reports *)

(** Handlers that meet no fault leave none behind. *)
Definition quiet {E A} (m : M E A) : Prop :=
  forall w, w_faults w = [] -> w_faults (snd (m w)) = [].

Lemma quiet_bind {E A B} (m : M E A) (k : A -> M E B) :
  quiet m -> (forall a, quiet (k a)) -> quiet (m ≫= k).
Proof.
  intros Hm Hk w Hf. unfold mbind, M_bind. specialize (Hm w Hf).
  destruct (m w) as [[a|e] w']; [by apply Hk|done].
Qed.
Lemma quiet_map_err {E F A} (f : E -> F) (m : M E A) : quiet m -> quiet (map_err f m).
Proof. intros Hm w Hf. unfold map_err. specialize (Hm w Hf). by destruct (m w). Qed.
Lemma quiet_get {R} `{!TableRow R} (tbl : Db -> Table R) p : quiet (q_get tbl p).
Proof. intros w Hf. by rewrite (q_get_run w Hf). Qed.
Lemma quiet_update {R} `{!TableRow R} (tbl : Db -> Table R) `{!FieldSetter tbl} p f : quiet (q_update tbl p f).
Proof. intros w Hf. unfold q_update. rewrite (query_run w Hf). by destruct (update _ _ _) as [[]|]. Qed.

Section Batch.
Context {T : GoText} {C : Agent.Crypto} {J : JsonText} (opts : Options).

Lemma report_quiet agent id in_ budget : quiet (ApplyReport agent id in_ budget).
Proof.
  unfold ApplyReport. apply quiet_bind; [apply quiet_map_err, quiet_get|]. intros cur.
  case_match; [by intros w Hf|]. apply quiet_bind; [case_match; by intros w Hf|]. intros st.
  apply quiet_bind; [by intros w Hf|]. intros nw. apply quiet_bind.
  - apply quiet_map_err, quiet_bind; [apply quiet_update|]. intros [|? ?]; by intros w Hf.
  - intros row. apply quiet_bind; [|by intros ? w Hf].
    apply quiet_bind; [apply quiet_map_err, quiet_get|by intros ? w Hf].
Qed.

(** No row of this UUID is assigned to the agent. *)
Definition foreign (agent id : Z) (d : Db) : Prop :=
  forall r, r ∈ tbl_rows (resources d) -> r_ResourceUuid r = id -> r_AgentID r <> Some agent.
Definition keeps_foreign (agent id : Z) (d d' : Db) : Prop := foreign agent id d -> foreign agent id d'.
#[global] Instance keeps_foreign_preorder agent id : PreOrder (keeps_foreign agent id).
Proof. split; unfold keeps_foreign; [by intros ? ?|]. intros ??? H1 H2 H. auto. Qed.

(** A report never moves a resource to another agent. *)
Lemma report_keeps_foreign agent id agent' id' in_ budget :
  advances (keeps_foreign agent id) (ApplyReport agent' id' in_ budget).
Proof.
  advance. apply advances_bind; [apply _| |intros [|? ?]; advance].
  apply advances_update; [apply _|]. intros w rs t Hu Hfor r Hr Hid. cbn in Hr.
  apply update_inv in Hu as (_ & Hrows & _). rewrite Hrows in Hr.
  apply list_elem_of_fmap in Hr as (q & -> & Hq). specialize (Hfor q Hq).
  destruct (hit _ q); cbn in *; auto.
Qed.

(** Without faults, a report on a foreign resource changes nothing at all. *)
Lemma foreign_report agent id in_ budget w :
  w_faults w = [] -> foreign agent id (w_db w) ->
  exists e, ApplyReport agent id in_ budget w = (Err e, w).
Proof.
  intros Hf Hfor. unfold ApplyReport, mbind, M_bind, or_not_found, map_err, GetResourceByUUID.
  rewrite (q_get_run w Hf). destruct (select_one _ _) as [r|e] eqn:E; cbn -[owned_by]; [|by eexists].
  apply select_one_Ok_inv in E as (Hr & _ & Hid & _). unfold owned_by, opt_eqb.
  rewrite bool_decide_false by (apply Hfor; [done|lia]). by eexists.
Qed.

(** A report that cannot be accepted: its UUID is malformed, or its resource
    is not the agent's. *)
Definition bad_report (agent : Z) (rep : WireReport) (d : Db) : Prop :=
  forall id, uuid_Parse (wr_ResourceUuid rep) = Some id -> foreign agent id d.

Lemma report_one_bad agent rep w : w_faults w = [] -> bad_report agent rep (w_db w) ->
  report_one opts agent rep w = (Ok false, w).
Proof.
  intros Hf Hbad. unfold report_one. destruct (uuid_Parse _) as [id|] eqn:E; [|done].
  set (in_ := Build_AgentReportInput _ _ _).
  destruct (foreign_report agent id in_ (g_AttemptBudget opts) w Hf (Hbad id E)) as [e He].
  unfold mbind, M_bind, try. by rewrite He.
Qed.

Lemma report_one_total agent rep w : exists ok w', report_one opts agent rep w = (Ok ok, w')
  /\ (w_faults w = [] -> w_faults w' = [])
  /\ (forall a id, keeps_foreign a id (w_db w) (w_db w')).
Proof.
  unfold report_one. destruct (uuid_Parse _) as [id|]; [|eexists _, w; split_and!; done].
  set (in_ := Build_AgentReportInput _ _ _). unfold mbind, M_bind, try.
  pose proof (report_quiet agent id in_ (g_AttemptBudget opts) w) as Hq.
  pose proof (fun a i => report_keeps_foreign a i agent id in_ (g_AttemptBudget opts) w) as Hk.
  destruct (ApplyReport _ _ _ _ w) as [r w']. eexists _, w'. split_and!; done.
Qed.

Lemma report_loop_total agent reports : forall acc w, 0 <= acc ->
  acc + Z.of_nat (length reports) <= max_int32 ->
  exists n w', report_loop opts agent acc reports w = (Ok n, w')
    /\ acc <= n <= acc + Z.of_nat (length reports).
Proof.
  induction reports as [|rep l IH]; intros acc w H0 Hn; cbn [report_loop length] in *.
  - exists acc, w. split; [done|lia].
  - destruct (report_one_total agent rep w) as (ok & w1 & E & _). rewrite (bind_run _ _ _ _ _ E).
    unfold max_int32 in *. destruct ok.
    + rewrite int32_id by lia. destruct (IH (acc + 1) w1) as (n & w' & Hr & Hb); [lia..|].
      exists n, w'. split; [done|lia].
    + destruct (IH acc w1) as (n & w' & Hr & Hb); [lia..|]. exists n, w'. split; [done|lia].
Qed.
End Batch.

(** One bad report does not spoil a batch.  A batch is always answered,
    with a count between none and all of its reports; and, without faults, a
    report with a malformed UUID or for a resource that is not the agent's makes
    no difference wherever it stands: the count and the whole database are those
    of the batch without it. *)
Theorem report_batch_isolated {T : GoText} {C : Agent.Crypto} {J : JsonText} opts agent pre bad post w :
  Z.of_nat (length (pre ++ bad :: post)) <= max_int32 ->
  w_faults w = [] -> bad_report agent bad (w_db w) ->
  (exists n w', report_loop opts agent 0 (pre ++ bad :: post) w = (Ok n, w')
     /\ 0 <= n <= Z.of_nat (length (pre ++ bad :: post)))
  /\ report_loop opts agent 0 (pre ++ bad :: post) w = report_loop opts agent 0 (pre ++ post) w.
Proof.
  intros Hn Hf Hbad. split; [by apply report_loop_total|].
  clear Hn. generalize 0 as acc. revert w Hf Hbad.
  induction pre as [|rep pre IH]; intros w Hf Hbad acc; cbn [app report_loop].
  - by rewrite (bind_run _ _ _ _ _ (report_one_bad opts agent bad w Hf Hbad)).
  - destruct (report_one_total opts agent rep w) as (ok & w1 & E & Hq & Hk).
    rewrite !(bind_run _ _ _ _ _ E). apply IH; [by apply Hq|].
    intros id Hid. by apply (Hk agent id), Hbad.
Qed.

Lemma report_batch_isolated_witness :
  @report_loop uuid_text no_json bound_options 1 0
    ([Build_WireReport "402" "running" "" 3] ++ Build_WireReport "401" "running" "" 1 :: []) sample_world
  = @report_loop uuid_text no_json bound_options 1 0
    ([Build_WireReport "402" "running" "" 3] ++ []) sample_world.
Proof.
  apply (@report_batch_isolated uuid_text Hosts.sample_crypto no_json bound_options 1
    [Build_WireReport "402" "running" "" 3] (Build_WireReport "401" "running" "" 1) [] sample_world);
    [vm_compute; discriminate|reflexivity|].
  intros id Hid r Hr Hu. cbn in Hid. injection Hid as <-. cbn in Hr.
  repeat (apply elem_of_cons in Hr as [->|Hr]; [cbn in Hu |- *; discriminate|]).
  by apply elem_of_nil in Hr.
Defined.

(** ** Envelopes *)

(** The document an agent is sent, read with the decoder Core applies to
    stored specs, reads back as it was meant: its
    workload is the inner object of a spec that was stored enveloped and the
    spec itself otherwise, and it asks for a teardown exactly when the resource
    is being deleted. *)
Theorem envelope_roundtrip {T : GoText} it env :
  buildEnvelope it = Some env ->
  exists w, decode_envelope (JSONToMap env) = Ok (Some w, str_eqb (wi_State it) "deleting")
    /\ (forall kv m, obj_get "workload" (wi_Spec it) = Some (VObj (kv :: m)) -> w = VObj (kv :: m))
    /\ ((forall kv m, obj_get "workload" (wi_Spec it) <> Some (VObj (kv :: m))) -> w = VObj (wi_Spec it)).
Proof.
  unfold buildEnvelope. set (w := match obj_get "workload" (wi_Spec it) with
    | Some (VObj (_ :: _) as w) => w | _ => VObj (wi_Spec it) end).
  case_match eqn:Em; [|done]. intros E. injection E as <-. exists w. split_and!.
  - cbn [JSONToMap]. destruct (match obj_get "tier" _ with Some (VStr t) => _ | _ => _ end);
      destruct (str_eqb (wi_State it) "deleting"); reflexivity.
  - intros kv m Hw. unfold w. by rewrite Hw.
  - intros Hno. unfold w. destruct (obj_get "workload" (wi_Spec it)) as [[]|]; try done.
    destruct m as [|kv m]; [done|]. by destruct (Hno kv m).
Qed.

Lemma envelope_roundtrip_witness :
  exists env w, buildEnvelope (toWorkItem gone) = Some env
    /\ decode_envelope (JSONToMap env) = Ok (Some w, true).
Proof.
  eexists. destruct (@envelope_roundtrip plain_text (toWorkItem gone) _ eq_refl) as (w & H & _).
  exists w. split; [reflexivity|exact H].
Defined.
