(* ===== verification/Authz.v ===== *)
(** * The HTTP guard

    [internal/platform/authz]: the middleware in front of every route under
    [/api/v1], with the permission map that doubles as the list of surfaces the
    API has, and [resolveHTTPGuard] of [cmd/server/bootstrap.go], which picks the
    guard's posture at startup.

    The sdk's token verifier is a parameter ([Verifier]); a request is what the
    middleware reads of it; the response type is a parameter of [Middleware], so
    that what the wrapped handler does is left open. *)

From S2P Require Import Prelude Json.
From S2P Require Gateway.

Record Claims := { Subject : string; Scopes : list string; Permissions : list string }.

Definition HasPermission (c : option Claims) (perm : string) : bool :=
  match c with
  | None => false
  | Some c => existsb (fun s => str_eqb s perm) (Scopes c)
              || existsb (fun p => str_eqb p perm) (Permissions c)
  end.

Definition VerifyFunc : Type := string -> result string (option Claims).

(** The claims the sdk hands out for a token it accepts, and its verifier. *)
Record SdkClaims := { sc_Subject : string; sc_Scopes : list string; sc_Raw : object }.
Definition Verifier : Type := string -> result string SdkClaims.

Definition SDKVerify (v : Verifier) : VerifyFunc := fun token =>
  match v token with
  | Err e => Err e
  | Ok c => Ok (Some {|
      Subject := sc_Subject c; Scopes := sc_Scopes c;
      Permissions := match obj_get "permissions" (sc_Raw c) with
                     | Some (VArr raw) =>
                         omap (fun p => match p with VStr s => Some s | _ => None end) raw
                     | _ => []
                     end |})
  end.

Inductive Mode := ModeEnforced | ModeDevOpen | ModeUnavailable.

Definition Mode_Name (m : Mode) : string :=
  match m with
  | ModeEnforced => "enforced"
  | ModeDevOpen => "dev-open"
  | ModeUnavailable => "unavailable"
  end.

(** [g_Verify] is nil unless the mode is enforced. *)
Record Guard := { g_Mode : Mode; g_Verify : option VerifyFunc; g_Reason : string }.

Record perms := { Read : string; Write : string }.

Definition routePermissions : list (string * perms) :=
  [("tenants",   {| Read := "core:tenant:read"; Write := "core:tenant:write" |});
   ("projects",  {| Read := "core:project:read"; Write := "core:project:write" |});
   ("services",  {| Read := "core:service:read"; Write := "core:service:write" |});
   ("providers", {| Read := "core:provider:read"; Write := "core:provider:write" |});
   ("agents",    {| Read := "core:agent:read"; Write := "core:agent:write" |});
   ("resources", {| Read := "core:resource:read"; Write := "core:resource:write" |});
   ("events",    {| Read := "core:event:read"; Write := "core:event:write" |});
   ("steward",   {| Read := "core:admin"; Write := "core:admin" |})]%string.

Fixpoint map_lookup {A} (k : string) (m : list (string * A)) : option A :=
  match m with
  | [] => None
  | (k', a) :: m => if str_eqb k' k then Some a else map_lookup k m
  end.

Definition GatewayPermission : string := "core:agent:gateway".

(** The closure [add] of [DeclaredPermissions]: [seen] holds what [out] holds. *)
Definition add (out : list string) (p : string) : list string :=
  if is_empty p then out
  else if existsb (str_eqb p) out then out
  else out ++ [p].

(** [order] is the order in which the map iteration delivers the segments. *)
Definition DeclaredPermissions (order : list string) : list string :=
  let segments := merge_sort String.le order in
  let out := fold_left (fun out segment =>
    match map_lookup segment routePermissions with
    | Some p => add (add out (Read p)) (Write p)
    | None => out
    end) segments [] in
  add out GatewayPermission.

(** [None] as the methods stands for nil: every method. *)
Definition exemptSegments : list (string * option (list string)) :=
  [("setup", None); ("capabilities", Some ["GET"; "HEAD"])]%string.

Definition exempt (segment method : string) : bool :=
  match map_lookup segment exemptSegments with
  | None => false
  | Some None => true
  | Some (Some methods) => existsb (fun m => str_eqb m method) methods
  end.

Definition index_slash (s : string) : option nat := String.index 0 "/" s.

Definition apiSegment (path : string) : string :=
  let prefix := "/api/v1/"%string in
  if negb (HasPrefix path prefix) then ""
  else
    let rest := str_drop (String.length prefix) path in
    match index_slash rest with
    | Some i => str_take i rest
    | None => rest
    end.

Definition bearer (header : string) : string :=
  if Nat.ltb 7 (String.length header)
     && Gateway.equal_fold_ascii (str_take 7 header) "bearer "
  then TrimSpace (str_drop 7 header) else "".

(** What the middleware reads of a request; an absent header reads as empty. *)
Record Request := { rq_Method : string; rq_Path : string; rq_Authorization : string }.

Section Middleware.
(** The answers: [respond_error] writes an error (a nil verifier panics, which the
    router answers with a 500), [next] is the wrapped handler,
    called with the claims that ride on the request's context. *)
Context {R : Type} (respond_error : Z -> string -> R) (next : option Claims -> Request -> R).

Definition Middleware (g : Guard) (r : Request) : R :=
  let segment := apiSegment (rq_Path r) in
  if exempt segment (rq_Method r) then next None r
  else match g_Mode g with
  | ModeDevOpen => next None r
  | ModeUnavailable =>
      respond_error 503 ("API authentication is not configured (" +:+ g_Reason g
                         +:+ "); the API is disabled outside development")
  | ModeEnforced =>
      let token := bearer (rq_Authorization r) in
      if is_empty token then respond_error 401 "missing bearer token"
      else match g_Verify g with
      | None => respond_error 500 "panic: nil verifier"
      | Some verify =>
        match verify token with
        | Err _ => respond_error 401 "invalid token"
        | Ok claims =>
          match map_lookup segment routePermissions with
          | None => respond_error 403 "route has no permission mapping"
          | Some p =>
            let required := if str_eqb (rq_Method r) "GET" || str_eqb (rq_Method r) "HEAD"
                            then Read p else Write p in
            if negb (HasPermission claims required)
            then respond_error 403 ("requires permission " +:+ required)
            else next claims r
          end
        end
      end
  end.
End Middleware.

(** [missing] are the unset variables ([missingAuthVars]); a nil verifier is
    [None]. *)
Definition resolveHTTPGuard (missing : list string) (verifier : option Verifier) (dev : bool)
    : Guard :=
  match verifier with
  | None =>
      let reason := match missing with
                    | [] => "token verifier failed to initialize"%string
                    | _ => "missing/unusable " +:+ String.concat ", " missing
                    end in
      {| g_Mode := if dev then ModeDevOpen else ModeUnavailable; g_Verify := None;
         g_Reason := reason |}
  | Some v => {| g_Mode := ModeEnforced; g_Verify := Some (SDKVerify v); g_Reason := "" |}
  end.

(** The segments [Router] mounts under [/api/v1]. *)
Definition mounted_segments : list string :=
  ["capabilities"; "tenants"; "projects"; "services"; "providers"; "agents"; "resources";
   "events"; "setup"; "steward"]%string.

(** ** Facts *)

Lemma HasPermission_spec c perm :
  HasPermission c perm = true <-> exists k, c = Some k /\ (perm ∈ Scopes k \/ perm ∈ Permissions k).
Proof.
  destruct c as [k|]; cbn; [|by split; [|intros (? & ? & _)]].
  rewrite orb_true_iff, !existsb_exists. split.
  - intros [(s & Hin & ->%str_eqb_eq)|(s & Hin & ->%str_eqb_eq)]; exists k;
      (split; [done|]); rewrite !list_elem_of_In; auto.
  - intros (? & [= <-] & [Hin|Hin]); apply list_elem_of_In in Hin; [left|right];
      exists perm; by rewrite str_eqb_refl.
Qed.

Lemma map_lookup_elem {A} k (m : list (string * A)) a : map_lookup k m = Some a -> (k, a) ∈ m.
Proof.
  induction m as [|[k' b] m IH]; cbn; [done|].
  destruct (str_eqb k' k) eqn:E; [|intros; right; auto].
  apply str_eqb_eq in E as ->. intros [= ->]. left.
Qed.

Lemma exempt_spec segment method :
  exempt segment method = true <->
  segment = "setup"%string
  \/ segment = "capabilities"%string /\ (method = "GET" \/ method = "HEAD")%string.
Proof.
  unfold exempt, exemptSegments. cbn [map_lookup].
  destruct (str_eqb "setup" segment) eqn:E1; [apply str_eqb_eq in E1 as <-; intuition congruence|].
  apply str_eqb_neq in E1.
  destruct (str_eqb "capabilities" segment) eqn:E2.
  - apply str_eqb_eq in E2 as <-. cbn [existsb].
    rewrite !orb_true_iff, !str_eqb_eq. intuition congruence.
  - apply str_eqb_neq in E2. intuition congruence.
Qed.

Lemma add_NoDup out p : NoDup out -> NoDup (add out p).
Proof.
  intros H. unfold add. destruct (is_empty p); [done|].
  destruct (existsb (str_eqb p) out) eqn:Ex; [done|].
  apply NoDup_app. split_and!; [done| |apply NoDup_singleton].
  intros x Hx ->%list_elem_of_singleton.
  enough (existsb (str_eqb p) out = true) by congruence.
  apply existsb_exists. exists p. rewrite str_eqb_refl. by apply list_elem_of_In in Hx.
Qed.

(** The order in which a map iteration delivers the segments does not matter. *)
Lemma DeclaredPermissions_order o o' :
  o ≡ₚ o' -> DeclaredPermissions o = DeclaredPermissions o'.
Proof.
  intros Hp. unfold DeclaredPermissions.
  assert (merge_sort String.le o = merge_sort String.le o') as ->; [|done].
  apply (StronglySorted_unique String.le); [apply StronglySorted_merge_sort; apply _..|].
  by rewrite !merge_sort_Permutation.
Qed.

Lemma fold_NoDup {A} (f : list string -> A -> list string) l out :
  (forall o a, NoDup o -> NoDup (f o a)) -> NoDup out -> NoDup (fold_left f l out).
Proof. intros Hf. revert out. induction l; cbn; auto. Qed.

Lemma DeclaredPermissions_NoDup o : NoDup (DeclaredPermissions o).
Proof.
  apply add_NoDup, fold_NoDup; [|constructor].
  intros out s H. destruct (map_lookup s routePermissions); [by do 2 apply add_NoDup|done].
Qed.

Lemma routes_declared :
  Forall (fun kp => Read (snd kp) ∈ DeclaredPermissions (map fst routePermissions)
                    /\ Write (snd kp) ∈ DeclaredPermissions (map fst routePermissions))
    routePermissions.
Proof. apply (bool_decide_unpack _). vm_compute. exact I. Qed.

Lemma gateway_declared :
  Gateway.gatewayPermission ∈ DeclaredPermissions (map fst routePermissions).
Proof. apply (bool_decide_unpack _). vm_compute. exact I. Qed.

Lemma method_permission m perm :
  Gateway.methodPermissions m = Some perm -> perm = ""%string \/ perm = Gateway.gatewayPermission.
Proof.
  unfold Gateway.methodPermissions.
  destruct (str_eqb m Gateway.Enroll_FullMethodName); [intros [= <-]; by left|].
  destruct (str_eqb m Gateway.Register_FullMethodName); [intros [= <-]; by right|].
  destruct (str_eqb m Gateway.Heartbeat_FullMethodName); [intros [= <-]; by right|].
  destruct (str_eqb m Gateway.PullWork_FullMethodName); [intros [= <-]; by right|].
  destruct (str_eqb m Gateway.ReportStatus_FullMethodName); [intros [= <-]; by right|discriminate].
Qed.

(** The permission a request must carry, [None] when no permission opens it. *)
Definition demanded (r : Request) : option string :=
  p ← map_lookup (apiSegment (rq_Path r)) routePermissions;
  Some (if str_eqb (rq_Method r) "GET" || str_eqb (rq_Method r) "HEAD" then Read p else Write p).

(** ** Claims *)

(** Outside development the HTTP API fails closed: a request
    under [/api/v1] reaches a handler only on the setup surface, on a read of the
    capability probe, or with a bearer token the verifier accepts whose claims
    carry the permission its route and verb demand; a route without a permission
    mapping is never served, and without a verifier only the exempt surface is. *)
Theorem http_api_fail_closed missing verifier r claims :
  let served := Middleware (fun code msg => Err (code, msg)) (fun c _ => Ok c)
                  (resolveHTTPGuard missing verifier false) r in
  served = Ok claims ->
  (let segment := apiSegment (rq_Path r) in
   segment = "setup"%string
   \/ segment = "capabilities"%string /\ (rq_Method r = "GET" \/ rq_Method r = "HEAD")%string)
  \/ exists v c k perm,
       verifier = Some v /\ bearer (rq_Authorization r) <> ""%string
       /\ v (bearer (rq_Authorization r)) = Ok c /\ claims = Some k
       /\ Subject k = sc_Subject c /\ Scopes k = sc_Scopes c
       /\ demanded r = Some perm /\ (perm ∈ Scopes k \/ perm ∈ Permissions k).
Proof.
  unfold Middleware. cbn zeta.
  destruct (exempt _ _) eqn:Ex; [intros _; left; by apply exempt_spec|].
  destruct verifier as [v|]; cbn [resolveHTTPGuard g_Mode g_Verify]; [|done].
  destruct (is_empty (bearer _)) eqn:Eb; [done|]. apply str_eqb_neq in Eb.
  unfold SDKVerify, demanded. destruct (v _) as [c|] eqn:Ev; [|done].
  destruct (map_lookup _ routePermissions) as [p|] eqn:Ep; [|done].
  destruct (negb _) eqn:Ehas; [done|]. intros [= <-]. right.
  apply negb_false_iff, HasPermission_spec in Ehas as (k & [= <-] & Hin).
  exists v, c. do 2 eexists. split_and!; try done.
Qed.

Definition demo_verifier : Verifier := fun token =>
  if str_eqb token "t0ken"
  then Ok {| sc_Subject := "ops"; sc_Scopes := ["core:tenant:read"]; sc_Raw := [] |}
  else Err "bad".

Definition demo_request : Request :=
  {| rq_Method := "GET"; rq_Path := "/api/v1/tenants/7"; rq_Authorization := "Bearer t0ken" |}.

Lemma http_api_fail_closed_witness :
  Middleware (fun code msg => Err (code, msg)) (fun c _ => Ok c)
    (resolveHTTPGuard [] (Some demo_verifier) false) demo_request
  = Ok (Some {| Subject := "ops"; Scopes := ["core:tenant:read"%string]; Permissions := [] |})
  /\ demanded demo_request = Some "core:tenant:read"%string.
Proof.
  assert (H : Middleware (fun code msg => Err (code, msg)) (fun c _ => Ok c)
    (resolveHTTPGuard [] (Some demo_verifier) false) demo_request
    = Ok (Some {| Subject := "ops"; Scopes := ["core:tenant:read"%string]; Permissions := [] |}))
    by (vm_compute; reflexivity).
  split; [exact H|].
  destruct (http_api_fail_closed [] (Some demo_verifier) demo_request _ H)
    as [[E|[E _]]|(_ & _ & _ & _ & _)]; vm_compute; [discriminate E..|reflexivity].
Defined.

(** Every permission a guard of Core can demand, over HTTP or on
    the agent gateway, is one of the permissions Core registers in Auth; the list
    is free of duplicates, and it does not depend on the order in which Go
    iterates the route map.  Every segment the router mounts is either mapped or
    exempt, so no mounted surface is unreachable for want of a mapping. *)
Theorem declared_permissions_complete order :
  order ≡ₚ map fst routePermissions ->
  (forall r perm, demanded r = Some perm -> perm ∈ DeclaredPermissions order)
  /\ (forall m perm, Gateway.methodPermissions m = Some perm -> perm <> ""%string ->
        perm ∈ DeclaredPermissions order)
  /\ NoDup (DeclaredPermissions order)
  /\ DeclaredPermissions order = DeclaredPermissions (map fst routePermissions)
  /\ Forall (fun s => is_Some (map_lookup s routePermissions) \/ exempt s "GET" = true)
       mounted_segments.
Proof.
  intros Hp. rewrite (DeclaredPermissions_order _ _ Hp).
  split_and!; [..|apply DeclaredPermissions_NoDup|done|].
  - intros r perm. unfold demanded.
    destruct (map_lookup _ routePermissions) as [p|] eqn:Ep; cbn [mbind option_bind]; [|done].
    intros [= <-]. apply map_lookup_elem in Ep.
    destruct (proj1 (Forall_forall _ _) routes_declared _ Ep). by destruct (_ || _).
  - intros m perm [->| ->]%method_permission Hne; [done|exact gateway_declared].
  - apply (bool_decide_unpack _). vm_compute. exact I.
Qed.

Lemma declared_permissions_complete_witness :
  "core:event:read"%string ∈ DeclaredPermissions (rev (map fst routePermissions)).
Proof.
  apply (proj1 (declared_permissions_complete (rev (map fst routePermissions))
           ltac:(symmetry; apply Permutation_rev))
         {| rq_Method := "HEAD"; rq_Path := "/api/v1/events"; rq_Authorization := "" |}).
  vm_compute. reflexivity.
Defined.
