(* ===== verification/Dependency.v ===== *)
(** * Dependencies and readiness

    [internal/dependency]: the loop that probes Auth and Secret and keeps the
    last observed state of each; [dependencyProbes] and [readinessChecks] of
    [cmd/server/dependencies.go]; and [readyz] of [internal/server/server.go],
    which reports that state to the orchestrator.

    What a probe answers in a pass, and whether a readiness probe answers before
    the deadline, are inputs.  The goroutines of a pass write disjoint slots of a
    slice and are awaited, so a pass is a function of what its probes answer. *)

From S2P Require Import Prelude Json.
From S2P Require Authz.

(** Errors of a probe; [Wrapped] is an error that unwraps to another. *)
Inductive depErr := ErrNotProbed | DepError (msg : string) | Wrapped (msg : string) (e : depErr).

Fixpoint is_ErrNotProbed (e : depErr) : bool :=
  match e with ErrNotProbed => true | DepError _ => false | Wrapped _ e => is_ErrNotProbed e end.

(** A probe with a nil [Check] is not called. *)
Record Probe := { pr_Name : string; pr_HasCheck : bool }.

Record Options := {
  o_Interval : Z; o_InitialBackoff : Z; o_MaxBackoff : Z; o_PassTimeout : Z }.

Definition defaultInterval : Z := 15 * Second.
Definition defaultInitialBackoff : Z := Second.
Definition defaultMaxBackoff : Z := 30 * Second.
Definition defaultPassTimeout : Z := 10 * Second.

Inductive transition := Reachable (name : string) | Unreachable (name : string) (err : depErr).

(** [rc_log] is what the loop has logged, newest first. *)
Record Reconciler := {
  rc_probes : list Probe; rc_opts : Options;
  rc_state : gmap string (option depErr); rc_log : list transition }.
#[global] Instance Reconciler_eta : EtaRecord Reconciler := fun r =>
  Build_Reconciler (rc_probes r) (rc_opts r) (rc_state r) (rc_log r).

Definition or_default (d x : Z) : Z := if x <=? 0 then d else x.

Definition New (probes : list Probe) (opts : Options) : Reconciler := {|
  rc_probes := probes;
  rc_opts := {|
    o_Interval := or_default defaultInterval (o_Interval opts);
    o_InitialBackoff := or_default defaultInitialBackoff (o_InitialBackoff opts);
    o_MaxBackoff := or_default defaultMaxBackoff (o_MaxBackoff opts);
    o_PassTimeout := or_default defaultPassTimeout (o_PassTimeout opts) |};
  rc_state := foldl (fun m p => <[pr_Name p := Some ErrNotProbed]> m) ∅ probes;
  rc_log := [] |}.

Definition Names (r : Reconciler) : list string := map pr_Name (rc_probes r).

(** [None] is Go's nil error: the dependency was last seen healthy. *)
Definition State (r : Reconciler) (name : string) : option depErr :=
  match rc_state r !! name with
  | None => Some ErrNotProbed
  | Some err => err
  end.

Definition healthy (e : option depErr) : bool := match e with None => true | Some _ => false end.

Definition Settled (r : Reconciler) : bool :=
  forallb (fun kv => healthy (snd kv)) (map_to_list (rc_state r)).

Definition record (r : Reconciler) (ne : string * option depErr) : Reconciler :=
  let '(name, err) := ne in
  let prev := rc_state r !! name in
  let first := match prev with
               | None => true
               | Some None => false
               | Some (Some e) => is_ErrNotProbed e
               end in
  let prev_healthy := healthy (default None prev) in
  let logged := match err with
                | None => if first || negb prev_healthy then [Reachable name] else []
                | Some e => if first || prev_healthy then [Unreachable name e] else []
                end in
  r <| rc_state := <[name := err]> (rc_state r) |> <| rc_log := logged ++ rc_log r |>.

(** [results i] is what the check of the [i]-th probe returns in this pass. *)
Definition pass (results : nat -> option depErr) (r : Reconciler) : Reconciler :=
  foldl record r
    (imap (fun i p => (pr_Name p, if pr_HasCheck p then results i else None)) (rc_probes r)).

(** One turn of the loop: its pass, and when the context is cancelled. *)
Inductive cancellation := Running | CancelledInPass | CancelledInWait.
Record turn := { tn_results : nat -> option depErr; tn_cancel : cancellation }.

Definition next_delay (r : Reconciler) (delay : Z) : Z :=
  if Settled r then o_Interval (rc_opts r)
  else if delay <? o_MaxBackoff (rc_opts r) then
    let delay := int64 (delay * 2) in
    if o_MaxBackoff (rc_opts r) <? delay then o_MaxBackoff (rc_opts r) else delay
  else delay.

(** The loop over the turns observed so far, with the waits it began. *)
Fixpoint run_loop (delay : Z) (turns : list turn) (r : Reconciler) : Reconciler * list Z :=
  match turns with
  | [] => (r, [])
  | t :: turns =>
      let r := pass (tn_results t) r in
      match tn_cancel t with
      | CancelledInPass => (r, [])
      | c =>
          let delay := next_delay r delay in
          match c with
          | Running => let '(r, waits) := run_loop delay turns r in (r, delay :: waits)
          | _ => (r, [delay])
          end
      end
  end.

Definition Run (turns : list turn) (r : Reconciler) : Reconciler * list Z :=
  match rc_probes r with
  | [] => (r, [])
  | _ => run_loop (o_InitialBackoff (rc_opts r)) turns r
  end.

(** ** The program's probes and the readiness endpoint *)

(** [probeAuth]: [newRequest] is the error of building the request, [Do] the
    status the client got or its error. *)
Definition probeAuth (jwksURL : string) (newRequest : string -> option string)
    (Do : string -> result string Z) : option depErr :=
  match newRequest jwksURL with
  | Some err => Some (DepError ("build jwks request: " +:+ err))
  | None =>
      match Do jwksURL with
      | Err err => Some (DepError err)
      | Ok code =>
          if negb (code =? 200) then Some (DepError ("jwks endpoint answered " +:+ pretty code)) else None
      end
  end.

(** Whether the JWKS URL of Auth and the Secret client are configured. *)
Definition dependencyProbes (jwks secret : bool) : list Probe :=
  (if jwks then [Build_Probe "auth" true] else [])
  ++ (if secret then [Build_Probe "secret" true] else []).

(** A readiness check's [Probe] as the error it returns; [None] for a nil one. *)
Record ReadinessCheck := { rd_Name : string; rd_Probe : option (option depErr) }.

(** [ping] is what the database answers, [setup] the state of Secret's setup when
    Core drives it. *)
Definition readinessChecks (ping : option depErr) (rec : Reconciler) (g : Authz.Guard)
    (secret : bool) (setup : option (option depErr)) : list ReadinessCheck :=
  [Build_ReadinessCheck "database" (Some ping);
   Build_ReadinessCheck "auth" (Some
     match Authz.g_Mode g with
     | Authz.ModeUnavailable =>
         Some (DepError ("authorization is unavailable: " +:+ Authz.g_Reason g))
     | Authz.ModeDevOpen => None
     | Authz.ModeEnforced => State rec "auth"
     end);
   Build_ReadinessCheck "secret" (Some (if secret then State rec "secret" else None));
   Build_ReadinessCheck "secret-setup" (Some (default None setup))].

(** [timely i]: the [i]-th probe answers before the deadline. *)
Definition readyz (timely : nat -> bool) (checks : list ReadinessCheck)
    : Z * string * gmap string string :=
  let errs := imap (fun i c =>
    match rd_Probe c with
    | None => None
    | Some err => if timely i then err else Some (DepError "context deadline exceeded")
    end) checks in
  let ready := forallb healthy errs in
  let results := foldl (fun m ce => <[rd_Name (fst ce) := (if healthy (snd ce) then "ok" else "unhealthy")%string]> m)
                   ∅ (zip checks errs) in
  if ready then (200, "ready"%string, results) else (503, "not_ready"%string, results).

(** ** Facts *)

Lemma record_static r ne :
  rc_probes (record r ne) = rc_probes r /\ rc_opts (record r ne) = rc_opts r.
Proof. by destruct ne. Qed.

Lemma records_static l r :
  rc_probes (foldl record r l) = rc_probes r /\ rc_opts (foldl record r l) = rc_opts r.
Proof.
  revert r. induction l as [|ne l IH]; cbn; intros r; [done|].
  destruct (IH (record r ne)) as [-> ->]. apply record_static.
Qed.

Lemma records_other l r name :
  name ∉ map fst l -> State (foldl record r l) name = State r name.
Proof.
  revert r. induction l as [|[n e] l IH]; cbn; intros r Hn; [done|].
  apply not_elem_of_cons in Hn as [Hne Hn]. rewrite IH by done.
  unfold State. cbn. by rewrite lookup_insert_ne.
Qed.

Lemma records_last l r i name e :
  NoDup (map fst l) -> l !! i = Some (name, e) -> State (foldl record r l) name = e.
Proof.
  revert r i. induction l as [|[n e'] l IH]; intros r i; [done|].
  cbn. intros [Hn Hnd]%NoDup_cons. destruct i as [|i]; cbn; [|by apply IH].
  intros [= -> ->]. rewrite records_other by done. unfold State. cbn. by rewrite lookup_insert_eq.
Qed.

Lemma pass_names (results : nat -> option depErr) (probes : list Probe) :
  map fst (imap (fun i p => (pr_Name p, if pr_HasCheck p then results i else None)) probes)
  = map pr_Name probes.
Proof.
  revert results. induction probes as [|p probes IH]; intros results; [done|].
  cbn. f_equal. apply (IH (fun i => results (S i))).
Qed.

(** After a pass the state of a dependency is what its probe answered. *)
Lemma pass_state results r i p :
  NoDup (Names r) -> rc_probes r !! i = Some p -> pr_HasCheck p = true ->
  State (pass results r) (pr_Name p) = results i.
Proof.
  intros Hnd Hi Hc. apply (records_last _ _ i).
  - by rewrite pass_names.
  - by rewrite list_lookup_imap, Hi; cbn; rewrite Hc.
Qed.

Lemma pass_other results r name :
  name ∉ Names r -> State (pass results r) name = State r name.
Proof. intros Hn. apply records_other. by rewrite pass_names. Qed.

(** The passes the loop makes: all of them up to the first cancellation. *)
Fixpoint passes (turns : list turn) : list turn :=
  match turns with
  | [] => []
  | t :: turns => t :: match tn_cancel t with Running => passes turns | _ => [] end
  end.

Lemma pass_static results r :
  rc_probes (pass results r) = rc_probes r /\ rc_opts (pass results r) = rc_opts r.
Proof. apply records_static. Qed.

Lemma run_loop_last delay turns r :
  (passes turns = [] /\ fst (run_loop delay turns r) = r)
  \/ exists t r0, last (passes turns) = Some t /\ rc_probes r0 = rc_probes r
       /\ fst (run_loop delay turns r) = pass (tn_results t) r0.
Proof.
  revert delay r. induction turns as [|t turns IH]; intros delay r; [by left|right].
  cbn. destruct (tn_cancel t); [|by exists t, r..].
  destruct (IH (next_delay (pass (tn_results t) r) delay) (pass (tn_results t) r))
    as [[E Er]|(t' & r0 & Hl & Hp & Er)].
  - exists t, r. rewrite E. destruct (run_loop _ _ _). cbn in *. by rewrite Er.
  - exists t', r0. rewrite Hp, (proj1 (pass_static _ _)). split_and!; [|done|by destruct (run_loop _ _ _)].
    destruct (passes turns); [done|exact Hl].
Qed.

Lemma run_loop_other delay turns r name :
  name ∉ Names r -> State (fst (run_loop delay turns r)) name = State r name.
Proof.
  revert delay r. induction turns as [|t turns IH]; intros delay r Hn; [done|].
  cbn. destruct (tn_cancel t); [|by apply pass_other..].
  specialize (IH (next_delay (pass (tn_results t) r) delay) (pass (tn_results t) r)).
  destruct (run_loop _ _ _). cbn in *. rewrite IH; [by apply pass_other|].
  unfold Names. by rewrite (proj1 (pass_static _ _)).
Qed.

Lemma New_unprobed probes opts name : State (New probes opts) name = Some ErrNotProbed.
Proof.
  unfold State, New. cbn.
  enough (H : forall m : gmap string (option depErr),
    (forall e, m !! name = Some e -> e = Some ErrNotProbed) ->
    forall e, foldl (fun m p => <[pr_Name p := Some ErrNotProbed]> m) m probes !! name = Some e ->
      e = Some ErrNotProbed).
  { destruct (_ !! name) eqn:E; [|done]. by eapply (H ∅). }
  induction probes as [|p probes IH]; cbn; [done|]. intros m Hm. apply IH. intros e.
  destruct (decide (pr_Name p = name)) as [->|Hne].
  - rewrite lookup_insert_eq. by intros [= <-].
  - rewrite lookup_insert_ne by done. apply Hm.
Qed.

(** A dependency is only ever seen healthy if it is probed, and the last pass
    found it so. *)
Lemma healthy_was_probed probes opts turns name :
  NoDup (map pr_Name probes) ->
  State (fst (Run turns (New probes opts))) name = None ->
  exists t i p, last (passes turns) = Some t /\ probes !! i = Some p /\ pr_Name p = name
    /\ (pr_HasCheck p = true -> tn_results t i = None).
Proof.
  intros Hnd. unfold Run. set (r := New probes opts). set (d := o_InitialBackoff (rc_opts r)).
  assert (E : fst match rc_probes r with [] => (r, []) | _ => run_loop d turns r end = r
    \/ fst match rc_probes r with [] => (r, []) | _ => run_loop d turns r end
       = fst (run_loop d turns r)) by (destruct (rc_probes r); auto).
  destruct E as [-> | ->]; [by unfold r; rewrite New_unprobed|]. intros Hs.
  destruct (decide (name ∈ map pr_Name probes)) as [Hin|Hout].
  - destruct (run_loop_last d turns r) as [[_ E]|(t & r0 & Hl & Hp & E)]; rewrite E in Hs;
      [by unfold r in Hs; rewrite New_unprobed in Hs|].
    apply list_elem_of_fmap in Hin as (p & -> & [i Hi]%list_elem_of_lookup).
    exists t, i, p. split_and!; try done. intros Hc.
    rewrite <- (pass_state (tn_results t) r0 i p); [done|by unfold Names; rewrite Hp|by rewrite Hp|done].
  - rewrite run_loop_other in Hs by done. unfold r in Hs. by rewrite New_unprobed in Hs.
Qed.

Lemma dependencyProbes_names jwks secret : NoDup (map pr_Name (dependencyProbes jwks secret)).
Proof. destruct jwks, secret; apply (bool_decide_unpack _); vm_compute; exact I. Qed.

(** A check that came back healthy was timely and its probe returned nil. *)
Lemma readyz_ready timely checks body :
  readyz timely checks = (200, "ready"%string, body) ->
  forall i c e, checks !! i = Some c -> rd_Probe c = Some e -> e = None /\ timely i = true.
Proof.
  unfold readyz. destruct (forallb healthy _) eqn:E; [|done]. intros _ i c e Hi Hc.
  rewrite forallb_forall in E.
  specialize (E (if timely i then e else Some (DepError "context deadline exceeded"))).
  assert (H : healthy (if timely i then e else Some (DepError "context deadline exceeded")) = true).
  { apply E, list_elem_of_In, list_elem_of_lookup. exists i.
    by rewrite list_lookup_imap, Hi; cbn; rewrite Hc. }
  destruct (timely i); [|done]. by destruct e.
Qed.

(** ** Waiting *)

Lemma next_delay_range r delay :
  0 < o_Interval (rc_opts r) -> 0 < o_MaxBackoff (rc_opts r) <= 2 ^ 62 -> 0 < delay ->
  0 < next_delay r delay <= Z.max delay (Z.max (o_Interval (rc_opts r)) (o_MaxBackoff (rc_opts r))).
Proof.
  intros Hi Hm Hd. unfold next_delay. destruct (Settled r); [lia|].
  destruct (Z.ltb_spec delay (o_MaxBackoff (rc_opts r))); [|lia].
  rewrite int64_id by lia. destruct (Z.ltb_spec (o_MaxBackoff (rc_opts r)) (delay * 2)); lia.
Qed.

(** Every wait of the loop is positive and no longer than the longest of the
    interval, the largest backoff and the first backoff, so an outage never turns
    into a busy loop and a recovery is seen within that time. *)
Lemma run_waits_bounded turns probes opts :
  o_MaxBackoff (rc_opts (New probes opts)) <= 2 ^ 62 ->
  let o := rc_opts (New probes opts) in
  Forall (fun d => 0 < d <= Z.max (o_InitialBackoff o) (Z.max (o_Interval o) (o_MaxBackoff o)))
    (snd (Run turns (New probes opts))).
Proof.
  intros Hm o.
  assert (Ho : 0 < o_Interval o /\ 0 < o_InitialBackoff o /\ 0 < o_MaxBackoff o).
  { unfold o, New, or_default. cbn. repeat case_match; split_bools;
      unfold defaultInterval, defaultInitialBackoff, defaultMaxBackoff, Second; lia. }
  unfold Run. destruct (rc_probes (New probes opts)); [constructor|].
  fold o in Hm |- *. set (b := Z.max _ (Z.max _ _)).
  enough (H : forall r delay, rc_opts r = o -> 0 < delay <= b ->
    Forall (fun d => 0 < d <= b) (snd (run_loop delay turns r))) by (apply H; [done|lia]).
  induction turns as [|t turns IH]; intros r delay Er Hd; [constructor|]. cbn.
  assert (Er' : rc_opts (pass (tn_results t) r) = o) by (by rewrite (proj2 (pass_static _ _))).
  assert (Hn : 0 < next_delay (pass (tn_results t) r) delay <= b).
  { pose proof (next_delay_range (pass (tn_results t) r) delay) as N. rewrite Er' in N. lia. }
  destruct (tn_cancel t); cbn [snd]; [|by constructor|constructor; [exact Hn|constructor]].
  specialize (IH _ _ Er' Hn). destruct (run_loop _ _ _). by constructor.
Qed.

Lemma last_pass_turn turns t : last (passes turns) = Some t -> t ∈ turns.
Proof.
  induction turns as [|u turns IH]; [done|]. cbn [passes]. intros H.
  destruct (tn_cancel u); [|injection H as <-; by left..].
  destruct (passes turns) as [|v vs] eqn:E; [injection H as <-; by left|]. right. by apply IH.
Qed.

Lemma probeAuth_ok jwksURL newRequest Do :
  probeAuth jwksURL newRequest Do = None -> Do jwksURL = Ok 200.
Proof.
  unfold probeAuth. destruct (newRequest jwksURL); [done|]. destruct (Do jwksURL) as [code|]; [|done].
  by destruct (Z.eqb_spec code 200) as [->|].
Qed.

(** ** Claims *)

(** C40: readiness fails closed: outside development a replica only reports
    itself ready when the database answered in time, a token verifier is in
    place, the address of Auth's keys is configured and in the last pass of the
    loop a request to it was answered with a 200, and the last pass reached Secret
    and Secret's setup is done where they are configured.  Before the first pass
    has finished it is never ready. *)
Theorem readiness_fail_closed timely ping url newRequest Do secret opts turns missing verifier setup body :
  let rec := fst (Run turns (New (dependencyProbes (negb (is_empty url)) secret) opts)) in
  (forall t, t ∈ turns -> tn_results t 0%nat = probeAuth url newRequest (Do t)) ->
  readyz timely (readinessChecks ping rec (Authz.resolveHTTPGuard missing verifier false)
                   secret setup) = (200, "ready"%string, body) ->
  ping = None /\ timely 0%nat = true /\ is_Some verifier /\ url <> ""%string
  /\ (forall e, setup = Some e -> e = None)
  /\ exists t, last (passes turns) = Some t /\ t ∈ turns /\ Do t url = Ok 200
       /\ (secret = true -> tn_results t 1%nat = None).
Proof.
  intros rec Hauthp H. pose proof (readyz_ready _ _ _ H) as R.
  destruct (R 0%nat _ _ eq_refl eq_refl) as [Hping Ht].
  destruct (R 1%nat _ _ eq_refl eq_refl) as [Hauth _].
  destruct (R 2%nat _ _ eq_refl eq_refl) as [Hsecret _].
  destruct (R 3%nat _ _ eq_refl eq_refl) as [Hsetup _].
  destruct verifier as [v|]; [|done]. cbn in Hauth, Hsecret, Hsetup.
  pose proof (dependencyProbes_names (negb (is_empty url)) secret) as Hnd.
  destruct (healthy_was_probed _ _ _ _ Hnd Hauth) as (t & i & p & Hl & Hi & Hname & Hok).
  assert (Hcheck : pr_HasCheck p = true /\ url <> ""%string /\ i = 0%nat).
  { destruct url, secret, i as [|[|i]]; try discriminate Hi; injection Hi as <-; done. }
  destruct Hcheck as (Hc & Hu & ->). pose proof (last_pass_turn _ _ Hl) as Hturn.
  split_and!; [done..| |exists t; split_and!; [done|done| |]].
  - intros e ->. exact Hsetup.
  - apply (probeAuth_ok url newRequest). rewrite <- Hauthp by done. by apply Hok.
  - intros ->. destruct (healthy_was_probed _ _ _ _ Hnd Hsecret) as (t' & i & q & Hl' & Hi' & Hq & Hok').
    replace t with t' by congruence. destruct url; [done|].
    destruct i as [|[|i]]; try discriminate Hi'; injection Hi' as <-; [done|]. by apply Hok'.
Qed.

(** Auth refuses the connection in the first pass and answers in the second. *)
Definition keys_url : string := "http://auth:8080/.well-known/jwks.json".
Definition auth_answers (n : nat) : result string Z := match n with O => Err "connection refused"%string | _ => Ok 200 end.
Definition boot_turn (n : nat) : turn :=
  Build_turn (fun i => if (i =? 0)%nat then probeAuth keys_url (fun _ => None) (fun _ => auth_answers n) else None) Running.

Lemma readiness_fail_closed_witness :
  exists t, last (passes [boot_turn 0; boot_turn 1]) = Some t /\ t ∈ [boot_turn 0; boot_turn 1].
Proof.
  set (Do := fun (t : turn) (_ : string) => auth_answers (match tn_results t 0%nat with Some _ => 0 | None => 1 end)).
  destruct (readiness_fail_closed (fun _ => true) None keys_url (fun _ => None) Do true (Build_Options 0 0 0 0)
    [boot_turn 0; boot_turn 1] [] (Some Authz.demo_verifier) (Some None)
    (snd (readyz (fun _ => true) (readinessChecks None
       (fst (Run [boot_turn 0; boot_turn 1] (New (dependencyProbes true true) (Build_Options 0 0 0 0))))
       (Authz.resolveHTTPGuard [] (Some Authz.demo_verifier) false) true (Some None)))))
    as (_ & _ & _ & _ & _ & t & Hl & Ht & _).
  - intros t [->|[->|[]%elem_of_nil]%elem_of_cons]%elem_of_cons; reflexivity.
  - vm_compute. reflexivity.
  - exists t. split; [exact Hl|exact Ht].
Defined.
