(* ===== verification/Keys.v ===== *)
(** * Key pairs and their custody

    [internal/steward/keys.go] and [internal/steward/keystore.go]: the RSA key
    pairs service clients authenticate with, the public JWK set Auth is handed,
    and the store that keeps one PEM file per service.

    [crypto/rsa] and [crypto/x509] are parameters ([RSA]); what surrounds them
    (the PEM block, the key id, the JSON text of the key set) is defined.  The
    store's directory is a map from file names to contents, and each system
    call on it may fail: a failing write leaves a prefix of the text behind. *)

From S2P Require Import Prelude Json Storage World AppError Queries Resource Agent.

(** ** RSA keys *)

Class RSA := {
  rsa_key : Type;
  rsa_N : rsa_key -> Z;
  rsa_E : rsa_key -> Z;
  x509_MarshalPKCS1 : rsa_key -> string;
  x509_ParsePKCS1 : string -> result string rsa_key;
  (* [None] when the key is not an RSA key *)
  x509_ParsePKCS8 : string -> result string (option rsa_key);
}.

(** The documented behaviour of the encodings: a PEM block decodes to what was
    encoded, and so does a PKCS#1 key. *)
Class KeyLaws {C : Crypto} {R : RSA} : Prop := {
  pem_decode_encode : forall t b, pem_Decode (pem_EncodeToMemory t b) = Some (t, b);
  pem_encode_nonempty : forall t b, pem_EncodeToMemory t b <> ""%string;
  pkcs1_roundtrip : forall k, x509_ParsePKCS1 (x509_MarshalPKCS1 k) = Ok k;
}.

(** [big.Int.Bytes]: the bytes of the absolute value, most significant first. *)
Fixpoint be_bytes (fuel : nat) (z : Z) (acc : string) : string :=
  match fuel with
  | O => acc
  | S fuel =>
      if z =? 0 then acc
      else be_bytes fuel (z / 256) (String (ascii_of_nat (Z.to_nat (z mod 256))) acc)
  end.
Definition big_Bytes (z : Z) : string := be_bytes (S (Z.to_nat (Z.log2 (Z.abs z) / 8))) (Z.abs z) "".

(** A JSON string literal of text that needs no escape. *)
Definition quote : string := String (ascii_of_nat 34) "".
Definition json_lit (s : string) : string := quote +:+ s +:+ quote.
Definition json_field (k v : string) : string := json_lit k +:+ ":" +:+ json_lit v.

Section Keys.
Context {C : Crypto} {R : RSA}.

(** [fmt.Sprintf("%x", sum)[:16]] *)
Definition KeyID (pub : rsa_key) : string :=
  str_take 16 (hex_EncodeToString (sha256_Sum256 (big_Bytes (rsa_N pub)))).

(** [json.Marshal] prints the keys of a map in order; base64url and
    hexadecimal text needs no escape. *)
Definition jwksFromPublicKey (pub : rsa_key) : string :=
  let n := base64_RawURLEncoding (bytes (big_Bytes (rsa_N pub))) in
  let e := base64_RawURLEncoding (bytes (big_Bytes (rsa_E pub))) in
  "{" +:+ json_lit "keys" +:+ ":[{" +:+
    join "," [json_field "alg" "RS256"; json_field "e" e; json_field "kid" (KeyID pub);
              json_field "kty" "RSA"; json_field "n" n; json_field "use" "sig"] +:+ "}]}".

Definition ParseRSAPrivateKey (privatePEM : string) : result string rsa_key :=
  match pem_Decode privatePEM with
  | None => Err "control key PEM does not decode"%string
  | Some (_, der) =>
      match x509_ParsePKCS1 der with
      | Ok key => Ok key
      | Err err =>
          match x509_ParsePKCS8 der with
          | Err _ => Err ("parse control key: " +:+ err)
          | Ok (Some key) => Ok key
          | Ok None => Err "control key is not RSA"%string
          end
      end
  end.

Definition JWKSFromPrivatePEM (privatePEM : string) : result string string :=
  match ParseRSAPrivateKey privatePEM with
  | Ok key => Ok (jwksFromPublicKey key)
  | Err e => Err e
  end.

(** The keys the generator will yield; it fails when there is none. *)
Definition GenerateClientKey (supply : list rsa_key)
    : result string (string * string) * list rsa_key :=
  match supply with
  | [] => (Err "generate rsa key: entropy source failed"%string, [])
  | key :: supply =>
      (Ok (pem_EncodeToMemory "RSA PRIVATE KEY" (x509_MarshalPKCS1 key), jwksFromPublicKey key),
       supply)
  end.

(** The key set re-derived from a minted PEM is the one minted with it. *)
Lemma minted_jwks {L : KeyLaws} supply pem jwks supply' :
  GenerateClientKey supply = (Ok (pem, jwks), supply') ->
  JWKSFromPrivatePEM pem = Ok jwks /\ pem <> ""%string.
Proof.
  destruct supply as [|key rest]; [done|]. cbn. intros E. simplify_eq.
  unfold JWKSFromPrivatePEM, ParseRSAPrivateKey.
  rewrite pem_decode_encode, pkcs1_roundtrip. split; [done | apply pem_encode_nonempty].
Qed.
End Keys.

(** ** The key store *)

(** What a system call does wrong: its error, and how much a write got done. *)
Record io_fault := IoFault { io_msg : string; io_written : nat }.

Record Disk := mkDisk { d_files : gmap string string; d_faults : list (option io_fault) }.

Definition next_fault (d : Disk) : option io_fault * Disk :=
  match d_faults d with
  | [] => (None, d)
  | f :: fs => (f, mkDisk (d_files d) fs)
  end.
Definition set_file (name content : string) (d : Disk) : Disk :=
  mkDisk (<[name := content]> (d_files d)) (d_faults d).

Inductive os_error := ErrNotExist | ErrExist | OsError (msg : string).

Definition os_ReadFile (name : string) (d : Disk) : result os_error string * Disk :=
  match next_fault d with
  | (Some f, d) => (Err (OsError (io_msg f)), d)
  | (None, d) => (match d_files d !! name with Some c => Ok c | None => Err ErrNotExist end, d)
  end.
Definition os_MkdirAll (d : Disk) : result os_error () * Disk :=
  match next_fault d with
  | (Some f, d) => (Err (OsError (io_msg f)), d)
  | (None, d) => (Ok (), d)
  end.
(** [O_WRONLY|O_CREATE|O_EXCL] *)
Definition os_OpenExcl (name : string) (d : Disk) : result os_error () * Disk :=
  match next_fault d with
  | (Some f, d) => (Err (OsError (io_msg f)), d)
  | (None, d) =>
      match d_files d !! name with
      | Some _ => (Err ErrExist, d)
      | None => (Ok (), set_file name "" d)
      end
  end.
Definition os_WriteString (name content : string) (d : Disk) : result os_error () * Disk :=
  match next_fault d with
  | (Some f, d) => (Err (OsError (io_msg f)), set_file name (str_take (io_written f) content) d)
  | (None, d) => (Ok (), set_file name content d)
  end.
Definition os_Remove (name : string) (d : Disk) : result os_error () * Disk :=
  match next_fault d with
  | (Some f, d) => (Err (OsError (io_msg f)), d)
  | (None, d) =>
      match d_files d !! name with
      | Some _ => (Ok (), mkDisk (delete name (d_files d)) (d_faults d))
      | None => (Err ErrNotExist, d)
      end
  end.
Definition os_Error (e : os_error) : string :=
  match e with
  | ErrNotExist => "file does not exist"
  | ErrExist => "file already exists"
  | OsError m => m
  end%string.

Module FileKeyStore.
Section Store.
Context {T : GoText} (dir : string).

(** The name of the service's file in the store's directory. *)
Definition path (service : string) : result string string :=
  if is_empty (TrimSpace dir)
  then Err "STEWARD_KEY_DIR is required to record generated service client keys"%string
  else
    let name := TrimSpace service in
    if is_empty name || Contains name "/" || Contains name ".."
    then Err ("invalid steward service name " +:+ fmt_q service)
    else Ok (name +:+ ".pem").

(** The recorded PEM, and whether a file exists. *)
Definition PrivateKey (service : string) (d : Disk) : result string (string * bool) * Disk :=
  match path service with
  | Err e => (Err e, d)
  | Ok p =>
      match os_ReadFile p d with
      | (Ok b, d) => (Ok (b, true), d)
      | (Err ErrNotExist, d) => (Ok (""%string, false), d)
      | (Err e, d) => (Err ("read steward key for " +:+ fmt_q service +:+ ": " +:+ os_Error e), d)
      end
  end.

Definition Record_ (service privateKeyPEM : string) (d : Disk) : result string () * Disk :=
  match path service with
  | Err e => (Err e, d)
  | Ok p =>
      match os_MkdirAll d with
      | (Err e, d) => (Err (os_Error e), d)
      | (Ok _, d) =>
          match os_OpenExcl p d with
          | (Err ErrExist, d) => (Ok (), d)
          | (Err e, d) => (Err (os_Error e), d)
          | (Ok _, d) =>
              match os_WriteString p privateKeyPEM d with
              | (Err e, d) => (Err (os_Error e), d)
              | (Ok _, d) => (Ok (), d)
              end
          end
      end
  end.

Definition Discard (service : string) (d : Disk) : result string () * Disk :=
  match path service with
  | Err e => (Err e, d)
  | Ok p =>
      match os_Remove p d with
      | (Err ErrNotExist, d) => (Ok (), d)
      | (Err e, d) => (Err (os_Error e), d)
      | (Ok _, d) => (Ok (), d)
      end
  end.

(** *** What the store promises *)

Lemma next_fault_files d : d_files (snd (next_fault d)) = d_files d.
Proof. unfold next_fault. by destruct (d_faults d). Qed.

Lemma read_files service d : d_files (snd (PrivateKey service d)) = d_files d.
Proof.
  unfold PrivateKey, os_ReadFile. destruct (path service) as [p|]; [|done].
  pose proof (next_fault_files d) as E. destruct (next_fault d) as [[f|] d1]; cbn in *; [done|].
  by destruct (d_files d1 !! p).
Qed.

(** No call of [Record_] changes a file that exists. *)
Lemma record_keeps service pem d p c :
  d_files d !! p = Some c -> d_files (snd (Record_ service pem d)) !! p = Some c.
Proof.
  intros Hp. unfold Record_. destruct (path service) as [q|]; [|done].
  unfold os_MkdirAll. pose proof (next_fault_files d) as E1.
  destruct (next_fault d) as [[f|] d1]; cbn in *; [congruence|].
  unfold os_OpenExcl. pose proof (next_fault_files d1) as E2.
  destruct (next_fault d1) as [[f|] d2]; cbn in *; [congruence|].
  destruct (d_files d2 !! q) as [c'|] eqn:Eq; cbn; [congruence|].
  assert (Hne : p <> q) by (intros ->; congruence).
  unfold os_WriteString, next_fault, set_file. cbn.
  destruct (d_faults d2) as [|[f|] fs]; cbn; rewrite !lookup_insert_ne by done; congruence.
Qed.

(** A recorded key is read back. *)
Lemma record_then_read service pem d d1 :
  d_faults d = [] -> Record_ service pem d = (Ok (), d1) ->
  exists p, path service = Ok p
    /\ PrivateKey service d1 = (Ok (default pem (d_files d !! p), true), d1).
Proof.
  intros Hf. unfold Record_. destruct (path service) as [p|] eqn:Ep; [|done].
  unfold os_MkdirAll, os_OpenExcl, os_WriteString, next_fault. rewrite Hf. cbn. rewrite Hf.
  destruct (d_files d !! p) as [c|] eqn:Ec; cbn.
  - intros [= <-]. exists p. split; [done|]. unfold PrivateKey, os_ReadFile, next_fault.
    by rewrite Ep, Hf, Ec.
  - rewrite Hf. cbn. intros [= <-]. exists p. split; [done|].
    unfold PrivateKey, os_ReadFile, next_fault. rewrite Ep. cbn. rewrite Hf. cbn.
    by rewrite lookup_insert_eq, Ec.
Qed.
End Store.
End FileKeyStore.
