(* ===== verification/Process.v ===== *)
(** * A process and the services it calls

    Core at work outside its database: a process reads and writes the key
    directory, draws RSA keys, queries the database and calls another service
    whose state it does not own.  [P] is the state-and-error monad of such
    programs, [Node] the state, and [hoare] the program logic the setup and
    steward theorems are proved in: a triple speaks of every answer the peer
    may give and of every fault of the database and the disk. *)

From S2P Require Import Prelude Json Storage World AppError Queries Resource Agent Keys.

Definition P (S E A : Type) : Type := S -> result E A * S.
#[global] Typeclasses Opaque M P.

#[global] Instance P_ret {S E} : MRet (P S E) := fun _ a s => (Ok a, s).
#[global] Instance P_bind {S E} : MBind (P S E) := fun _ _ k m s =>
  match m s with
  | (Ok a, s') => k a s'
  | (Err e, s') => (Err e, s')
  end.

Definition p_fail {S E A} (e : E) : P S E A := fun s => (Err e, s).
Definition p_lift {S E A} (r : result E A) : P S E A := fun s => (r, s).
Definition p_try {S E F A} (m : P S E A) : P S F (result E A) := fun s =>
  let '(r, s') := m s in (Ok r, s').
Definition p_map_err {S E F A} (f : E -> F) (m : P S E A) : P S F A := fun s =>
  let '(r, s') := m s in (result_map_err f r, s').
(** The outcome of [m], handed to a continuation with the error, Go's
    [if err := f(); err != nil { ... }]. *)
Definition p_catch {S E F A B} (m : P S E A) (k : result E A -> P S F B) : P S F B :=
  p_try m ≫= k.

(** What a success says of the parts. *)
Lemma p_bind_ok {S E A B} (m : P S E A) (k : A -> P S E B) s b s' :
  (m ≫= k) s = (Ok b, s') -> exists a s1, m s = (Ok a, s1) /\ k a s1 = (Ok b, s').
Proof. unfold mbind, P_bind. destruct (m s) as [[a|e] s1]; [eauto|done]. Qed.
Lemma p_map_err_ok {S E F A} (f : E -> F) (m : P S E A) s a s' :
  p_map_err f m s = (Ok a, s') -> m s = (Ok a, s').
Proof. unfold p_map_err. destruct (m s) as [[x|e] s1]; [by intros [= -> ->]|done]. Qed.

(** ** The state of a process *)

Section Node.
Context {R : RSA}.

Record Node (St : Type) := mkNode {
  n_world : World; n_disk : Disk; n_keys : list rsa_key; n_peer : St }.
End Node.
Arguments mkNode {R St}.
Arguments n_world {R St} n.
Arguments n_disk {R St} n.
Arguments n_keys {R St} n.
Arguments n_peer {R St} n.

Section Access.
Context {R : RSA} {St : Type}.

Definition with_world (w : World) (n : Node St) : Node St :=
  mkNode w (n_disk n) (n_keys n) (n_peer n).
Definition with_disk (d : Disk) (n : Node St) : Node St :=
  mkNode (n_world n) d (n_keys n) (n_peer n).
Definition with_keys (k : list rsa_key) (n : Node St) : Node St :=
  mkNode (n_world n) (n_disk n) k (n_peer n).
Definition with_peer (p : St) (n : Node St) : Node St :=
  mkNode (n_world n) (n_disk n) (n_keys n) p.

(** A query, a system call, a draw, a call of the peer. *)
Definition on_db {E A} (m : M E A) : P (Node St) E A := fun n =>
  let '(r, w) := m (n_world n) in (r, with_world w n).
Definition on_disk {E A} (m : Disk -> result E A * Disk) : P (Node St) E A := fun n =>
  let '(r, d) := m (n_disk n) in (r, with_disk d n).
Definition on_keys {E A} (m : list rsa_key -> result E A * list rsa_key) : P (Node St) E A :=
  fun n => let '(r, k) := m (n_keys n) in (r, with_keys k n).
Definition on_peer {E A} (m : St -> result E A * St) : P (Node St) E A := fun n =>
  let '(r, p) := m (n_peer n) in (r, with_peer p n).
End Access.

(** ** A service and the log of its calls *)

(** A service answers requests [Req]; the type of an answer depends on the
    request.  Every call carries the caller's credential. *)
Definition Service (Req : Type) (Resp : Req -> Type) (Er St : Type) : Type :=
  forall r : Req, string -> St -> result Er (Resp r) * St.

Section Log.
Context {Req : Type} {Resp : Req -> Type} {Er St : Type}.

(** A call with its answer. *)
Record rpc := Rpc { rpc_req : Req; rpc_cred : string; rpc_answer : result Er (Resp rpc_req) }.

(** Any service, with its calls and answers recorded. *)
Definition recorded (srv : Service Req Resp Er St) : Service Req Resp Er (St * list rpc) :=
  fun r cred st =>
    let '(a, st') := srv r cred (fst st) in (a, (st', snd st ++ [Rpc r cred a])).
End Log.
Arguments rpc {Req} Resp Er.
Arguments Rpc {Req Resp Er}.

(** ** Triples *)

Definition hoare {S E A} (Pre : S -> Prop) (m : P S E A) (Post : result E A -> S -> Prop) : Prop :=
  forall s, Pre s -> Post (fst (m s)) (snd (m s)).

Section Hoare.
Context {S : Type}.

Lemma hoare_ret {E A} (Post : result E A -> S -> Prop) a :
  hoare (Post (Ok a)) (mret a) Post.
Proof. intros s H. exact H. Qed.
Lemma hoare_fail {E A} (Post : result E A -> S -> Prop) e :
  hoare (Post (Err e)) (p_fail e) Post.
Proof. intros s H. exact H. Qed.
Lemma hoare_conseq {E A} (Pre Pre' : S -> Prop) (m : P S E A) (Post Post' : result E A -> S -> Prop) :
  hoare Pre m Post -> (forall s, Pre' s -> Pre s) -> (forall r s, Post r s -> Post' r s) ->
  hoare Pre' m Post'.
Proof. intros H H1 H2 s Hs. by apply H2, H, H1. Qed.

(** An error of the first part ends the whole. *)
Lemma hoare_bind {E A B} (Pre : S -> Prop) (m : P S E A) (k : A -> P S E B)
    (Mid : result E A -> S -> Prop) (Post : result E B -> S -> Prop) :
  hoare Pre m Mid ->
  (forall e s, Mid (Err e) s -> Post (Err e) s) ->
  (forall a, hoare (Mid (Ok a)) (k a) Post) ->
  hoare Pre (m ≫= k) Post.
Proof.
  intros Hm He Hk s Hs. specialize (Hm s Hs). unfold mbind, P_bind.
  destruct (m s) as [[a|e] s']; cbn in *; [by apply Hk | by apply He].
Qed.

(** What does not depend on the state holds throughout. *)
Lemma hoare_frame {E A} (F : Prop) (Pre Pre' : S -> Prop) (m : P S E A) (Post : result E A -> S -> Prop) :
  hoare Pre m Post -> (forall s, Pre' s -> Pre s /\ F) ->
  hoare Pre' m (fun r s => Post r s /\ F).
Proof. intros H Hp s Hs. destruct (Hp s Hs). split; [by apply H | done]. Qed.

Lemma hoare_try {E F A} (Pre : S -> Prop) (m : P S E A) (Post : result E A -> S -> Prop) :
  hoare Pre m Post ->
  hoare Pre (p_try m : P S F _) (fun r s => exists a, r = Ok a /\ Post a s).
Proof. intros Hm s Hs. specialize (Hm s Hs). unfold p_try. destruct (m s); cbn in *. eauto. Qed.

Lemma hoare_catch {E F A B} (Pre : S -> Prop) (m : P S E A) (k : result E A -> P S F B)
    (Mid : result E A -> S -> Prop) (Post : result F B -> S -> Prop) :
  hoare Pre m Mid -> (forall r, hoare (Mid r) (k r) Post) -> hoare Pre (p_catch m k) Post.
Proof.
  intros Hm Hk s Hs. specialize (Hm s Hs). unfold p_catch, mbind, P_bind, p_try.
  destruct (m s) as [r s']; cbn in *. by apply Hk.
Qed.

Lemma hoare_map_err {E F A} (f : E -> F) (Pre : S -> Prop) (m : P S E A)
    (Mid : result E A -> S -> Prop) (Post : result F A -> S -> Prop) :
  hoare Pre m Mid ->
  (forall a s, Mid (Ok a) s -> Post (Ok a) s) -> (forall e s, Mid (Err e) s -> Post (Err (f e)) s) ->
  hoare Pre (p_map_err f m) Post.
Proof.
  intros Hm H1 H2 s Hs. specialize (Hm s Hs). unfold p_map_err.
  destruct (m s) as [[a|e] s']; cbn in *; auto.
Qed.

(** *** Invariants: what a program keeps whatever its result *)

Definition keeps {E A} (I : S -> Prop) (m : P S E A) : Prop := hoare I m (fun _ => I).

Lemma keeps_ret {E A} I (a : A) : keeps I (mret a : P S E A).
Proof. by intros s. Qed.
Lemma keeps_fail {E A} I (e : E) : keeps I (p_fail e : P S E A).
Proof. by intros s. Qed.
Lemma keeps_lift {E A} I (r : result E A) : keeps I (p_lift r).
Proof. by intros s. Qed.
Lemma keeps_bind {E A B} I (m : P S E A) (k : A -> P S E B) :
  keeps I m -> (forall a, keeps I (k a)) -> keeps I (m ≫= k).
Proof. intros. by eapply hoare_bind. Qed.
Lemma keeps_catch {E F A B} I (m : P S E A) (k : result E A -> P S F B) :
  keeps I m -> (forall a, keeps I (k a)) -> keeps I (p_catch m k).
Proof. intros. by eapply hoare_catch. Qed.
Lemma keeps_try {E F A} I (m : P S E A) : keeps I m -> keeps I (p_try m : P S F _).
Proof. intros Hm s Hs. specialize (Hm s Hs). unfold p_try. by destruct (m s). Qed.
Lemma keeps_map_err {E F A} (f : E -> F) I (m : P S E A) : keeps I m -> keeps I (p_map_err f m).
Proof. intros Hm s Hs. specialize (Hm s Hs). unfold p_map_err. by destruct (m s). Qed.
End Hoare.

Create HintDb keeps.
#[export] Hint Resolve keeps_ret keeps_fail keeps_lift : keeps.

Ltac keep_step :=
  lazymatch goal with
  | |- keeps _ (mret _) => apply keeps_ret
  | |- keeps _ (p_fail _) => apply keeps_fail
  | |- keeps _ (p_lift _) => apply keeps_lift
  | |- keeps _ (mbind _ _) => apply keeps_bind; [|intros ?]
  | |- keeps _ (p_catch _ _) => apply keeps_catch; [|intros ?]
  | |- keeps _ (p_try _) => apply keeps_try
  | |- keeps _ (p_map_err _ _) => apply keeps_map_err
  | |- keeps _ (match ?x with _ => _ end) => destruct x
  | |- keeps _ (let _ := _ in _) => cbv zeta
  end.
(** Runs through a program: what remains are its calls. *)
Ltac keep := repeat (first [keep_step | solve [eauto with keeps]]).

Section NodeRules.
Context {R : RSA} {St : Type}.
Implicit Types I : Node St -> Prop.

Lemma keeps_db {E A} I (m : M E A) :
  (forall n, I n -> I (with_world (snd (m (n_world n))) n)) -> keeps I (on_db m).
Proof. intros H n Hn. specialize (H n Hn). unfold on_db. by destruct (m (n_world n)). Qed.
Lemma keeps_disk {E A} I (m : Disk -> result E A * Disk) :
  (forall n, I n -> I (with_disk (snd (m (n_disk n))) n)) -> keeps I (on_disk m).
Proof. intros H n Hn. specialize (H n Hn). unfold on_disk. by destruct (m (n_disk n)). Qed.
Lemma keeps_keys {E A} I (m : list rsa_key -> result E A * list rsa_key) :
  (forall n, I n -> I (with_keys (snd (m (n_keys n))) n)) -> keeps I (on_keys m).
Proof. intros H n Hn. specialize (H n Hn). unfold on_keys. by destruct (m (n_keys n)). Qed.
Lemma keeps_peer {E A} I (m : St -> result E A * St) :
  (forall n, I n -> I (with_peer (snd (m (n_peer n))) n)) -> keeps I (on_peer m).
Proof. intros H n Hn. specialize (H n Hn). unfold on_peer. by destruct (m (n_peer n)). Qed.
End NodeRules.
