(* ===== verification/Http.v ===== *)
(** * HTTP responses

    [internal/platform/response]: the envelope every handler answers with.
    [Data] is what the handler puts in the envelope's data field. *)

From S2P Require Import Prelude Json Storage World AppError.

Record reply (Data : Type) := {
  rp_status : Z; rp_success : bool; rp_data : option Data; rp_message : string;
  rp_error : string; rp_details : string; rp_retry_after : option Z }.
Arguments rp_status {Data} r.
Arguments rp_success {Data} r.
Arguments rp_data {Data} r.
Arguments rp_message {Data} r.
Arguments rp_error {Data} r.
Arguments rp_details {Data} r.
Arguments rp_retry_after {Data} r.

Section Response.
Context {Data : Type}.

Definition Success (data : Data) (message : string) : reply Data :=
  Build_reply Data 200 true (Some data) message "" "" None.
Definition Created (data : Data) (message : string) : reply Data :=
  Build_reply Data 201 true (Some data) message "" "" None.
Definition Error (code : Z) (err : string) : reply Data :=
  Build_reply Data code false None "" err "" None.
Definition ValidationErrorReply (err : string) : reply Data :=
  Build_reply Data 400 false None "" "Validation failed" err None.
Definition BadRequest : reply Data := Error 400 "Invalid request".
Definition BadRequestBody : reply Data := Error 400 "Invalid request body".
(** [Success(w, nil, message)]. *)
Definition SuccessNil (message : string) : reply Data :=
  Build_reply Data 200 true None message "" "" None.
Definition of_service_error (fallbackMsg : string) (err : error) : reply Data :=
  let e := HandleServiceError fallbackMsg err in
  Build_reply Data (he_status e) false None "" (he_error e) "" (he_retry_after e).
End Response.
