(* ===== verification/Transports.v ===== *)
(** * One error, two transports

    The remaining constructors of [internal/platform/apperror], the gRPC
    translation of [apperror/grpc.go] with its details, and the rest of the HTTP
    envelope of [internal/platform/response]: what a caller is told does not
    depend on the transport it used. *)

From S2P Require Import Prelude Json Storage World AppError Http.

(** ** What an error tells an HTTP caller

    [response.HandleServiceError] is the one place service errors become HTTP
    answers. *)

(** The errors whose text is written for the caller. *)
Definition client_facing (e : error) : bool :=
  match e with InternalError _ _ | DbError _ | PlainError _ => false | _ => true end.

Lemma errors_As_inv {A} (pick : error -> option A) e x :
  errors_As pick e = Some x -> exists c, c ∈ unwrap_chain e /\ pick c = Some x.
Proof.
  unfold errors_As. destruct (omap pick (unwrap_chain e)) as [|y l] eqn:E; [done|].
  cbn. intros ?. simplify_eq.
  assert (H : x ∈ omap pick (unwrap_chain e)) by (rewrite E; left).
  by apply list_elem_of_omap in H.
Qed.

(** A match of the switch: its error is of the chain, and its own text. *)
Lemma picked_facing (pick : error -> option error) err e :
  (forall c x, pick c = Some x -> x = c /\ client_facing c = true) ->
  errors_As pick err = Some e ->
  exists c, c ∈ unwrap_chain err /\ client_facing c = true /\ error_Error e = error_Error c.
Proof. intros Hp (c & Hc & E)%errors_As_inv. destruct (Hp _ _ E) as [-> H]. eauto. Qed.

Lemma ceil_seconds_spec d : (ceil_seconds d - 1) * Second < d <= ceil_seconds d * Second.
Proof.
  unfold ceil_seconds. pose proof (Z.div_mod (- d) Second ltac:(discriminate)).
  pose proof (Z.mod_pos_bound (- d) Second ltac:(reflexivity)). lia.
Qed.

(** An HTTP answer never carries internal detail: a 500 carries the
    handler's fallback message and nothing of the error; any other answer is one
    of the two fixed database messages or the text of an error of the chain that
    is written for callers.  A Retry-After is the shortest whole number of
    seconds that is not shorter than the limiter asked for (up to the 2^22 seconds
    for which the floating-point division is exact). *)
Theorem http_errors_opaque fallback err :
  let r := HandleServiceError fallback err in
  (he_status r = 500 -> he_error r = fallback)
  /\ (he_status r <> 500 ->
        he_error r = "A record with these values already exists"%string
        \/ he_error r = "A referenced record does not exist"%string
        \/ exists c, c ∈ unwrap_chain err /\ client_facing c = true /\ he_error r = error_Error c)
  /\ (forall n, he_retry_after r = Some n -> exists reason d,
        TooManyRequestsError reason d ∈ unwrap_chain err /\ 0 < d
        /\ (d < 2 ^ 22 * Second -> (n - 1) * Second < d <= n * Second)).
Proof.
  intros r. unfold r, HandleServiceError.
  do 6 (match goal with
  | |- context [match errors_As ?p err with _ => _ end] =>
      destruct (errors_As p err) as [e|] eqn:E;
        [cbn; split_and!; [done| |done]; intros _; do 2 right;
         apply (picked_facing p); [|exact E]; by intros [] ? [= <-]|clear E]
  end).
  destruct (errors_As as_Throttled err) as [[e d]|] eqn:E;
    [|destruct (errors_As as_PgError err) as [code|]].
  - cbn. split_and!; [done|intros _; do 2 right|].
    + apply errors_As_inv in E as (c & Hc & Ep). exists c.
      destruct c; try done. cbn in Ep. injection Ep as <- <-. by split_and!.
    + intros n. destruct (Z.ltb_spec 0 d); [|done]. intros [= <-].
      apply errors_As_inv in E as (c & Hc & Ep). destruct c; try done.
      cbn in Ep. injection Ep as _ ->.
      exists Reason, d. split_and!; [done..|intros _; apply ceil_seconds_spec].
  - repeat case_match; cbn; split_and!; try done; auto.
  - by split_and!.
Qed.

(** ** Constructors *)

Definition NewNotFoundWithReason (reason : string) : error := NotFoundError "" reason.
Definition NewConflict (reason : string) : error := ConflictError reason.
Definition NewUnauthorized (reason : string) : error := UnauthorizedError reason.
Definition NewTooManyRequests (reason : string) : error := TooManyRequestsError reason 0.
Definition NewTooManyRequestsAfter (reason : string) (retryAfter : Z) : error :=
  TooManyRequestsError reason retryAfter.
Definition NewInternal (reason : string) (err : option error) : error := InternalError reason err.
Definition NewServiceUnavailable (reason : string) : error := ServiceUnavailableError reason.

(** ** gRPC *)

(** The messages of [google.rpc.errdetails] the translation attaches. *)
Inductive detail :=
  | ErrorInfo (Reason Domain : string)
  | BadRequestDetail (FieldViolations : list (string * string))
  | RetryInfo (RetryDelay : Z).

(** Protocol buffers carry UTF-8 text only; a NUL is allowed in it. *)
Definition proto_text (s : string) : bool :=
  text (string_of_list_ascii (filter (fun a => a <> "000"%char) (list_ascii_of_string s))).

Definition detail_marshals (d : detail) : bool :=
  match d with
  | ErrorInfo reason domain => proto_text reason && proto_text domain
  | BadRequestDetail vs => forallb (fun v => proto_text (fst v) && proto_text (snd v)) vs
  | RetryInfo _ => true
  end.

Record detailed := Detailed { dt_status : status; dt_details : list detail }.

(** [st.WithDetails]: refused when the message cannot be marshalled; the code is
    never OK here. *)
Definition WithDetails (st : detailed) (d : detail) : option detailed :=
  if detail_marshals d then Some (Detailed (dt_status st) (dt_details st ++ [d])) else None.
Definition try_details (st : detailed) (d : detail) : detailed := default st (WithDetails st d).

Definition grpcErrorDomain : string := "maintainerd.auth".

(** An error is a gRPC status already, or an error of the services. *)
Inductive transport_error := StatusError (st : detailed) | ServiceError (err : error).

Definition ToGRPCError (err : option transport_error) : option detailed :=
  match err with
  | None => None
  | Some (StatusError st) => Some st
  | Some (ServiceError err) =>
      let '(code, message, reason) := classifyGRPCError err in
      let st := try_details (Detailed (Status code message) []) (ErrorInfo reason grpcErrorDomain) in
      let st := match errors_As as_Validation err with
                | Some v => try_details st (BadRequestDetail [("request"%string, error_Error v)])
                | None => st
                end in
      let st := match errors_As as_Throttled err with
                | Some (_, d) => if 0 <? d then try_details st (RetryInfo d) else st
                | None => st
                end in
      Some st
  end.

(** ** HTTP *)

(** The wire form of a reply: the members [omitempty] leaves out are absent. *)
Definition omit_text (key s : string) : object := if is_empty s then [] else [(key, VStr s)].

Definition ErrorWithCode {Data} (status : Z) (code err : string) : reply Data * string :=
  (Error status err, code).

Definition response_json (data : option value) (rep : reply value) (code : string) : object :=
  [("success"%string, VBool (rp_success rep))]
  ++ match data with Some v => [("data"%string, v)] | None => [] end
  ++ omit_text "message" (rp_message rep) ++ omit_text "error" (rp_error rep) ++ omit_text "code" code
  ++ omit_text "details" (rp_details rep).

(** The logger of a request: the one the middleware stored, or the default. *)
Definition LoggerFromContext {L} (stored : option L) (fallback : L) : L := default fallback stored.

(** ** Theorems *)

(** The HTTP status that says what a gRPC code says. *)
Definition http_of (c : code) : Z :=
  match c with
  | codes_NotFound => 404 | codes_AlreadyExists => 409 | codes_PermissionDenied => 403
  | codes_Unauthenticated => 401 | codes_InvalidArgument => 400 | codes_Unavailable => 503
  | codes_ResourceExhausted => 429 | _ => 500
  end.

Lemma try_details_status st d : dt_status (try_details st d) = dt_status st.
Proof. unfold try_details, WithDetails. by destruct (detail_marshals d). Qed.

Lemma ToGRPCError_status err st : ToGRPCError (Some (ServiceError err)) = Some st ->
  let '(code, message, _) := classifyGRPCError err in dt_status st = Status code message.
Proof.
  cbn. destruct (classifyGRPCError err) as [[code message] reason]. intros [= <-].
  repeat case_match; by rewrite ?try_details_status.
Qed.

(** Runs through the typed errors both switches distinguish, in their order. *)
Ltac typed_cases err :=
  destruct (errors_As as_NotFound err); [cbn; by intros ->|];
  destruct (errors_As as_Conflict err); [cbn; by intros ->|];
  destruct (errors_As as_Forbidden err); [cbn; by intros ->|];
  destruct (errors_As as_Unauthorized err); [cbn; by intros ->|];
  destruct (errors_As as_Validation err); [cbn; by intros ->|];
  destruct (errors_As as_Unavailable err); [cbn; by intros ->|];
  destruct (errors_As as_Throttled err) as [[? ?]|]; [cbn; by intros ->|].

(** A caller learns the same over both transports.  Unless the error is a raw
    constraint violation, for which only the HTTP side has a message, the status
    over HTTP is the one the gRPC code stands for; and unless that is an internal
    error, the text is the same, and it is the text of an error of the chain that
    was written for callers. *)
Theorem transports_agree fallback err st :
  errors_As as_PgError err = None -> ToGRPCError (Some (ServiceError err)) = Some st ->
  let h := HandleServiceError fallback err in
  he_status h = http_of (st_code (dt_status st))
  /\ (st_code (dt_status st) <> codes_Internal -> he_error h = st_message (dt_status st)).
Proof.
  intros Hpg Hst%ToGRPCError_status. revert Hst. unfold HandleServiceError, classifyGRPCError.
  typed_cases err.
  rewrite Hpg. destruct (errors_As as_Internal err); cbn; intros ->; by split.
Qed.

(** The cause an internal error wraps stays on the server: over gRPC the message
    is the one text the code that raised it chose, or a generic one. *)
Theorem grpc_cause_hidden err st : ToGRPCError (Some (ServiceError err)) = Some st ->
  st_code (dt_status st) = codes_Internal ->
  st_message (dt_status st) = "internal server error"%string
  \/ exists reason cause, InternalError reason cause ∈ unwrap_chain err /\ st_message (dt_status st) = reason.
Proof.
  intros Hst%ToGRPCError_status. revert Hst. unfold classifyGRPCError.
  typed_cases err.
  destruct (errors_As as_Internal err) as [reason|] eqn:E; cbn; intros ->; cbn; [|auto].
  intros _. right. apply errors_As_inv in E as ([] & Hin & Ep); try done. cbn in Ep. simplify_eq. eauto.
Qed.

(** A throttled caller learns the delay over both transports, and the HTTP one,
    in whole seconds, is never shorter. *)
Theorem retry_hints_agree fallback reason d st : 0 < d ->
  ToGRPCError (Some (ServiceError (NewTooManyRequestsAfter reason d))) = Some st ->
  RetryInfo d ∈ dt_details st
  /\ exists n, he_retry_after (HandleServiceError fallback (NewTooManyRequestsAfter reason d)) = Some n
       /\ d <= n * Second.
Proof.
  intros Hd. cbn. apply Z.ltb_lt in Hd as Hd'. rewrite Hd'. intros [= <-]. split.
  - unfold try_details, WithDetails. cbn. right. by left.
  - eexists. split; [done|]. apply ceil_seconds_spec.
Qed.
