(* ===== verification/SetupConfig.v ===== *)
(** * Configuration and transport of the first-run setup

    [internal/setup/config.go] and [internal/setup/dial.go]: the settings read
    from the environment, and the decision between plaintext and TLS for the
    connection that carries the bootstrap token.

    The environment is a function; the file system, the certificate parsers and
    [grpc.NewClient] are parameters ([Transport]). *)

From S2P Require Import Prelude Json Storage World AppError.
From S2P Require Gateway.

Record Config := {
  Enabled : bool;
  AuthAddr : string; AuthToken : string; AuthCAFile : string; AuthServerName : string;
  AuthClientCertFile : string; AuthClientKeyFile : string;
  SecretSetupAddr : string; SecretSetupToken : string; SecretSetupCAFile : string;
  SecretSetupServerName : string; SecretSetupClientCertFile : string;
  SecretSetupClientKeyFile : string;
  TenantName : string; TenantDisplayName : string; AdminUsername : string;
  AdminFullname : string; AdminEmail : string; AdminPassword : string;
  CoreServiceName : string; CoreAudience : string; ConsoleDomain : string;
  ConsoleRedirectURIs : list string;
  SecretProject : string; SecretEnvironment : string;
  AuthEndpoint : string; SecretEndpoint : string; DockerEndpoint : string;
  SecretAudience : string; RuntimeAudience : string; AgentAudience : string;
  StewardKeyDir : string; SystemAuthImage : string; SystemSecretImage : string;
  DeploymentMode : string }.

(** [strings.Split] on a comma. *)
Fixpoint split_comma (cur : string) (s : string) : list string :=
  match s with
  | EmptyString => [cur]
  | String a s' =>
      if Ascii.eqb a (ascii_of_nat 44) then cur :: split_comma "" s'
      else split_comma (cur +:+ String a "") s'
  end.

Section Env.
Context (Getenv : string -> string).

Definition env (key def : string) : string :=
  let v := TrimSpace (Getenv key) in if negb (is_empty v) then v else def.

Definition envBool (key : string) : bool :=
  Gateway.equal_fold_ascii (TrimSpace (Getenv key)) "true".

Definition envList (key def : string) : list string :=
  let raw := env key def in
  if is_empty raw then []
  else List.filter (fun s => negb (is_empty s)) (map TrimSpace (split_comma "" raw)).

Definition LoadConfig : Config :=
  let authAddr := env "AUTH_SETUP_ADDR" "" in
  let consoleDomain := env "CORE_CONSOLE_DOMAIN" "console.maintainerd.local" in
  {| Enabled := envBool "SETUP_ENABLED";
     AuthAddr := authAddr;
     AuthToken := env "AUTH_SETUP_BOOTSTRAP_TOKEN" "";
     AuthCAFile := env "AUTH_SETUP_CA_FILE" "";
     AuthServerName := env "AUTH_SETUP_SERVER_NAME" "";
     AuthClientCertFile := env "AUTH_SETUP_CLIENT_CERT_FILE" "";
     AuthClientKeyFile := env "AUTH_SETUP_CLIENT_KEY_FILE" "";
     SecretSetupAddr := env "SECRET_SETUP_ADDR" "";
     SecretSetupToken := env "SECRET_SETUP_BOOTSTRAP_TOKEN" "";
     SecretSetupCAFile := env "SECRET_SETUP_CA_FILE" "";
     SecretSetupServerName := env "SECRET_SETUP_SERVER_NAME" "";
     SecretSetupClientCertFile := env "SECRET_SETUP_CLIENT_CERT_FILE" "";
     SecretSetupClientKeyFile := env "SECRET_SETUP_CLIENT_KEY_FILE" "";
     TenantName := env "SETUP_TENANT_NAME" "maintainerd";
     TenantDisplayName := env "SETUP_TENANT_DISPLAY_NAME" "Maintainerd";
     AdminUsername := env "SETUP_ADMIN_USERNAME" "admin";
     AdminFullname := env "SETUP_ADMIN_FULLNAME" "Maintainerd Admin";
     AdminEmail := env "SETUP_ADMIN_EMAIL" "admin@maintainerd.local";
     AdminPassword := env "SETUP_ADMIN_PASSWORD" "";
     CoreServiceName := "maintainerd-core";
     CoreAudience := env "CORE_API_AUDIENCE" "https://core.maintainerd.local";
     ConsoleDomain := consoleDomain;
     ConsoleRedirectURIs := envList "CORE_CONSOLE_REDIRECT_URIS"
                              ("https://" +:+ consoleDomain +:+ "/auth/callback");
     SecretProject := env "SECRET_PROJECT" "default";
     SecretEnvironment := env "SECRET_ENVIRONMENT" "default";
     AuthEndpoint := authAddr;
     SecretEndpoint := env "SECRET_ENDPOINT" "";
     DockerEndpoint := env "DOCKER_ENDPOINT" "";
     SecretAudience := env "SECRET_API_AUDIENCE" "https://secret.maintainerd.local";
     RuntimeAudience := env "RUNTIME_API_AUDIENCE" "https://runtime.maintainerd.local";
     AgentAudience := env "AGENT_API_AUDIENCE" "https://agent.maintainerd.local";
     StewardKeyDir := env "STEWARD_KEY_DIR" "/var/lib/maintainerd-core/service-clients";
     SystemAuthImage := env "SYSTEM_AUTH_IMAGE" "";
     SystemSecretImage := env "SYSTEM_SECRET_IMAGE" "";
     DeploymentMode := env "DEPLOYMENT_MODE" "docker" |}%string.
End Env.

Definition AudienceFor (c : Config) (service : string) : string :=
  if str_eqb service "secret" then SecretAudience c
  else if str_eqb service "runtime" then RuntimeAudience c
  else if str_eqb service "agent" then AgentAudience c
  else "".

Fixpoint firstNonEmpty (vals : list string) : string :=
  match vals with
  | [] => ""
  | v :: vals => if negb (is_empty v) then v else firstNonEmpty vals
  end.

(** ** Transport *)

Class Transport := {
  os_ReadFile : string -> result string string;
  AppendCertsFromPEM : string -> bool;
  Certificate : Type;
  LoadX509KeyPair : string -> string -> result string Certificate;
}.

Record TLSConfig {K : Transport} := {
  tls_ServerName : string; tls_RootCAs : option string; tls_Certificates : option Certificate }.

(** The credentials of a connection. *)
Inductive creds {K : Transport} := Insecure | TLS (c : TLSConfig).

Record setupDial := {
  sd_Service : string; sd_Addr : string; sd_CAFile : string; sd_ServerName : string;
  sd_ClientCertFile : string; sd_ClientKeyFile : string }.

Definition auth_dial (c : Config) : setupDial := {|
  sd_Service := "auth"; sd_Addr := AuthAddr c; sd_CAFile := AuthCAFile c;
  sd_ServerName := AuthServerName c; sd_ClientCertFile := AuthClientCertFile c;
  sd_ClientKeyFile := AuthClientKeyFile c |}.
Definition secret_dial (c : Config) : setupDial := {|
  sd_Service := "secret"; sd_Addr := SecretSetupAddr c; sd_CAFile := SecretSetupCAFile c;
  sd_ServerName := SecretSetupServerName c; sd_ClientCertFile := SecretSetupClientCertFile c;
  sd_ClientKeyFile := SecretSetupClientKeyFile c |}.

Section Dial.
Context {T : GoText} {K : Transport} (grpc_NewClient : string -> creds -> option string).

Definition dial_creds (d : setupDial) : result string creds :=
  if is_empty (sd_CAFile d) && is_empty (sd_ClientCertFile d) then Ok Insecure
  else
    let roots :=
      if is_empty (sd_CAFile d) then Ok None
      else match os_ReadFile (sd_CAFile d) with
      | Err e => Err ("read " +:+ sd_Service d +:+ " CA: " +:+ e)
      | Ok caPEM =>
          if AppendCertsFromPEM caPEM then Ok (Some caPEM)
          else Err (sd_Service d +:+ " CA file " +:+ fmt_q (sd_CAFile d)
                    +:+ " holds no valid certificate")
      end in
    match roots with
    | Err e => Err e
    | Ok roots =>
        if negb (is_empty (sd_ClientCertFile d)) && negb (is_empty (sd_ClientKeyFile d)) then
          match LoadX509KeyPair (sd_ClientCertFile d) (sd_ClientKeyFile d) with
          | Err e => Err ("load " +:+ sd_Service d +:+ " client cert: " +:+ e)
          | Ok cert => Ok (TLS (Build_TLSConfig K (sd_ServerName d) roots (Some cert)))
          end
        else Ok (TLS (Build_TLSConfig K (sd_ServerName d) roots None))
    end%string.

(** The error of the dial, or the credentials of the connection it opened. *)
Definition dialSetupService (d : setupDial) : result string creds :=
  match dial_creds d with
  | Err e => Err e
  | Ok c => match grpc_NewClient (sd_Addr d) c with Some e => Err e | None => Ok c end
  end.
End Dial.

Section DialProperties.
Context {T : GoText} {K : Transport} (NewClient : string -> creds -> option string).

(** The connection that carries the bootstrap token is in plaintext
    only if neither a CA nor a client certificate is configured; once a CA file
    is configured the dial either verifies the peer against it or fails, and a
    configured client certificate and key are presented or the dial fails. *)
Theorem dial_never_downgrades d c :
  dialSetupService NewClient d = Ok c ->
  match c with
  | Insecure => sd_CAFile d = ""%string /\ sd_ClientCertFile d = ""%string
  | TLS t =>
      tls_ServerName t = sd_ServerName d
      /\ (sd_CAFile d <> ""%string ->
            exists pem, os_ReadFile (sd_CAFile d) = Ok pem /\ AppendCertsFromPEM pem = true
              /\ tls_RootCAs t = Some pem)
      /\ (sd_ClientCertFile d <> ""%string -> sd_ClientKeyFile d <> ""%string ->
            exists cert, LoadX509KeyPair (sd_ClientCertFile d) (sd_ClientKeyFile d) = Ok cert
              /\ tls_Certificates t = Some cert)
  end.
Proof.
  unfold dialSetupService. destruct (dial_creds d) as [c'|] eqn:E; [|done].
  destruct (NewClient _ _); [done|]. intros [= <-]. revert E. unfold dial_creds.
  destruct (is_empty (sd_CAFile d)) eqn:Eca; destruct (is_empty (sd_ClientCertFile d)) eqn:Ecc;
    destruct (is_empty (sd_ClientKeyFile d)) eqn:Eck; cbn; split_bools;
    repeat case_match; intros; simplify_eq; cbn; split_and?; naive_solver.
Qed.
End DialProperties.
