(* ===== verification/Setup.v ===== *)
(** * First-run setup

    [internal/setup/orchestrator.go] and [internal/setup/steward.go]: Core
    drives Auth's SetupService once, keeps what Auth hands back in the
    control_plane row, and seeds its own registry.  Auth is a [Service] of any
    behaviour: every theorem holds for whatever it answers.  [internal/setup/
    jwks.go] is [Keys.GenerateClientKey] and [Keys.JWKSFromPrivatePEM]. *)

From S2P Require Import Prelude Json Storage World AppError Queries Evolution Agent Keys Process.
From S2P Require Import SetupConfig.
From S2P Require Resource Tenant Registry Steward Authz.

(** ** Auth's SetupService *)

Record SetupStatus := { ss_complete : bool; ss_tenant : bool; ss_admin : bool }.

Record CreateTenantRequest := { ctq_Name : string; ctq_DisplayName : string; ctq_Description : string }.
Record CreateTenantResponse := {
  cts_TenantId : string; cts_DefaultClientId : string; cts_DefaultProviderId : string }.
Record RegisterControlServiceRequest := {
  rcq_Name : string; rcq_DisplayName : string; rcq_Description : string; rcq_Version : string;
  rcq_AllowedActions : list string; rcq_PolicyName : string }.
Record RegisterControlServiceResponse := {
  rcs_ServiceId : string; rcs_PolicyId : string; rcs_PolicyName : string }.
Record EnsureControlClientRequest := {
  ecq_Name : string; ecq_DisplayName : string; ecq_ServiceName : string; ecq_Jwks : string;
  ecq_Audience : string }.
Record EnsureControlClientResponse := {
  ecs_ClientId : string; ecs_OauthClientId : string; ecs_TokenEndpointAuthMethod : string;
  ecs_AlreadyExisted : bool }.
Record EnsureResourceAPIRequest := {
  eaq_ServiceName : string; eaq_ServiceDisplayName : string; eaq_Name : string;
  eaq_DisplayName : string; eaq_Identifier : string; eaq_Permissions : list (string * string) }.
Record EnsureResourceAPIResponse := { eas_ApiId : string; eas_Identifier : string }.
Record EnsureRoleRequest := {
  erq_Name : string; erq_Description : string; erq_PermissionNames : list string }.
Record EnsureConsoleClientRequest := {
  enq_Name : string; enq_DisplayName : string; enq_Domain : string; enq_RedirectUris : list string }.
Record EnsureConsoleClientResponse := { ens_ClientId : string; ens_OauthClientId : string }.
Record CreateAdminRequest := {
  caq_Username : string; caq_Fullname : string; caq_Password : string; caq_Email : string }.

Inductive AuthReq :=
  | RpcGetSetupStatus
  | RpcCreateTenant (q : CreateTenantRequest)
  | RpcRegisterControlService (q : RegisterControlServiceRequest)
  | RpcEnsureControlClient (q : EnsureControlClientRequest)
  | RpcEnsureResourceAPI (q : EnsureResourceAPIRequest)
  | RpcEnsureRole (q : EnsureRoleRequest)
  | RpcEnsureConsoleClient (q : EnsureConsoleClientRequest)
  | RpcCreateAdmin (q : CreateAdminRequest)
  | RpcCompleteSetup.

(** A role and an admin are answered with their id. *)
Definition AuthResp (r : AuthReq) : Type :=
  match r with
  | RpcGetSetupStatus => SetupStatus
  | RpcCreateTenant _ => CreateTenantResponse
  | RpcRegisterControlService _ => RegisterControlServiceResponse
  | RpcEnsureControlClient _ => EnsureControlClientResponse
  | RpcEnsureResourceAPI _ => EnsureResourceAPIResponse
  | RpcEnsureRole _ => string
  | RpcEnsureConsoleClient _ => EnsureConsoleClientResponse
  | RpcCreateAdmin _ => string
  | RpcCompleteSetup => unit
  end.

Definition AuthServer (A : Type) : Type := Service AuthReq AuthResp status A.

(** [running] is the single-flight flag of the orchestrator, and the state of
    Auth is not Core's. *)
Record Orch (A : Type) := mkOrch { o_running : bool; o_auth : A }.
Arguments mkOrch {A}.
Arguments o_running {A} o.
Arguments o_auth {A} o.

Inductive setup_error := ErrSetupRunning | SetupFailed (e : call_error).
Definition setup_errorf (msg : string) : setup_error := SetupFailed (errorf msg).

Record RunInput := {
  ri_TenantName : string; ri_TenantDisplayName : string; ri_AdminUsername : string;
  ri_AdminFullname : string; ri_AdminEmail : string; ri_AdminPassword : string }.
Definition no_input : RunInput := Build_RunInput "" "" "" "" "" "".

Definition emptyResult : Result :=
  Build_Result "" "" "" "" "" "" "" "" "" "" "" "" "" "" "" "" None false "".

Section Orchestrator.
Context {T : GoText} {W : Resource.WorkloadKit} {C : Crypto} {R : RSA} {K : Transport}.
Context {A : Type} (srv : AuthServer A) (grpc_NewClient : string -> creds -> option string).
Context (cfg : Config).
Let Prog := P (Node (Orch A)) setup_error.

Definition tryBegin : Prog bool := on_peer (fun o =>
  if o_running o then (Ok false, o) else (Ok true, mkOrch true (o_auth o))).
Definition end_ (n : Node (Orch A)) : Node (Orch A) :=
  with_peer (mkOrch false (o_auth (n_peer n))) n.

(** A call on the SetupService, with the bootstrap token. *)
Definition call (r : AuthReq) : P (Node (Orch A)) call_error (AuthResp r) :=
  on_peer (fun o =>
    let '(a, st) := srv r (AuthToken cfg) (o_auth o) in
    (result_map_err of_status a, mkOrch (o_running o) st)).

(** A call whose error ends the run. *)
Definition must (prefix : string) (r : AuthReq) : Prog (AuthResp r) :=
  p_map_err (fun e => SetupFailed (wrapf prefix e)) (call r).

(** *** The key of the control client *)

Definition controlKey : Prog (string * string) :=
  p_catch (on_db GetControlPlane) (fun row =>
    match row with
    | Ok row =>
        if negb (is_empty (cp_ControlPrivateKeyPem row)) then
          match JWKSFromPrivatePEM (cp_ControlPrivateKeyPem row) with
          | Ok jwks => mret (cp_ControlPrivateKeyPem row, jwks)
          | Err e => p_fail (setup_errorf
                       ("stored control key is unusable (refusing to overwrite it): " +:+ e))
          end
        else p_map_err setup_errorf (on_keys GenerateClientKey)
    | Err _ => p_map_err setup_errorf (on_keys GenerateClientKey)
    end).

(** *** The record of the setup *)

Definition persist (res : Result) (privPEM : string) : M dberr () :=
  UpsertControlPlane {|
    ucp_AuthTenantUuid := uuid_Parse (sr_AuthTenantID res); ucp_Data := res;
    ucp_ControlPrivateKeyPem := privPEM; ucp_DeploymentMode := DeploymentMode cfg;
    ucp_SetupCompletedAt := sr_CompletedAt res |};; mret ().

Definition loadPersisted : M dberr Result :=
  row ← try GetControlPlane;
  mret match row with
  | Err _ => emptyResult
  | Ok row =>
      let res := cp_Data row in
      let res := match cp_SetupCompletedAt row with
                 | Some t => res <| sr_CompletedAt := Some t |>
                 | None => res
                 end in
      res <| sr_DeploymentMode := cp_DeploymentMode row |>
  end.

Definition completed (res : Result) : bool :=
  match sr_CompletedAt res with Some _ => true | None => false end.

Definition Status_ : M dberr (bool * Result) :=
  res ← loadPersisted; mret (completed res, res).

Definition ConsoleIdentity : M dberr (bool * string) :=
  res ← loadPersisted;
  mret (if completed res then (true, sr_ConsoleOAuthClientID res) else (false, ""%string)).

(** *** The mirror in Core's own inventory *)

Definition system_spec (name image : string) : object :=
  [("image", VStr image); ("name", VStr ("maintainerd-" +:+ name));
   ("pull_policy", VStr "if-not-present");
   ("restart_policy", VObj [("name", VStr "unless-stopped")])]%string.
Definition system_metadata (name : string) : object :=
  [("tier", VStr "system"); ("mrn_service", VStr "core");
   ("mrn_resource_type", VStr "service"); ("mrn_resource_path", VStr name)]%string.

Definition publish_one (projectUUID : Z) (item : string * string) : M error () :=
  if is_empty (snd item) then mret ()
  else
    try (Resource.Create (Resource.Build_CreateInput projectUUID None "Workload"
           ("system-" +:+ fst item) (Some (system_spec (fst item) (snd item)))
           (Some (system_metadata (fst item)))) : M error _);;
    mret ().

Fixpoint each {X E : Type} (f : X -> M E ()) (l : list X) : M E () :=
  match l with [] => mret () | x :: l => f x;; each f l end.

Definition publishSystemResources (tenantUUID : Z) : M error () :=
  let systemImages := [("auth", SystemAuthImage cfg); ("secret", SystemSecretImage cfg)]%string in
  if negb (existsb (fun i => negb (is_empty (snd i))) systemImages) then mret ()
  else
    tenantRow ← or_return (GetTenantByUUID tenantUUID);
    found ← try (GetProjectByTenantAndName (t_TenantID tenantRow) "system");
    projectRow ←
      match found with
      | Err ErrNoRows =>
          or_return (CreateProject (t_TenantID tenantRow) "system" "System"
            "Maintainerd system-tier workloads" "active" (VObj [("tier", VStr "system")%string]))
      | Err e => fail (DbError e)
      | Ok p => mret p
      end;
    each (publish_one (p_ProjectUuid projectRow)) systemImages.

Definition register_one (coreTenant : Z) (s : string * string * string) : M error () :=
  let '(name, kind, endpoint) := s in
  try (Registry.Create (Registry.Build_CreateInput coreTenant name kind true endpoint "" None)
       : M error _);;
  mret ().

Definition core_tenant (res : Result) (tenantName tenantDisplay : string) : M error Z :=
  sys ← try Tenant.GetSystem;
  match sys with
  | Ok t => mret (Tenant.tn_UUID t)
  | Err _ =>
      created ← Tenant.Create (Tenant.Build_CreateInput
                  (firstNonEmpty [tenantName; TenantName cfg])
                  (firstNonEmpty [tenantDisplay; TenantDisplayName cfg])
                  "active" true (uuid_Parse (sr_AuthTenantID res)) None);
      mret (Tenant.tn_UUID created)
  end.

Definition mirror (res : Result) (tenantName tenantDisplay : string) : M error () :=
  coreTenant ← core_tenant res tenantName tenantDisplay;
  each (register_one coreTenant)
    [("auth", "Auth", AuthEndpoint cfg); ("secret", "Secret", SecretEndpoint cfg);
     ("docker", "Docker", DockerEndpoint cfg)]%string;;
  try (publishSystemResources coreTenant : M error _);;
  mret ().

(** *** The setup-window applier *)

(** The applier's memory: the services [EnsureService] noted. *)
Definition Notes : Type := gmap string Steward.ServiceSpec.
Let App := P (Node (Orch A) * Notes) call_error.

Definition on_node {E X} (m : P (Node (Orch A)) E X) : P (Node (Orch A) * Notes) E X := fun s =>
  let '(r, n) := m (fst s) in (r, (n, snd s)).
Definition note_of (name : string) : App (option Steward.ServiceSpec) := fun s =>
  (Ok (snd s !! name), s).

Definition keys_PrivateKey (service : string) : App (string * bool) :=
  p_map_err errorf (on_node (on_disk (FileKeyStore.PrivateKey (StewardKeyDir cfg) service))).
Definition keys_Record (service pem : string) : App () :=
  p_map_err errorf (on_node (on_disk (FileKeyStore.Record_ (StewardKeyDir cfg) service pem))).
Definition keys_Discard (service : string) : App () :=
  p_map_err errorf (on_node (on_disk (FileKeyStore.Discard (StewardKeyDir cfg) service))).

Definition apply_Service (name : string) (spec : Steward.ServiceSpec) : App () := fun s =>
  (Ok (), (fst s, <[name := spec]> (snd s))).

Definition apply_ResourceAPI (name : string) (spec : Steward.ResourceAPISpec) : App () :=
  svc ← note_of (Steward.as_Service spec);
  let display :=
    match svc with
    | Some svc => if negb (is_empty (Steward.ss_DisplayName svc)) then Steward.ss_DisplayName svc
                  else Steward.as_DisplayName spec
    | None => Steward.as_DisplayName spec
    end in
  on_node (call (RpcEnsureResourceAPI {|
    eaq_ServiceName := Steward.as_Service spec; eaq_ServiceDisplayName := display;
    eaq_Name := name; eaq_DisplayName := Steward.as_DisplayName spec;
    eaq_Identifier := Steward.as_Identifier spec;
    eaq_Permissions := map (fun p => (Steward.pm_Name p, Steward.pm_Description p))
                         (Steward.as_Permissions spec) |}));;
  mret ().

Definition apply_ServiceClient (name : string) (spec : Steward.ServiceClientSpec)
    : App (option Steward.GeneratedClient) :=
  let service := Steward.cs_Service spec in
  '(stored, existed) ← keys_PrivateKey service;
  '(privatePEM, generated) ←
    (if is_empty stored then
       '(pem, _) ← p_map_err errorf (on_node (on_keys GenerateClientKey));
       keys_Record service pem;;
       mret (pem, true)
     else mret (stored, false));
  jwks ← p_lift (result_map_err errorf (JWKSFromPrivatePEM privatePEM));
  resp ← on_node (call (RpcEnsureControlClient {|
    ecq_Name := name; ecq_DisplayName := name; ecq_ServiceName := service;
    ecq_Jwks := jwks; ecq_Audience := Steward.cs_Audience spec |}));
  if ecs_AlreadyExisted resp && negb existed then
    p_catch (if generated : bool then keys_Discard service else mret ()) (fun _ =>
      p_fail (errorf ("auth client " +:+ fmt_q name
        +:+ " already exists but no local private key was found for service " +:+ fmt_q service)))
  else mret (Some (Steward.Build_GeneratedClient (ecs_ClientId resp) (ecs_OauthClientId resp)
         (if negb (ecs_AlreadyExisted resp) && generated then privatePEM else "")
         (ecs_AlreadyExisted resp))).

Definition apply_ServicePolicy (name : string) (spec : Steward.ServicePolicySpec) : App () :=
  match Steward.ps_AllowedActions spec with
  | [] => mret ()
  | actions =>
      svc ← note_of (Steward.ps_Service spec);
      let svc := default (Steward.Build_ServiceSpec "" "" "" "" "") svc in
      on_node (call (RpcRegisterControlService {|
        rcq_Name := Steward.ps_Service spec;
        rcq_DisplayName := firstNonEmpty [Steward.ss_DisplayName svc; Steward.ps_Service spec];
        rcq_Description := Steward.ss_Description svc;
        rcq_Version := firstNonEmpty [Steward.ss_Version svc; "v1"]%string;
        rcq_AllowedActions := actions;
        rcq_PolicyName := firstNonEmpty [Steward.ps_PolicyName spec; name] |}));;
      mret ()
  end.

Definition authStewardApplier : Steward.Applier (Node (Orch A) * Notes) := {|
  Steward.EnsureService := apply_Service;
  Steward.EnsureResourceAPI := apply_ResourceAPI;
  Steward.EnsureServiceClient := apply_ServiceClient;
  Steward.EnsureServicePolicy := apply_ServicePolicy;
  Steward.KeySink_Record := Some keys_Record |}.

Definition reconcileSteward : P (Node (Orch A)) call_error () := fun n =>
  let '(err, _, (n', _)) :=
    Steward.Reconcile authStewardApplier (Steward.BuiltinCatalog (AudienceFor cfg)) (n, ∅) in
  (match err with Some e => Err e | None => Ok () end, n').

(** *** A run *)

(** The map's iteration order does not matter ([Authz.DeclaredPermissions_order]). *)
Definition corePermissions : list string :=
  Authz.DeclaredPermissions (map fst Authz.routePermissions).
Definition apiPermissions : list (string * string) :=
  ("core:admin", "Full administrative access to Maintainerd Core")
  :: map (fun p => (p, "Maintainerd Core: " +:+ p))
       (List.filter (fun p => negb (str_eqb p "core:admin")) corePermissions).
Definition adminRolePermissions : list string :=
  "core:admin" :: List.filter (fun p => negb (str_eqb p "core:admin")) corePermissions.

(** Auth reports itself complete: nothing is provisioned again. *)
Definition run_complete (tenantName tenantDisplay : string) : Prog Result :=
  res ← p_map_err (fun e => setup_errorf (dberr_Error e)) (on_db loadPersisted);
  let res := res <| sr_AlreadyComplete := true |> in
  p_catch (on_db (mirror res tenantName tenantDisplay)) (fun _ =>
    match sr_CompletedAt res with
    | Some _ => mret res
    | None =>
        now ← on_db time_Now;
        let res := res <| sr_CompletedAt := Some now |> in
        p_catch (on_db (persist res "")) (fun _ => mret res)
    end).

(** Steps 4 to 6, whose failure is only logged. *)
Definition run_optional (res : Result) : Prog Result :=
  p_catch (call (RpcEnsureResourceAPI {|
      eaq_ServiceName := CoreServiceName cfg; eaq_ServiceDisplayName := "Maintainerd Core";
      eaq_Name := "Maintainerd Core API"; eaq_DisplayName := "Maintainerd Core API";
      eaq_Identifier := CoreAudience cfg; eaq_Permissions := apiPermissions |})) (fun api =>
  let res := match api with
    | Ok api => res <| sr_ResourceAPIID := eas_ApiId api |>
                    <| sr_ResourceAPIIdentifier := eas_Identifier api |>
    | Err _ => res
    end in
  p_catch (call (RpcEnsureRole {|
      erq_Name := "core-admin"; erq_Description := "Full access to Maintainerd Core";
      erq_PermissionNames := adminRolePermissions |})) (fun role =>
  let res := match role with Ok role => res <| sr_AdminRoleID := role |> | Err _ => res end in
  p_catch (call (RpcEnsureConsoleClient {|
      enq_Name := "maintainerd-console"; enq_DisplayName := "Maintainerd Console";
      enq_Domain := ConsoleDomain cfg; enq_RedirectUris := ConsoleRedirectURIs cfg |})) (fun con =>
  mret match con with
    | Ok con => res <| sr_ConsoleClientID := ens_ClientId con |>
                    <| sr_ConsoleOAuthClientID := ens_OauthClientId con |>
    | Err _ => res
    end))).

Definition run_tenant (st : SetupStatus) (tenantName tenantDisplay : string) : Prog Result :=
  if negb (ss_tenant st) then
    t ← must "auth CreateTenant: " (RpcCreateTenant {|
          ctq_Name := tenantName; ctq_DisplayName := tenantDisplay;
          ctq_Description := "Maintainerd system tenant" |});
    mret (emptyResult <| sr_AuthTenantID := cts_TenantId t |>
            <| sr_AuthDefaultClientID := cts_DefaultClientId t |>
            <| sr_AuthDefaultProviderID := cts_DefaultProviderId t |>)
  else mret emptyResult.

Definition run_control (res : Result) : Prog (Result * string) :=
  rc ← must "auth RegisterControlService: " (RpcRegisterControlService {|
         rcq_Name := CoreServiceName cfg; rcq_DisplayName := "Maintainerd Core";
         rcq_Description := "Maintainerd control plane"; rcq_Version := "v1";
         rcq_AllowedActions := []; rcq_PolicyName := "" |});
  let res := res <| sr_ControlServiceID := rcs_ServiceId rc |>
                 <| sr_ControlPolicyID := rcs_PolicyId rc |>
                 <| sr_ControlPolicyName := rcs_PolicyName rc |> in
  '(privPEM, jwks) ← controlKey;
  cc ← must "auth EnsureControlClient: " (RpcEnsureControlClient {|
         ecq_Name := CoreServiceName cfg +:+ "-control";
         ecq_DisplayName := "Maintainerd Core Control Client";
         ecq_ServiceName := CoreServiceName cfg; ecq_Jwks := jwks;
         ecq_Audience := CoreAudience cfg |});
  mret (res <| sr_ControlClientID := ecs_ClientId cc |>
            <| sr_ControlOAuthClientID := ecs_OauthClientId cc |>
            <| sr_TokenAuthMethod := ecs_TokenEndpointAuthMethod cc |> <| sr_JWKS := jwks |>,
        privPEM).

Definition run_admin (st : SetupStatus) (q : CreateAdminRequest) (res : Result) : Prog Result :=
  if negb (ss_admin st) then
    a ← must "auth CreateAdmin: " (RpcCreateAdmin q);
    mret (res <| sr_AuthAdminUserID := a |>)
  else mret res.

Definition run_provision (st : SetupStatus) (tenantName tenantDisplay : string)
    (admin : CreateAdminRequest) : Prog Result :=
  res ← run_tenant st tenantName tenantDisplay;
  '(res, privPEM) ← run_control res;
  res ← run_optional res;
  p_map_err (fun e => SetupFailed (wrapf "auth steward reconcile: " e)) reconcileSteward;;
  res ← run_admin st admin res;
  must "auth CompleteSetup: " RpcCompleteSetup;;
  now ← on_db time_Now;
  let res := res <| sr_CompletedAt := Some now |> in
  p_map_err (fun e => setup_errorf ("persist control plane: " +:+ dberr_Error e))
    (on_db (persist res privPEM));;
  p_catch (on_db (mirror res tenantName tenantDisplay)) (fun _ => mret res).

Definition run_body (in_ : RunInput) : Prog Result :=
  if is_empty (AuthAddr cfg) then p_fail (setup_errorf "AUTH_SETUP_ADDR is not set")
  else
    let tenantName := firstNonEmpty [ri_TenantName in_; TenantName cfg] in
    let tenantDisplay := firstNonEmpty [ri_TenantDisplayName in_; TenantDisplayName cfg; tenantName] in
    let adminUsername := firstNonEmpty [ri_AdminUsername in_; AdminUsername cfg] in
    let admin := {|
      caq_Username := adminUsername;
      caq_Fullname := firstNonEmpty [ri_AdminFullname in_; AdminFullname cfg; adminUsername];
      caq_Password := firstNonEmpty [ri_AdminPassword in_; AdminPassword cfg];
      caq_Email := firstNonEmpty [ri_AdminEmail in_; AdminEmail cfg] |} in
    if is_empty (caq_Password admin) then p_fail (setup_errorf "admin password is required")
    else
      match dialSetupService grpc_NewClient (auth_dial cfg) with
      | Err e => p_fail (setup_errorf e)
      | Ok _ =>
          st ← must "auth GetSetupStatus: " RpcGetSetupStatus;
          if ss_complete st then run_complete tenantName tenantDisplay
          else run_provision st tenantName tenantDisplay admin
      end.

Definition RunWith (in_ : RunInput) : Prog Result :=
  ok ← tryBegin;
  if negb ok then p_fail ErrSetupRunning
  else fun n => let '(r, n') := run_body in_ n in (r, end_ n').

Definition Run : Prog Result := RunWith no_input.
End Orchestrator.
