(* ===== verification/SetupSafety.v ===== *)
(** * What a setup run does to Auth and to the control-plane row

    The theorems hold for every Auth ([Service] of any behaviour), every fault
    of the database and of the key directory, and every input: a run records
    its calls in a log next to Auth's state, and an invariant of the pair
    (control-plane row, log) is carried through the run. *)

From S2P Require Import Prelude Json Storage World AppError Queries Evolution Agent Keys Process.
From S2P Require Import SetupConfig Setup.
From S2P Require Resource Tenant Registry Steward.

(** ** The control-plane row and the other tables *)

Definition same_control (d d' : Db) : Prop := control_plane d' = control_plane d.
#[global] Instance same_control_preorder : PreOrder same_control.
Proof. split; unfold same_control; [done | congruence]. Qed.

Lemma control_insert {R} `{!TableRow R} (tbl : Db -> Table R) `{!FieldSetter tbl} mk :
  (forall g d, control_plane (set_field tbl g d) = control_plane d) ->
  advances same_control (q_insert tbl mk).
Proof. intros H. apply advances_insert; [apply _|]. intros. apply H. Qed.
#[export] Hint Extern 1 (advances same_control (q_insert _ _)) =>
  apply control_insert; reflexivity : advances.

Section Mirror.
Context {T : GoText} {W : Resource.WorkloadKit} (cfg : Config).

Lemma each_advances {X E} (f : X -> M E ()) l :
  (forall x, advances same_control (f x)) -> advances same_control (each f l).
Proof. intros H. induction l as [|x l IH]; cbn [each]; advance; auto. Qed.

Lemma mirror_control res a b : advances same_control (mirror cfg res a b).
Proof.
  unfold mirror, core_tenant, publishSystemResources. advance.
  all: apply each_advances; intros [[? ?] ?] || (apply each_advances; intros [? ?]).
  all: advance.
Qed.

Lemma load_control : advances same_control loadPersisted.
Proof.
  unfold loadPersisted. advance. apply advances_query; [apply _|reflexivity].
Qed.
End Mirror.

(** ** Invariants of the row and the log *)

Section Runs.
Context {T : GoText} {W : Resource.WorkloadKit} {C : Crypto} {R : RSA} {K : Transport}.
Context {A : Type} (srv : AuthServer A) (NewClient : string -> creds -> option string).
Context (cfg : Config).

Definition Log : Type := list (rpc AuthResp status).
Definition node : Type := Node (Orch (A * Log)).
Definition log (n : node) : Log := snd (o_auth (n_peer n)).
Definition row (n : node) : option ControlPlaneRow := control_plane (w_db (n_world n)).
Definition entry (r : AuthReq) (a : result status (AuthResp r)) : rpc AuthResp status :=
  Rpc r (AuthToken cfg) a.

(** A predicate of the row and the log, on nodes. *)
Definition both (Inv : option ControlPlaneRow -> Log -> Prop) (n : node) : Prop := Inv (row n) (log n).

Section Rules.
Context (Inv : option ControlPlaneRow -> Log -> Prop).

(** The status a call reported, if it is a status call that succeeded. *)
Definition reported (e : rpc AuthResp status) : option SetupStatus :=
  match e with
  | Rpc r _ a =>
      match r return result status (AuthResp r) -> option SetupStatus with
      | RpcGetSetupStatus => fun a => match a with Ok st => Some st | Err _ => None end
      | _ => fun _ => None
      end a
  end.

Lemma hoare_call r (Post : result call_error (AuthResp r) -> node -> Prop) (Pre : node -> Prop) :
  (forall n n' a, Pre n -> row n' = row n -> n_world n' = n_world n -> log n' = log n ++ [entry r a] ->
     Post (result_map_err of_status a) n') ->
  hoare Pre (call (recorded srv) cfg r) Post.
Proof.
  intros H n Hn. unfold call, on_peer, recorded.
  destruct (srv r _ _) as [a st]; cbn. by eapply (H n).
Qed.

Lemma hoare_must prefix r (Post : result setup_error (AuthResp r) -> node -> Prop) (Pre : node -> Prop) :
  (forall n n' a, Pre n -> row n' = row n -> n_world n' = n_world n -> log n' = log n ++ [entry r a] ->
     Post (result_map_err (fun st => SetupFailed (wrapf prefix (of_status st))) a) n') ->
  hoare Pre (must (recorded srv) cfg prefix r) Post.
Proof.
  intros H. unfold must. eapply hoare_map_err with (Mid := fun r' n' => exists n a,
    Pre n /\ row n' = row n /\ n_world n' = n_world n /\ log n' = log n ++ [entry r a]
    /\ r' = result_map_err of_status a).
  - apply hoare_call. intros n n' a ????. by exists n, a.
  - intros x n' (n & [a|a] & ? & ? & ? & ? & [=]). subst. by eapply (H _ _ (Ok a)).
  - intros x n' (n & [a|a] & ? & ? & ? & ? & [=]). subst. by eapply (H _ _ (Err a)).
Qed.

Lemma keeps_call r :
  (forall cp l a, Inv cp l -> Inv cp (l ++ [entry r a])) -> keeps (both Inv) (call (recorded srv) cfg r).
Proof. intros H. apply hoare_call. unfold both. intros n n' a Hn -> _ ->. by apply H. Qed.

Lemma keeps_must prefix r :
  (forall cp l a, Inv cp l -> Inv cp (l ++ [entry r a])) -> keeps (both Inv) (must (recorded srv) cfg prefix r).
Proof. intros H. apply keeps_map_err, keeps_call, H. Qed.

Lemma keeps_same_control {E X} (m : M E X) :
  advances same_control m -> keeps (both Inv) (on_db m : P node E X).
Proof. intros H. apply keeps_db. intros n. unfold both, row, log. cbn. by rewrite (H (n_world n)). Qed.

Lemma keeps_draw {E X} (m : list rsa_key -> result E X * list rsa_key) :
  keeps (both Inv) (on_keys m : P node E X).
Proof. by apply keeps_keys. Qed.
Lemma keeps_file {E X} (m : Disk -> result E X * Disk) : keeps (both Inv) (on_disk m : P node E X).
Proof. by apply keeps_disk. Qed.

Lemma get_control : advances same_control GetControlPlane.
Proof. apply advances_query; [apply _|reflexivity]. Qed.

Lemma keeps_controlKey : keeps (both Inv) (controlKey : P node setup_error _).
Proof.
  unfold controlKey. keep; try apply keeps_draw. apply keeps_same_control, get_control.
Qed.

(** *** The steward's pass *)

Definition steward_call (r : AuthReq) : Prop :=
  match r with
  | RpcEnsureResourceAPI _ | RpcRegisterControlService _ => True
  | RpcEnsureControlClient q => ecq_ServiceName q <> CoreServiceName cfg
  | _ => False
  end.

Context (Hcore : CoreServiceName cfg = "maintainerd-core"%string).
Context (Hstep : forall cp l r a, steward_call r -> Inv cp l -> Inv cp (l ++ [entry r a])).

Lemma keeps_on_node {E X} (m : P node E X) (I : node -> Prop) :
  keeps I m -> keeps (fun s => I (fst s)) (on_node m).
Proof. intros Hm [n notes] Hn. specialize (Hm n Hn). unfold on_node. cbn. by destruct (m n). Qed.

Lemma builtin_clients aud o s :
  o ∈ Steward.Objects (Steward.BuiltinCatalog aud) ->
  Steward.ob_Spec o = Some (Steward.SpecServiceClient s) ->
  Steward.cs_Service s <> "maintainerd-core"%string.
Proof.
  intros Ho Hs. cbn [Steward.Objects Steward.BuiltinCatalog] in Ho.
  repeat (apply elem_of_cons in Ho as [->|Ho]; [cbn in Hs; simplify_eq; cbn; done|]).
  by apply elem_of_nil in Ho.
Qed.

Lemma keeps_client name spec (st : node * Notes) :
  Steward.cs_Service spec <> CoreServiceName cfg -> both Inv (fst st) ->
  both Inv (fst (snd (apply_ServiceClient (recorded srv) cfg name spec st))).
Proof.
  intros Hs. revert st. set (I := fun s : node * Notes => both Inv (fst s)).
  assert (Hf : forall E X (m : Disk -> result E X * Disk), keeps I (on_node (on_disk m)))
    by (intros; apply keeps_on_node, keeps_file).
  assert (Hg : forall E X (m : list rsa_key -> result E X * list rsa_key),
    keeps I (on_node (on_keys m))) by (intros; apply keeps_on_node, keeps_draw).
  change (keeps I (apply_ServiceClient (recorded srv) cfg name spec)).
  unfold apply_ServiceClient, keys_PrivateKey, keys_Record, keys_Discard. keep.
  apply (keeps_on_node _ (both Inv)), (keeps_call (RpcEnsureControlClient _)).
  intros cp l a0. by apply Hstep.
Qed.

Lemma keeps_reconcile :
  keeps (both Inv) (reconcileSteward (recorded srv) cfg : P node call_error ()).
Proof.
  intros n Hn. unfold reconcileSteward.
  assert (H : both Inv (fst (snd (Steward.Reconcile (authStewardApplier (recorded srv) cfg)
    (Steward.BuiltinCatalog (AudienceFor cfg)) (n, ∅))))).
  2: { destruct (Steward.Reconcile _ _ _) as [[err rep] [n' notes]]. exact H. }
  apply (Steward.Reconcile_keeps _ (fun s => both Inv (fst s))); [done| | | | |done].
  - intros name spec. change (keeps (fun s : node * Notes => both Inv (fst s))
      (apply_ResourceAPI (recorded srv) cfg name spec)). unfold apply_ResourceAPI. keep.
    + by intros [] ?.
    + apply (keeps_on_node _ (both Inv)), (keeps_call (RpcEnsureResourceAPI _)).
      intros cp l a0. by apply Hstep.
  - intros o spec st Ho Hs. apply keeps_client. rewrite Hcore. by eapply builtin_clients.
  - intros name spec. change (keeps (fun s : node * Notes => both Inv (fst s))
      (apply_ServicePolicy (recorded srv) cfg name spec)). unfold apply_ServicePolicy. keep.
    + by intros [] ?.
    + apply (keeps_on_node _ (both Inv)), (keeps_call (RpcRegisterControlService _)).
      intros cp l' a0. by apply Hstep.
  - intros record [= <-] svc pem. change (keeps (fun s : node * Notes => both Inv (fst s))
      (keys_Record cfg svc pem)). unfold keys_Record. keep.
    apply (keeps_on_node _ (both Inv)), keeps_file.
Qed.

(** *** The stages of a run that only call *)

Lemma keeps_optional res :
  (forall cp l r a, (exists q, r = RpcEnsureRole q) \/ (exists q, r = RpcEnsureConsoleClient q) ->
     Inv cp l -> Inv cp (l ++ [entry r a])) ->
  keeps (both Inv) (run_optional (recorded srv) cfg res).
Proof.
  intros H. unfold run_optional. keep;
    [ apply (keeps_call (RpcEnsureResourceAPI _)) | apply (keeps_call (RpcEnsureRole _))
    | apply (keeps_call (RpcEnsureConsoleClient _)) ]; intros cp l a2 Hi;
    first [by apply Hstep | apply H; [eauto|done]].
Qed.
End Rules.

(** ** The calls of a provisioning run *)

(** A registration; the tenant is created only if Auth reported none. *)
Definition provisioning (st : SetupStatus) (e : rpc AuthResp status) : Prop :=
  match rpc_req e with
  | RpcGetSetupStatus | RpcCreateAdmin _ | RpcCompleteSetup => False
  | RpcCreateTenant _ => ss_tenant st = false
  | _ => True
  end.

(** Every key set sent for Core's own control client satisfies [ok]. *)
Definition core_jwks (ok : string -> Prop) (e : rpc AuthResp status) : Prop :=
  match rpc_req e with
  | RpcEnsureControlClient q => ecq_ServiceName q = CoreServiceName cfg -> ok (ecq_Jwks q)
  | _ => True
  end.

(** Auth accepted Core's control client with the key set [jwks]. *)
Definition accepted (jwks : string) (l : Log) : Prop :=
  exists q cc, entry (RpcEnsureControlClient q) (Ok cc) ∈ l
    /\ ecq_ServiceName q = CoreServiceName cfg /\ ecq_Jwks q = jwks.

Context (Hcore : CoreServiceName cfg = "maintainerd-core"%string).

Section Provision.
Context (w0 : World) (l0 : Log) (st : SetupStatus).
Let row0 := control_plane (w_db w0).

(** The key set of the key the row holds, if the first query reaches it. *)
Definition stored_jwks (jwks : string) : Prop :=
  forall r, hd FaultNone (w_faults w0) = FaultNone -> row0 = Some r ->
    cp_ControlPrivateKeyPem r <> ""%string -> JWKSFromPrivatePEM (cp_ControlPrivateKeyPem r) = Ok jwks.

Definition opened (l : Log) : Prop :=
  exists prov, l = l0 ++ prov /\ Forall (provisioning st) prov /\ Forall (core_jwks stored_jwks) prov.

Lemma opened_call l r a :
  opened l -> provisioning st (entry r a) -> core_jwks stored_jwks (entry r a) ->
  opened (l ++ [entry r a]).
Proof.
  intros (prov & -> & H1 & H2) Hp Hc. exists (prov ++ [entry r a]).
  rewrite app_assoc, !Forall_app. auto.
Qed.

Lemma opened_steward l r a : steward_call r -> opened l -> opened (l ++ [entry r a]).
Proof.
  intros Hr Ho. apply opened_call; [done|by destruct r|]. unfold core_jwks.
  destruct r; cbn in *; try done.
Qed.

Lemma run_tenant_calls tn td :
  hoare (fun n => n_world n = w0 /\ log n = l0) (run_tenant (recorded srv) cfg st tn td)
    (fun _ n => n_world n = w0 /\ opened (log n)).
Proof.
  assert (H0 : opened l0) by (exists []; rewrite app_nil_r; auto).
  unfold run_tenant. destruct (ss_tenant st) eqn:Et; cbn [negb].
  - intros n [Hw Hl]. cbn. by rewrite Hl.
  - eapply hoare_bind with (Mid := fun _ n => n_world n = w0 /\ opened (log n)); [|done|].
    + apply (hoare_must _ (RpcCreateTenant _)). intros n n' a [Hw Hl] _ E2 ->.
      split; [congruence|]. rewrite Hl. by apply opened_call.
    + intros t. by intros n Hn.
Qed.

(** The key of a run is the stored one whenever the row can be read, and its
    key set is what the run registers. *)
Lemma controlKey_spec {L : KeyLaws} Q :
  hoare (fun n => n_world n = w0 /\ Q (log n)) (controlKey : P node setup_error _)
    (fun r n => row n = row0 /\ Q (log n)
       /\ forall pem jwks, r = Ok (pem, jwks) ->
            JWKSFromPrivatePEM pem = Ok jwks /\ pem <> ""%string
            /\ forall q, hd FaultNone (w_faults w0) = FaultNone -> row0 = Some q ->
                 cp_ControlPrivateKeyPem q <> ""%string -> pem = cp_ControlPrivateKeyPem q).
Proof.
  intros n [Hw Hq]. unfold controlKey, p_catch, mbind, P_bind, p_try, on_db.
  pose proof (get_control (n_world n)) as Hrow. unfold same_control in Hrow.
  destruct (GetControlPlane (n_world n)) as [g w1] eqn:Eg. cbn in Hrow.
  assert (Hg : hd FaultNone (w_faults w0) = FaultNone ->
    g = match row0 with Some r => Ok r | None => Err ErrNoRows end).
  { rewrite Hw in Eg. revert Eg. unfold GetControlPlane, query.
    destruct (w_faults w0) as [|[] ?]; cbn; intros Eg Hf; try done; by simplify_eq. }
  rewrite Hw in Hrow.
  assert (Hmint : forall m, (forall q, hd FaultNone (w_faults w0) = FaultNone -> row0 = Some q ->
      cp_ControlPrivateKeyPem q <> ""%string -> False) -> row m = row0 -> Q (log m) ->
    let '(r, n') := p_map_err setup_errorf (on_keys GenerateClientKey) m : result setup_error _ * node in
    row n' = row0 /\ Q (log n') /\ forall pem jwks, r = Ok (pem, jwks) ->
      JWKSFromPrivatePEM pem = Ok jwks /\ pem <> ""%string
      /\ forall q, hd FaultNone (w_faults w0) = FaultNone -> row0 = Some q ->
           cp_ControlPrivateKeyPem q <> ""%string -> pem = cp_ControlPrivateKeyPem q).
  { intros m Hno Hm Hqm. unfold p_map_err, on_keys.
    destruct (GenerateClientKey (n_keys m)) as [[[pem jwks]|e] ks] eqn:Em; cbn; [|done].
    apply minted_jwks in Em as [E1 E2]. split_and!; [done..|].
    intros ? ? [= <- <-]. split_and!; [done..|]. intros q ? ? ?. exfalso. eauto. }
  destruct g as [r|e].
  - destruct (is_empty (cp_ControlPrivateKeyPem r)) eqn:Ek; cbn.
    + specialize (Hmint (with_world w1 n)). cbn in Hmint.
      destruct (p_map_err _ _ _) as [r' n'].
      apply Hmint; [|done..]. intros q Hf Hq0 Hne. specialize (Hg Hf). rewrite Hq0 in Hg.
      simplify_eq. by apply str_eqb_eq in Ek.
    + apply str_eqb_neq in Ek. destruct (JWKSFromPrivatePEM _) as [jw|] eqn:Ej; cbn; [|done].
      split_and!; [done..|]. intros ? ? [= <- <-]. split_and!; [done..|].
      intros q Hf Hq0 _. specialize (Hg Hf). rewrite Hq0 in Hg. by simplify_eq.
  - specialize (Hmint (with_world w1 n)). destruct (p_map_err _ _ _) as [r' n'].
    apply Hmint; [|done..]. intros q Hf Hq0 _. specialize (Hg Hf). rewrite Hq0 in Hg. done.
Qed.

(** What is known of the key of a run: its key set is the one the result
    carries, and it is the stored key when the row could be read. *)
Record key_of_run (pem jwks : string) : Prop := {
  kr_jwks : JWKSFromPrivatePEM pem = Ok jwks;
  kr_nonempty : pem <> ""%string;
  kr_stored : forall q, hd FaultNone (w_faults w0) = FaultNone -> row0 = Some q ->
    cp_ControlPrivateKeyPem q <> ""%string -> pem = cp_ControlPrivateKeyPem q }.

Lemma key_of_run_stored pem jwks : key_of_run pem jwks -> stored_jwks jwks.
Proof. intros [H1 _ H3] r Hf Hr Hne. rewrite <- H1. by rewrite (H3 r Hf Hr Hne). Qed.

(** Still provisioning, with the row as it was and the control client in. *)
Definition provisioned (jwks : string) (cp : option ControlPlaneRow) (l : Log) : Prop :=
  cp = row0 /\ opened l /\ accepted jwks l.

Lemma accepted_app jwks l l' : accepted jwks l -> accepted jwks (l ++ l').
Proof. intros (q & cc & Hin & H). exists q, cc. split; [|done]. apply elem_of_app. by left. Qed.

Lemma run_control_spec {L : KeyLaws} res :
  hoare (fun n => n_world n = w0 /\ opened (log n)) (run_control (recorded srv) cfg res)
    (fun r n => row n = row0 /\ opened (log n)
       /\ forall res' pem, r = Ok (res', pem) ->
            key_of_run pem (sr_JWKS res') /\ provisioned (sr_JWKS res') (row n) (log n)
            /\ sr_AuthTenantID res' = sr_AuthTenantID res).
Proof.
  unfold run_control. eapply hoare_bind with (Mid := fun _ n => n_world n = w0 /\ opened (log n)).
  - apply (hoare_must _ (RpcRegisterControlService _)). intros n n' a [Hw Hl] _ E2 ->.
    split; [congruence|]. by apply opened_call.
  - intros e n [Hw Hl]. split_and!; [|done|by intros]. unfold row. by rewrite Hw.
  - intros rc. eapply hoare_bind; [apply controlKey_spec| |].
    + intros e n (H1 & H2 & _). by split_and!.
    + intros [pem jwks]. eapply hoare_bind with (Mid := fun r n => row n = row0 /\ opened (log n)
        /\ forall cc, r = Ok cc -> key_of_run pem jwks /\ accepted jwks (log n)).
      * apply (hoare_must _ (RpcEnsureControlClient _)). intros n n' a (H1 & H2 & H3) E1 _ ->.
        destruct (H3 pem jwks eq_refl) as (K1 & K2 & K3).
        assert (Hk : key_of_run pem jwks) by done.
        split_and!; [congruence| |].
        { apply opened_call; [done..|]. intros _. by eapply key_of_run_stored. }
        intros cc Hcc. split; [done|]. destruct a as [x|x]; [|done]. eexists _, x.
        split; [apply elem_of_app; right; by apply list_elem_of_singleton|]. done.
      * intros e n (H1 & H2 & _). by split_and!.
      * intros cc n (H1 & H2 & H3). cbn. split_and!; [done..|]. intros ? ? [= <- <-].
        destruct (H3 cc eq_refl). by split_and!.
Qed.

Lemma run_optional_result res n res' n' :
  run_optional (recorded srv) cfg res n = (Ok res', n') ->
  sr_JWKS res' = sr_JWKS res /\ sr_AuthTenantID res' = sr_AuthTenantID res.
Proof.
  unfold run_optional, p_catch, mbind, P_bind, p_try, mret, P_ret.
  repeat match goal with |- context [call ?s ?c ?r ?m] => 
    destruct (call s c r m) as [[] ?]; cbn end; intros; by simplify_eq.
Qed.

Lemma keeps_provisioned_optional jwks res :
  keeps (both (provisioned jwks)) (run_optional (recorded srv) cfg res).
Proof.
  apply keeps_optional.
  - intros cp l r a Hr (H1 & H2 & H3). split_and!; [done|by apply opened_steward|by apply accepted_app].
  - intros cp l r a Hr (H1 & H2 & H3). split_and!; [done| |by apply accepted_app].
    destruct Hr as [[q ->]|[q ->]]; by apply opened_call.
Qed.

Lemma keeps_provisioned_steward jwks :
  keeps (both (provisioned jwks)) (reconcileSteward (recorded srv) cfg).
Proof.
  apply keeps_reconcile; [done|].
  intros cp l r a Hr (H1 & H2 & H3). split_and!; [done|by apply opened_steward|by apply accepted_app].
Qed.

(** *** The end of a run *)

(** What a persisted result writes. *)
Definition written (res : Result) (pem : string) : UpsertControlPlaneParams := {|
  ucp_AuthTenantUuid := uuid_Parse (sr_AuthTenantID res); ucp_Data := res;
  ucp_ControlPrivateKeyPem := pem; ucp_DeploymentMode := DeploymentMode cfg;
  ucp_SetupCompletedAt := sr_CompletedAt res |}.

Lemma persist_row res pem w :
  let '(r, w') := persist cfg res pem w in
  (control_plane (w_db w') = control_plane (w_db w) /\ exists e, r = Err e)
  \/ control_plane (w_db w') = Some (upserted (w_dbnow w) (written res pem) (control_plane (w_db w))).
Proof.
  unfold persist, UpsertControlPlane, query, mbind, M_bind. fold (written res pem).
  destruct (w_faults w) as [|[] fs]; cbn [snd]; try (by left; eauto);
    destruct (varchar _ _ && text _); cbn; eauto.
Qed.

(** The calls that close setup: the admin, then completion. *)
Definition closing (tail : Log) : Prop :=
  (exists a, tail = [entry RpcCompleteSetup a])
  \/ (ss_admin st = false /\ exists q a, tail = [entry (RpcCreateAdmin q) a])
  \/ (ss_admin st = false /\ exists q u a,
        tail = [entry (RpcCreateAdmin q) (Ok u); entry RpcCompleteSetup a]).

(** The log of a provisioning run: registrations, then, once Auth accepted the
    control client, the closing calls. *)
Definition run_log (l : Log) : Prop :=
  exists prov tail, l = l0 ++ prov ++ tail /\ Forall (provisioning st) prov
    /\ Forall (core_jwks stored_jwks) prov
    /\ (tail = [] \/ closing tail /\ exists jwks, accepted jwks (l0 ++ prov)).

Lemma opened_run_log l : opened l -> run_log l.
Proof. intros (prov & -> & H1 & H2). exists prov, []. rewrite app_nil_r. auto. Qed.

Lemma run_log_closing l tail jwks :
  opened l -> accepted jwks l -> closing tail -> run_log (l ++ tail).
Proof.
  intros (prov & -> & H1 & H2) Ha Hc. exists prov, tail. rewrite app_assoc. eauto 10.
Qed.

(** After the admin step: the admin call, if any, succeeded. *)
Definition admin_done (jwks : string) (cp : option ControlPlaneRow) (l : Log) : Prop :=
  cp = row0 /\ exists l1, opened l1 /\ accepted jwks l1
    /\ (l = l1 \/ ss_admin st = false /\ exists q u, l = l1 ++ [entry (RpcCreateAdmin q) (Ok u)]).

Lemma run_admin_spec q res jwks :
  hoare (both (provisioned jwks)) (run_admin (recorded srv) cfg st q res)
    (fun r n => match r with
       | Ok res' => both (admin_done jwks) n /\ sr_JWKS res' = sr_JWKS res
                    /\ sr_AuthTenantID res' = sr_AuthTenantID res
       | Err _ => row n = row0 /\ run_log (log n)
       end).
Proof.
  unfold run_admin. destruct (ss_admin st) eqn:Ea; cbn [negb].
  - intros n (H1 & H2 & H3). cbn. split_and!; [|done..]. split; [done|]. eauto 6.
  - eapply hoare_bind with (Mid := fun r n => match r with
       | Ok res' => both (admin_done jwks) n
       | Err _ => row n = row0 /\ run_log (log n)
       end); [|done|].
    + apply (hoare_must _ (RpcCreateAdmin _)). intros n n' a (H1 & H2 & H3) E1 _ E2.
      destruct a as [u|e]; cbn; unfold both, admin_done; rewrite E1, E2.
      * split; [done|]. exists (log n). eauto 8.
      * split; [done|]. eapply run_log_closing; [done..|]. right. left. eauto.
    + intros u n Hn. done.
Qed.

Lemma complete_spec jwks :
  hoare (both (admin_done jwks)) (must (recorded srv) cfg "auth CompleteSetup: " RpcCompleteSetup)
    (fun r n => row n = row0 /\ run_log (log n)
       /\ forall u, r = Ok u -> accepted jwks (log n) /\ last (log n) = Some (entry RpcCompleteSetup (Ok ()))).
Proof.
  apply hoare_must. intros n n' a (H1 & l1 & H2 & H3 & H4) E1 _ E2. rewrite E1, E2.
  split_and!; [done| |].
  - destruct H4 as [->|(? & q & u & ->)].
    + eapply run_log_closing; [done..|]. left. eauto.
    + rewrite <- app_assoc. eapply run_log_closing; [done..|]. right. right. eauto.
  - intros u Hu. destruct a as [[]|]; [|done]. split; [|by rewrite last_app].
    destruct H4 as [->|(? & q & v & ->)]; repeat apply accepted_app; done.
Qed.

(** What a provisioning run leaves: its calls in order, and the row either
    untouched by a failed run or carrying the result of a run Auth confirmed. *)
Definition provision_outcome (r : result setup_error Result) (n : node) : Prop :=
  run_log (log n)
  /\ ((row n = row0 /\ exists e, r = Err e)
      \/ exists res pem at_, row n = Some (upserted at_ (written res pem) row0)
          /\ key_of_run pem (sr_JWKS res) /\ accepted (sr_JWKS res) (log n)
          /\ last (log n) = Some (entry RpcCompleteSetup (Ok ()))
          /\ completed res = true /\ (ss_tenant st = true -> sr_AuthTenantID res = ""%string)
          /\ (r = Ok res \/ exists e, r = Err e)).

Lemma provision_failed e n :
  row n = row0 -> run_log (log n) -> provision_outcome (Err e) n.
Proof. intros Hr Hl. split; [done|]. left. eauto. Qed.

Lemma run_finish_spec res pem :
  key_of_run pem (sr_JWKS res) -> (ss_tenant st = true -> sr_AuthTenantID res = ""%string) ->
  completed res = true -> forall tn td,
  hoare (fun n => row n = row0 /\ run_log (log n) /\ accepted (sr_JWKS res) (log n)
           /\ last (log n) = Some (entry RpcCompleteSetup (Ok ())))
    (p_map_err (fun e => setup_errorf ("persist control plane: " +:+ dberr_Error e))
       (on_db (persist cfg res pem));;
     p_catch (on_db (mirror cfg res tn td)) (fun _ => mret res))
    (provision_outcome).
Proof.
  intros Hk Hs Hc tn td.
  set (confirmed := fun n : node => run_log (log n) /\ accepted (sr_JWKS res) (log n)
    /\ last (log n) = Some (entry RpcCompleteSetup (Ok ()))).
  set (saved := fun n : node => exists at_, row n = Some (upserted at_ (written res pem) row0)).
  assert (Hend : forall r n, confirmed n -> saved n -> r = Ok res \/ (exists e, r = Err e) ->
    provision_outcome r n).
  { intros r n (H1 & H2 & H3) [at_ H4] Hr. split; [done|]. right. exists res, pem, at_. by split_and!. }
  eapply hoare_bind with (Mid := fun r n => confirmed n /\ (saved n \/ row n = row0 /\ exists e, r = Err e)).
  - intros n (H1 & H2). unfold p_map_err, on_db, saved. fold (row n) in H1.
    pose proof (persist_row res pem (n_world n)) as Hp. fold (row n) in Hp. rewrite H1 in Hp.
    destruct (persist cfg res pem (n_world n)) as [r w1]. split; [done|].
    destruct Hp as [[Hp [e ->]]|Hp]; [right; cbn; eauto | left; cbn; eauto].
  - intros e n [H1 [H2|[H2 _]]]; [apply Hend; eauto | by apply provision_failed; [|apply H1]].
  - intros [] n [H1 H2]. destruct H2 as [H2|[_ [? ?]]]; [|done].
    pose proof (mirror_control cfg res tn td (n_world n)) as Hm.
    unfold p_catch, p_try, on_db, mbind, P_bind. destruct (mirror cfg res tn td (n_world n)) as [r2 w2].
    cbn. apply Hend; [done| |by left]. destruct H2 as [at_ H2]. exists at_. unfold row in *. cbn in *.
    by rewrite Hm.
Qed.

Lemma run_tenant_skipped tn td n res n' :
  run_tenant (recorded srv) cfg st tn td n = (Ok res, n') -> ss_tenant st = true ->
  sr_AuthTenantID res = ""%string.
Proof. unfold run_tenant. intros E Hs. rewrite Hs in E. cbn in E. unfold mret, P_ret in E. by simplify_eq. Qed.

Lemma run_provision_spec {L : KeyLaws} tn td admin :
  hoare (fun n => n_world n = w0 /\ log n = l0)
    (run_provision (recorded srv) cfg st tn td admin) (provision_outcome).
Proof.
  unfold run_provision.
  eapply hoare_bind with (Mid := fun r n => n_world n = w0 /\ opened (log n)
    /\ forall res, r = Ok res -> ss_tenant st = true -> sr_AuthTenantID res = ""%string).
  { intros n Hn. destruct (run_tenant_calls tn td n Hn) as [H1 H2]. split_and!; [done..|].
    intros res Hr. destruct (run_tenant (recorded srv) cfg st tn td n) eqn:E. cbn in Hr. subst.
    by eapply run_tenant_skipped. }
  { intros e n (Hw & Ho & _). apply provision_failed; [|by apply opened_run_log].
    unfold row. by rewrite Hw. }
  intros res1. eapply hoare_bind.
  { eapply (hoare_frame (ss_tenant st = true -> sr_AuthTenantID res1 = ""%string));
      [apply run_control_spec|]. intros n (Hw & Ho & Hs). eauto. }
  { intros e n [(Hr & Ho & _) _]. apply provision_failed; [done|by apply opened_run_log]. }
  intros [res2 pem]. eapply hoare_bind with (Mid := fun r n => both (provisioned (sr_JWKS res2)) n
    /\ key_of_run pem (sr_JWKS res2) /\ forall res3, r = Ok res3 -> sr_JWKS res3 = sr_JWKS res2
    /\ (ss_tenant st = true -> sr_AuthTenantID res3 = ""%string)).
  { intros n [(_ & _ & H) Hs]. destruct (H res2 pem eq_refl) as (Hk & Hp & Ht).
    split_and!; [by apply keeps_provisioned_optional|done|]. intros res3 Hr.
    destruct (run_optional (recorded srv) cfg res2 n) eqn:E. cbn in Hr. subst.
    apply run_optional_result in E as [E1 E2]. split; [done|]. intros. rewrite E2, Ht. auto. }
  { intros e n ((H1 & H2 & _) & _). apply provision_failed; [done|by apply opened_run_log]. }
  intros res3. eapply hoare_bind with (Mid := fun r n => both (provisioned (sr_JWKS res3)) n
    /\ key_of_run pem (sr_JWKS res3) /\ (ss_tenant st = true -> sr_AuthTenantID res3 = ""%string)).
  { intros n (Hp & Hk & H). destruct (H res3 eq_refl) as [E Ht]. rewrite E. split_and!; [|done..].
    by apply keeps_map_err; [apply keeps_provisioned_steward|]. }
  { intros e n ((H1 & H2 & _) & _). apply provision_failed; [done|by apply opened_run_log]. }
  intros []. eapply hoare_bind.
  { eapply (hoare_frame (key_of_run pem (sr_JWKS res3)
        /\ (ss_tenant st = true -> sr_AuthTenantID res3 = ""%string))); [apply run_admin_spec|done]. }
  { intros e n ((H1 & H2) & _). by apply provision_failed. }
  intros res4. eapply hoare_bind.
  { eapply (hoare_frame (sr_JWKS res4 = sr_JWKS res3 /\ sr_AuthTenantID res4 = sr_AuthTenantID res3
        /\ key_of_run pem (sr_JWKS res3)
        /\ (ss_tenant st = true -> sr_AuthTenantID res3 = ""%string))); [apply complete_spec|].
    intros n ((Hd & E1 & E2) & Hk & Ht). by split_and!. }
  { intros e n ((H1 & H2 & _) & _). by apply provision_failed. }
  intros u n ((H1 & H2 & H3) & E1 & E2 & Hk & Ht). destruct (H3 u eq_refl) as [Ha Hl].
  unfold mbind at 1, P_bind, on_db, time_Now. cbn.
  apply run_finish_spec; cbn; [by rewrite E1|by rewrite E2|done|].
  rewrite E1. by split_and!.
Qed.
End Provision.

(** ** A whole run *)

(** Auth reported itself complete: the result says so, and the row is either as
    it was or, when no completion was on record, stamped without a key. *)
Definition complete_outcome (w0 : World) (r : result setup_error Result) (n : node) : Prop :=
  exists res, r = Ok res /\ sr_AlreadyComplete res = true /\ completed res = true
    /\ (row n = control_plane (w_db w0)
        \/ exists at_, row n = Some (upserted at_ (written res "") (control_plane (w_db w0))))
    /\ (forall q t, hd FaultNone (w_faults w0) = FaultNone -> control_plane (w_db w0) = Some q ->
          cp_SetupCompletedAt q = Some t -> row n = Some q).

Lemma loadPersisted_read w q t :
  hd FaultNone (w_faults w) = FaultNone -> control_plane (w_db w) = Some q ->
  cp_SetupCompletedAt q = Some t ->
  exists res, fst (loadPersisted w) = Ok res /\ sr_CompletedAt res = Some t.
Proof.
  intros Hf Hq Ht. unfold loadPersisted, try, mbind, M_bind, GetControlPlane, query.
  destruct (w_faults w) as [|[] fs]; cbn in *; try done;
    rewrite Hq; cbn; rewrite Ht; eexists; split; reflexivity.
Qed.

Lemma run_complete_spec w0 l0 tn td :
  hoare (fun n : node => n_world n = w0 /\ log n = l0) (run_complete cfg tn td)
    (fun r n' => complete_outcome w0 r n' /\ log n' = l0).
Proof.
  intros n [Hw Hl]. unfold run_complete, p_map_err, mbind, P_bind, on_db. rewrite Hw.
  pose proof (load_control w0) as Hc0. pose proof (loadPersisted_read w0) as Hread.
  destruct (loadPersisted w0) as [[res|e] w1] eqn:El.
  2: { exfalso. revert El. unfold loadPersisted, try, mbind, M_bind. by destruct (GetControlPlane w0). }
  cbn in Hc0, Hread. cbn. unfold p_catch, p_try, mbind, P_bind. cbn.
  set (res1 := res <| sr_AlreadyComplete := true |>).
  pose proof (mirror_control cfg res1 tn td w1) as Hc1.
  destruct (mirror cfg res1 tn td w1) as [rm w2]. cbn in Hc1. unfold same_control in *.
  cbn. destruct (sr_CompletedAt res) as [t|] eqn:Et; cbn.
  - split; [|done]. exists res1. split_and!; [done..| | |].
    + unfold completed. cbn. by rewrite Et.
    + left. unfold row. cbn. congruence.
    + intros q t' Hf Hq Ht. unfold row. cbn. congruence.
  - set (res2 := res1 <| sr_CompletedAt := Some (w_gonow w2) |>).
    pose proof (persist_row res2 "" w2) as Hp.
    destruct (persist cfg res2 "" w2) as [rp w3]. cbn. split; [|done]. exists res2.
    split_and!; [done..| |].
    + unfold row. cbn. destruct Hp as [[Hp _]|Hp]; [left; congruence|right].
      eexists. rewrite Hp. do 2 f_equal. congruence.
    + intros q t' Hf Hq Ht. destruct (Hread q t' Hf Hq Ht) as (res' & [= ->] & E). congruence.
Qed.

Inductive run_outcome (w0 : World) (r : result setup_error Result) (n : node) : Prop :=
  | ran_nothing e : r = Err e -> row n = control_plane (w_db w0) -> log n = [] -> run_outcome w0 r n
  | ran_refused e s : r = Err e -> row n = control_plane (w_db w0) ->
      log n = [entry RpcGetSetupStatus (Err s)] -> run_outcome w0 r n
  | ran_complete st : ss_complete st = true -> log n = [entry RpcGetSetupStatus (Ok st)] ->
      complete_outcome w0 r n -> run_outcome w0 r n
  | ran_provision st : ss_complete st = false ->
      provision_outcome w0 [entry RpcGetSetupStatus (Ok st)] st r n -> run_outcome w0 r n.

Lemma run_body_spec {L : KeyLaws} in_ w0 :
  hoare (fun n => n_world n = w0 /\ log n = []) (run_body (recorded srv) NewClient cfg in_)
    (run_outcome w0).
Proof.
  assert (Hrow : forall n : node, n_world n = w0 -> row n = control_plane (w_db w0))
    by (intros n <-; done).
  unfold run_body. destruct (is_empty _).
  { intros n [Hw Hl]. by eapply ran_nothing; [reflexivity|apply Hrow|]. }
  cbv zeta. destruct (is_empty _).
  { intros n [Hw Hl]. by eapply ran_nothing; [reflexivity|apply Hrow|]. }
  destruct (dialSetupService _ _) as [c|e].
  2: { intros n [Hw Hl]. by eapply ran_nothing; [reflexivity|apply Hrow|]. }
  eapply hoare_bind with (Mid := fun r n => n_world n = w0 /\ match r with
    | Ok st => log n = [entry RpcGetSetupStatus (Ok st)]
    | Err _ => exists s, log n = [entry RpcGetSetupStatus (Err s)] end).
  - apply (hoare_must _ RpcGetSetupStatus). intros n n' a [Hw Hl] _ E2 E3. rewrite Hl in E3.
    split; [congruence|]. destruct a; cbn; eauto.
  - intros e n [Hw [s Hl]]. by eapply ran_refused; [reflexivity|apply Hrow|].
  - intros st. cbn beta. destruct (ss_complete st) eqn:Ec; intros n [Hw Hl].
    + match goal with |- context [run_complete cfg ?tn ?td] =>
        destruct (run_complete_spec w0 _ tn td n (conj Hw Hl)) as [H1 H2] end.
      by eapply ran_complete.
    + eapply ran_provision; [done|]. by apply run_provision_spec.
Qed.

(** A run from an idle orchestrator, whose calls so far are forgotten. *)
Definition fresh (n : node) : Prop := o_running (n_peer n) = false /\ log n = [].

Lemma RunWith_spec {L : KeyLaws} in_ n : fresh n ->
  let '(r, n') := RunWith (recorded srv) NewClient cfg in_ n in
  run_outcome (n_world n) r n' /\ o_running (n_peer n') = false.
Proof.
  destruct n as [w d ks [b [a0 l]]]. intros [Hr Hl]. unfold log in Hl. cbn in Hr, Hl. subst b l.
  unfold RunWith, tryBegin, on_peer, mbind, P_bind. cbn.
  set (m := with_peer _ _).
  assert (H : run_outcome w (fst (run_body (recorded srv) NewClient cfg in_ m))
    (snd (run_body (recorded srv) NewClient cfg in_ m))) by by apply run_body_spec.
  destruct (run_body (recorded srv) NewClient cfg in_ m) as [r n']. cbn in H. split; [|done].
  destruct H as [e ? ? ?|e s ? ? ?|st ? ? H|st ? H].
  - by eapply ran_nothing.
  - by eapply ran_refused.
  - by eapply ran_complete.
  - by eapply ran_provision.
Qed.
End Runs.
