(* ===== verification/Identity.v ===== *)
(** * Core's control identity

    [internal/authctrl/identity.go]: the credential Core presents to Auth after
    setup, read back from the control_plane row that setup wrote. *)

From S2P Require Import Prelude Json Storage World AppError Queries Agent Keys.

Section Identity.
Context {T : GoText} {C : Crypto} {R : RSA}.

Record Identity := {
  id_ClientID : string; id_TenantID : string; id_PrivateKey : rsa_key; id_KeyID : string }.

Inductive identity_error := ErrNoControlIdentity | IdentityFailed (msg : string).

(** The package's own [firstNonEmpty]: blank text counts as empty. *)
Fixpoint firstNonBlank (vals : list string) : string :=
  match vals with
  | [] => ""
  | v :: vals => if negb (is_empty (TrimSpace v)) then v else firstNonBlank vals
  end.

Definition uuidOrEmpty (row : ControlPlaneRow) : string :=
  match cp_AuthTenantUuid row with Some u => uuid_String u | None => "" end.

Definition isNoRows (e : dberr) : bool := match e with ErrNoRows => true | _ => false end.

Definition identity_of (row : ControlPlaneRow) : result identity_error Identity :=
  let pem := TrimSpace (cp_ControlPrivateKeyPem row) in
  if is_empty pem then Err ErrNoControlIdentity
  else
    let res := cp_Data row in
    let clientID := TrimSpace (sr_ControlOAuthClientID res) in
    let tenantID := TrimSpace (firstNonBlank [sr_AuthTenantID res; uuidOrEmpty row]) in
    if is_empty clientID || is_empty tenantID then Err ErrNoControlIdentity
    else match ParseRSAPrivateKey pem with
    | Err e => Err (IdentityFailed ("authctrl: stored control key is unusable: " +:+ e))
    | Ok key => Ok {| id_ClientID := clientID; id_TenantID := tenantID;
                      id_PrivateKey := key; id_KeyID := KeyID key |}
    end.

(** The store is never nil: [cmd/server] hands it the queries. *)
Definition LoadIdentity : M identity_error Identity :=
  row ← map_err (fun e => if isNoRows e then ErrNoControlIdentity
                   else IdentityFailed ("authctrl: read control plane: " +:+ dberr_Error e))
          GetControlPlane;
  lift (identity_of row).
End Identity.
