(* ===== verification/SetupSample.v ===== *)
(** * A sample install

    Concrete key encodings that satisfy [KeyLaws], a small Auth, a
    configuration and a fresh database, on which the theorems about setup are
    evaluated. *)

From S2P Require Import Prelude Json Storage World AppError Queries Agent Keys Process.
From S2P Require Import SetupConfig Setup SetupSafety Sample.
From S2P Require Resource Hosts.

(** ** Encodings *)

(** A length in unary, then the text. *)
Fixpoint unary (n : nat) (rest : string) : string :=
  match n with O => String "y" rest | S n => String "x" (unary n rest) end.
Fixpoint ununary (s : string) : option (nat * string) :=
  match s with
  | String a s' =>
      if Ascii.eqb a "y" then Some (O, s')
      else match ununary s' with Some (n, r) => Some (S n, r) | None => None end
  | EmptyString => None
  end.
Fixpoint split_at (n : nat) (s : string) : string * string :=
  match n, s with
  | S n, String a s' => let '(x, y) := split_at n s' in (String a x, y)
  | _, _ => (""%string, s)
  end.

Lemma ununary_unary n rest : ununary (unary n rest) = Some (n, rest).
Proof. induction n as [|n IH]; cbn; [done|]. by rewrite IH. Qed.
Lemma split_at_app a b : split_at (String.length a) (a +:+ b) = (a, b).
Proof. induction a as [|c a IH]; [done|]. change (String c a +:+ b) with (String c (a +:+ b)). cbn [split_at String.length]. by rewrite IH. Qed.

#[refine] Definition install_crypto : Crypto := {|
  sha256_Sum256 s := string_of_list_ascii (repeat (ascii_of_nat (String.length s)) 32);
  pem_Decode s := match ununary s with
                  | Some (n, r) => Some (split_at n r)
                  | None => None
                  end;
  pem_EncodeToMemory t b := unary (String.length t) (t +:+ b);
  x509_ParseCertificateRequest s := Ok (Build_CertificateRequest [] [] [s] s s);
  x509_CheckSignature _ := None;
  x509_ParseCertificate s := Ok (Build_CACertificate true s);
  x509_ParsePKCS8PrivateKey s := Some (Build_PrivateKey true s);
  x509_ParsePKCS1PrivateKey _ := None;
  x509_ParseECPrivateKey _ := None;
  x509_CreateCertificate tpl ca pub key := Ok (tpl_CommonName tpl) |}.
Proof. intros s. reflexivity. Defined.

(** A key is named by a text; its modulus is that text read as a number. *)
Definition install_rsa : RSA := {|
  rsa_key := string;
  rsa_N s := foldl (fun acc b => acc * 256 + Z.of_nat b) 0 (bytes s);
  rsa_E _ := 65537;
  x509_MarshalPKCS1 k := k;
  x509_ParsePKCS1 s := Ok s;
  x509_ParsePKCS8 s := Ok (Some s) |}.

Lemma install_laws : @KeyLaws install_crypto install_rsa.
Proof.
  split; cbn.
  - intros t b. by rewrite ununary_unary, split_at_app.
  - intros t b. by destruct t.
  - done.
Qed.

Definition install_transport : Transport := {|
  os_ReadFile _ := Err "no such file"%string; AppendCertsFromPEM _ := true;
  Certificate := (); LoadX509KeyPair _ _ := Ok () |}.

Definition install_text : GoText := {|
  lower_unicode s := s; upper_unicode s := s; fmt_q s := s; duration_String := pretty;
  time_RFC3339 := pretty; uuid_String := pretty;
  uuid_Parse s := if str_eqb s "77" then Some 77 else None |}.

(** ** A small Auth *)

(** The tenant, the admin, whether setup is closed, and the clients by name
    with their key sets. *)
Record Auth := { au_tenant : bool; au_admin : bool; au_done : bool; au_clients : list (string * string) }.

Definition client_of (name : string) (cs : list (string * string)) : option (string * string) :=
  List.find (fun c => str_eqb (fst c) name) cs.

(** Ensures are idempotent, a weak admin password is refused. *)
Definition small_auth : AuthServer Auth := fun r _ s =>
  match r return result status (AuthResp r) * Auth with
  | RpcGetSetupStatus => (Ok (Build_SetupStatus (au_done s) (au_tenant s) (au_admin s)), s)
  | RpcCreateTenant q =>
      (Ok (Build_CreateTenantResponse "77" "c0" "p0"),
       Build_Auth true (au_admin s) (au_done s) (au_clients s))
  | RpcRegisterControlService q => (Ok (Build_RegisterControlServiceResponse "s1" "p1" "core"), s)
  | RpcEnsureControlClient q =>
      match client_of (ecq_Name q) (au_clients s) with
      | Some _ => (Ok (Build_EnsureControlClientResponse "id" "oauth" "private_key_jwt" true), s)
      | None => (Ok (Build_EnsureControlClientResponse "id" "oauth" "private_key_jwt" false),
                 Build_Auth (au_tenant s) (au_admin s) (au_done s)
                   ((ecq_Name q, ecq_Jwks q) :: au_clients s))
      end
  | RpcEnsureResourceAPI q => (Ok (Build_EnsureResourceAPIResponse "a1" (eaq_Identifier q)), s)
  | RpcEnsureRole q => (Ok "r1"%string, s)
  | RpcEnsureConsoleClient q => (Ok (Build_EnsureConsoleClientResponse "cc" "console"), s)
  | RpcCreateAdmin q =>
      if str_eqb (caq_Password q) "weak" then (Err (Status codes_InvalidArgument "weak password"), s)
      else (Ok "u1"%string, Build_Auth (au_tenant s) true (au_done s) (au_clients s))
  | RpcCompleteSetup => (Ok (), Build_Auth (au_tenant s) (au_admin s) true (au_clients s))
  end.

(** ** A fresh install *)

Definition install_env (key : string) : string :=
  if str_eqb key "AUTH_SETUP_ADDR" then "auth:9090"
  else if str_eqb key "SETUP_ADMIN_PASSWORD" then "s3cret" else "".
Definition install_config : Config := LoadConfig install_env.

Definition empty_db : Db :=
  mkDb (mkTable [] 1) (mkTable [] 1) (mkTable [] 1) (mkTable [] 1) (mkTable [] 1)
    (mkTable [] 1) (mkTable [] 1) (mkTable [] 1) None.
Definition world_of (d : Db) (faults : list fault) : World :=
  mkWorld d 1000 1000 [601; 602; 603; 604; 605; 606] faults.

Definition install_node (d : Db) (faults : list fault) (keys : list string) (a : Auth)
    : @node install_rsa Auth :=
  @mkNode install_rsa _ (world_of d faults) (mkDisk ∅ []) keys (mkOrch false (a, [])).

Definition new_auth : Auth := Build_Auth false false false [].
Definition first_node := install_node empty_db [] ["k1"; "k2"; "k3"; "k4"; "k5"]%string new_auth.

Definition any_client {K : Transport} (_ : string) (_ : creds) : option string := None.

(** A run of the sample install. *)
Abbreviation setup_run := (@RunWith install_text open_kit install_crypto install_rsa
  install_transport _ (recorded small_auth) (@any_client install_transport) install_config).
Definition with_password (p : string) : RunInput := Build_RunInput "" "" "" "" "" p.

(** An install whose record survives, and its Auth. *)
Definition kept_key : string := @pem_EncodeToMemory install_crypto "RSA PRIVATE KEY" "k9".
Definition kept_row : ControlPlaneRow := {|
  cp_AuthTenantUuid := Some 77;
  cp_Data := emptyResult <| sr_AuthTenantID := "77"%string |>
               <| sr_ControlOAuthClientID := "oauth"%string |> <| sr_CompletedAt := Some 500 |>;
  cp_ControlPrivateKeyPem := kept_key; cp_DeploymentMode := "docker";
  cp_SetupCompletedAt := Some 500; cp_CreatedAt := 500; cp_UpdatedAt := 500 |}.
Definition kept_db : Db := set_field control_plane (fun _ => Some kept_row) empty_db.
Definition kept_node (faults : list fault) (a : Auth) : @node install_rsa Auth :=
  install_node kept_db faults ["k1"; "k2"; "k3"; "k4"; "k5"]%string a.
Definition done_auth : Auth := Build_Auth true true true [].
