(* ===== verification/SetupClaims.v ===== *)
(** * The promises of a setup run

    Stated on [RunWith] from an idle orchestrator, for every Auth, every fault
    of the database and the key directory, and every input; with a sample Auth
    on which the hypotheses are evaluated. *)

From S2P Require Import Prelude Json Storage World AppError Queries Evolution Agent Keys Process.
From S2P Require Import SetupConfig Setup SetupSafety Identity Sample SetupSample.
From S2P Require Resource Mrn.

(** A key that is not empty is the one an upsert leaves. *)
Lemma upserted_key at_ arg old : ucp_ControlPrivateKeyPem arg <> ""%string ->
  cp_ControlPrivateKeyPem (upserted at_ arg old) = ucp_ControlPrivateKeyPem arg.
Proof. intros H%str_eqb_neq. cbn. unfold is_empty. by destruct old; rewrite ?H. Qed.

(** The log of a run: the status, then registrations, then the closing calls. *)
Definition ordered_calls (cfg : Config) (l : Log) : Prop :=
  l = []
  \/ exists a rest, l = entry cfg RpcGetSetupStatus a :: rest
     /\ match a with
        | Err _ => rest = []
        | Ok st =>
            (ss_complete st = true -> rest = [])
            /\ exists prov tail, rest = prov ++ tail /\ Forall (provisioning st) prov
                 /\ (tail = [] \/ closing cfg st tail /\ exists jwks, accepted cfg jwks prov)
        end.

(** Auth's own word in the log that setup is complete. *)
Definition confirmed (cfg : Config) (l : Log) : Prop :=
  (exists st, ss_complete st = true /\ entry cfg RpcGetSetupStatus (Ok st) ∈ l)
  \/ entry cfg RpcCompleteSetup (Ok ()) ∈ l.

Definition stamped (cp : option ControlPlaneRow) : Prop :=
  exists r t, cp = Some r /\ cp_SetupCompletedAt r = Some t.

Section Claims.
Context {T : GoText} {W : Resource.WorkloadKit} {C : Crypto} {R : RSA} {L : KeyLaws} {K : Transport}.
Context {A : Type} (srv : AuthServer A) (NewClient : string -> creds -> option string).
Context (cfg : Config) (Hcore : CoreServiceName cfg = "maintainerd-core"%string).

(** C19: the calls of a setup run come in an order Auth's one-time window
    allows.  The run asks for the status first, and a completed or unreadable
    status is the last call.  Otherwise come registrations only, among them the
    creation of a tenant only if Auth reported none; and the calls that close
    the window, the admin (only if Auth reported none) and completion, come
    after all of them and only once Auth accepted Core's control client. *)
Theorem setup_call_order in_ (n : node) : fresh n ->
  ordered_calls cfg (log (snd (RunWith (recorded srv) NewClient cfg in_ n))).
Proof.
  intros Hn. pose proof (RunWith_spec srv NewClient cfg Hcore in_ n Hn) as H.
  destruct (RunWith (recorded srv) NewClient cfg in_ n) as [r n']. cbn. destruct H as [[e ? ? ?|e s ? ? Hl|st Hc Hl ?|st Hc Hp] _].
  - by left.
  - right. eexists (Err s), []. done.
  - right. eexists (Ok st), []. split_and!; try done. exists [], []. auto.
  - right. destruct Hp as [(prov & tail & Hl & H1 & H2 & H3) _]. eexists (Ok st), (prov ++ tail).
    split_and!; [done| |].
    + by rewrite Hc.
    + exists prov, tail. split_and!; [done..|]. destruct H3 as [?|(H3 & jwks & q & cc & Hin & Hq)]; [by left|].
      right. split; [done|]. exists jwks, q, cc. split; [|done].
      apply elem_of_app in Hin as [Hin%list_elem_of_singleton|?]; [|done].
      by apply (f_equal rpc_req) in Hin.
Qed.

(** Core records setup as complete only on Auth's word.  If a run turns
    a row without a completion stamp into a stamped one, then in that very run
    Auth either reported its setup complete or acknowledged CompleteSetup. *)
Theorem completion_confirmed in_ (n : node) : fresh n -> ~ stamped (row n) ->
  let n' := snd (RunWith (recorded srv) NewClient cfg in_ n) in
  stamped (row n') -> confirmed cfg (log n').
Proof.
  intros Hn Hno. pose proof (RunWith_spec srv NewClient cfg Hcore in_ n Hn) as H.
  destruct (RunWith (recorded srv) NewClient cfg in_ n) as [r n']. cbn.
  destruct H as [[e ? Hr ?|e s ? Hr Hl|st Hc Hl ?|st Hc Hp] _]; intros Hs;
    try (destruct Hno; by rewrite Hr in Hs).
  - left. exists st. split; [done|]. rewrite Hl. by apply list_elem_of_singleton.
  - right. destruct Hp as [_ [[Hr _]|(res & pem & at_ & _ & _ & _ & Hlast & _)]].
    + destruct Hno. by rewrite Hr in Hs.
    + by apply last_Some_elem_of in Hlast.
Qed.

(** C20: the signing key survives every run.  Whatever Auth answers and
    whichever query fails, a stored key is never erased; and if the first query
    of the run reaches the row, the key stays the very same one and every key
    set sent for Core's own control client is that key's. *)
Theorem control_key_custody in_ (n : node) q : fresh n -> row n = Some q ->
  cp_ControlPrivateKeyPem q <> ""%string ->
  let n' := snd (RunWith (recorded srv) NewClient cfg in_ n) in
  exists q', row n' = Some q' /\ cp_ControlPrivateKeyPem q' <> ""%string
    /\ (hd FaultNone (w_faults (n_world n)) = FaultNone ->
          cp_ControlPrivateKeyPem q' = cp_ControlPrivateKeyPem q
          /\ Forall (core_jwks cfg (fun jwks =>
                JWKSFromPrivatePEM (cp_ControlPrivateKeyPem q) = Ok jwks)) (log n')).
Proof.
  intros Hn Hq Hne. pose proof (RunWith_spec srv NewClient cfg Hcore in_ n Hn) as H.
  destruct (RunWith (recorded srv) NewClient cfg in_ n) as [r n']. cbn.
  assert (Hq' : control_plane (w_db (n_world n)) = Some q) by done.
  destruct H as [[e ? Hr Hl|e s ? Hr Hl|st Hc Hl (res & _ & _ & _ & Hr & _)|st Hc Hp] _];
    try (exists q; rewrite Hr, Hl, Hq'; split_and!; [done..|]; intros; split; [done|];
         repeat constructor).
  - rewrite Hl. destruct Hr as [Hr|[at_ Hr]]; rewrite Hr, Hq'; eexists; (split; [reflexivity|]);
      (split; [done|]); intros; split; try done; repeat constructor.
  - destruct Hp as [(prov & tail & Hl & H1 & H2 & H3) Hrow].
    assert (Hlog : hd FaultNone (w_faults (n_world n)) = FaultNone ->
      Forall (core_jwks cfg (fun jwks => JWKSFromPrivatePEM (cp_ControlPrivateKeyPem q) = Ok jwks))
        (log n')).
    { intros Hf. rewrite Hl. constructor; [done|]. cbn. apply Forall_app. split.
      - eapply Forall_impl; [exact H2|]. intros x Hx. unfold core_jwks in *.
        destruct (rpc_req x); try done. intros E. by apply (Hx E q).
      - destruct H3 as [->|[H3 _]]; [constructor|].
        destruct H3 as [(a & ->)|[(_ & ? & a & ->)|(_ & ? & u & a & ->)]]; repeat constructor. }
    destruct Hrow as [[Hr _]|(res & pem & at_ & Hr & [K1 K2 K3] & _)]; rewrite Hr, ?Hq'.
    + exists q. split_and!; [done..|]. auto.
    + eexists. split; [reflexivity|]. rewrite upserted_key by done. split; [done|].
      intros Hf. split; [|by apply Hlog]. by apply K3.
Qed.

(** A run that closed Auth's window and reports success has recorded
    what it reports: the row carries the result and its completion stamp, and
    the stored private key is the one whose public key set Auth accepted. *)
Theorem success_is_recorded in_ (n n' : node) res : fresh n ->
  RunWith (recorded srv) NewClient cfg in_ n = (Ok res, n') ->
  entry cfg RpcCompleteSetup (Ok ()) ∈ log n' ->
  exists q, row n' = Some q /\ cp_Data q = res /\ stamped (Some q)
    /\ JWKSFromPrivatePEM (cp_ControlPrivateKeyPem q) = Ok (sr_JWKS res)
    /\ accepted cfg (sr_JWKS res) (log n') /\ o_running (n_peer n') = false.
Proof.
  intros Hn E Hin. pose proof (RunWith_spec srv NewClient cfg Hcore in_ n Hn) as H. rewrite E in H.
  destruct H as [[e [=]|e s [=]|st Hc Hl ?|st Hc Hp] Hrun].
  - rewrite Hl in Hin. apply list_elem_of_singleton in Hin. by apply (f_equal rpc_req) in Hin.
  - destruct Hp as [_ [[_ [? [=]]]|(res' & pem & at_ & Hr & [K1 K2 K3] & Ha & _ & Hc' & _ & Hres)]].
    destruct Hres as [[= <-]|[? [=]]]. eexists. split; [exact Hr|].
    rewrite upserted_key by done. split_and!; try done.
    unfold completed in Hc'. destruct (sr_CompletedAt res) as [t|] eqn:Et; [|done].
    by eexists _, t.
Qed.

(** A re-run of a finished install changes nothing of its record.  When
    Auth reports itself complete and the stamped row can be read, the run
    succeeds, says that setup was already complete, and leaves the row as it is. *)
Theorem rerun_keeps_record in_ (n : node) q t st : fresh n -> row n = Some q ->
  cp_SetupCompletedAt q = Some t -> hd FaultNone (w_faults (n_world n)) = FaultNone ->
  let '(r, n') := RunWith (recorded srv) NewClient cfg in_ n in
  head (log n') = Some (entry cfg RpcGetSetupStatus (Ok st)) -> ss_complete st = true ->
  row n' = Some q /\ exists res, r = Ok res /\ sr_AlreadyComplete res = true /\ completed res = true.
Proof.
  intros Hn Hq Ht Hf. pose proof (RunWith_spec srv NewClient cfg Hcore in_ n Hn) as H.
  destruct (RunWith (recorded srv) NewClient cfg in_ n) as [r n']. intros Hin Hst.
  apply (f_equal (fun e => e ≫= reported)) in Hin. cbn in Hin.
  destruct H as [[e ? Hr Hl|e s ? Hr Hl|st' Hc Hl (res & ? & ? & ? & _ & Hkeep)|st' Hc Hp] _].
  - by rewrite Hl in Hin.
  - by rewrite Hl in Hin.
  - split; [by eapply Hkeep | eauto].
  - destruct Hp as [(prov & tail & Hl & _) _]. rewrite Hl in Hin. cbn in Hin. congruence.
Qed.

(** A run over a half-finished setup leaves Core without an identity.  If
    Auth reports that its tenant already exists, the run does not learn the
    tenant's id; when it succeeds all the same, the row holds no tenant in
    either place the identity is read from, and every later load of the control
    identity fails as if setup had never run. *)
Theorem skipped_tenant_loses_identity in_ (n n' : node) res st : fresh n ->
  uuid_Parse "" = None ->
  RunWith (recorded srv) NewClient cfg in_ n = (Ok res, n') ->
  head (log n') = Some (entry cfg RpcGetSetupStatus (Ok st)) ->
  ss_complete st = false -> ss_tenant st = true ->
  forall w, control_plane (w_db w) = row n' -> w_faults w = [] ->
  fst (LoadIdentity w) = Err ErrNoControlIdentity.
Proof.
  intros Hn Hu E Hin Hnc Hst w Hw Hf.
  pose proof (RunWith_spec srv NewClient cfg Hcore in_ n Hn) as H. rewrite E in H.
  apply (f_equal (fun e => e ≫= reported)) in Hin. cbn in Hin.
  destruct H as [[e [=]|e s [=]|st' Hc Hl ?|st' Hc Hp] _].
  - rewrite Hl in Hin. cbn in Hin. congruence.
  - destruct Hp as [(prov & tail & Hl & _) Hp]. rewrite Hl in Hin. cbn in Hin. simplify_eq.
    destruct Hp as [[_ [? [=]]]|(res' & pem & at_ & Hr & _ & _ & _ & _ & Ht & _)].
    unfold LoadIdentity, mbind, M_bind, map_err, GetControlPlane. rewrite query_run by done.
    rewrite Hw, Hr. cbn [result_map_err lift fst]. unfold identity_of.
    destruct (is_empty _); [done|]. cbn [upserted cp_Data written ucp_Data].
    unfold uuidOrEmpty. cbn [cp_AuthTenantUuid upserted written ucp_AuthTenantUuid].
    rewrite (Ht Hst), Hu. by rewrite orb_true_r.
Qed.
End Claims.

(** ** The sample install *)

Existing Instances install_text open_kit install_crypto install_rsa install_laws install_transport.

Lemma first_node_fresh : fresh first_node.
Proof. done. Qed.

Lemma setup_call_order_witness :
  fresh first_node /\ ordered_calls install_config (log (snd (setup_run no_input first_node)))
  /\ length (log (snd (setup_run no_input first_node))) = 17%nat.
Proof.
  split_and!; [done| |vm_compute; reflexivity].
  apply (setup_call_order small_auth any_client install_config eq_refl no_input first_node). done.
Defined.

Lemma completion_confirmed_witness :
  ~ stamped (row first_node) /\ stamped (row (snd (setup_run no_input first_node)))
  /\ confirmed install_config (log (snd (setup_run no_input first_node))).
Proof.
  assert (H1 : ~ stamped (row first_node)) by (intros (r & t & [=] & _)).
  assert (H2 : stamped (row (snd (setup_run no_input first_node)))).
  { unfold stamped. vm_compute. do 2 eexists. split; reflexivity. }
  split_and!; [done..|].
  exact (completion_confirmed small_auth any_client install_config eq_refl no_input first_node
    first_node_fresh H1 H2).
Defined.

Lemma control_key_custody_witness :
  let n' := snd (setup_run no_input (kept_node [] new_auth)) in
  exists q', row n' = Some q' /\ cp_ControlPrivateKeyPem q' = kept_key
    /\ length (List.filter (fun e => match rpc_req e with RpcEnsureControlClient _ => true | _ => false end)
         (log n')) = 4%nat.
Proof.
  destruct (control_key_custody small_auth any_client install_config eq_refl no_input
    (kept_node [] new_auth) kept_row) as (q' & H1 & H2 & H3); [done|reflexivity|done|].
  exists q'. split; [exact H1|]. split; [by apply H3|vm_compute; reflexivity].
Defined.

Lemma success_is_recorded_witness : exists res n' q,
  setup_run no_input first_node = (Ok res, n') /\ row n' = Some q /\ cp_Data q = res.
Proof.
  destruct (setup_run no_input first_node) as [[res|e] n'] eqn:E; [|vm_compute in E; discriminate].
  destruct (success_is_recorded small_auth any_client install_config eq_refl no_input first_node n' res
    first_node_fresh E) as (q & H1 & H2 & _).
  - pose proof (f_equal snd E) as Hn. cbn [snd] in Hn.
    rewrite <- Hn. apply last_Some_elem_of. vm_compute. reflexivity.
  - exists res, n', q. exact (conj eq_refl (conj H1 H2)).
Defined.

Lemma rerun_keeps_record_witness :
  row (snd (setup_run no_input (kept_node [] done_auth))) = Some kept_row.
Proof.
  pose proof (rerun_keeps_record small_auth any_client install_config eq_refl no_input
    (kept_node [] done_auth) kept_row 500 (Build_SetupStatus true true true)) as H.
  specialize (H (conj eq_refl eq_refl) eq_refl eq_refl eq_refl).
  destruct (setup_run no_input (kept_node [] done_auth)) as [r n'] eqn:E. cbn.
  pose proof (f_equal snd E) as Hn. cbn [snd] in Hn.
  apply H; [|done]. rewrite <- Hn. vm_compute. reflexivity.
Defined.

(** A first run that fails on a weak password, and the retry that succeeds. *)
Definition forget (n : @node install_rsa Auth) : @node install_rsa Auth :=
  with_peer (mkOrch false (fst (o_auth (n_peer n)), [])) n.
Definition weak_node : node := forget (snd (setup_run (with_password "weak") first_node)).

Lemma skipped_tenant_loses_identity_witness : exists res,
  fst (setup_run no_input weak_node) = Ok res
  /\ fst (LoadIdentity ((n_world (snd (setup_run no_input weak_node))) <| w_faults := [] |>))
     = Err ErrNoControlIdentity.
Proof.
  destruct (setup_run no_input weak_node) as [[res|e] n'] eqn:E; [|vm_compute in E; discriminate].
  exists res. split; [done|].
  pose proof (f_equal snd E) as Hn. cbn [snd] in Hn.
  apply (skipped_tenant_loses_identity small_auth any_client install_config eq_refl no_input weak_node
    n' res (Build_SetupStatus false true false)); try reflexivity.
  - split; vm_compute; reflexivity.
  - exact E.
  - rewrite <- Hn. vm_compute. reflexivity.
Defined.

(** The retry signs with a key Auth never saw: the first run registered the key
    set of its key and failed before storing that key. *)
Lemma retry_mints_another_key :
  let n' := snd (setup_run no_input weak_node) in
  match row n', client_of "maintainerd-core-control" (au_clients (fst (o_auth (n_peer n')))) with
  | Some q, Some (_, jwks) => JWKSFromPrivatePEM (cp_ControlPrivateKeyPem q) <> Ok jwks
  | _, _ => False
  end.
Proof. vm_compute. discriminate. Qed.

(** A completed install whose row cannot be read at boot loses its record: the
    result and the stamp are replaced, only the key is kept. *)
Lemma unreadable_row_rewritten :
  match row (snd (setup_run no_input (kept_node [FaultBefore] done_auth))) with
  | Some q => cp_SetupCompletedAt q = Some 1000 /\ sr_AuthTenantID (cp_Data q) = ""%string
              /\ cp_AuthTenantUuid q = None /\ cp_ControlPrivateKeyPem q = kept_key
  | None => False
  end.
Proof. vm_compute. auto. Qed.

(** A key file an interrupted write left empty: the run succeeds, Auth holds the
    key set of a freshly minted key, and that key is recorded nowhere. *)
Definition torn_node : @node install_rsa Auth :=
  with_disk (mkDisk {[ "secret.pem"%string := ""%string ]} []) first_node.
Lemma torn_key_file_loses_key :
  let '(r, n') := setup_run no_input torn_node in
  is_Some (match r with Ok res => Some res | Err _ => None end)
  /\ is_Some (client_of "secret-control" (au_clients (fst (o_auth (n_peer n')))))
  /\ d_files (n_disk n') !! "secret.pem"%string = Some ""%string.
Proof. vm_compute. eauto. Qed.

(** A dial with a CA file and a client certificate. *)
Definition tls_transport : Transport := {|
  os_ReadFile _ := Ok "CA"%string; AppendCertsFromPEM _ := true;
  Certificate := (); LoadX509KeyPair _ _ := Ok () |}.
Definition mtls_dial : setupDial := auth_dial (LoadConfig (fun key =>
  if str_eqb key "AUTH_SETUP_ADDR" then "auth:9090"
  else if str_eqb key "AUTH_SETUP_CA_FILE" then "/ca.pem"
  else if str_eqb key "AUTH_SETUP_CLIENT_CERT_FILE" then "/core.pem"
  else if str_eqb key "AUTH_SETUP_CLIENT_KEY_FILE" then "/core.key" else ""))%string.

Lemma dial_never_downgrades_witness :
  exists t, @dialSetupService install_text tls_transport (fun _ _ => None) mtls_dial = Ok (TLS t)
    /\ exists pem, tls_RootCAs t = Some pem.
Proof.
  eexists. split; [vm_compute; reflexivity|].
  destruct (@dial_never_downgrades install_text tls_transport (fun _ _ => None) mtls_dial _
    ltac:(vm_compute; reflexivity)) as (_ & H & _).
  destruct H as (pem & _ & _ & H); [vm_compute; discriminate|]. exists pem. exact H.
Defined.
