(* ===== verification/Retry.v ===== *)
(** * Retry loops

    [internal/platform/retry/retry.go] ([WithBackoff], the startup probes of
    the database and of Redis) and the convergence loops of
    [internal/setup/orchestrator.go], [internal/setup/secret.go] and
    [internal/authctrl/runner.go]: try, wait, double the delay.

    A loop runs an operation on a state; between two attempts the world moves on
    ([elapse i] at the i-th wait), and the i-th wait may be cut short by a
    cancelled context ([cancelled i]). *)

From S2P Require Import Prelude.

Definition maxDelay : Z := 16 * Second.

(** ** WithBackoff *)

Inductive retry_outcome (E : Type) := RetryNil | RetryErr (e : E) | RetryCancelled.
Arguments RetryNil {E}.
Arguments RetryErr {E} e.
Arguments RetryCancelled {E}.

Section WithBackoff.
Context {St E : Type} (op : St -> result E () * St) (elapse : nat -> St -> St) (cancelled : nat -> bool).

(** The attempts left, the waits so far (latest last) and the state.  Returns
    the outcome, the waits and the number of calls. *)
Fixpoint backoff_loop (rest : nat) (delay : Z) (waits : list Z) (calls : nat) (s : St)
    : retry_outcome E * list Z * nat * St :=
  match rest with
  | O => (RetryNil, waits, calls, s)
  | S rest =>
      match op s with
      | (Ok _, s) => (RetryNil, waits, calls + 1, s)
      | (Err e, s) =>
          match rest with
          | O => (RetryErr e, waits, calls + 1, s)
          | _ =>
              if cancelled (length waits) then (RetryCancelled, waits, calls + 1, s)
              else backoff_loop rest (Z.min (delay * 2) maxDelay) (waits ++ [delay]) (calls + 1)
                     (elapse (length waits) s)
          end
      end
  end%nat.

Definition WithBackoff (maxAttempts baseDelay : Z) (s : St) : retry_outcome E * list Z * nat * St :=
  backoff_loop (Z.to_nat maxAttempts) baseDelay [] 0 s.

(** The delay after [i] waits that started at [base]. *)
Definition nth_delay (base : Z) (i : nat) : Z :=
  match i with O => base | _ => Z.min (base * 2 ^ Z.of_nat i) maxDelay end.

Lemma nth_delay_step base i : 0 < base -> Z.min (nth_delay base i * 2) maxDelay = nth_delay base (S i).
Proof.
  intros Hb. assert (0 < maxDelay) by done. destruct i as [|i]; cbn [nth_delay]; [by rewrite Z.pow_1_r|].
  rewrite (Nat2Z.inj_succ (S i)), Z.pow_succ_r by lia.
  assert (0 < 2 ^ Z.of_nat (S i)) by (apply Z.pow_pos_nonneg; lia). nia.
Qed.

Lemma with_backoff_loop_spec base rest waits calls s :
  0 < base -> length waits = calls ->
  (forall i d, waits !! i = Some d -> d = nth_delay base i) ->
  let '(out, waits', calls', s') :=
    backoff_loop rest (nth_delay base calls) waits calls s in
  (calls' <= calls + rest)%nat
  /\ (forall i d, waits' !! i = Some d -> d = nth_delay base i)
  /\ match out with
     | RetryNil => calls' = (calls + rest)%nat /\ rest = O \/ exists s0, op s0 = (Ok (), s')
     | RetryErr e => calls' = (calls + rest)%nat /\ exists s0, op s0 = (Err e, s')
     | RetryCancelled => cancelled (length waits') = true
     end
  /\ (rest = O \/ calls' = S (length waits')).
Proof.
  intros Hb. revert waits calls s. induction rest as [|rest IH]; intros waits calls s Hl Hw.
  - cbn. split_and!; [lia|done|left; lia|by left].
  - cbn [backoff_loop]. destruct (op s) as [[[]|e] s1] eqn:Eo.
    { split_and!; [lia|done|right; eauto|right; lia]. }
    destruct rest as [|rest].
    { split_and!; [lia|done|done|eauto|right; lia]. }
    destruct (cancelled (length waits)) eqn:Ec.
    { split_and!; [lia|done|done|right; lia]. }
    specialize (IH (waits ++ [nth_delay base calls]) (calls + 1)%nat (elapse (length waits) s1)).
    rewrite nth_delay_step by done.
    replace (S calls) with (calls + 1)%nat in * by lia.
    destruct (backoff_loop _ _ _ _ _) as [[[out w'] c'] s'].
    destruct IH as (H1 & H2 & H3 & H4).
    + rewrite length_app. cbn. lia.
    + intros i d [Hi|[Hi Hd]]%lookup_app_Some; [by apply Hw|].
      apply list_lookup_singleton_Some in Hd as [Hz <-]. f_equal. lia.
    + split_and!; [lia|done| |].
      * destruct out as [|e'|]; [|destruct H3 as [H3 ?]; split; [lia|done]|done].
        destruct H3 as [[_ ?]|?]; [done|by right].
      * destruct H4 as [?|H4]; [done|by right].
Qed.
End WithBackoff.

(** A startup probe is bounded and honest.  With at least one attempt and a
    positive base delay, it calls the operation at most [maxAttempts] times and
    ends; the i-th wait is the base delay doubled i times, never more than 16 s
    after the first; it reports success only after a call succeeded, and an
    error only after all attempts were made, with the last call's error. *)
Theorem with_backoff_bounded {St E} (op : St -> result E () * St) elapse cancelled
    (maxAttempts base : Z) s : 0 < maxAttempts -> 0 < base ->
  let '(out, waits, calls, s') := WithBackoff op elapse cancelled maxAttempts base s in
  (0 < calls <= Z.to_nat maxAttempts)%nat /\ calls = S (length waits)
  /\ (forall i d, waits !! i = Some d ->
        d = match i with O => base | _ => Z.min (base * 2 ^ Z.of_nat i) maxDelay end)
  /\ match out with
     | RetryNil => exists s0, op s0 = (Ok (), s')
     | RetryErr e => calls = Z.to_nat maxAttempts /\ exists s0, op s0 = (Err e, s')
     | RetryCancelled => cancelled (length waits) = true
     end.
Proof.
  intros Hm Hb. unfold WithBackoff.
  pose proof (with_backoff_loop_spec op elapse cancelled base (Z.to_nat maxAttempts) [] 0%nat s Hb eq_refl) as H.
  cbn [nth_delay] in H. destruct (backoff_loop _ _ _ _ _ _ _ _) as [[[out waits] calls] s'].
  destruct H as (H1 & H2 & H3 & H4); [by intros i d ?|].
  destruct H4 as [?|H4]; [lia|]. split_and!; [lia|lia|done|done|].
  destruct out; [|destruct H3 as [-> ?]; split; [lia|done]|done].
  destruct H3 as [[_ ?]|?]; [lia|done].
Qed.

Lemma with_backoff_bounded_witness :
  let op := fun n : nat => if Nat.ltb n 3 then (Err "down"%string, S n) else (Ok (), n) in
  0 < 10 /\ WithBackoff op (fun _ s => s) (fun _ => false) 10 (6 * Second) 0%nat
    = (RetryNil, [6 * Second; 12 * Second; 16 * Second], 4%nat, 3%nat)
  /\ (4 <= Z.to_nat 10)%nat.
Proof.
  set (op := fun n : nat => if Nat.ltb n 3 then (Err "down"%string, S n) else (Ok (), n)).
  pose proof (with_backoff_bounded op (fun _ s => s) (fun _ => false) 10 (6 * Second) 0%nat
    ltac:(lia) ltac:(done)) as H.
  cbv zeta. split_and!; [lia|vm_compute; reflexivity|].
  replace (WithBackoff op _ _ 10 (6 * Second) 0%nat)
    with (@RetryNil string, [6 * Second; 12 * Second; 16 * Second], 4%nat, 3%nat) in H
    by (vm_compute; reflexivity).
  apply H.
Defined.

(** ** Convergence loops *)

Section Converge.
Context {St E A : Type} (run : St -> result E A * St).
Context (elapse : nat -> St -> St) (cancelled : nat -> bool) (next : Z -> Z).

(** [fuel] bounds the attempts looked at; [None] when they did not suffice.
    Otherwise the waits, the state, and whether an attempt succeeded. *)
Fixpoint converge (fuel : nat) (backoff : Z) (waits : list Z) (s : St) : option (bool * list Z * St) :=
  match fuel with
  | O => None
  | S fuel =>
      match run s with
      | (Ok _, s) => Some (true, waits, s)
      | (Err _, s) =>
          if cancelled (length waits) then Some (false, waits, s)
          else converge fuel (next backoff) (waits ++ [backoff]) (elapse (length waits) s)
      end
  end.

(** The state before the [i]-th attempt of a loop that never succeeds. *)
Fixpoint attempt_state (i : nat) (s : St) : St :=
  match i with
  | O => s
  | S i => elapse i (snd (run (attempt_state i s)))
  end.

Lemma converge_from k waits backoff s0 (s := attempt_state (length waits) s0) :
  (forall i, cancelled i = false) ->
  (exists a s', run (attempt_state (length waits + k) s0) = (Ok a, s')) ->
  exists waits' i a s', (length waits <= i <= length waits + k)%nat
    /\ run (attempt_state i s0) = (Ok a, s') /\ length waits' = i
    /\ forall fuel, (k < fuel)%nat -> converge fuel backoff waits s = Some (true, waits', s').
Proof.
  intros Hc. revert waits backoff s. induction k as [|k IH]; intros waits backoff s (a & s' & Hok).
  - rewrite Nat.add_0_r in Hok. exists waits, (length waits), a, s'. split_and!; [lia..|done|done|].
    intros [|fuel] Hf; [lia|]. cbn. unfold s. by rewrite Hok.
  - destruct (run s) as [[x|e] s1] eqn:Er.
    + exists waits, (length waits), x, s1. split_and!; [lia..|done|done|].
      intros [|fuel] Hf; [lia|]. cbn. by rewrite Er.
    + destruct (IH (waits ++ [backoff]) (next backoff)) as (w' & i & y & s2 & Hi & Hr & Hl & Hf).
      { exists a, s'. rewrite length_app. cbn. by replace (length waits + 1 + k)%nat
          with (length waits + S k)%nat by lia. }
      rewrite length_app in Hi, Hf. cbn in Hi. exists w', i, y, s2. split_and!; [lia..|done|done|].
      intros [|fuel] Hlt; [lia|]. cbn [converge]. rewrite Er, Hc.
      specialize (Hf fuel ltac:(lia)). cbn in Hf.
      replace (length waits + 1)%nat with (S (length waits)) in Hf by lia.
      cbn in Hf. fold s in Hf. by rewrite Er in Hf.
Qed.

(** If some attempt succeeds, the loop ends in success, at the first such. *)
Lemma converge_reaches k backoff s :
  (forall i, cancelled i = false) ->
  (exists a s', run (attempt_state k s) = (Ok a, s')) ->
  exists waits i a s', (i <= k)%nat /\ run (attempt_state i s) = (Ok a, s') /\ length waits = i
    /\ forall fuel, (k < fuel)%nat -> converge fuel backoff [] s = Some (true, waits, s').
Proof.
  intros Hc Hk. destruct (converge_from k [] backoff s Hc Hk) as (w & i & a & s' & ? & ? & ? & ?).
  cbn in *. exists w, i, a, s'. split_and!; [lia|done..].
Qed.

(** Every wait is bounded when the schedule is. *)
Lemma converge_waits (lo hi : Z) fuel backoff waits s out :
  (forall b, lo <= b <= hi -> lo <= next b <= hi) -> lo <= backoff <= hi ->
  Forall (fun d => lo <= d <= hi) waits ->
  converge fuel backoff waits s = Some out ->
  Forall (fun d => lo <= d <= hi) (snd (fst out)).
Proof.
  intros Hn. revert backoff waits s. induction fuel as [|fuel IH]; intros backoff waits s Hb Hw; [done|].
  cbn. destruct (run s) as [[a|e] s1]; [intros; by simplify_eq|].
  destruct (cancelled _); [intros; by simplify_eq|]. apply IH; [by apply Hn|].
  apply Forall_app. split; [done|]. by constructor.
Qed.
End Converge.
