(* ===== verification/SetupSecret.v ===== *)
(** * Secret's first-run setup

    [internal/setup/secret.go]: Core drives Secret's SetupService after its own
    record says that Auth's setup completed.  Secret is a [Service] of any
    behaviour; the process keeps what the last pass learnt ([SecretMem]). *)

From S2P Require Import Prelude Json Storage World AppError Queries Keys Process SetupConfig.
From S2P Require Import Setup SetupSafety SetupSample Retry.

Record SetupServiceSetupRequest := {
  sq_Tenant : string; sq_TenantDisplayName : string; sq_AuthTenantUuid : string;
  sq_Project : string; sq_Environment : string; sq_Controller : string }.

Inductive SecretReq :=
  | SecGetSetupStatus
  | SecSetup (q : SetupServiceSetupRequest)
  | SecCompleteSetup (controller : string).
Definition SecretResp (r : SecretReq) : Type :=
  match r with SecGetSetupStatus => bool | _ => unit end.
Definition SecretServer (A : Type) : Type := Service SecretReq SecretResp status A.

Inductive secret_error :=
  | ErrSecretSetupNotConfigured | ErrAuthSetupIncomplete | ErrSecretSetupPending
  | SecretFailed (e : call_error).

(** [last] is nil once a pass succeeded; [logged] is the state last announced. *)
Record SecretMem := mkMem { sm_done : bool; sm_last : option secret_error; sm_logged : string }.
Definition NewSecretMem : SecretMem := mkMem false (Some ErrSecretSetupPending) "".

Definition secretStateWaitingAuth : string := "waiting-for-auth".
Definition secretStateFailed : string := "failed".
Definition secretStateAdopted : string := "already-set-up".
Definition secretStateProvisioned : string := "provisioned".

Definition secretSetupBaseBackoff : Z := 3 * Second.
Definition secretSetupMaxBackoff : Z := 30 * Second.

Section Secret.
Context {T : GoText} {R : RSA} {K : Transport} {A : Type} (srv : SecretServer A).
Context (grpc_NewClient : string -> creds -> option string) (cfg : Config).
Let Prog := P (Node (SecretMem * A)) secret_error.

Definition SecretEnabled : bool := negb (is_empty (SecretSetupAddr cfg)).

Definition SecretState (m : SecretMem) : option secret_error :=
  if negb SecretEnabled then None else if sm_done m then None else sm_last m.

Definition controller : string := firstNonEmpty [CoreServiceName cfg; "maintainerd-core"%string].

Definition finished : Prog bool := on_peer (fun s => (Ok (sm_done (fst s)), s)).

(** Stores the outcome of a pass; the announcement it logs is not modelled. *)
Definition record (state : string) (err : option secret_error) : Prog () := on_peer (fun s =>
  (Ok (), (mkMem (match err with None => true | Some _ => sm_done (fst s) end) err state, snd s))).

Definition secret_fail {X} (state : string) (e : secret_error) : Prog X :=
  record state (Some e);; p_fail e.

Definition secret_call (r : SecretReq) : P (Node (SecretMem * A)) call_error (SecretResp r) :=
  on_peer (fun s => let '(a, st) := srv r (SecretSetupToken cfg) (snd s) in
    (result_map_err of_status a, (fst s, st))).

(** A call whose error is recorded and ends the pass. *)
Definition secret_must (prefix : string) (r : SecretReq) : Prog (SecretResp r) :=
  p_catch (secret_call r) (fun a =>
    match a with
    | Ok x => mret x
    | Err e => secret_fail secretStateFailed (SecretFailed (wrapf prefix e))
    end).

Definition setup_request (res : Result) : SetupServiceSetupRequest := {|
  sq_Tenant := TenantName cfg;
  sq_TenantDisplayName := firstNonEmpty [TenantDisplayName cfg; TenantName cfg];
  sq_AuthTenantUuid := sr_AuthTenantID res; sq_Project := SecretProject cfg;
  sq_Environment := SecretEnvironment cfg; sq_Controller := controller |}.

Definition secret_pass : Prog () :=
  '(authComplete, authResult) ←
    p_map_err (fun e => SecretFailed (errorf (dberr_Error e))) (on_db Status_);
  if negb authComplete then secret_fail secretStateWaitingAuth ErrAuthSetupIncomplete
  else match dialSetupService grpc_NewClient (secret_dial cfg) with
  | Err e => secret_fail secretStateFailed (SecretFailed (errorf e))
  | Ok _ =>
      done ← secret_must "secret GetSetupStatus: " SecGetSetupStatus;
      if done : bool then record secretStateAdopted None
      else
        secret_must "secret Setup: " (SecSetup (setup_request authResult));;
        secret_must "secret CompleteSetup: " (SecCompleteSetup controller);;
        record secretStateProvisioned None
  end.

Definition SecretRun : Prog () :=
  if negb SecretEnabled then p_fail ErrSecretSetupNotConfigured
  else
    fin ← finished;
    if fin : bool then mret () else secret_pass.

Definition secret_next (b : Z) : Z :=
  if b <? secretSetupMaxBackoff then Z.min (b * 2) secretSetupMaxBackoff else b.

(** The convergence loop from a state; nothing runs when Secret is not
    configured. *)
Definition SecretRunWithRetry (elapse : nat -> Node (SecretMem * A) -> Node (SecretMem * A))
    (cancelled : nat -> bool) (fuel : nat) (n : Node (SecretMem * A))
    : option (bool * list Z * Node (SecretMem * A)) :=
  if negb SecretEnabled then Some (false, [], n)
  else converge SecretRun elapse cancelled secret_next fuel secretSetupBaseBackoff [] n.
End Secret.

(** ** Ordering *)

Section Ordering.
Context {T : GoText} {R : RSA} {K : Transport} {A : Type} (srv : SecretServer A).
Context (NewClient : string -> creds -> option string) (cfg : Config).

Definition SecLog : Type := list (rpc SecretResp status).
Definition snode : Type := Node (SecretMem * (A * SecLog)).
Definition slog (n : snode) : SecLog := snd (snd (n_peer n)).
Definition smem (n : snode) : SecretMem := fst (n_peer n).
Definition sentry (r : SecretReq) (a : result status (SecretResp r)) : rpc SecretResp status :=
  Rpc r (SecretSetupToken cfg) a.

(** Core's own record says that Auth's setup completed. *)
Definition auth_recorded (d : Db) : Prop :=
  exists q, control_plane d = Some q
    /\ (cp_SetupCompletedAt q <> None \/ sr_CompletedAt (cp_Data q) <> None).

Lemma status_recorded w res w' :
  Status_ w = (Ok (true, res), w') -> auth_recorded (w_db w) /\ w_db w' = w_db w.
Proof.
  unfold Status_, loadPersisted, try, mbind, M_bind, GetControlPlane, query, auth_recorded.
  destruct (w_faults w) as [|[] fs]; cbn; try done;
    destruct (control_plane (w_db w)) as [q|]; cbn; try done;
    destruct (cp_SetupCompletedAt q) as [t|] eqn:E1; intros E;
    pose proof (f_equal snd E) as Hw; cbn in Hw;
    pose proof (f_equal (fun x => match fst x with Ok (b, _) => b | Err _ => false end) E) as Hb;
    unfold completed in Hb; cbn in Hb; rewrite <- Hw; (split; [|done]); exists q; (split; [done|]);
    first [by left; rewrite E1 | right]; by destruct (sr_CompletedAt (cp_Data q)).
Qed.

(** The calls of one pass, with the outcome the pass draws from them. *)
Inductive pass_calls (ok : bool) : SecLog -> Prop :=
  | pass_none : ok = false -> pass_calls ok []
  | pass_status_failed e : ok = false -> pass_calls ok [sentry SecGetSetupStatus (Err e)]
  | pass_adopted : ok = true -> pass_calls ok [sentry SecGetSetupStatus (Ok true)]
  | pass_setup_failed q e : ok = false ->
      pass_calls ok [sentry SecGetSetupStatus (Ok false); sentry (SecSetup q) (Err e)]
  | pass_complete q c a : ok = match a with Ok _ => true | Err _ => false end ->
      pass_calls ok [sentry SecGetSetupStatus (Ok false); sentry (SecSetup q) (Ok ());
                     sentry (SecCompleteSetup c) a].

Definition is_ok {E X} (r : result E X) : bool := match r with Ok _ => true | Err _ => false end.

Lemma secret_pass_calls n :
  let '(r, n') := secret_pass (recorded srv) NewClient cfg n in
  exists l, slog n' = slog n ++ l /\ pass_calls (is_ok r) l
    /\ (l <> [] -> auth_recorded (w_db (n_world n)))
    /\ (is_ok r = true -> sm_done (smem n') = true)
    /\ (is_ok r = false -> sm_done (smem n') = sm_done (smem n)
          /\ exists e, sm_last (smem n') = Some e /\ r = Err e).
Proof.
  destruct n as [w d ks [m [a0 l0]]]. unfold secret_pass, p_map_err, mbind, P_bind, on_db, slog, smem.
  cbn. destruct (Status_ w) as [[[ac ar]|e] w1] eqn:Es; cbn.
  2: { exfalso. revert Es. unfold Status_, loadPersisted, try, mbind, M_bind.
       by destruct (GetControlPlane w). }
  destruct ac; cbn.
  2: { exists []. rewrite app_nil_r. split_and!; try done; [by constructor|]. intros _. eauto. }
  destruct (status_recorded _ _ _ Es) as [Ha _].
  destruct (dialSetupService _ _) as [c|e]; cbn.
  2: { exists []. rewrite app_nil_r. split_and!; try done; [by constructor|]. intros _. eauto. }
  unfold secret_must, secret_call, p_catch, p_try, mbind, P_bind, on_peer, recorded. cbn.
  destruct (srv SecGetSetupStatus _ _) as [[[]|e1] s1]; cbn.
  - eexists. split; [reflexivity|]. split_and!; try done. by constructor.
  - destruct (srv (SecSetup _) _ _) as [[[]|e2] s2]; cbn.
    + destruct (srv (SecCompleteSetup _) _ _) as [[[]|e3] s3]; cbn;
        eexists; (split; [by rewrite <- !app_assoc; reflexivity|]); split_and!; try done;
        try (by econstructor); intros _; eauto.
    + eexists. split; [by rewrite <- !app_assoc; reflexivity|]. split_and!; try done;
        [by econstructor|]. intros _. eauto.
  - eexists. split; [reflexivity|]. split_and!; try done; [by econstructor|]. intros _. eauto.
Qed.

(** Secret is provisioned strictly after Auth, and in order.  A pass calls
    Secret at all only if Core's record says that Auth's setup completed and no
    earlier pass succeeded; it asks before it acts, calls Setup only if Secret
    is not complete, and CompleteSetup only after Setup succeeded; it counts as
    a success exactly when Secret reported itself complete or acknowledged
    CompleteSetup, and only a success marks the process as done. *)
Theorem secret_setup_ordered n :
  let '(r, n') := SecretRun (recorded srv) NewClient cfg n in
  exists l, slog n' = slog n ++ l
    /\ (l <> [] -> auth_recorded (w_db (n_world n)) /\ sm_done (smem n) = false
                   /\ SecretSetupAddr cfg <> ""%string)
    /\ (l = [] \/ pass_calls (is_ok r) l)
    /\ (sm_done (smem n') = true <-> sm_done (smem n) = true \/ is_ok r = true).
Proof.
  unfold SecretRun, SecretEnabled. destruct (is_empty (SecretSetupAddr cfg)) eqn:Ee; cbn.
  { exists []. rewrite app_nil_r. do 3 (split; [done || by left|]). split; [by left|].
    by intros [?|?]. }
  apply str_eqb_neq in Ee. unfold finished, on_peer, mbind, P_bind.
  destruct n as [w d ks [m [a0 l0]]]. cbn. destruct (sm_done m) eqn:Ed; cbn.
  { exists []. rewrite app_nil_r. unfold smem. cbn. rewrite Ed. do 3 (split; [done || by left|]).
    split; [by left|done]. }
  set (n := with_peer _ _). pose proof (secret_pass_calls n) as H. unfold slog, smem in *.
  destruct (secret_pass (recorded srv) NewClient cfg n) as [r n'].
  destruct H as (l & H1 & H2 & H3 & H4 & H5). exists l. cbn in *. rewrite Ed in *.
  split; [done|]. split; [auto|]. split; [by right|].
  destruct (is_ok r); [split; [by right|auto]|]. destruct (H5 eq_refl) as [-> _].
  split; [done|by intros [?|?]].
Qed.
End Ordering.

(** ** Convergence *)

Section Convergence.
Context {T : GoText} {R : RSA} {K : Transport} {A : Type} (srv : SecretServer A).
Context (NewClient : string -> creds -> option string) (cfg : Config).

(** Secret answers every call once it is [willing], and stays so. *)
Context (willing : A -> Prop).
Hypothesis Hwilling : forall r cred s, willing s ->
  exists x s', srv r cred s = (Ok x, s') /\ willing s'.
Hypothesis Hconfigured : SecretSetupAddr cfg <> ""%string.
Hypothesis Hdial : exists c, dialSetupService NewClient (secret_dial cfg) = Ok c.

(** Core's record of Auth's completion can be read, and Secret is willing. *)
Definition healthy (n : Node (SecretMem * A)) : Prop :=
  hd FaultNone (w_faults (n_world n)) = FaultNone
  /\ (exists q t, control_plane (w_db (n_world n)) = Some q /\ cp_SetupCompletedAt q = Some t)
  /\ willing (snd (n_peer n)).

Lemma healthy_run n : healthy n ->
  exists n', SecretRun srv NewClient cfg n = (Ok (), n') /\ sm_done (fst (n_peer n')) = true.
Proof.
  intros (Hf & (q & t & Hq & Ht) & Hw). destruct n as [w d ks [m a]]. cbn in *.
  unfold SecretRun, SecretEnabled. destruct (is_empty (SecretSetupAddr cfg)) eqn:Ee.
  { by apply str_eqb_eq in Ee. }
  unfold finished, on_peer, mbind, P_bind. cbn. destruct (sm_done m) eqn:Ed; cbn; [by eexists|].
  unfold secret_pass, p_map_err, mbind, P_bind, on_db. cbn.
  destruct (loadPersisted_read w q t Hf Hq Ht) as (res & Hres & Hc).
  unfold Status_, mbind, M_bind. destruct (loadPersisted w) as [r1 w1]. cbn in Hres. subst r1.
  cbn. unfold completed. rewrite Hc. cbn. destruct Hdial as [c ->]. cbn.
  unfold secret_must, secret_call, p_catch, p_try, mbind, P_bind, on_peer. cbn.
  destruct (Hwilling SecGetSetupStatus (SecretSetupToken cfg) a Hw) as (x1 & a1 & -> & Hw1). cbn.
  destruct x1; cbn; [by eexists|].
  destruct (Hwilling (SecSetup (setup_request cfg res)) (SecretSetupToken cfg) a1 Hw1)
    as (x2 & a2 & -> & Hw2). cbn.
  match goal with |- context [srv (SecCompleteSetup ?c) ?t ?b] =>
    destruct (Hwilling (SecCompleteSetup c) t b Hw2) as (x3 & a3 & -> & Hw3) end.
  cbn. by eexists.
Qed.

Lemma SecretRun_done n u n' :
  SecretRun srv NewClient cfg n = (Ok u, n') -> sm_done (fst (n_peer n')) = true.
Proof.
  unfold SecretRun. destruct (negb _); [done|]. unfold finished, on_peer, mbind, P_bind.
  destruct n as [w d ks [m a]]. cbn. destruct (sm_done m) eqn:Ed; cbn; [by intros [= <- <-]|].
  unfold secret_pass, p_map_err, mbind, P_bind, on_db. cbn.
  destruct (Status_ w) as [[[[] ar]|e] w1]; cbn; try done.
  destruct (dialSetupService _ _); cbn; [|done].
  unfold secret_must, secret_call, p_catch, p_try, mbind, P_bind, on_peer. cbn.
  destruct (srv SecGetSetupStatus _ _) as [[[]|] s1]; cbn; [by intros [= <- <-]| |done].
  destruct (srv (SecSetup _) _ _) as [[]]; cbn; [|done].
  destruct (srv (SecCompleteSetup _) _ _) as [[]]; cbn; [|done]. by intros [= <- <-].
Qed.

Lemma secret_next_bounds b :
  secretSetupBaseBackoff <= b <= secretSetupMaxBackoff ->
  secretSetupBaseBackoff <= secret_next b <= secretSetupMaxBackoff.
Proof. unfold secret_next, secretSetupBaseBackoff, secretSetupMaxBackoff, Second. case_match; lia. Qed.

(** C22: the loop that provisions Secret converges.  However long Auth and
    Secret take and whatever happens between the attempts, once an attempt finds
    Auth's completion on record and Secret answering, the loop ends, the process
    counts as done and readiness reports no error; and no wait was shorter than
    3 s or longer than 30 s. *)
Theorem secret_converges elapse k n :
  healthy (attempt_state (SecretRun srv NewClient cfg) elapse k n) ->
  exists waits n', (length waits <= k)%nat
    /\ (forall fuel, (k < fuel)%nat ->
          SecretRunWithRetry srv NewClient cfg elapse (fun _ => false) fuel n = Some (true, waits, n'))
    /\ SecretState cfg (fst (n_peer n')) = None
    /\ Forall (fun d => secretSetupBaseBackoff <= d <= secretSetupMaxBackoff) waits.
Proof.
  intros (nk & Hrun & _)%healthy_run.
  destruct (converge_reaches (SecretRun srv NewClient cfg) elapse (fun _ => false) secret_next k
    secretSetupBaseBackoff n (fun _ => eq_refl)) as (waits & i & u & n' & Hi & Hr & Hl & Hf); [eauto|].
  exists waits, n'. assert (He : SecretEnabled cfg = true).
  { unfold SecretEnabled. apply negb_true_iff. by apply str_eqb_neq. }
  assert (Hf' : forall fuel, (k < fuel)%nat ->
    SecretRunWithRetry srv NewClient cfg elapse (fun _ => false) fuel n = Some (true, waits, n')).
  { intros fuel Hk. unfold SecretRunWithRetry. rewrite He. by apply Hf. }
  split_and!; [lia|done| |].
  - unfold SecretState. rewrite He. cbn. by rewrite (SecretRun_done _ _ _ Hr).
  - specialize (Hf (S k) ltac:(lia)). eapply converge_waits in Hf; [exact Hf|apply secret_next_bounds| |done].
    done.
Qed.
End Convergence.

(** ** A late Secret *)

(** A Secret that remembers its completion; Auth's completion appears in the
    record after the second attempt. *)
Definition small_secret : SecretServer bool := fun r _ s =>
  match r return result status (SecretResp r) * bool with
  | SecGetSetupStatus => (Ok s, s)
  | SecSetup _ => (Ok (), s)
  | SecCompleteSetup _ => (Ok (), true)
  end.
Definition secret_env (key : string) : string :=
  if str_eqb key "SECRET_SETUP_ADDR" then "secret:9090" else "".
Definition secret_node (d : Db) : @Node install_rsa (SecretMem * bool) :=
  @mkNode install_rsa _ (world_of d []) (mkDisk ∅ []) [] (NewSecretMem, false).
Definition auth_lands (i : nat) (n : @Node install_rsa (SecretMem * bool)) :=
  if Nat.eqb i 1 then with_world (world_of kept_db []) n else n.

Existing Instances install_text install_rsa install_transport.
Definition secret_config : Config := LoadConfig secret_env.

Lemma secret_converges_witness : exists n',
  SecretRunWithRetry small_secret any_client secret_config auth_lands (fun _ => false) 3
    (secret_node empty_db) = Some (true, [3 * Second; 6 * Second], n')
  /\ SecretState secret_config (fst (n_peer n')) = None.
Proof.
  destruct (secret_converges small_secret any_client secret_config (fun _ => True)) with
    (elapse := auth_lands) (k := 2%nat) (n := secret_node empty_db)
    as (waits & n' & _ & Hrun & Hst & _).
  - intros r cred s _. destruct r; cbn; eauto.
  - vm_compute. discriminate.
  - eexists. vm_compute. reflexivity.
  - split_and!; [vm_compute; reflexivity| |done]. exists kept_row, 500. vm_compute. done.
  - exists n'. rewrite (Hrun 3%nat) by lia. split; [|exact Hst]. do 2 f_equal.
    specialize (Hrun 3%nat ltac:(lia)). vm_compute in Hrun. injection Hrun as <- _. done.
Defined.
