(* ===== verification/SetupHandler.v ===== *)
(** * The setup surface

    [internal/setup/handler.go]: the HTTP endpoints of the first run, which the
    platform's token guard cannot protect because Auth does not exist yet, and
    [RunWithRetry] of the orchestrator.  [crypto/sha256] is a parameter. *)

From S2P Require Import Prelude Json Storage World AppError Queries Agent Keys Process SetupConfig.
From S2P Require Import Setup SetupSafety Http Retry Sample SetupSample.
From S2P Require Resource Authz.

Definition adminPermission : string := "core:admin".

Record Gate := { gt_Token : string; gt_Dev : bool; gt_Verify : option Authz.VerifyFunc }.

(** What the handlers read of a request: two headers and the body, which is
    absent, undecodable, or decodes to the wizard's input. *)
Inductive SetupBody := BodyEmpty | BodyUndecodable | BodyInput (in_ : RunInput).
Record SetupRequest := { hr_SetupToken : string; hr_Authorization : string; hr_Body : SetupBody }.

Section Gate.
Context {C : Crypto}.

Definition tokenMatches (g : Gate) (presented : string) : bool :=
  if is_empty (gt_Token g) || is_empty presented then false
  else str_eqb (sha256_Sum256 (gt_Token g)) (sha256_Sum256 presented).

Definition authorized (g : Gate) (r : SetupRequest) : bool :=
  if tokenMatches g (hr_SetupToken r) then true
  else match gt_Verify g with
  | None => false
  | Some verify =>
      let header := hr_Authorization r in
      if Nat.ltb (String.length header) 8
         || (negb (str_eqb (str_take 7 header) "Bearer ")
             && negb (str_eqb (str_take 7 header) "bearer "))
      then false
      else match verify (str_drop 7 header) with
      | Err _ => false
      | Ok claims => Authz.HasPermission claims adminPermission
      end
  end.
End Gate.

(** The data field of a status answer. *)
Inductive status_data :=
  | SlimStatus (completed : bool)
  | FullStatus (enabled completed : bool) (deployment_mode : string) (result : Result).

Section Handler.
Context {T : GoText} {W : Resource.WorkloadKit} {C : Crypto} {R : RSA} {K : Transport}.
Context {A : Type} (srv : AuthServer A) (grpc_NewClient : string -> creds -> option string).
Context (cfg : Config) (g : Gate).

Definition status_handler (r : SetupRequest) : M dberr (reply status_data) :=
  '(done, res) ← Status_;
  mret (if negb (authorized g r) then Success (SlimStatus done) ""
        else Success (FullStatus (Enabled cfg) done (sr_DeploymentMode res) res) "").

Definition hasEnvAdminPassword : bool := negb (is_empty (AdminPassword cfg)).

(** The answer to a failed run: the text of the error, and its code if there is
    a gRPC status in its chain. *)
Definition run_failed (e : call_error) : reply Result :=
  Error (match ce_code e with
         | Some codes_InvalidArgument | Some codes_AlreadyExists | Some codes_FailedPrecondition => 400
         | _ => 502
         end) (ce_msg e).

(** The refusal of the gate, if there is one. *)
Definition trigger_gate (r : SetupRequest) : option (reply Result) :=
  if is_empty (gt_Token g) then
    if negb (gt_Dev g)
    then Some (Error 403 "setup is disabled: CORE_SETUP_TOKEN is not set (required outside development)")
    else None
  else if negb (authorized g r) then Some (Error 401 "missing or invalid setup token")
  else None.

Definition trigger (r : SetupRequest) (n : Node (Orch A)) : reply Result * Node (Orch A) :=
  match trigger_gate r with
  | Some refusal => (refusal, n)
  | None =>
      match hr_Body r with
      | BodyUndecodable => (BadRequestBody, n)
      | body =>
          let in_ := match body with BodyInput i => i | _ => no_input end in
          if is_empty (ri_AdminPassword in_) && negb hasEnvAdminPassword
          then (ValidationErrorReply "admin_password is required", n)
          else match RunWith srv grpc_NewClient cfg in_ n with
          | (Err ErrSetupRunning, n') => (Error 409 "setup is already running", n')
          | (Err (SetupFailed e), n') => (run_failed e, n')
          | (Ok res, n') => (Success res "setup complete", n')
          end
      end
  end.

(** *** The on-boot loop *)

Definition orch_next (b : Z) : Z := if b <? 30 * Second then b * 2 else b.

Definition RunWithRetry (elapse : nat -> Node (Orch A) -> Node (Orch A)) (cancelled : nat -> bool)
    (fuel : nat) (n : Node (Orch A)) : option (bool * list Z * Node (Orch A)) :=
  converge (Run srv grpc_NewClient cfg) elapse cancelled orch_next fuel (3 * Second) [] n.
End Handler.

(** ** The gate fails closed *)

(** Whether Core's record says that setup completed. *)
Definition setup_complete (w : World) : bool :=
  match fst (Status_ w) with Ok (done, _) => done | Err _ => false end.

(** The credential the gate accepts: a setup token that hashes like the
    configured one, or a bearer token the verifier maps to the admin permission. *)
Definition credential {C : Crypto} (g : Gate) (r : SetupRequest) : Prop :=
  (gt_Token g <> ""%string /\ hr_SetupToken r <> ""%string
   /\ sha256_Sum256 (gt_Token g) = sha256_Sum256 (hr_SetupToken r))
  \/ (exists verify c, gt_Verify g = Some verify
      /\ (str_take 7 (hr_Authorization r) = "Bearer "%string
          \/ str_take 7 (hr_Authorization r) = "bearer "%string)
      /\ verify (str_drop 7 (hr_Authorization r)) = Ok (Some c)
      /\ (adminPermission ∈ Authz.Scopes c \/ adminPermission ∈ Authz.Permissions c)).

Lemma authorized_credential {C : Crypto} g r : authorized g r = true -> credential g r.
Proof.
  unfold authorized, tokenMatches. destruct (is_empty (gt_Token g)) eqn:E1; cbn [negb andb orb];
    [|destruct (is_empty (hr_SetupToken r)) eqn:E2; cbn [negb andb orb]];
    [| |destruct (str_eqb _ _) eqn:E3; [intros _; left; split_bools; done|]].
  all: destruct (gt_Verify g) as [verify|] eqn:Ev; [|done].
  all: cbv zeta; destruct (Nat.ltb (String.length (hr_Authorization r)) 8); [done|]; cbn [negb andb orb].
  all: destruct (str_eqb (str_take 7 _) "Bearer ") eqn:Eb1; cbn [negb andb orb];
    [|destruct (str_eqb (str_take 7 _) "bearer ") eqn:Eb2; cbn [negb andb orb]; [|done]].
  all: destruct (verify _) as [c|] eqn:Ec; [|done].
  all: intros (k & -> & Hk)%Authz.HasPermission_spec.
  all: right; exists verify, k; split_bools; split_and!; auto.
Qed.

Section GateClaims.
Context {T : GoText} {W : Resource.WorkloadKit} {C : Crypto} {R : RSA} {K : Transport}.
Context {A : Type} (srv : AuthServer A) (NewClient : string -> creds -> option string).
Context (cfg : Config) (g : Gate).

End GateClaims.

(** ** A sample gate *)

Existing Instances install_text open_kit install_crypto install_rsa install_transport.

Definition token_gate : Gate := Build_Gate "open sesame" false None.
Definition stranger : SetupRequest := Build_SetupRequest "guess" "" BodyEmpty.


(** The on-boot loop's waits pass its own maximum of 30 s. *)
Lemma boot_waits_exceed_maximum :
  exists waits n, RunWithRetry (recorded small_auth) any_client
      (LoadConfig (fun _ => ""%string)) (fun _ n => n) (fun i => Nat.eqb i 5) 6 first_node
    = Some (false, waits, n) /\ waits = [3 * Second; 6 * Second; 12 * Second; 24 * Second; 48 * Second].
Proof. do 2 eexists. vm_compute. split; reflexivity. Qed.
