(* ===== verification/Applier.v ===== *)
(** * The regular-surface applier

    [internal/authctrl/applier.go]: converges the steward's catalog through
    Auth's permission-verified management calls.  Every operation looks an
    object up by name and creates it only if it is absent; a failure is recorded
    in the outcomes and the pass goes on.  Auth is a [Service] of any behaviour
    ([Realize.v] adds what its documentation promises). *)

From S2P Require Import Prelude Json Storage World AppError Queries Agent Keys Process.
From S2P Require Gateway Steward Identity Registry.
Import Identity(firstNonBlank).

Definition listPageSize : Z := 200.
Definition statusActive : string := "active".
Definition clientTypeM2M : string := "m2m".
Definition tokenAuthPrivateKeyJWT : string := "private_key_jwt".
Definition policyVersion : string := "v1".

(** ** Auth's management services *)

(** An object Auth lists or creates: its id and its name. *)
Record Ref := mkRef { ref_Id : string; ref_Name : string }.

Record ListRequest := { lq_TenantId : string; lq_Name : string; lq_Limit : Z }.
Record CreateServiceRequest := {
  csq_TenantId : string; csq_Name : string; csq_DisplayName : string; csq_Description : string;
  csq_Version : string; csq_Status : string }.
Record CreateAPIRequest := {
  cpq_TenantId : string; cpq_Name : string; cpq_DisplayName : string; cpq_Description : string;
  cpq_Status : string; cpq_ServiceId : string }.
Record ListPermissionsRequest := { lpq_TenantId : string; lpq_ApiId : string; lpq_Limit : Z }.
Record CreatePermissionRequest := {
  cmq_TenantId : string; cmq_Name : string; cmq_Description : string; cmq_Status : string;
  cmq_ApiId : string }.
Record CreatePolicyRequest := {
  coq_TenantId : string; coq_Name : string; coq_Description : string; coq_Document : value;
  coq_Version : string; coq_Status : string }.
Record AssignServicePolicyRequest := {
  apq_TenantId : string; apq_ServiceId : string; apq_PolicyId : string }.
Record CreateClientRequest := {
  clq_TenantId : string; clq_Name : string; clq_DisplayName : string; clq_ClientType : string;
  clq_Config : value; clq_Status : string; clq_ServiceId : string }.

Inductive MgmtReq :=
  | ListServices (q : ListRequest) | CreateService (q : CreateServiceRequest)
  | AssignServicePolicy (q : AssignServicePolicyRequest)
  | ListAPIs (q : ListRequest) | CreateAPI (q : CreateAPIRequest)
  | ListPermissions (q : ListPermissionsRequest) | CreatePermission (q : CreatePermissionRequest)
  | ListPolicies (q : ListRequest) | CreatePolicy (q : CreatePolicyRequest)
  | ListClients (q : ListRequest) | CreateClient (q : CreateClientRequest).

(** A created client comes with its OAuth client id. *)
Definition MgmtResp (r : MgmtReq) : Type :=
  match r with
  | ListServices _ | ListAPIs _ | ListPolicies _ | ListClients _ => list Ref
  | CreateService _ | CreateAPI _ | CreatePolicy _ => Ref
  | CreateClient _ => Ref * string
  | ListPermissions _ => list string
  | AssignServicePolicy _ | CreatePermission _ => unit
  end.
Definition MgmtServer (A : Type) : Type := Service MgmtReq MgmtResp status A.

Definition creates (r : MgmtReq) : bool :=
  match r with
  | CreateService _ | CreateAPI _ | CreatePermission _ | CreatePolicy _ | CreateClient _ => true
  | _ => false
  end.

(** ** Outcomes *)

Inductive Status := StatusCreated | StatusEnsured | StatusFailed.
#[global] Instance Status_eq_dec : EqDecision Status.
Proof. solve_decision. Defined.

Record Outcome := { oc_Kind : string; oc_Name : string; oc_Status : Status; oc_Error : string }.

(** What the applier remembers within a pass. *)
Record Mem := mkMemory { serviceIDs : gmap string string; outcomes : list Outcome }.

Section Applier.
Context {T : GoText} {C : Crypto} {R : RSA} {J : Gateway.JsonText}.
Context {A : Type} (srv : MgmtServer A).
(** The bearer token of the calls, the tenant, the key directory, and Core's own
    registry, if it is wired. *)
Context (token tenantID keyDir : string) (registry : option (string -> string -> bool -> M error ())).
Let Prog := P (Node A * Mem) call_error.

Definition in_node {E X} (m : P (Node A) E X) : P (Node A * Mem) E X := fun s =>
  let '(r, n) := m (fst s) in (r, (n, snd s)).
Definition mgmt (r : MgmtReq) : Prog (MgmtResp r) :=
  p_map_err of_status (in_node (on_peer (srv r token))).

Definition record (kind name : string) (st : Status) (err : string) : Prog () := fun s =>
  (Ok (), (fst s, mkMemory (serviceIDs (snd s))
             (outcomes (snd s) ++ [Build_Outcome kind name st err]))).

(** Records a failure and goes on. *)
Definition fail_ (kind name : string) (e : call_error) : Prog () :=
  record kind name StatusFailed (ce_msg e).

(** The body of an operation: its failure becomes an outcome. *)
Definition recording {X} (kind name : string) (m : Prog X) (k : X -> Prog ()) : Prog () :=
  p_catch m (fun r => match r with Err e => fail_ kind name e | Ok x => k x end).

Definition service_id (name : string) : Prog (option string) := fun s =>
  (Ok (serviceIDs (snd s) !! name), s).
Definition note_service (name id : string) : Prog () := fun s =>
  (Ok (), (fst s, mkMemory (<[name := id]> (serviceIDs (snd s))) (outcomes (snd s)))).

(** The first listed object with exactly this name. *)
Definition exact (name : string) (l : list Ref) : option Ref :=
  List.find (fun x => str_eqb (ref_Name x) name) l.
Definition list_request (name : string) : ListRequest := Build_ListRequest tenantID name listPageSize.

(** *** Service *)

Definition findService (name : string) : Prog (option Ref) :=
  l ← mgmt (ListServices (list_request name)); mret (exact name l).

Definition converge_registry (name : string) (spec : Steward.ServiceSpec) : Prog () :=
  match registry with
  | None => mret ()
  | Some reg =>
      if is_empty (TrimSpace (Steward.ss_RegistryKind spec)) then mret ()
      else p_map_err (fun e => errorf (error_Error e))
             (in_node (on_db (reg name (Steward.ss_RegistryKind spec)
                                (Steward.Tier_IsSystem (Steward.ss_Tier spec)))))
  end.

Definition EnsureService (name : string) (spec : Steward.ServiceSpec) : Prog () :=
  recording Steward.KindService name
    (existing ← findService name;
     '(svc, st) ← match existing with
       | Some svc => mret (svc, StatusEnsured)
       | None =>
           svc ← mgmt (CreateService {|
             csq_TenantId := tenantID; csq_Name := name;
             csq_DisplayName := firstNonBlank [Steward.ss_DisplayName spec; name];
             csq_Description := Steward.ss_Description spec;
             csq_Version := firstNonBlank [Steward.ss_Version spec; "v1"%string];
             csq_Status := statusActive |});
           mret (svc, StatusCreated)
       end;
     note_service name (ref_Id svc);;
     converge_registry name spec;;
     mret st)
    (fun st => record Steward.KindService name st "").

(** *** ResourceAPI *)

Definition findAPI (name : string) : Prog (option Ref) :=
  l ← mgmt (ListAPIs (list_request name)); mret (exact name l).

Fixpoint permissions_loop (apiID : string) (have : list string) (want : list Steward.Permission)
    (created : nat) : Prog nat :=
  match want with
  | [] => mret created
  | p :: want =>
      if existsb (str_eqb (Steward.pm_Name p)) have then permissions_loop apiID have want created
      else
        p_map_err (wrapf ("create permission " +:+ fmt_q (Steward.pm_Name p) +:+ ": "))
          (mgmt (CreatePermission {|
             cmq_TenantId := tenantID; cmq_Name := Steward.pm_Name p;
             cmq_Description := Steward.pm_Description p; cmq_Status := statusActive;
             cmq_ApiId := apiID |}));;
        permissions_loop apiID have want (S created)
  end.

Definition ensurePermissions (apiID : string) (want : list Steward.Permission) : Prog nat :=
  match want with
  | [] => mret O
  | _ =>
      have ← mgmt (ListPermissions {|
        lpq_TenantId := tenantID; lpq_ApiId := apiID; lpq_Limit := listPageSize |});
      permissions_loop apiID have want O
  end.

(** The id of a service the pass applied, or the error of an object that comes
    before its service. *)
Definition applied_service (service kind : string) : Prog string :=
  id ← service_id service;
  match id with
  | Some id => mret id
  | None => p_fail (errorf ("service " +:+ fmt_q service
              +:+ " has not been applied — it must precede its " +:+ kind +:+ " in the catalog"))
  end.

Definition EnsureResourceAPI (name : string) (spec : Steward.ResourceAPISpec) : Prog () :=
  recording Steward.KindResourceAPI name
    (serviceID ← applied_service (Steward.as_Service spec) "ResourceAPI";
     found ← findAPI name;
     '(api, st) ← match found with
       | Some api => mret (api, StatusEnsured)
       | None =>
           api ← mgmt (CreateAPI {|
             cpq_TenantId := tenantID; cpq_Name := name;
             cpq_DisplayName := firstNonBlank [Steward.as_DisplayName spec; name];
             cpq_Description := "Resource API for " +:+ Steward.as_Service spec
                                +:+ ", provisioned from the control catalog.";
             cpq_Status := statusActive; cpq_ServiceId := serviceID |});
           mret (api, StatusCreated)
       end;
     created ← ensurePermissions (ref_Id api) (Steward.as_Permissions spec);
     mret (if Nat.ltb 0 created then StatusCreated else st))
    (fun st => record Steward.KindResourceAPI name st "").

(** *** ServiceClient *)

Definition findClient (name : string) : Prog (option Ref) :=
  l ← mgmt (ListClients (list_request name)); mret (exact name l).

Definition key_PrivateKey (service : string) : Prog (string * bool) :=
  p_map_err errorf (in_node (on_disk (FileKeyStore.PrivateKey keyDir service))).
Definition key_Record (service pem : string) : Prog () :=
  p_map_err errorf (in_node (on_disk (FileKeyStore.Record_ keyDir service pem))).
Definition key_Discard (service : string) : Prog () :=
  p_map_err errorf (in_node (on_disk (FileKeyStore.Discard keyDir service))).

(** [structpb.NewStruct] fails only on a value protobuf cannot carry, which a
    decoded key set and lists of strings are not (text that is not valid UTF-8
    apart). *)
Definition clientConfig (jwks : string) (spec : Steward.ServiceClientSpec) : result call_error value :=
  match Gateway.json_Unmarshal jwks with
  | Some (VObj keySet) =>
      let scopes := match Steward.cs_AllowedScopes spec with
                    | [] => [Steward.cs_Audience spec]
                    | l => l
                    end in
      Ok (VObj [("token_endpoint_auth_method", VStr tokenAuthPrivateKeyJWT);
                ("grant_types", VArr [VStr "client_credentials"]);
                ("allowed_scopes", VArr (map VStr scopes));
                ("jwks", VObj keySet)]%string)
  | _ => Err (errorf "decode generated jwks: not a JSON object")
  end.

(** The answer of the operation: nil after a failure. *)
Definition recording_client (name : string) (m : Prog (Status * Steward.GeneratedClient))
    : Prog (option Steward.GeneratedClient) :=
  p_catch m (fun r =>
    match r with
    | Err e => fail_ Steward.KindServiceClient name e;; mret None
    | Ok (st, gc) => record Steward.KindServiceClient name st "";; mret (Some gc)
    end).

Definition create_client (name serviceID service : string) (spec : Steward.ServiceClientSpec)
    (stored : string) : Prog Steward.GeneratedClient :=
  '(privatePEM, generated) ←
    (if is_empty stored then
       '(pem, _) ← p_map_err errorf (in_node (on_keys GenerateClientKey));
       key_Record service pem;;
       mret (pem, true)
     else mret (stored, false));
  jwks ← p_lift (result_map_err errorf (JWKSFromPrivatePEM privatePEM));
  cfg ← p_lift (clientConfig jwks spec);
  p_catch (mgmt (CreateClient {|
      clq_TenantId := tenantID; clq_Name := name; clq_DisplayName := name;
      clq_ClientType := clientTypeM2M; clq_Config := cfg; clq_Status := statusActive;
      clq_ServiceId := serviceID |})) (fun resp =>
    match resp with
    | Err e =>
        p_catch (if generated : bool then key_Discard service else mret ()) (fun _ => p_fail e)
    | Ok (client, oauth) =>
        mret (Steward.Build_GeneratedClient (ref_Id client) oauth
                (if generated : bool then privatePEM else "") false)
    end).

Definition EnsureServiceClient (name : string) (spec : Steward.ServiceClientSpec)
    : Prog (option Steward.GeneratedClient) :=
  let service := Steward.cs_Service spec in
  recording_client name
    (serviceID ← applied_service service "ServiceClient";
     existing ← findClient name;
     '(stored, hadKey) ← key_PrivateKey service;
     match existing with
     | Some client =>
         if negb hadKey then
           p_fail (errorf ("auth client " +:+ fmt_q name
             +:+ " already exists but no local private key was found for service " +:+ fmt_q service))
         else mret (StatusEnsured, Steward.Build_GeneratedClient (ref_Id client) "" "" true)
     | None =>
         gc ← create_client name serviceID service spec stored;
         mret (StatusCreated, gc)
     end).

(** *** ServicePolicy *)

Definition findPolicy (name : string) : Prog (option Ref) :=
  l ← mgmt (ListPolicies (list_request name)); mret (exact name l).

Definition policyDocument (actions : list string) : value :=
  VObj [("version", VStr policyVersion);
        ("statement", VArr [VObj [("effect", VStr "allow"); ("action", VArr (map VStr actions));
                                  ("resource", VArr [VStr "*"])]])]%string.

Definition EnsureServicePolicy (name : string) (spec : Steward.ServicePolicySpec) : Prog () :=
  match Steward.ps_AllowedActions spec with
  | [] => record Steward.KindServicePolicy name StatusEnsured ""
  | actions =>
      recording Steward.KindServicePolicy name
        (serviceID ← applied_service (Steward.ps_Service spec) "ServicePolicy";
         let policyName := firstNonBlank [Steward.ps_PolicyName spec; name] in
         found ← findPolicy policyName;
         '(policy, st) ← match found with
           | Some policy => mret (policy, StatusEnsured)
           | None =>
               policy ← mgmt (CreatePolicy {|
                 coq_TenantId := tenantID; coq_Name := policyName;
                 coq_Description := "Service-to-service policy for " +:+ Steward.ps_Service spec
                                    +:+ ", provisioned from the control catalog.";
                 coq_Document := policyDocument actions; coq_Version := policyVersion;
                 coq_Status := statusActive |});
               mret (policy, StatusCreated)
           end;
         mgmt (AssignServicePolicy {|
           apq_TenantId := tenantID; apq_ServiceId := serviceID; apq_PolicyId := ref_Id policy |});;
         mret st)
        (fun st => record Steward.KindServicePolicy name st "")
  end.

Definition applier : Steward.Applier (Node A * Mem) := {|
  Steward.EnsureService := EnsureService;
  Steward.EnsureResourceAPI := EnsureResourceAPI;
  Steward.EnsureServiceClient := EnsureServiceClient;
  Steward.EnsureServicePolicy := EnsureServicePolicy;
  Steward.KeySink_Record := Some key_Record |}.

(** One pass with a new applier. *)
Definition pass (cat : Steward.Catalog) (n : Node A)
    : option call_error * Steward.Report * (Node A * Mem) :=
  Steward.Reconcile applier cat (n, mkMemory ∅ []).
End Applier.
