(* ===== verification/Realize.v ===== *)
(** * What a pass over the catalog achieves

    The abstract view of Auth the applier works on, what Auth's documentation
    promises of each call on that view ([MgmtLaws]), and the refinement: a pass
    without failures leaves an Auth that realizes the catalog, and a pass over an
    Auth that realizes it creates nothing. *)

From S2P Require Import Prelude Json Storage World AppError Queries Agent Keys Process Applier.
From S2P Require Gateway Steward Identity.
Import Identity(firstNonBlank).

(** Ids of the objects by name, the permissions of an API by its id, and the
    policies attached to a service. *)
Record AuthView := mkView {
  av_services : gmap string string; av_apis : gmap string string;
  av_perms : gmap string (gset string); av_policies : gmap string string;
  av_attached : gset (string * string); av_clients : gset string }.
#[global] Instance AuthView_eta : EtaRecord AuthView := fun v =>
  mkView (av_services v) (av_apis v) (av_perms v) (av_policies v) (av_attached v) (av_clients v).

Definition perms_of (v : AuthView) (api : string) : gset string := default ∅ (av_perms v !! api).

(** Nothing is taken away or re-identified. *)
Record view_le (v v' : AuthView) : Prop := {
  vl_services : av_services v ⊆ av_services v';
  vl_apis : av_apis v ⊆ av_apis v';
  vl_perms : forall api, perms_of v api ⊆ perms_of v' api;
  vl_policies : av_policies v ⊆ av_policies v';
  vl_attached : av_attached v ⊆ av_attached v';
  vl_clients : av_clients v ⊆ av_clients v' }.

#[global] Instance view_le_preorder : PreOrder view_le.
Proof.
  split.
  - intros v. by split.
  - intros v1 v2 v3 [A1 A2 A3 A4 A5 A6] [B1 B2 B3 B4 B5 B6]. split; try (by etransitivity).
    intros api. etransitivity; [apply A3|apply B3].
Qed.

(** The effect of a successful creation on the view. *)
Definition add_service name id v := v <| av_services := <[name := id]> (av_services v) |>.
Definition add_api name id v := v <| av_apis := <[name := id]> (av_apis v) |>.
Definition add_perm api name v := v <| av_perms := <[api := {[name]} ∪ perms_of v api]> (av_perms v) |>.
Definition add_policy name id v := v <| av_policies := <[name := id]> (av_policies v) |>.
Definition attach sid pid v := v <| av_attached := {[(sid, pid)]} ∪ av_attached v |>.
Definition add_client name v := v <| av_clients := {[name]} ∪ av_clients v |>.

Lemma add_service_le name id v : av_services v !! name = None -> view_le v (add_service name id v).
Proof. intros H. split; cbn; try done. by apply insert_subseteq. Qed.
Lemma add_api_le name id v : av_apis v !! name = None -> view_le v (add_api name id v).
Proof. intros H. split; cbn; try done. by apply insert_subseteq. Qed.
Lemma add_policy_le name id v : av_policies v !! name = None -> view_le v (add_policy name id v).
Proof. intros H. split; cbn; try done. by apply insert_subseteq. Qed.
Lemma attach_le sid pid v : view_le v (attach sid pid v).
Proof. split; cbn; try done. apply union_subseteq_r. Qed.
Lemma attach_id sid pid v : (sid, pid) ∈ av_attached v -> attach sid pid v = v.
Proof.
  intros H. assert (E : {[(sid, pid)]} ∪ av_attached v = av_attached v)
    by by apply subseteq_union_1_L, singleton_subseteq_l.
  change (attach sid pid v) with (mkView (av_services v) (av_apis v) (av_perms v) (av_policies v)
    ({[(sid, pid)]} ∪ av_attached v) (av_clients v)). rewrite E. by destruct v.
Qed.
Lemma add_client_le name v : view_le v (add_client name v).
Proof. split; cbn; try done. apply union_subseteq_r. Qed.
Lemma add_perm_le api name v : view_le v (add_perm api name v).
Proof.
  split; cbn; try done. intros a. unfold perms_of at 2. cbn. destruct (decide (a = api)) as [->|Hne].
  - rewrite lookup_insert_eq. cbn. apply union_subseteq_r.
  - rewrite lookup_insert_ne by done. done.
Qed.
Lemma add_perm_in api name v : name ∈ perms_of (add_perm api name v) api.
Proof.
  unfold perms_of. cbn. rewrite lookup_insert_eq. cbn. apply elem_of_union_l, elem_of_singleton_2. done.
Qed.

(** What a call promises on the view: a listing by name holds an object with
    exactly that name if there is one, with its id, and no other; a page holds
    all permissions of an API; a successful creation adds the object, a failed
    one may have added it before its answer was lost; nothing else changes. *)
Definition call_law (r : MgmtReq) : result status (MgmtResp r) -> AuthView -> AuthView -> Prop :=
  match r return result status (MgmtResp r) -> AuthView -> AuthView -> Prop with
  | ListServices q => fun a v v' => v' = v /\ forall l, a = Ok l ->
      exact (lq_Name q) l = (fun id => mkRef id (lq_Name q)) <$> av_services v !! lq_Name q
  | ListAPIs q => fun a v v' => v' = v /\ forall l, a = Ok l ->
      exact (lq_Name q) l = (fun id => mkRef id (lq_Name q)) <$> av_apis v !! lq_Name q
  | ListPolicies q => fun a v v' => v' = v /\ forall l, a = Ok l ->
      exact (lq_Name q) l = (fun id => mkRef id (lq_Name q)) <$> av_policies v !! lq_Name q
  | ListClients q => fun a v v' => v' = v /\ forall l, a = Ok l ->
      (is_Some (exact (lq_Name q) l) <-> lq_Name q ∈ av_clients v)
  | ListPermissions q => fun a v v' => v' = v /\ forall l, a = Ok l ->
      forall p, p ∈ l <-> p ∈ perms_of v (lpq_ApiId q)
  | CreateService q => fun a v v' => av_services v !! csq_Name q = None -> match a with
      | Ok x => v' = add_service (csq_Name q) (ref_Id x) v
      | Err _ => v' = v \/ exists id, v' = add_service (csq_Name q) id v
      end
  | CreateAPI q => fun a v v' => av_apis v !! cpq_Name q = None -> match a with
      | Ok x => v' = add_api (cpq_Name q) (ref_Id x) v
      | Err _ => v' = v \/ exists id, v' = add_api (cpq_Name q) id v
      end
  | CreatePolicy q => fun a v v' => av_policies v !! coq_Name q = None -> match a with
      | Ok x => v' = add_policy (coq_Name q) (ref_Id x) v
      | Err _ => v' = v \/ exists id, v' = add_policy (coq_Name q) id v
      end
  | CreatePermission q => fun a v v' => match a with
      | Ok _ => v' = add_perm (cmq_ApiId q) (cmq_Name q) v
      | Err _ => v' = v \/ v' = add_perm (cmq_ApiId q) (cmq_Name q) v
      end
  | AssignServicePolicy q => fun a v v' => match a with
      | Ok _ => v' = attach (apq_ServiceId q) (apq_PolicyId q) v
      | Err _ => v' = v \/ v' = attach (apq_ServiceId q) (apq_PolicyId q) v
      end
  | CreateClient q => fun a v v' => match a with
      | Ok _ => v' = add_client (clq_Name q) v
      | Err _ => v' = v \/ v' = add_client (clq_Name q) v
      end
  end.

Class MgmtLaws {A : Type} (srv : MgmtServer A) (view : A -> AuthView) : Prop :=
  mgmt_law : forall r cred s, call_law r (fst (srv r cred s)) (view s) (view (snd (srv r cred s))).

(** ** Realized objects *)

Definition realized (v : AuthView) (o : Steward.Object) : Prop :=
  match Steward.ob_Spec o with
  | Some (Steward.SpecService _) => is_Some (av_services v !! Steward.ob_Name o)
  | Some (Steward.SpecResourceAPI s) =>
      exists id, av_apis v !! Steward.ob_Name o = Some id
        /\ forall p, p ∈ Steward.as_Permissions s -> Steward.pm_Name p ∈ perms_of v id
  | Some (Steward.SpecServiceClient _) => Steward.ob_Name o ∈ av_clients v
  | Some (Steward.SpecServicePolicy s) =>
      Steward.ps_AllowedActions s <> [] ->
      exists sid pid, av_services v !! Steward.ps_Service s = Some sid
        /\ av_policies v !! firstNonBlank [Steward.ps_PolicyName s; Steward.ob_Name o] = Some pid
        /\ (sid, pid) ∈ av_attached v
  | _ => True
  end.

Lemma realized_mono v v' o : view_le v v' -> realized v o -> realized v' o.
Proof.
  intros [H1 H2 H3 H4 H5 H6]. unfold realized. destruct (Steward.ob_Spec o) as [[s|s|s|s|k]|]; try done.
  - intros [id Hid]. exists id. by eapply lookup_weaken.
  - intros (id & Hid & Hp). exists id. split; [by eapply lookup_weaken|]. intros p Hin. by apply H3, Hp.
  - intros Hin. by apply H6.
  - intros H Hne. destruct (H Hne) as (sid & pid & ? & ? & ?). exists sid, pid.
    split_and!; [by eapply lookup_weaken..|by apply H5].
Qed.

(** ** Triples on the view *)

Section Realize.
Context {T : GoText} {C : Crypto} {R : RSA} {J : Gateway.JsonText}.
Context {A : Type} (srv : MgmtServer A) (view : A -> AuthView) {Laws : MgmtLaws srv view}.
Context (token tenantID keyDir : string) (registry : option (string -> string -> bool -> M error ())).

Definition state : Type := Node A * Mem.
Definition V (s : state) : AuthView := view (n_peer (fst s)).

(** The ids the pass noted are Auth's. *)
Definition noted (s : state) : Prop :=
  forall name id, serviceIDs (snd s) !! name = Some id -> av_services (V s) !! name = Some id.

(** Nothing was taken away since [v0], and [outs] are the outcomes so far. *)
Record Inv (v0 : AuthView) (outs : list Outcome) (s : state) : Prop := {
  inv_le : view_le v0 (V s); inv_noted : noted s; inv_outs : outcomes (snd s) = outs }.

Definition ht {X} (Pre : AuthView -> Prop) (m : P state call_error X) (Post : X -> AuthView -> Prop) : Prop :=
  forall v0 outs, hoare (fun s => Inv v0 outs s /\ Pre (V s)) m
    (fun r s => Inv v0 outs s /\ match r with Ok x => Post x (V s) | Err _ => True end).

Lemma ht_ret {X} (Pre : AuthView -> Prop) (Post : X -> AuthView -> Prop) x :
  (forall v, Pre v -> Post x v) -> ht Pre (mret x) Post.
Proof. intros H v0 outs s [Hi Hp]. split; [done|]. by apply H. Qed.
Lemma ht_fail {X} (Pre : AuthView -> Prop) (Post : X -> AuthView -> Prop) e : ht Pre (p_fail e) Post.
Proof. intros v0 outs s [Hi Hp]. by split. Qed.
Lemma ht_lift {X} (Pre : AuthView -> Prop) (r : result call_error X) : ht Pre (p_lift r) (fun _ => Pre).
Proof. intros v0 outs s [Hi Hp]. split; [done|]. by destruct r. Qed.
Lemma ht_bind {X Y} (Pre : AuthView -> Prop) (m : P state call_error X) (k : X -> P state call_error Y)
    (Mid : X -> AuthView -> Prop) (Post : Y -> AuthView -> Prop) :
  ht Pre m Mid -> (forall x, ht (Mid x) (k x) Post) -> ht Pre (m ≫= k) Post.
Proof.
  intros Hm Hk v0 outs. eapply hoare_bind; [apply Hm| |].
  - intros e s [Hi _]. by split.
  - intros x. apply Hk.
Qed.
Lemma ht_conseq {X} (Pre Pre' : AuthView -> Prop) (m : P state call_error X) (Post Post' : X -> AuthView -> Prop) :
  ht Pre m Post -> (forall v, Pre' v -> Pre v) -> (forall x v, Post x v -> Post' x v) -> ht Pre' m Post'.
Proof.
  intros H H1 H2 v0 outs s [Hi Hp]. destruct (H v0 outs s) as [Hi' Hp']; [split; auto|].
  split; [done|]. destruct (fst (m s)); auto.
Qed.
(** A fact that only grows with the view survives. *)
Lemma ht_frame {X} (F : AuthView -> Prop) (Pre : AuthView -> Prop) (m : P state call_error X)
    (Post : X -> AuthView -> Prop) :
  (forall v v', view_le v v' -> F v -> F v') ->
  ht Pre m Post -> ht (fun v => Pre v /\ F v) m (fun x v => Post x v /\ F v).
Proof.
  intros Hmono H v0 outs s [[Hle Hno Ho] [Hp HF]].
  destruct (H (V s) outs s) as [[Hle' Hno' Ho'] Hq]; [done|].
  split; [split; [by etransitivity|done..]|]. destruct (fst (m s)); [|done].
  split; [done|]. by eapply Hmono.
Qed.

(** A step that leaves Auth and the memory alone. *)
Lemma ht_local {X} (Pre : AuthView -> Prop) (m : P state call_error X) :
  (forall s, V (snd (m s)) = V s /\ snd (snd (m s)) = snd s) -> ht Pre m (fun _ => Pre).
Proof.
  intros H v0 outs s [[Hle Hno Ho] Hp]. destruct (H s) as [E1 E2].
  split; [split|].
  - by rewrite E1.
  - intros name id. rewrite E1, E2. apply Hno.
  - by rewrite E2.
  - rewrite E1. by destruct (fst (m s)).
Qed.

Lemma local_disk {E X} (f : E -> call_error) (m : Disk -> result E X * Disk) (s : state) :
  V (snd (p_map_err f (in_node (on_disk m)) s)) = V s
  /\ snd (snd (p_map_err f (in_node (on_disk m)) s)) = snd s.
Proof. unfold p_map_err, in_node, on_disk. by destruct (m _). Qed.
Lemma local_keys {E X} (f : E -> call_error) (m : list rsa_key -> result E X * list rsa_key) (s : state) :
  V (snd (p_map_err f (in_node (on_keys m)) s)) = V s
  /\ snd (snd (p_map_err f (in_node (on_keys m)) s)) = snd s.
Proof. unfold p_map_err, in_node, on_keys. by destruct (m _). Qed.
Lemma local_db {E X} (f : E -> call_error) (m : M E X) (s : state) :
  V (snd (p_map_err f (in_node (on_db m)) s)) = V s
  /\ snd (snd (p_map_err f (in_node (on_db m)) s)) = snd s.
Proof. unfold p_map_err, in_node, on_db. by destruct (m _). Qed.

(** A call of Auth, by its law. *)
Lemma ht_mgmt (r : MgmtReq) (Pre : AuthView -> Prop) (Post : MgmtResp r -> AuthView -> Prop) :
  (forall a v v', Pre v -> call_law r a v v' ->
     view_le v v' /\ match a with Ok x => Post x v' | Err _ => True end) ->
  ht Pre (mgmt srv token r) Post.
Proof.
  intros H v0 outs [n mem] [[Hle Hno Ho] Hp]. unfold mgmt, p_map_err, in_node, on_peer. cbn.
  specialize (H (fst (srv r token (n_peer n))) (V (n, mem)) (view (snd (srv r token (n_peer n)))) Hp
    (mgmt_law r token (n_peer n))).
  destruct (srv r token (n_peer n)) as [a st]. cbn in *. destruct H as [Hl Hq].
  split; [split|]; unfold V in *; cbn in *.
  - by etransitivity.
  - intros name id Hid. eapply lookup_weaken; [by apply Hno|apply Hl].
  - done.
  - by destruct a.
Qed.

(** A lookup: the view stays, and the answer satisfies the law of the listing. *)
Lemma ht_listing (r : MgmtReq) (Pre : AuthView -> Prop) (Q : MgmtResp r -> AuthView -> Prop)
    {X} (f : MgmtResp r -> X) :
  (forall a v v', call_law r a v v' -> v' = v /\ forall l, a = Ok l -> Q l v) ->
  ht Pre (l ← mgmt srv token r; mret (f l)) (fun x v => Pre v /\ exists l, x = f l /\ Q l v).
Proof.
  intros Hlaw. eapply ht_bind; [apply ht_mgmt with (Post := fun l v => Pre v /\ Q l v)|].
  - intros a v v' Hp [-> Hl]%Hlaw. split; [done|]. destruct a; [|done]. split; [done|]. by apply Hl.
  - intros l. apply ht_ret. intros v [? ?]. eauto.
Qed.

Lemma ht_findService name (Pre : AuthView -> Prop) :
  ht Pre (findService srv token tenantID name) (fun o v => Pre v /\ o = (fun id => mkRef id name) <$> av_services v !! name).
Proof.
  eapply ht_conseq; [apply (ht_listing (ListServices (list_request tenantID name)) Pre
    (fun l v => exact name l = (fun id => mkRef id name) <$> av_services v !! name) (exact name)); by intros a v v'|done|].
  intros o v (Hp & l & -> & Hl). by split.
Qed.
Lemma ht_findAPI name (Pre : AuthView -> Prop) :
  ht Pre (findAPI srv token tenantID name) (fun o v => Pre v /\ o = (fun id => mkRef id name) <$> av_apis v !! name).
Proof.
  eapply ht_conseq; [apply (ht_listing (ListAPIs (list_request tenantID name)) Pre
    (fun l v => exact name l = (fun id => mkRef id name) <$> av_apis v !! name) (exact name)); by intros a v v'|done|].
  intros o v (Hp & l & -> & Hl). by split.
Qed.
Lemma ht_findPolicy name (Pre : AuthView -> Prop) :
  ht Pre (findPolicy srv token tenantID name) (fun o v => Pre v /\ o = (fun id => mkRef id name) <$> av_policies v !! name).
Proof.
  eapply ht_conseq; [apply (ht_listing (ListPolicies (list_request tenantID name)) Pre
    (fun l v => exact name l = (fun id => mkRef id name) <$> av_policies v !! name) (exact name)); by intros a v v'|done|].
  intros o v (Hp & l & -> & Hl). by split.
Qed.
Lemma ht_findClient name (Pre : AuthView -> Prop) :
  ht Pre (findClient srv token tenantID name) (fun o v => Pre v /\ (is_Some o <-> name ∈ av_clients v)).
Proof.
  eapply ht_conseq; [apply (ht_listing (ListClients (list_request tenantID name)) Pre
    (fun l v => is_Some (exact name l) <-> name ∈ av_clients v) (exact name)); by intros a v v'|done|].
  intros o v (Hp & l & -> & Hl). by split.
Qed.

(** ** The operations *)

Lemma ht_applied_service service kind (Pre : AuthView -> Prop) :
  ht Pre (applied_service service kind)
    (fun id v => Pre v /\ av_services v !! service = Some id).
Proof.
  intros v0 outs s [[Hle Hno Ho] Hp]. unfold applied_service, service_id, mbind, P_bind. cbn.
  destruct (serviceIDs (snd s) !! service) as [id|] eqn:E; cbn; [|done].
  split; [done|]. split; [done|]. by apply Hno.
Qed.

(** What an operation on an object leaves: one outcome with its kind and name,
    and the object realized unless the outcome is a failure. *)
Definition op_ok {X} (o : Steward.Object) (kind : string) (m : P state call_error X) : Prop :=
  forall v0 outs, hoare (Inv v0 outs) m (fun r s => (exists x, r = Ok x)
    /\ exists oc, Inv v0 (outs ++ [oc]) s /\ oc_Kind oc = kind /\ oc_Name oc = Steward.ob_Name o
       /\ (oc_Status oc <> StatusFailed -> realized (V s) o)).

Lemma record_ok kind name st err v0 outs (s : state) :
  Inv v0 outs s -> exists s', record kind name st err s = (Ok (), s') /\ V s' = V s
    /\ Inv v0 (outs ++ [Build_Outcome kind name st err]) s'.
Proof.
  intros [Hle Hno Ho]. eexists. split; [reflexivity|]. split; [done|]. split; cbn; [done..|].
  by rewrite Ho.
Qed.

Lemma recording_ok o kind (m : P state call_error Status) :
  ht (fun _ => True) m (fun _ v => realized v o) ->
  op_ok o kind (recording kind (Steward.ob_Name o) m
    (fun st => record kind (Steward.ob_Name o) st "")).
Proof.
  intros Hm v0 outs s Hs. destruct (Hm v0 outs s (conj Hs I)) as [Hi Hq].
  unfold recording, p_catch, mbind, P_bind, p_try, fail_. destruct (m s) as [[st|e] s1]; cbn in Hi, Hq.
  - destruct (record_ok kind (Steward.ob_Name o) st "" _ _ _ Hi) as (s2 & -> & Ev & Hi2).
    cbn. split; [eauto|]. eexists. split; [exact Hi2|]. rewrite Ev. done.
  - destruct (record_ok kind (Steward.ob_Name o) StatusFailed (ce_msg e) _ _ _ Hi) as (s2 & -> & Ev & Hi2).
    cbn. split; [eauto|]. eexists. split; [exact Hi2|]. done.
Qed.

Lemma EnsureService_ok o spec : Steward.ob_Spec o = Some (Steward.SpecService spec) ->
  op_ok o Steward.KindService (EnsureService srv token tenantID registry (Steward.ob_Name o) spec).
Proof.
  intros Eo. set (name := Steward.ob_Name o). apply recording_ok.
  eapply ht_bind; [apply ht_findService|]. intros found.
  set (is_service := fun (svc : Ref) v => av_services v !! name = Some (ref_Id svc)).
  eapply ht_bind with (Mid := fun x v => is_service (fst x) v).
  - destruct found as [svc|].
    + apply ht_ret. intros v [_ E]. unfold is_service. cbn.
      destruct (av_services v !! name); simplify_eq/=. done.
    + eapply ht_bind; [apply (ht_mgmt (CreateService _)) with (Post := is_service)|].
      * intros a v v' [_ E] Hl. destruct (av_services v !! name) eqn:En; [done|]. specialize (Hl En).
        destruct a as [x|e]; [subst; split; [by apply add_service_le|]|].
        { unfold is_service. cbn. by rewrite lookup_insert_eq. }
        destruct Hl as [->|[id ->]]; split; try done. by apply add_service_le.
      * intros svc. by apply ht_ret.
  - intros [svc st]. cbn. eapply ht_bind with (Mid := fun _ => is_service svc).
    { intros v0 outs s [[Hle Hno Ho] Hp]. cbn. split; [|done]. split; cbn; [done| |done].
      intros n id. cbn. destruct (decide (n = name)) as [->|Hne].
      - rewrite lookup_insert_eq. intros [= <-]. exact Hp.
      - rewrite lookup_insert_ne by done. apply Hno. }
    intros _. eapply ht_bind with (Mid := fun _ => is_service svc).
    + unfold converge_registry. destruct registry as [reg|]; [|by apply ht_ret].
      destruct (is_empty _); [by apply ht_ret|]. apply ht_local. intros s. apply local_db.
    + intros _. apply ht_ret. intros v Hv. unfold realized. rewrite Eo. by eexists.
Qed.

(** All of [names] are permissions of the API. *)
Definition grants (api : string) (names : list string) (v : AuthView) : Prop :=
  forall p, p ∈ names -> p ∈ perms_of v api.
Lemma grants_mono api names v v' : view_le v v' -> grants api names v -> grants api names v'.
Proof. intros Hle H p Hp. by apply (vl_perms _ _ Hle), H. Qed.

Lemma ht_permissions_loop api have want created :
  ht (grants api have) (permissions_loop srv token tenantID api have want created)
    (fun _ v => grants api have v /\ grants api (map Steward.pm_Name want) v).
Proof.
  revert created. induction want as [|p want IH]; intros created; cbn [permissions_loop].
  { apply ht_ret. intros v Hv. split; [done|]. by intros q ?%elem_of_nil. }
  set (F := fun v => Steward.pm_Name p ∈ perms_of v api).
  assert (Hgo : forall c, ht (fun v => grants api have v /\ F v)
    (permissions_loop srv token tenantID api have want c)
    (fun _ v => grants api have v /\ grants api (map Steward.pm_Name (p :: want)) v)).
  { intros c. eapply ht_conseq; [apply (ht_frame F); [|apply IH]|done|].
    - intros v v' Hle. apply (vl_perms _ _ Hle).
    - intros _ v [[H1 H2] HF]. split; [done|]. intros q [->|Hq]%elem_of_cons; [done|by apply H2]. }
  destruct (existsb _ have) eqn:Eh.
  - eapply ht_conseq; [apply Hgo| |done]. intros v Hv. split; [done|].
    apply existsb_exists in Eh as (q & Hq & <-%str_eqb_eq). apply Hv. by apply list_elem_of_In.
  - eapply ht_bind with (Mid := fun _ v => grants api have v /\ F v); [|intros []; apply Hgo].
    intros v0 outs.
    eapply hoare_map_err; [apply (ht_mgmt (CreatePermission _)) with
      (Post := fun _ v => grants api have v /\ F v)|done|by intros e s' []].
    intros a v v' Hv Hl. assert (Hle := add_perm_le api (Steward.pm_Name p) v).
    destruct a as [x|e]; cbn in Hl; [subst v'; split_and!; [done|by eapply grants_mono|]|].
    + apply add_perm_in.
    + by destruct Hl as [-> | ->].
Qed.

Lemma EnsureResourceAPI_ok o spec : Steward.ob_Spec o = Some (Steward.SpecResourceAPI spec) ->
  op_ok o Steward.KindResourceAPI (EnsureResourceAPI srv token tenantID (Steward.ob_Name o) spec).
Proof.
  intros Eo. set (name := Steward.ob_Name o). apply recording_ok.
  eapply ht_bind; [apply ht_applied_service|]. intros sid.
  eapply ht_bind; [apply ht_findAPI|]. intros found.
  set (is_api := fun (api : Ref) v => av_apis v !! name = Some (ref_Id api)).
  eapply ht_bind with (Mid := fun x v => is_api (fst x) v).
  - destruct found as [api|].
    + apply ht_ret. intros v [_ E]. unfold is_api. cbn.
      destruct (av_apis v !! name); simplify_eq/=. done.
    + eapply ht_bind; [apply (ht_mgmt (CreateAPI _)) with (Post := is_api)|].
      * intros a v v' [_ E] Hl. destruct (av_apis v !! name) eqn:En; [done|]. specialize (Hl En).
        destruct a as [x|e]; [subst; split; [by apply add_api_le|]|].
        { unfold is_api. cbn. by rewrite lookup_insert_eq. }
        destruct Hl as [->|[id ->]]; split; try done. by apply add_api_le.
      * intros api. by apply ht_ret.
  - intros [api st]. cbn.
    eapply ht_bind with (Mid := fun _ v => is_api api v
      /\ grants (ref_Id api) (map Steward.pm_Name (Steward.as_Permissions spec)) v).
    + unfold ensurePermissions. destruct (Steward.as_Permissions spec) as [|p ps] eqn:Ep.
      { apply ht_ret. intros v Hv. split; [done|]. by intros q ?%elem_of_nil. }
      eapply ht_bind; [apply (ht_mgmt (ListPermissions _)) with
        (Post := fun l v => is_api api v /\ grants (ref_Id api) l v)|].
      { intros a v v' Hv [-> Hl]. split; [done|]. destruct a as [l|]; [|done]. split; [done|].
        intros q Hq. by apply (Hl l eq_refl). }
      intros have. eapply ht_conseq; [apply (ht_frame (is_api api)); [|apply ht_permissions_loop]| |].
      * intros v v' Hle Hv. eapply lookup_weaken; [exact Hv|apply Hle].
      * by intros v [? ?].
      * by intros c v [[_ ?] ?].
    + intros created. apply ht_ret. intros v [Ha Hg]. unfold realized. rewrite Eo.
      exists (ref_Id api). split; [done|]. intros p Hp. by apply Hg, list_elem_of_fmap_2.
Qed.

Lemma EnsureServicePolicy_ok o spec : Steward.ob_Spec o = Some (Steward.SpecServicePolicy spec) ->
  op_ok o Steward.KindServicePolicy (EnsureServicePolicy srv token tenantID (Steward.ob_Name o) spec).
Proof.
  intros Eo. unfold EnsureServicePolicy.
  destruct (Steward.ps_AllowedActions spec) as [|act acts] eqn:Ea.
  { intros v0 outs s Hs.
    destruct (record_ok Steward.KindServicePolicy (Steward.ob_Name o) StatusEnsured "" _ _ _ Hs)
      as (s2 & -> & Ev & Hi2). split; [eauto|]. eexists. split; [exact Hi2|]. cbn.
    split_and!; [done..|]. intros _. unfold realized. by rewrite Eo, Ea. }
  apply recording_ok. cbv zeta.
  remember (firstNonBlank [Steward.ps_PolicyName spec; Steward.ob_Name o]) as pname eqn:Epn.
  eapply ht_bind; [apply ht_applied_service|]. intros sid.
  set (is_service := fun v => av_services v !! Steward.ps_Service spec = Some sid).
  set (is_policy := fun (x : Ref) v => is_service v /\ av_policies v !! pname = Some (ref_Id x)).
  assert (Hmono : forall v v', view_le v v' -> is_service v -> is_service v').
  { intros v v' Hle Hv. eapply lookup_weaken; [exact Hv|apply Hle]. }
  eapply ht_bind; [apply ht_findPolicy|]. intros found.
  eapply ht_bind with (Mid := fun x v => is_policy (fst x) v).
  - destruct found as [x|].
    + apply ht_ret. intros v [[_ Hs] E]. split; [exact Hs|]. cbn.
      destruct (av_policies v !! pname); simplify_eq/=. done.
    + eapply ht_bind; [apply (ht_mgmt (CreatePolicy _)) with (Post := is_policy)|].
      * intros a v v' [[_ Hs] E] Hl. destruct (av_policies v !! pname) eqn:En; [done|]. specialize (Hl En).
        destruct a as [x|e]; [subst; split; [by apply add_policy_le|]|].
        { split; [exact Hs|]. cbn. by rewrite lookup_insert_eq. }
        destruct Hl as [->|[id ->]]; split; try done. by apply add_policy_le.
      * intros x. by apply ht_ret.
  - intros [x st]. cbn.
    eapply ht_bind; [apply (ht_mgmt (AssignServicePolicy _)) with (Post := fun _ v => is_policy x v
      /\ (sid, ref_Id x) ∈ av_attached v)|].
    + intros a v v' [Hs Hp] Hl. cbn in Hl. assert (Hle := attach_le sid (ref_Id x) v).
      destruct a as [y|e]; [subst v'|by destruct Hl as [-> | ->]].
      split; [done|]. split; [done|]. cbn. apply elem_of_union_l, elem_of_singleton_2. done.
    + intros []. apply ht_ret. intros v [[Hs Hp] Hat]. unfold realized. rewrite Eo. intros _.
      rewrite <- Epn. by exists sid, (ref_Id x).
Qed.

(** Key custody and key minting leave Auth alone. *)
Lemma ht_create_client name sid service spec stored (Pre : AuthView -> Prop) :
  ht Pre (create_client srv token tenantID keyDir name sid service spec stored)
    (fun _ v => name ∈ av_clients v).
Proof.
  eapply ht_bind with (Mid := fun _ => Pre).
  { destruct (is_empty stored); [|by apply ht_ret].
    eapply ht_bind; [apply (ht_local Pre); intros s; apply local_keys|]. intros [pem jwks].
    eapply ht_bind; [apply ht_local; intros s; apply local_disk|]. intros []. by apply ht_ret. }
  intros [pem generated]. eapply ht_bind; [apply ht_lift|]. intros jwks.
  eapply ht_bind; [apply ht_lift|]. intros cfg v0 outs.
  eapply hoare_catch; [apply (ht_mgmt (CreateClient _)) with (Post := fun _ v => name ∈ av_clients v)|].
  - intros a v v' _ Hl. cbn in Hl. assert (Hle := add_client_le name v).
    destruct a as [y|e]; [subst v'|by destruct Hl as [-> | ->]].
    split; [done|]. cbn. apply elem_of_union_l, elem_of_singleton_2. done.
  - intros [[client oauth]|e].
    + by intros s [Hi Hc].
    + eapply hoare_catch with (Mid := fun _ s => Inv v0 outs s); [|by intros r s Hi].
      destruct generated; [|by intros s [Hi _]]. intros s [Hi _].
      by destruct (ht_local (fun _ => True) (key_Discard keyDir service)
        (local_disk errorf (FileKeyStore.Discard keyDir service)) v0 outs s (conj Hi I)).
Qed.

Lemma EnsureServiceClient_ok o spec : Steward.ob_Spec o = Some (Steward.SpecServiceClient spec) ->
  op_ok o Steward.KindServiceClient
    (EnsureServiceClient srv token tenantID keyDir (Steward.ob_Name o) spec).
Proof.
  intros Eo. set (name := Steward.ob_Name o). unfold EnsureServiceClient, recording_client.
  intros v0 outs s Hs.
  match goal with |- context [p_catch ?m _ s] => set (body := m) end.
  assert (Hbody : ht (fun _ => True) body (fun _ v => name ∈ av_clients v)).
  { unfold body. eapply ht_bind; [apply ht_applied_service|]. intros sid.
    eapply ht_bind; [apply ht_findClient|]. intros existing.
    eapply ht_bind; [apply ht_local; intros s1; apply local_disk|]. intros [stored had].
    destruct existing as [client|].
    - destruct (negb had); [apply ht_fail|]. apply ht_ret. intros v [_ Hc]. apply Hc. by eexists.
    - eapply ht_bind; [apply ht_create_client|]. intros gc. by apply ht_ret. }
  destruct (Hbody v0 outs s (conj Hs I)) as [Hi Hq]. unfold p_catch, mbind, P_bind, p_try, fail_.
  destruct (body s) as [[[st gc]|e] s1]; cbn in Hi, Hq.
  - destruct (record_ok Steward.KindServiceClient name st "" _ _ _ Hi) as (s2 & -> & Ev & Hi2).
    cbn. split; [eauto|]. eexists. split; [exact Hi2|]. rewrite Ev. unfold realized. rewrite Eo. done.
  - destruct (record_ok Steward.KindServiceClient name StatusFailed (ce_msg e) _ _ _ Hi)
      as (s2 & -> & Ev & Hi2). cbn. split; [eauto|]. eexists. split; [exact Hi2|]. done.
Qed.

(** ** A pass *)

Abbreviation app := (applier srv token tenantID keyDir registry).

Lemma apply_object_realizes i o rep s v0 outs :
  Inv v0 outs s ->
  let '(err, _, s') := Steward.apply_object app i o rep s in
  (err <> None /\ Inv v0 outs s')
  \/ exists oc, Inv v0 (outs ++ [oc]) s' /\ oc_Kind oc = Steward.ob_Kind o
       /\ oc_Name oc = Steward.ob_Name o /\ (oc_Status oc <> StatusFailed -> realized (V s') o).
Proof.
  intros Hs. unfold Steward.apply_object.
  destruct (negb (str_eqb (Steward.ob_APIVersion o) _)); [by left|].
  destruct (is_empty (Steward.ob_Name o)); [by left|].
  destruct (Steward.ob_Spec o) as [spec|] eqn:Eo; [|by left].
  destruct (str_eqb _ (Steward.Spec_Kind spec)) eqn:Ek; cbn [negb]; [|by left].
  apply str_eqb_eq in Ek. rewrite Ek.
  destruct spec as [spec|spec|spec|spec|k]; cbn [Steward.Spec_Kind Steward.EnsureService
    Steward.EnsureResourceAPI Steward.EnsureServiceClient Steward.EnsureServicePolicy
    Steward.KeySink_Record applier].
  - destruct (EnsureService_ok o spec Eo v0 outs s Hs) as [[x Hx] Hoc].
    destruct (EnsureService _ _ _ _ _ _ s) as [r s1]. cbn in Hx, Hoc. subst r. by right.
  - destruct (EnsureResourceAPI_ok o spec Eo v0 outs s Hs) as [[x Hx] Hoc].
    destruct (EnsureResourceAPI _ _ _ _ _ s) as [r s1]. cbn in Hx, Hoc. subst r. by right.
  - destruct (EnsureServiceClient_ok o spec Eo v0 outs s Hs) as [[x Hx] Hoc].
    destruct (EnsureServiceClient _ _ _ _ _ _ s) as [r s1]. cbn in Hx, Hoc. subst r.
    cbv zeta. set (pem := match x with Some gc => Steward.gc_PrivateKeyPEM gc | None => "" end).
    destruct (is_empty pem); [by right|].
    destruct Hoc as (oc & Hi & H1 & H2 & H3).
    destruct (ht_local (fun v => oc_Status oc <> StatusFailed -> realized v o)
      (key_Record keyDir (Steward.cs_Service spec) pem)
      (local_disk errorf (FileKeyStore.Record_ keyDir (Steward.cs_Service spec) pem))
      v0 (outs ++ [oc]) s1 (conj Hi H3)) as [Hi' _].
    destruct (local_disk errorf (FileKeyStore.Record_ keyDir (Steward.cs_Service spec) pem) s1) as [Ev _].
    unfold key_Record in *. destruct (p_map_err _ _ s1) as [[u|e] s2]; cbn in *; right; exists oc;
      rewrite Ev; done.
  - destruct (Steward.validatePolicyActions _); [by left|].
    destruct (EnsureServicePolicy_ok o spec Eo v0 outs s Hs) as [[x Hx] Hoc].
    destruct (EnsureServicePolicy _ _ _ _ _ s) as [r s1]. cbn in Hx, Hoc. subst r. by right.
  - by left.
Qed.

Definition outcome_key (oc : Outcome) : string * string := (oc_Kind oc, oc_Name oc).
Definition object_key (o : Steward.Object) : string * string := (Steward.ob_Kind o, Steward.ob_Name o).

Lemma loop_realizes objs i rep s v0 outs :
  Inv v0 outs s ->
  let '(err, _, s') := Steward.Reconcile_loop app i objs rep s in
  exists ocs, Inv v0 (outs ++ ocs) s' /\ map outcome_key ocs `prefix_of` map object_key objs
    /\ (err = None -> length ocs = length objs
          /\ (Forall (fun oc => oc_Status oc <> StatusFailed) ocs -> Forall (realized (V s')) objs)).
Proof.
  revert i rep s v0 outs. induction objs as [|o objs IH]; intros i rep s v0 outs Hs.
  { cbn. exists []. rewrite app_nil_r. split_and!; try done. }
  cbn [Steward.Reconcile_loop]. pose proof (apply_object_realizes i o rep s v0 outs Hs) as Ho.
  destruct (Steward.apply_object app i o rep s) as [[[e|] rep1] s1].
  - destruct Ho as [[_ Hi]|(oc & Hi & H1 & H2 & H3)].
    + exists []. rewrite app_nil_r. split_and!; try done. apply prefix_nil.
    + exists [oc]. split_and!; [done| |done]. cbn. unfold outcome_key, object_key. rewrite H1, H2.
      apply prefix_cons, prefix_nil.
  - destruct Ho as [[? _]|(oc & Hi & H1 & H2 & H3)]; [done|].
    assert (Hi' : Inv (V s1) (outs ++ [oc]) s1) by (destruct Hi; by split).
    specialize (IH (S i) rep1 s1 (V s1) (outs ++ [oc]) Hi').
    destruct (Steward.Reconcile_loop app (S i) objs rep1 s1) as [[err rep2] s2].
    destruct IH as (ocs & [Hle Hno Hou] & Hp & Hok). exists (oc :: ocs). split_and!.
    + split; [|done|by rewrite Hou, <- app_assoc]. etransitivity; [apply Hi|done].
    + cbn. unfold outcome_key at 1, object_key at 1. rewrite H1, H2. by apply prefix_cons.
    + intros Herr. destruct (Hok Herr) as [Hl Hr]. split; [cbn; lia|].
      intros [Hf1 Hf2]%Forall_cons. constructor; [|by apply Hr].
      eapply realized_mono; [exact Hle|]. by apply H3.
Qed.
End Realize.

(** A pass realizes the catalog.  For every Auth that keeps the documented
    promises of its management calls, whatever its answers and whatever fails on
    disk or in Core's database: the pass takes nothing away from Auth; it
    records one outcome per object, in the catalog's order; and if it ran to the
    end with no outcome failed, then every object of the catalog exists in Auth
    with its permissions, its client and its attached policy. *)
Lemma pass_realizes {T : GoText} {C : Crypto} {R : RSA} {J : Gateway.JsonText} {A}
    (srv : MgmtServer A) (view : A -> AuthView) {Laws : MgmtLaws srv view}
    token tenantID keyDir registry cat (n : Node A) :
  let '(err, _, (n', mem)) := pass srv token tenantID keyDir registry cat n in
  view_le (view (n_peer n)) (view (n_peer n'))
  /\ map outcome_key (outcomes mem) `prefix_of` map object_key (Steward.Objects cat)
  /\ (err = None -> length (outcomes mem) = length (Steward.Objects cat)
        /\ (Forall (fun oc => oc_Status oc <> StatusFailed) (outcomes mem) ->
            Forall (realized (view (n_peer n'))) (Steward.Objects cat))).
Proof.
  unfold pass, Steward.Reconcile.
  pose proof (loop_realizes srv view token tenantID keyDir registry (Steward.Objects cat) 0
    (Steward.Build_Report 0 0 0 0 0) (n, mkMemory ∅ []) (view (n_peer n)) []) as H.
  destruct (Steward.Reconcile_loop _ _ _ _ _) as [[err rep] [n' mem]].
  destruct H as (ocs & [Hle _ Ho] & Hp & Hok).
  { split; [done| |done]. intros name id Hid. cbn in Hid; by rewrite lookup_empty in Hid. }
  cbn in Ho. subst ocs. done.
Qed.
