(* ===== verification/Converged.v ===== *)
(** * A pass over a converged Auth

    When Auth already realizes the catalog, a pass of [Applier.v] issues no
    creation at all, whichever of its calls fail, and leaves Auth as it is; with
    a sample Auth that loses answers, on which the hypotheses are evaluated. *)

From S2P Require Import Prelude Json Storage World AppError Queries Agent Keys Process Applier Realize.
From S2P Require Gateway Steward Identity SetupSample.
Import Identity(firstNonBlank).

Section Converged.
Context {T : GoText} {C : Crypto} {R : RSA} {J : Gateway.JsonText}.
Context {A : Type} (srv : MgmtServer A) (view : A -> AuthView) {Laws : MgmtLaws srv view}.
Context (token tenantID keyDir : string) (registry : option (string -> string -> bool -> M error ())).
Context (v : AuthView).

Abbreviation MgmtLog := (list (rpc MgmtResp status)).
Definition cstate : Type := Node (A * MgmtLog) * Mem.
Definition mlog (n : Node (A * MgmtLog)) : MgmtLog := snd (n_peer n).

(** Auth is still [v], nothing was created, and nothing is reported as created. *)
Record quiet (s : cstate) : Prop := {
  qt_view : view (fst (n_peer (fst s))) = v;
  qt_noted : forall name id, serviceIDs (snd s) !! name = Some id -> av_services v !! name = Some id;
  qt_log : Forall (fun e => creates (rpc_req e) = false) (mlog (fst s));
  qt_outs : Forall (fun oc => oc_Status oc <> StatusCreated) (outcomes (snd s)) }.

Definition hq {X} (m : P cstate call_error X) (Post : X -> Prop) : Prop :=
  hoare quiet m (fun r s => quiet s /\ forall x, r = Ok x -> Post x).

Lemma hq_ret {X} (x : X) (Post : X -> Prop) : Post x -> hq (mret x) Post.
Proof. intros H s Hs. split; [done|]. by intros y [= <-]. Qed.
Lemma hq_fail {X} e (Post : X -> Prop) : hq (p_fail e) Post.
Proof. intros s Hs. by split. Qed.
Lemma hq_bind {X Y} (m : P cstate call_error X) (k : X -> P cstate call_error Y) Mid Post :
  hq m Mid -> (forall x, Mid x -> hq (k x) Post) -> hq (m ≫= k) Post.
Proof.
  intros Hm Hk s Hs. destruct (Hm s Hs) as [H1 H2]. unfold mbind, P_bind.
  destruct (m s) as [[x|e] s1]; cbn in *; [by apply Hk; auto|by split].
Qed.
Lemma hq_local {X} (m : P cstate call_error X) :
  (forall s, n_peer (fst (snd (m s))) = n_peer (fst s) /\ snd (snd (m s)) = snd s) ->
  hq m (fun _ => True).
Proof.
  intros H s [H1 H2 H3 H4]. destruct (H s) as [E1 E2]. split; [|done].
  unfold mlog in *. split; unfold mlog; rewrite ?E1, ?E2; done.
Qed.

(** A call that creates nothing and, by its law, leaves [v]. *)
Lemma hq_mgmt (r : MgmtReq) (Post : MgmtResp r -> Prop) :
  creates r = false ->
  (forall a v', call_law r a v v' -> v' = v /\ forall x, a = Ok x -> Post x) ->
  hq (mgmt (recorded srv) token r) Post.
Proof.
  intros Hc Hlaw [n mem] [H1 H2 H3 H4]. unfold mgmt, p_map_err, in_node, on_peer, recorded. cbn.
  pose proof (mgmt_law (srv := srv) (view := view) r token (fst (n_peer n))) as Hl. cbn in H1.
  rewrite H1 in Hl. destruct (srv r token (fst (n_peer n))) as [a st]. cbn in *.
  apply Hlaw in Hl as [Hv Hp]. split.
  - split; cbn; [done..| |done]. unfold mlog in *. cbn. apply Forall_app. auto.
  - intros x Hx. apply Hp. destruct a; cbn in Hx; congruence.
Qed.

Lemma hq_listing (r : MgmtReq) (Q : MgmtResp r -> Prop) {X} (f : MgmtResp r -> X) (Post : X -> Prop) :
  creates r = false ->
  (forall a v', call_law r a v v' -> v' = v /\ forall l, a = Ok l -> Q l) ->
  (forall l, Q l -> Post (f l)) ->
  hq (l ← mgmt (recorded srv) token r; mret (f l)) Post.
Proof.
  intros Hc Hl Hf. eapply hq_bind; [by apply hq_mgmt; [|exact Hl]|]. intros l Hq. by apply hq_ret, Hf.
Qed.

Lemma hq_applied service kind :
  hq (applied_service service kind) (fun id => av_services v !! service = Some id).
Proof.
  intros s Hs. unfold applied_service, service_id, mbind, P_bind. cbn.
  destruct (serviceIDs (snd s) !! service) as [id|] eqn:E; cbn; [|done].
  split; [done|]. intros ? [= <-]. by apply (qt_noted _ Hs).
Qed.

(** Recording an outcome other than a creation. *)
Lemma record_quiet kind name st err s :
  quiet s -> st <> StatusCreated ->
  quiet (snd (record kind name st err s : result call_error () * cstate)).
Proof. intros [H1 H2 H3 H4] Hst. split; cbn; [done..|]. apply Forall_app. split; [done|]. by constructor. Qed.

Lemma recording_quiet kind name (m : P cstate call_error Status) :
  hq m (fun st => st <> StatusCreated) ->
  forall s, quiet s -> quiet (snd (recording kind name m (fun st => record kind name st "") s)).
Proof.
  intros Hm s Hs. destruct (Hm s Hs) as [H1 H2].
  unfold recording, p_catch, mbind, P_bind, p_try, fail_. destruct (m s) as [[st|e] s1]; cbn in H1, H2.
  - apply record_quiet; [done|]. by apply H2.
  - by apply record_quiet.
Qed.

Lemma service_quiet o spec : Steward.ob_Spec o = Some (Steward.SpecService spec) -> realized v o ->
  forall s, quiet s ->
  quiet (snd (EnsureService (recorded srv) token tenantID registry (Steward.ob_Name o) spec s)).
Proof.
  intros Eo Hr. unfold realized in Hr. rewrite Eo in Hr. destruct Hr as [id Hid]. apply recording_quiet.
  eapply hq_bind with (Mid := fun x => x = Some (mkRef id (Steward.ob_Name o))).
  { eapply (hq_listing (ListServices _)); [done|intros a v' Hl; exact Hl|]. intros l Hl. cbn [lq_Name list_request] in Hl. by rewrite Hl, Hid. }
  intros ? ->. eapply hq_bind with (Mid := fun x => x = (mkRef id (Steward.ob_Name o), StatusEnsured)).
  { by apply hq_ret. }
  intros ? ->. cbn. eapply hq_bind with (Mid := fun _ => True).
  { intros s [H1 H2 H3 H4]. split; [|done]. split; cbn; [done| |done..]. intros name i.
    destruct (decide (name = Steward.ob_Name o)) as [->|Hne].
    - rewrite lookup_insert_eq. by intros [= <-].
    - rewrite lookup_insert_ne by done. apply H2. }
  intros _ _. eapply hq_bind with (Mid := fun _ => True); [|intros _ _; by apply hq_ret].
  unfold converge_registry. destruct registry as [reg|]; [|by apply hq_ret].
  destruct (is_empty _); [by apply hq_ret|]. apply hq_local. intros s.
  unfold p_map_err, in_node, on_db. by destruct (reg _ _ _ _).
Qed.

Lemma permissions_quiet api have want created :
  (forall p, p ∈ want -> Steward.pm_Name p ∈ have) ->
  hq (permissions_loop (recorded srv) token tenantID api have want created) (fun n => n = created).
Proof.
  revert created. induction want as [|p want IH]; intros created Hin; cbn; [by apply hq_ret|].
  assert (E : existsb (str_eqb (Steward.pm_Name p)) have = true).
  { apply existsb_exists. exists (Steward.pm_Name p). split; [|apply str_eqb_refl].
    apply list_elem_of_In, Hin. by left. }
  rewrite E. apply IH. intros q Hq. apply Hin. by right.
Qed.

Lemma api_quiet o spec : Steward.ob_Spec o = Some (Steward.SpecResourceAPI spec) -> realized v o ->
  forall s, quiet s ->
  quiet (snd (EnsureResourceAPI (recorded srv) token tenantID (Steward.ob_Name o) spec s)).
Proof.
  intros Eo Hr. unfold realized in Hr. rewrite Eo in Hr. destruct Hr as (id & Hid & Hp).
  apply recording_quiet. eapply hq_bind; [apply hq_applied|]. intros sid _.
  eapply hq_bind with (Mid := fun x => x = Some (mkRef id (Steward.ob_Name o))).
  { eapply (hq_listing (ListAPIs _)); [done|intros a v' Hl; exact Hl|]. intros l Hl. cbn [lq_Name list_request] in Hl. by rewrite Hl, Hid. }
  intros ? ->. eapply hq_bind with (Mid := fun x => x = (mkRef id (Steward.ob_Name o), StatusEnsured)).
  { by apply hq_ret. }
  intros ? ->. cbn. eapply hq_bind with (Mid := fun n => n = O); [|intros ? ->; by apply hq_ret].
  unfold ensurePermissions. destruct (Steward.as_Permissions spec) as [|p ps] eqn:Ep; [by apply hq_ret|].
  eapply hq_bind; [eapply (hq_mgmt (ListPermissions _)); [done|intros a v' Hl; exact Hl]|].
  intros have Hhave. apply permissions_quiet. intros q Hq. apply Hhave, Hp. done.
Qed.

Lemma client_quiet o spec : Steward.ob_Spec o = Some (Steward.SpecServiceClient spec) -> realized v o ->
  forall s, quiet s ->
  quiet (snd (EnsureServiceClient (recorded srv) token tenantID keyDir (Steward.ob_Name o) spec s)).
Proof.
  intros Eo Hr s Hs. unfold realized in Hr. rewrite Eo in Hr.
  unfold EnsureServiceClient, recording_client. cbv zeta.
  match goal with |- context [p_catch ?m _ s] => set (body := m) end.
  assert (Hbody : hq body (fun x => fst x <> StatusCreated)).
  { unfold body. eapply hq_bind; [apply hq_applied|]. intros sid _.
    eapply hq_bind with (Mid := fun x => is_Some x).
    { eapply (hq_listing (ListClients _)); [done|intros a v' Hl; exact Hl|]. intros l Hl. by apply Hl. }
    intros ? [client ->]. eapply hq_bind with (Mid := fun _ => True).
    { apply hq_local. intros s1. unfold key_PrivateKey, p_map_err, in_node, on_disk.
      by destruct (FileKeyStore.PrivateKey _ _ _). }
    intros [stored had] _. destruct (negb had); [apply hq_fail|by apply hq_ret]. }
  destruct (Hbody s Hs) as [H1 H2]. unfold p_catch, mbind, P_bind, p_try, fail_.
  destruct (body s) as [[[st gc]|e] s1]; cbn in H1, H2.
  - apply (record_quiet Steward.KindServiceClient (Steward.ob_Name o) st "" s1); [done|].
    by apply (H2 (st, gc)).
  - by apply (record_quiet Steward.KindServiceClient (Steward.ob_Name o) StatusFailed (ce_msg e) s1).
Qed.

Lemma policy_quiet o spec : Steward.ob_Spec o = Some (Steward.SpecServicePolicy spec) -> realized v o ->
  forall s, quiet s ->
  quiet (snd (EnsureServicePolicy (recorded srv) token tenantID (Steward.ob_Name o) spec s)).
Proof.
  intros Eo Hr. unfold realized in Hr. rewrite Eo in Hr. unfold EnsureServicePolicy.
  destruct (Steward.ps_AllowedActions spec) as [|act acts] eqn:Ea.
  { intros s Hs. by apply (record_quiet _ _ StatusEnsured "" s). }
  destruct Hr as (sid & pid & Hsid & Hpid & Hat); [done|]. apply recording_quiet. cbv zeta.
  remember (firstNonBlank [Steward.ps_PolicyName spec; Steward.ob_Name o]) as pname eqn:Epn.
  eapply hq_bind; [apply hq_applied|]. intros sid' Hs'. rewrite Hsid in Hs'. simplify_eq.
  eapply hq_bind with (Mid := fun x => x = Some (mkRef pid
    (firstNonBlank [Steward.ps_PolicyName spec; Steward.ob_Name o]))).
  { eapply (hq_listing (ListPolicies _)); [done|intros a v' Hl; exact Hl|]. intros l Hl. cbn [lq_Name list_request] in Hl.
    by rewrite Hl, Hpid. }
  intros ? ->. eapply hq_bind with (Mid := fun x => snd x = StatusEnsured /\ ref_Id (fst x) = pid).
  { by apply hq_ret. }
  intros [x st] [Est Ex]. cbn in Est, Ex. subst. eapply hq_bind with (Mid := fun _ => True).
  - eapply (hq_mgmt (AssignServicePolicy _)); [done|]. intros a v' Hl. cbn in Hl.
    rewrite attach_id in Hl by done. destruct a; [done|]. by destruct Hl.
  - intros _ _. by apply hq_ret.
Qed.

Lemma object_quiet i o rep s :
  realized v o -> quiet s ->
  quiet (snd (Steward.apply_object (applier (recorded srv) token tenantID keyDir registry) i o rep s)).
Proof.
  intros Hr Hs. unfold Steward.apply_object.
  destruct (negb (str_eqb (Steward.ob_APIVersion o) _)); [done|].
  destruct (is_empty (Steward.ob_Name o)); [done|].
  destruct (Steward.ob_Spec o) as [spec|] eqn:Eo; [|done].
  destruct (negb (str_eqb _ (Steward.Spec_Kind spec))); [done|].
  destruct spec as [spec|spec|spec|spec|k]; cbn [Steward.EnsureService Steward.EnsureResourceAPI
    Steward.EnsureServiceClient Steward.EnsureServicePolicy Steward.KeySink_Record applier].
  - pose proof (service_quiet o spec Eo Hr s Hs) as H. by destruct (EnsureService _ _ _ _ _ _ s) as [[] ?].
  - pose proof (api_quiet o spec Eo Hr s Hs) as H. by destruct (EnsureResourceAPI _ _ _ _ _ s) as [[] ?].
  - pose proof (client_quiet o spec Eo Hr s Hs) as H.
    destruct (EnsureServiceClient _ _ _ _ _ _ s) as [[gc|e] s1]; [|done]. cbn in H. cbv zeta.
    set (pem := match gc with Some gc => Steward.gc_PrivateKeyPEM gc | None => "" end).
    destruct (is_empty pem); [done|].
    destruct (hq_local (key_Record keyDir (Steward.cs_Service spec) pem)) with (s := s1) as [Hq _]; [|done|].
    { intros s2. unfold key_Record, p_map_err, in_node, on_disk. by destruct (FileKeyStore.Record_ _ _ _ _). }
    by destruct (key_Record _ _ _ s1) as [[] ?].
  - destruct (Steward.validatePolicyActions _); [done|].
    pose proof (policy_quiet o spec Eo Hr s Hs) as H.
    by destruct (EnsureServicePolicy _ _ _ _ _ s) as [[] ?].
  - done.
Qed.

Lemma loop_quiet objs i rep s :
  Forall (realized v) objs -> quiet s ->
  quiet (snd (Steward.Reconcile_loop (applier (recorded srv) token tenantID keyDir registry) i objs rep s)).
Proof.
  intros Hall. revert i rep s. induction Hall as [|o objs Ho _ IH]; intros i rep s Hs; [done|].
  cbn [Steward.Reconcile_loop]. pose proof (object_quiet i o rep s Ho Hs) as H.
  destruct (Steward.apply_object (applier (recorded srv) token tenantID keyDir registry) i o rep s) as [[[e|] rep1] s1]; [done|]. by apply IH.
Qed.
End Converged.


(** ** A sample Auth *)

(** An Auth that is its own view, and a script of what happens to the calls. *)
Record Mgmt := mkMgmt { mg_view : AuthView; mg_script : list fault }.

Definition refs (m : gmap string string) (name : string) : list Ref :=
  match m !! name with Some id => [mkRef id name] | None => [] end.

(** What a call answers and does when it gets through. *)
Definition serve (r : MgmtReq) (v : AuthView) : MgmtResp r * AuthView :=
  match r return MgmtResp r * AuthView with
  | ListServices q => (refs (av_services v) (lq_Name q), v)
  | ListAPIs q => (refs (av_apis v) (lq_Name q), v)
  | ListPolicies q => (refs (av_policies v) (lq_Name q), v)
  | ListClients q => (if bool_decide (lq_Name q ∈ av_clients v) then [mkRef (lq_Name q) (lq_Name q)] else [], v)
  | ListPermissions q => (elements (perms_of v (lpq_ApiId q)), v)
  | CreateService q => (mkRef (csq_Name q) (csq_Name q), add_service (csq_Name q) (csq_Name q) v)
  | CreateAPI q => (mkRef (cpq_Name q) (cpq_Name q), add_api (cpq_Name q) (cpq_Name q) v)
  | CreatePolicy q => (mkRef (coq_Name q) (coq_Name q), add_policy (coq_Name q) (coq_Name q) v)
  | CreatePermission q => ((), add_perm (cmq_ApiId q) (cmq_Name q) v)
  | AssignServicePolicy q => ((), attach (apq_ServiceId q) (apq_PolicyId q) v)
  | CreateClient q => ((mkRef (clq_Name q) (clq_Name q), "oauth"%string), add_client (clq_Name q) v)
  end.

Definition small_mgmt : MgmtServer Mgmt := fun r _ s =>
  let '(x, v') := serve r (mg_view s) in
  let rest := tail (mg_script s) in
  match mg_script s with
  | FaultBefore :: _ => (Err (AppError.Status codes_Unavailable "down"), mkMgmt (mg_view s) rest)
  | FaultAfter :: _ => (Err (AppError.Status codes_DeadlineExceeded "lost"), mkMgmt v' rest)
  | _ => (Ok x, mkMgmt v' rest)
  end.

Lemma refs_exact m name : exact name (refs m name) = (fun id => mkRef id name) <$> m !! name.
Proof. unfold refs. destruct (m !! name) as [id|]; cbn; [|done]. by rewrite str_eqb_refl. Qed.

#[global] Instance small_mgmt_laws : MgmtLaws small_mgmt mg_view.
Proof.
  intros r cred [v script]. unfold small_mgmt. cbn [mg_view mg_script].
  destruct r; cbn [serve]; destruct script as [|[] rest]; cbn; try eauto;
    (split; [done|]); intros l [= <-]; try apply refs_exact;
    try (intros p; by rewrite elem_of_elements).
  all: case_bool_decide as Hd; cbn; rewrite ?str_eqb_refl; split; intros Hx;
    first [done | by destruct Hx | by eexists].
Qed.

Definition empty_view : AuthView := mkView ∅ ∅ ∅ ∅ ∅ ∅.
Definition text_json : Gateway.JsonText := {|
  Gateway.json_Unmarshal s := Some (VObj [("text"%string, VStr s)]) |}.
Existing Instances SetupSample.install_text SetupSample.install_crypto SetupSample.install_rsa text_json.

Definition builtin : Steward.Catalog := Steward.BuiltinCatalog (fun s => "https://" +:+ s)%string.
Definition mgmt_node (v : AuthView) (script : list fault) (d : Disk)
    : @Node SetupSample.install_rsa (Mgmt * list (rpc MgmtResp status)) :=
  @mkNode SetupSample.install_rsa _ (SetupSample.world_of SetupSample.empty_db []) d
    ["k1"; "k2"; "k3"; "k4"; "k5"]%string (mkMgmt v script, []).
Abbreviation sample_pass n := (pass (recorded small_mgmt) "token" "77" "/keys" None builtin n).

(** The laws hold of the recorded server too. *)
#[global] Instance recorded_laws {A} (srv : MgmtServer A) view `{!MgmtLaws srv view} :
  MgmtLaws (recorded srv) (fun s => view (fst s)).
Proof.
  intros r cred [s l]. unfold recorded. pose proof (mgmt_law (srv := srv) (view := view) r cred s) as H.
  cbn. by destruct (srv r cred s).
Qed.

Definition first_pass := sample_pass (mgmt_node empty_view [] (mkDisk ∅ [])).
Definition realized_view : AuthView := mg_view (fst (n_peer (fst (snd first_pass)))).

(** A decision procedure for realized objects. *)
Definition realizedb (v : AuthView) (o : Steward.Object) : bool :=
  match Steward.ob_Spec o with
  | Some (Steward.SpecService _) => bool_decide (is_Some (av_services v !! Steward.ob_Name o))
  | Some (Steward.SpecResourceAPI s) =>
      match av_apis v !! Steward.ob_Name o with
      | Some id => forallb (fun p => bool_decide (Steward.pm_Name p ∈ perms_of v id)) (Steward.as_Permissions s)
      | None => false
      end
  | Some (Steward.SpecServiceClient _) => bool_decide (Steward.ob_Name o ∈ av_clients v)
  | Some (Steward.SpecServicePolicy s) =>
      match Steward.ps_AllowedActions s, av_services v !! Steward.ps_Service s,
            av_policies v !! firstNonBlank [Steward.ps_PolicyName s; Steward.ob_Name o] with
      | [], _, _ => true
      | _, Some sid, Some pid => bool_decide ((sid, pid) ∈ av_attached v)
      | _, _, _ => false
      end
  | _ => true
  end.

Lemma realizedb_sound v objs : forallb (realizedb v) objs = true -> Forall (realized v) objs.
Proof.
  intros H. apply Forall_forall. intros o Ho. rewrite forallb_forall in H.
  apply list_elem_of_In, H in Ho. unfold realizedb, realized in *.
  destruct (Steward.ob_Spec o) as [[s|s|s|s|k]|]; try done.
  - by apply bool_decide_eq_true in Ho.
  - destruct (av_apis v !! _) as [id|]; [|done]. exists id. split; [done|].
    rewrite forallb_forall in Ho. intros p Hp. apply list_elem_of_In, Ho in Hp.
    by apply bool_decide_eq_true in Hp.
  - by apply bool_decide_eq_true in Ho.
  - destruct (Steward.ps_AllowedActions s); [done|]. intros _.
    destruct (av_services v !! _) as [sid|]; [|done].
    destruct (av_policies v !! _) as [pid|]; [|done]. apply bool_decide_eq_true in Ho. eauto.
Qed.

(** A second pass, during which half of the calls fail. *)
Definition second_node := mgmt_node realized_view [FaultNone; FaultBefore; FaultNone; FaultAfter]
  (mkDisk ∅ []).


(** An answer lost after Auth created the client: the applier discards the key
    it had recorded, and no later pass can recover. *)
Definition lost_answer : list fault := repeat FaultNone 24 ++ [FaultAfter].
Definition lost_node := fst (snd (sample_pass (mgmt_node empty_view lost_answer (mkDisk ∅ [])))).

Lemma lost_answer_strands_client :
  let '(_, _, (n', mem)) := sample_pass lost_node in
  "secret-control"%string ∈ av_clients (mg_view (fst (n_peer lost_node)))
  /\ d_files (n_disk lost_node) !! "secret.pem"%string = None
  /\ d_files (n_disk n') !! "secret.pem"%string = None
  /\ oc_Status <$> List.find (fun oc => str_eqb (oc_Name oc) "secret-control") (outcomes mem)
     = Some StatusFailed.
Proof.
  assert (H : bool_decide ("secret-control"%string ∈ av_clients (mg_view (fst (n_peer lost_node)))) = true)
    by (vm_compute; reflexivity).
  apply bool_decide_eq_true in H.
  destruct (sample_pass lost_node) as [[err rep] [n' mem]] eqn:E.
  assert (En : n' = fst (snd (sample_pass lost_node))) by by rewrite E.
  assert (Em : mem = snd (snd (sample_pass lost_node))) by by rewrite E.
  rewrite En, Em. split_and!; [exact H|vm_compute; reflexivity..].
Qed.
