(* ===== verification/ControlClient.v ===== *)
(** * The control client

    [internal/authctrl] after setup: the configuration and transport of the
    connection to Auth ([config.go], [client.go]), the access token it carries
    ([token.go], [outbound.go]), the single-flight runner of the catalog and its
    boot loop ([runner.go]), and the operator's endpoints ([handler.go]).

    The JWT library, the HTTP client and the random source are parameters
    ([TokenKit]); the clock readings of a call are its arguments. *)

From S2P Require Import Prelude Json Storage World AppError Queries Agent Keys Process Http.
From S2P Require Import SetupConfig Identity Applier.
From S2P Require Gateway Steward.

(** ** Configuration *)

Record CtrlConfig := {
  cc_TokenURL : string; cc_GRPCAddr : string; cc_CAFile : string; cc_ClientCertFile : string;
  cc_ClientKeyFile : string; cc_ServerName : string; cc_Audience : string; cc_Scopes : list string;
  cc_RefreshSkew : Z }.

Definition DefaultRefreshSkew : Z := 60 * Second.

(** [strings.FieldsFunc] on comma, space, tab and newline: empty fields vanish. *)
Definition is_separator (a : ascii) : bool :=
  existsb (fun n => Nat.eqb (nat_of_ascii a) n) [44; 32; 9; 10]%nat.
Fixpoint fields (cur : string) (s : string) : list string :=
  match s with
  | EmptyString => if is_empty cur then [] else [cur]
  | String a s' =>
      if is_separator a then (if is_empty cur then fields "" s' else cur :: fields "" s')
      else fields (cur +:+ String a "") s'
  end.

Definition ctrl_envList (Getenv : string -> string) (key : string) : list string :=
  let raw := TrimSpace (Getenv key) in
  if is_empty raw then []
  else List.filter (fun s => negb (is_empty s)) (map TrimSpace (fields "" raw)).

Definition LoadCtrlConfig (Getenv : string -> string) : CtrlConfig :=
  let e := env Getenv in {|
  cc_TokenURL := e "AUTH_TOKEN_URL" "";
  cc_GRPCAddr := e "AUTH_CTRL_GRPC_ADDR" (e "AUTH_SETUP_ADDR" "");
  cc_CAFile := e "AUTH_CTRL_CA_FILE" (e "AUTH_SETUP_CA_FILE" "");
  cc_ClientCertFile := e "AUTH_CTRL_CLIENT_CERT_FILE" (e "AUTH_SETUP_CLIENT_CERT_FILE" "");
  cc_ClientKeyFile := e "AUTH_CTRL_CLIENT_KEY_FILE" (e "AUTH_SETUP_CLIENT_KEY_FILE" "");
  cc_ServerName := e "AUTH_CTRL_SERVER_NAME" (e "AUTH_SETUP_SERVER_NAME" "");
  cc_Audience := e "AUTH_CTRL_AUDIENCE" "";
  cc_Scopes := ctrl_envList Getenv "AUTH_CTRL_SCOPES";
  cc_RefreshSkew := DefaultRefreshSkew |}%string.

Definition plaintext (c : CtrlConfig) : bool := is_empty (cc_CAFile c) && is_empty (cc_ClientCertFile c).

Definition transportCreds {T : GoText} {K : Transport} (c : CtrlConfig) : result string creds :=
  if plaintext c then Ok Insecure
  else
    let roots :=
      if is_empty (cc_CAFile c) then Ok None
      else match SetupConfig.os_ReadFile (cc_CAFile c) with
      | Err e => Err ("authctrl: read auth CA: " +:+ e)
      | Ok caPEM =>
          if AppendCertsFromPEM caPEM then Ok (Some caPEM)
          else Err ("authctrl: auth CA file " +:+ fmt_q (cc_CAFile c) +:+ " holds no valid certificate")
      end in
    match roots with
    | Err e => Err e
    | Ok roots =>
        if negb (is_empty (cc_ClientCertFile c)) && negb (is_empty (cc_ClientKeyFile c)) then
          match LoadX509KeyPair (cc_ClientCertFile c) (cc_ClientKeyFile c) with
          | Err e => Err ("authctrl: load auth client cert: " +:+ e)
          | Ok cert => Ok (TLS (Build_TLSConfig K (cc_ServerName c) roots (Some cert)))
          end
        else Ok (TLS (Build_TLSConfig K (cc_ServerName c) roots None))
    end%string.

(** ** Access tokens *)

Definition assertionLifetime : Z := 2 * Minute.

Record Assertion := {
  as_iss : string; as_sub : string; as_aud : string; as_jti : string; as_iat : Z; as_exp : Z;
  as_kid : option string }.

Record tokenResponse := {
  tr_AccessToken : string; tr_ExpiresIn : Z; tr_Error : string; tr_ErrorDesc : string }.

(** The form of the exchange, in the order it is filled in. *)
Definition form : Type := list (string * string).

(** An answer of the token endpoint: its status, the fields that decoded and
    the decoder's error. *)
Record TokenAnswer := { ta_status : Z; ta_body : tokenResponse; ta_decodeErr : option string }.

(** The JWT library and the HTTP client; a request that cannot be built has an
    error of [http_NewRequest]. *)
Class TokenKit {R : RSA} := {
  jwt_SignedString : rsa_key -> Assertion -> result string string;
  http_NewRequest : string -> option string;
  http_Do : string -> form -> result string TokenAnswer;
}.

Record tokenSource := mkTokens { ts_token : string; ts_exp : Z }.
Definition noToken : tokenSource := mkTokens "" 0.

(** What a call of [Token] reads of its surroundings: 16 random bytes ([None]
    when the source failed) and the clock on entry, at signing, and after the
    exchange, in nanoseconds. *)
Record Draw := { dr_raw : option string; dr_now : Z; dr_sign : Z; dr_after : Z }.

Definition unix (t : Z) : Z := t / Second.

Section Token.
Context {T : GoText} {C : Crypto} {R : RSA} {K : TokenKit}.
Context (cfg : CtrlConfig) (id : Identity).

Definition assertion_of (raw : string) (now : Z) : Assertion := {|
  as_iss := id_ClientID id; as_sub := id_ClientID id; as_aud := cc_TokenURL cfg;
  as_jti := hex_EncodeToString raw; as_iat := unix now; as_exp := unix (now + assertionLifetime);
  as_kid := if negb (is_empty (id_KeyID id)) then Some (id_KeyID id) else None |}.

Definition signAssertion (d : Draw) : result identity_error string :=
  if is_empty (id_ClientID id) then Err ErrNoControlIdentity
  else match dr_raw d with
  | None => Err (IdentityFailed "authctrl: generate assertion jti: entropy source failed")
  | Some raw =>
      match jwt_SignedString (id_PrivateKey id) (assertion_of raw (dr_sign d)) with
      | Ok signed => Ok signed
      | Err e => Err (IdentityFailed ("authctrl: sign client assertion: " +:+ e))
      end
  end.

Definition token_form (assertion : string) : form :=
  [("grant_type", "client_credentials");
   ("client_assertion_type", "urn:ietf:params:oauth:client-assertion-type:jwt-bearer");
   ("client_assertion", assertion)]%string
  ++ (if negb (is_empty (cc_Audience cfg)) then [("audience"%string, cc_Audience cfg)] else [])
  ++ (match cc_Scopes cfg with [] => [] | l => [("scope"%string, join " " l)] end).

(** [time.Duration(tr.ExpiresIn) * time.Second], at 64 bits. *)
Definition token_ttl (expiresIn : Z) : Z :=
  let ttl := int64 (expiresIn * Second) in if ttl <=? 0 then 5 * Minute else ttl.

Definition read_answer (a : TokenAnswer) : result identity_error (string * Z) :=
  let tr := ta_body a in
  if negb (ta_status a =? 200) || is_empty (tr_AccessToken tr) then
    let reason := TrimSpace (tr_Error tr) in
    let reason := if negb (is_empty (tr_ErrorDesc tr))
                  then TrimSpace (reason +:+ ": " +:+ tr_ErrorDesc tr) else reason in
    let reason := if is_empty reason then "status " +:+ pretty (ta_status a) else reason in
    Err (IdentityFailed ("authctrl: token endpoint rejected the control client (" +:+ reason +:+ ")"))
  else match ta_decodeErr a with
  | Some e => Err (IdentityFailed ("authctrl: decode token response: " +:+ e))
  | None => Ok (tr_AccessToken tr, token_ttl (tr_ExpiresIn tr))
  end%string.

Definition postToken (f : form) : result identity_error (string * Z) :=
  match http_NewRequest (cc_TokenURL cfg) with
  | Some e => Err (IdentityFailed ("authctrl: build token request: " +:+ e))
  | None =>
      match http_Do (cc_TokenURL cfg) f with
      | Err e => Err (IdentityFailed ("authctrl: token request failed: " +:+ e))
      | Ok a => read_answer a
      end
  end.

Definition mint (d : Draw) : result identity_error (string * Z) :=
  if is_empty (TrimSpace (cc_TokenURL cfg)) then Err (IdentityFailed "authctrl: AUTH_TOKEN_URL is not set")
  else match signAssertion d with
  | Err e => Err e
  | Ok assertion => postToken (token_form assertion)
  end.

(** [newTokenSource] replaces a skew that is not positive. *)
Definition refresh_skew : Z := if cc_RefreshSkew cfg <=? 0 then DefaultRefreshSkew else cc_RefreshSkew cfg.

Definition Token (d : Draw) (t : tokenSource) : result identity_error string * tokenSource :=
  if negb (is_empty (ts_token t)) && (dr_now d <? ts_exp t) then (Ok (ts_token t), t)
  else match mint d with
  | Err e => (Err e, t)
  | Ok (token, ttl) =>
      let skew := if ttl <=? refresh_skew then ttl / 2 else refresh_skew in
      (Ok token, mkTokens token (dr_after d + (ttl - skew)))
  end.

(** A source that answered the calls [ds], latest last. *)
Definition source_after (ds : list Draw) : tokenSource :=
  foldl (fun t d => snd (Token d t)) noToken ds.
End Token.

(** *** A token is never used past its life *)

Section TokenClaims.
Context {T : GoText} {C : Crypto} {R : RSA} {K : TokenKit}.
Context (cfg : CtrlConfig) (id : Identity).

(** The endpoint issued [token] for [ttl] in the exchange of [d], against an
    assertion that names Core twice, is meant for this endpoint alone, and lives
    for two minutes. *)
Definition issued (d : Draw) (token : string) (ttl : Z) : Prop :=
  exists raw signed a,
    dr_raw d = Some raw
    /\ jwt_SignedString (id_PrivateKey id) {|
         as_iss := id_ClientID id; as_sub := id_ClientID id; as_aud := cc_TokenURL cfg;
         as_jti := hex_EncodeToString raw; as_iat := unix (dr_sign d);
         as_exp := unix (dr_sign d) + 120;
         as_kid := if negb (is_empty (id_KeyID id)) then Some (id_KeyID id) else None |} = Ok signed
    /\ http_Do (cc_TokenURL cfg) (token_form cfg signed) = Ok a
    /\ ta_status a = 200 /\ tr_AccessToken (ta_body a) = token /\ token <> ""%string
    /\ ttl = token_ttl (tr_ExpiresIn (ta_body a)).

Lemma assertion_two_minutes raw now : as_exp (assertion_of cfg id raw now) = unix now + 120.
Proof.
  unfold assertion_of, unix. cbn. change assertionLifetime with (120 * Second).
  by rewrite Z.div_add.
Qed.

Lemma mint_issued d token ttl : mint cfg id d = Ok (token, ttl) -> issued d token ttl.
Proof.
  unfold mint, signAssertion, postToken, read_answer.
  destruct (is_empty (TrimSpace _)); [done|]. destruct (is_empty (id_ClientID id)); [done|].
  destruct (dr_raw d) as [raw|] eqn:Er; [|done].
  destruct (jwt_SignedString _ _) as [signed|] eqn:Es; [|done].
  destruct (http_NewRequest _); [done|]. destruct (http_Do _ _) as [a|] eqn:Ed; [|done].
  cbv zeta. destruct (negb (_ =? _) || _) eqn:Eb; [done|]. destruct (ta_decodeErr a); [done|].
  intros [= <- <-]. apply orb_false_elim in Eb as [E1 E2]. exists raw, signed, a. split_and!; try done.
  - rewrite <- Es. unfold assertion_of at 1. f_equal. f_equal.
    symmetry. exact (assertion_two_minutes raw (dr_sign d)).
  - apply negb_false_iff in E1. lia.
  - intros E. rewrite E in E2. done.
Qed.

Lemma refresh_skew_pos : 0 < refresh_skew cfg.
Proof. unfold refresh_skew. destruct (Z.leb_spec (cc_RefreshSkew cfg) 0); [done|lia]. Qed.

(** The cache holds nothing, or a token of an earlier exchange with a deadline
    that leaves the refresh margin. *)
Definition cache_ok (ds : list Draw) (t : tokenSource) : Prop :=
  ts_token t = ""%string
  \/ exists d ttl, d ∈ ds /\ issued d (ts_token t) ttl
       /\ ts_exp t = dr_after d + (ttl - Z.min (refresh_skew cfg)
            (if ttl <=? refresh_skew cfg then ttl / 2 else refresh_skew cfg)).

Lemma ttl_pos e : 0 < token_ttl e.
Proof. unfold token_ttl. destruct (Z.leb_spec (int64 (e * Second)) 0); [done|lia]. Qed.

Lemma cache_ok_step d ds t : cache_ok ds t -> cache_ok (ds ++ [d]) (snd (Token cfg id d t)).
Proof.
  intros Hc. unfold Token. destruct (negb _ && _) eqn:Eb.
  - cbn. destruct Hc as [?|(d' & ttl & ? & ?)]; [by left|].
    right. exists d', ttl. split; [|done]. apply elem_of_app. by left.
  - destruct (mint cfg id d) as [[token ttl]|] eqn:Em; cbn.
    + right. exists d, ttl. apply mint_issued in Em. split_and!; [|done|].
      { apply elem_of_app. right. by apply list_elem_of_singleton. }
      cbn. pose proof refresh_skew_pos.
      destruct Em as (_ & _ & a & _ & _ & _ & _ & _ & _ & ->). pose proof (ttl_pos (tr_ExpiresIn (ta_body a))).
      destruct (Z.leb_spec (token_ttl (tr_ExpiresIn (ta_body a))) (refresh_skew cfg)); [|lia].
      rewrite Z.min_r; [done|]. apply Z.div_le_upper_bound; lia.
    + destruct Hc as [?|(d' & ttl & ? & ?)]; [by left|].
      right. exists d', ttl. split; [|done]. apply elem_of_app. by left.
Qed.

Lemma source_cache_ok ds : cache_ok ds (source_after cfg id ds).
Proof.
  induction ds as [|d ds IH] using rev_ind; [by left|].
  unfold source_after. rewrite foldl_snoc. by apply cache_ok_step.
Qed.

(** C27: an access token is only used inside its life.  Whatever calls came
    before, a token that [Token] answers was issued by the token endpoint, in
    this call's exchange or in an earlier one, against an assertion signed with
    Core's key that lives two minutes and is bound to that endpoint; an earlier
    one is answered only while its lifetime, counted from the end of its
    exchange, has at least the refresh skew left, or half of a lifetime shorter
    than the skew.  A failed exchange leaves the cache as it was. *)
Theorem token_never_stale (ds : list Draw) (d : Draw) :
  let t := source_after cfg id ds in
  match Token cfg id d t with
  | (Err _, t') => t' = t
  | (Ok token, t') =>
      (exists ttl, issued d token ttl)
      \/ (t' = t /\ exists d0 ttl, d0 ∈ ds /\ issued d0 token ttl
          /\ dr_now d < dr_after d0 + ttl
               - (if ttl <=? refresh_skew cfg then ttl / 2 else refresh_skew cfg))
  end.
Proof.
  cbv zeta. pose proof (source_cache_ok ds) as Hc. unfold Token.
  destruct (negb _ && _) eqn:Eb.
  - right. split; [done|]. apply andb_prop in Eb as [E1 E2].
    destruct Hc as [Hc|(d0 & ttl & Hd & Hi & He)]; [by rewrite Hc in E1|].
    exists d0, ttl. split_and!; [done..|]. pose proof refresh_skew_pos.
    assert (0 < ttl) by (destruct Hi as (_ & _ & ? & _ & _ & _ & _ & _ & _ & ->); apply ttl_pos).
    destruct (Z.leb_spec ttl (refresh_skew cfg)); [|lia].
    assert (ttl / 2 <= ttl) by (apply Z.div_le_upper_bound; lia). lia.
  - destruct (mint cfg id d) as [[token ttl]|] eqn:Em; [|done]. left. exists ttl. by apply mint_issued.
Qed.

(** What an error may quote of an answer: its status, the OAuth error fields and
    the decoder's error, never the token. *)
Definition quotable (a : TokenAnswer) :=
  (ta_status a, is_empty (tr_AccessToken (ta_body a)), tr_Error (ta_body a), tr_ErrorDesc (ta_body a),
   ta_decodeErr a).
End TokenClaims.

(** *** Errors carry no credential *)

Section Redaction.
Context {T : GoText} {C : Crypto} {R : RSA}.

Definition same_outcome (x y : result string TokenAnswer) : Prop :=
  match x, y with
  | Ok a, Ok b => quotable a = quotable b
  | Err e, Err e' => e = e'
  | _, _ => False
  end.

(** Two kits no error may tell apart: their signatures, requests and tokens
    differ at will. *)
Record alike (url : string) (K1 K2 : TokenKit) : Prop := {
  alike_request : @http_NewRequest _ K1 url = @http_NewRequest _ K2 url;
  alike_answers : forall f g, same_outcome (@http_Do _ K1 url f) (@http_Do _ K2 url g);
  alike_signing : forall k1 k2 c1 c2,
    match @jwt_SignedString _ K1 k1 c1, @jwt_SignedString _ K2 k2 c2 with
    | Ok _, Ok _ => True | Err e, Err e' => e = e' | _, _ => False
    end }.

(** The errors of a token request carry no credential material.  Fix the
    endpoint's status codes and OAuth error fields and let everything secret
    vary: Core's private key, the signed assertion, the request form, the jti,
    the access token and its lifetime.  The error a mint returns is the same. *)
Theorem token_errors_redacted (K1 K2 : TokenKit) cfg id1 id2 d1 d2 :
  alike (cc_TokenURL cfg) K1 K2 -> id_ClientID id1 = id_ClientID id2 ->
  is_Some (dr_raw d1) -> is_Some (dr_raw d2) ->
  match mint (K := K1) cfg id1 d1, mint (K := K2) cfg id2 d2 with
  | Err e1, Err e2 => e1 = e2
  | Ok _, Ok _ => True
  | _, _ => False
  end.
Proof.
  intros [Hq Ha Hs] Hid [raw1 H1] [raw2 H2]. unfold mint, signAssertion. rewrite H1, H2, Hid.
  destruct (is_empty (TrimSpace _)); [done|]. destruct (is_empty (id_ClientID id2)); [done|].
  specialize (Hs (id_PrivateKey id1) (id_PrivateKey id2)
    (assertion_of cfg id1 raw1 (dr_sign d1)) (assertion_of cfg id2 raw2 (dr_sign d2))).
  destruct (@jwt_SignedString _ K1 _ _) as [s1|], (@jwt_SignedString _ K2 _ _) as [s2|]; try done;
    [|by subst].
  unfold postToken. rewrite Hq. destruct (@http_NewRequest _ K2 _); [done|].
  specialize (Ha (token_form cfg s1) (token_form cfg s2)).
  destruct (@http_Do _ K1 _ _) as [a|], (@http_Do _ K2 _ _) as [b|]; try done; [|by cbn in Ha; subst].
  cbn in Ha. unfold quotable in Ha. injection Ha as E1 E2 E3 E4 E5.
  unfold read_answer. rewrite E1, E2, E3, E4, E5.
  destruct (negb (ta_status b =? 200) || _); [done|]. by destruct (ta_decodeErr b).
Qed.
End Redaction.
