(* ===== verification/Runner.v ===== *)
(** * The control path after setup

    [internal/authctrl]: the lazily connected client ([client.go]), the token
    source for another relying party ([outbound.go]), the single-flight runner
    of the control catalog and its boot loop ([runner.go]), and the operator's
    endpoints ([handler.go]).  The tokens are those of [ControlClient], the pass
    is [Applier.pass]. *)

From S2P Require Import Prelude Json Storage World AppError Queries Agent Keys Process Http.
From S2P Require Import SetupConfig Identity Applier ControlClient.
From S2P Require Gateway Steward.

Definition TransportControlClient : string := "control-client".

Record RunReport := {
  rr_Totals : Steward.Report; rr_Outcomes : list Outcome; rr_Created : Z; rr_Ensured : Z;
  rr_Failed : Z; rr_Transport : string; rr_StartedAt : Z; rr_Duration : string }.

Definition is_status (st : Status) (o : Outcome) : bool := bool_decide (oc_Status o = st).
Definition tally (st : Status) (l : list Outcome) : Z := Z.of_nat (length (List.filter (is_status st) l)).

Inductive run_error :=
  | ErrApplyRunning
  | ConnectFailed (e : identity_error)
  | CatalogFailed (e : call_error).

(** ** A connection that carries a bearer token *)

(** Auth's own state, Core's token cache, and the calls made so far. *)
Record Channel (A : Type) := mkChannel { ch_peer : A; ch_tokens : tokenSource; ch_calls : nat }.
Arguments mkChannel {A}.
Arguments ch_peer {A} c.
Arguments ch_tokens {A} c.
Arguments ch_calls {A} c.

Section Runner.
Context {T : GoText} {C : Crypto} {R : RSA} {J : Gateway.JsonText} {Kt : Transport} {K : TokenKit}.
Context {A : Type} (srv : MgmtServer A).

(** gRPC refuses a client with the text it returns; a call whose credential
    could not be produced fails with a status of gRPC's own. *)
Context (grpc_NewClient : string -> creds -> bool -> option string).
Context (grpc_creds_failed : identity_error -> status).
(** What the [i]-th call of the token source reads of its surroundings. *)
Context (draws : nat -> Draw).
Context (cfg : CtrlConfig) (cat : Steward.Catalog) (keyDir : string).
Context (registry : option (string -> string -> bool -> M error ())).

(** [GetRequestMetadata] under every call: the answer is the service's, or the
    failure to present a credential. *)
Definition bearer (id : Identity) : MgmtServer (Channel A) := fun r _ ch =>
  let '(t, ts) := Token cfg id (draws (ch_calls ch)) (ch_tokens ch) in
  match t with
  | Err e => (Err (grpc_creds_failed e), mkChannel (ch_peer ch) ts (S (ch_calls ch)))
  | Ok token =>
      let '(a, p) := srv r ("Bearer " +:+ token)%string (ch_peer ch) in
      (a, mkChannel p ts (S (ch_calls ch)))
  end.

(** The mutable fields of [Client] and [Runner]: the connection with the identity
    its calls present, the identity last loaded, and the runner's flag and
    report. *)
Record Ctrl := mkCtrl {
  ct_conn : option (creds * Identity); ct_identity : option Identity;
  ct_running : bool; ct_last : option RunReport }.
Definition new_ctrl : Ctrl := mkCtrl None None false None.

Definition RNode : Type := Ctrl * Node (Channel A).

Definition Connect (s : RNode) : result identity_error Identity * RNode :=
  let '(c, n) := s in
  match ct_conn c with
  | Some (_, id) => (Ok id, s)
  | None =>
      let '(r, w) := LoadIdentity (n_world n) in
      let n := with_world w n in
      match r with
      | Err e => (Err e, (c, n))
      | Ok id =>
          if is_empty (cc_GRPCAddr cfg) then
            (Err (IdentityFailed "authctrl: no auth gRPC address configured (set AUTH_CTRL_GRPC_ADDR or AUTH_SETUP_ADDR)"),
             (c, n))
          else match transportCreds cfg with
          | Err e => (Err (IdentityFailed e), (c, n))
          | Ok transport =>
              match grpc_NewClient (cc_GRPCAddr cfg) transport (negb (plaintext cfg)) with
              | Some e => (Err (IdentityFailed ("authctrl: dial auth: " +:+ e)), (c, n))
              | None =>
                  let ch := n_peer n in
                  (Ok id, (mkCtrl (Some (transport, id)) (Some id) (ct_running c) (ct_last c),
                           with_peer (mkChannel (ch_peer ch) noToken (ch_calls ch)) n))
              end
          end
      end
  end.

Definition TenantID (c : Ctrl) : string :=
  match ct_identity c with Some id => id_TenantID id | None => "" end.

(** [Close]; gRPC's answer to closing a connection is [r]. *)
Definition Close (r : option string) (c : Ctrl) : option string * Ctrl :=
  match ct_conn c with
  | None => (None, c)
  | Some _ => (r, mkCtrl None (ct_identity c) (ct_running c) (ct_last c))
  end.

(** ** The runner *)

Definition Last (c : Ctrl) : option RunReport := ct_last c.

Definition tryBegin (c : Ctrl) : bool * Ctrl :=
  if ct_running c then (false, c) else (true, mkCtrl (ct_conn c) (ct_identity c) true (ct_last c)).

Definition end_ (rep : option RunReport) (c : Ctrl) : Ctrl :=
  mkCtrl (ct_conn c) (ct_identity c) false (match rep with Some _ => rep | None => ct_last c end).

Definition report_of (totals : Steward.Report) (out : list Outcome) (started : Z) (duration : string)
    (err : option call_error) : RunReport :=
  let failed := tally StatusFailed out in
  match err with
  | None => Build_RunReport totals out (tally StatusCreated out) (tally StatusEnsured out) failed
              TransportControlClient started duration
  | Some e => Build_RunReport totals
                (out ++ [Build_Outcome "Catalog" "reconcile" StatusFailed (ce_msg e)])
                (tally StatusCreated out) (tally StatusEnsured out) (failed + 1)
                TransportControlClient started duration
  end.

(** The pass itself, between [tryBegin] and [end].  [started] and [duration] are
    the readings of the clock. *)
Definition run_body (started : Z) (duration : string) (s : RNode)
    : option RunReport * option run_error * RNode :=
  match Connect s with
  | (Err e, s) => (None, Some (ConnectFailed e), s)
  | (Ok id, (c, n)) =>
      let '(err, totals, (n, mem)) :=
        pass (bearer id) "" (id_TenantID id) keyDir registry cat n in
      (Some (report_of totals (outcomes mem) started duration err), CatalogFailed <$> err, (c, n))
  end.

Definition RunnerRun (started : Z) (duration : string) (s : RNode)
    : option RunReport * option run_error * RNode :=
  let '(ok, c) := tryBegin (fst s) in
  if negb ok then (None, Some ErrApplyRunning, s)
  else
    let '(rep, err, (c, n)) := run_body started duration (c, snd s) in
    (rep, err, (end_ rep c, n)).

(** *** The boot loop *)

Definition bootBaseBackoff : Z := 5 * Second.
Definition bootMaxBackoff : Z := 5 * Minute.
Definition bootMaxAttempts : nat := 12.

Definition boot_next (b : Z) : Z :=
  if b <? bootMaxBackoff then
    let b := b * 2 in if bootMaxBackoff <? b then bootMaxBackoff else b
  else b.

Definition converged (rep : option RunReport) (err : option run_error) : bool :=
  match err, rep with
  | None, Some r => rr_Failed r =? 0
  | _, _ => false
  end.

Inductive boot_end := BootConverged | BootCancelled | BootGaveUp.

(** The clock and the duration of each attempt, what happens during each wait,
    and which wait is cut short. *)
Context (clock : nat -> Z * string) (elapse : nat -> RNode -> RNode) (cancelled : nat -> bool).

Fixpoint boot_loop (rest : nat) (backoff : Z) (waits : list Z) (s : RNode)
    : boot_end * list Z * RNode :=
  match rest with
  | O => (BootGaveUp, waits, s)
  | S rest =>
      let i := length waits in
      let '(rep, err, s) := RunnerRun (fst (clock i)) (snd (clock i)) s in
      if converged rep err then (BootConverged, waits, s)
      else if cancelled i then (BootCancelled, waits, s)
      else boot_loop rest (boot_next backoff) (waits ++ [backoff]) (elapse i s)
  end.

Definition RunnerRunWithRetry (s : RNode) : boot_end * list Z * RNode :=
  boot_loop bootMaxAttempts bootBaseBackoff [] s.

(** ** The operator's endpoints *)

Definition apply_handler (started : Z) (duration : string) (s : RNode) : reply RunReport * RNode :=
  let '(rep, err, s) := RunnerRun started duration s in
  (match err, rep with
   | Some ErrApplyRunning, _ => Error 409 "a steward apply is already running"
   | Some (ConnectFailed ErrNoControlIdentity), _ =>
       Error 409 "core has no control-plane identity yet; run setup before applying the control catalog"
   | Some (ConnectFailed (IdentityFailed msg)), _ => Error 502 msg
   | Some (CatalogFailed e), _ => Error 502 (ce_msg e)
   | None, Some r => Success r ""
   | None, None => Build_reply _ 200 true None "" "" "" None
   end, s).

Record statusResponse := { sp_LastRunAt : option Z; sp_Report : option RunReport }.
Definition steward_status (c : Ctrl) : reply statusResponse :=
  Success (Build_statusResponse (rr_StartedAt <$> Last c) (Last c)) "".
End Runner.

(** ** One pass at a time *)

(** The boot loop and operators' requests, interleaved: [c] is the shared state,
    [passing] the callers between their [tryBegin] and their [end].  What a pass
    does in between ([run_body]) leaves the flag alone. *)
Section Flight.
Context {R : RSA} {Kt : Transport}.
Implicit Types c : Ctrl.

Record flight := mkFlight { fl_ctrl : Ctrl; fl_passing : gset nat; fl_refused : gset nat }.

Inductive flight_step : flight -> flight -> Prop :=
  | step_begin f i c : i ∉ fl_passing f -> tryBegin (fl_ctrl f) = (true, c) ->
      flight_step f (mkFlight c ({[i]} ∪ fl_passing f) (fl_refused f))
  | step_refuse f i c : i ∉ fl_passing f -> tryBegin (fl_ctrl f) = (false, c) ->
      flight_step f (mkFlight c (fl_passing f) ({[i]} ∪ fl_refused f))
  | step_connect f i conn id : i ∈ fl_passing f ->
      flight_step f (mkFlight (mkCtrl conn id (ct_running (fl_ctrl f)) (ct_last (fl_ctrl f)))
                       (fl_passing f) (fl_refused f))
  | step_end f i rep : i ∈ fl_passing f ->
      flight_step f (mkFlight (end_ rep (fl_ctrl f)) (fl_passing f ∖ {[i]}) (fl_refused f)).

Definition flight_ok (f : flight) : Prop :=
  if ct_running (fl_ctrl f) then exists i, fl_passing f = {[i]} else fl_passing f = ∅.

Lemma flight_step_ok f f' : flight_step f f' -> flight_ok f -> flight_ok f'.
Proof.
  intros Hs Hf. unfold flight_ok in *.
  destruct Hs as [f i c Hi E|f i c Hi E|f i conn id Hi|f i rep Hi]; unfold tryBegin in *;
    destruct (ct_running (fl_ctrl f)) eqn:Er; simplify_eq; cbn; rewrite ?Er; try done.
  - exists i. by rewrite Hf, (right_id_L ∅ (∪)).
  - destruct Hf as [j Hj]. rewrite Hj in *. apply elem_of_singleton in Hi as ->. apply difference_diag_L.
  - rewrite Hf. apply empty_difference_L.
Qed.
Lemma flight_steps_ok f f' : rtc flight_step f f' -> flight_ok f -> flight_ok f'.
Proof. induction 1; eauto using flight_step_ok. Qed.
End Flight.

Section RunClaims.
Context {T : GoText} {C : Crypto} {R : RSA} {J : Gateway.JsonText} {Kt : Transport} {K : TokenKit}.
Context {A : Type} (srv : MgmtServer A).
Context (NewClient : string -> creds -> bool -> option string) (creds_failed : identity_error -> status).
Context (draws : nat -> Draw) (cfg : CtrlConfig) (cat : Steward.Catalog) (keyDir : string).
Context (registry : option (string -> string -> bool -> M error ())).

Implicit Types s : @RNode R Kt A.

Abbreviation run := (RunnerRun srv NewClient creds_failed draws cfg cat keyDir registry).
Abbreviation body := (run_body srv NewClient creds_failed draws cfg cat keyDir registry).

Lemma Connect_flags s : let '(_, s') := Connect NewClient cfg s in
  ct_running (fst s') = ct_running (fst s) /\ ct_last (fst s') = ct_last (fst s)
  /\ ch_peer (n_peer (snd s')) = ch_peer (n_peer (snd s)).
Proof.
  unfold Connect. destruct s as [c n]. destruct (ct_conn c) as [[? ?]|]; [done|].
  destruct (LoadIdentity (n_world n)) as [[id|e] w]; [|done].
  destruct (is_empty _); [done|]. destruct (transportCreds cfg); [|done].
  by destruct (NewClient _ _ _).
Qed.

Lemma body_flags started duration s : let '(rep, err, s') := body started duration s in
  ct_running (fst s') = ct_running (fst s) /\ ct_last (fst s') = ct_last (fst s)
  /\ (rep = None -> ch_peer (n_peer (snd s')) = ch_peer (n_peer (snd s))
                    /\ exists e, err = Some (ConnectFailed e)).
Proof.
  unfold run_body. pose proof (Connect_flags s) as H.
  destruct (Connect NewClient cfg s) as [[id|e] [c n]]; cbn in H.
  - destruct (pass _ _ _ _ _ _ _) as [[err tot] [n' mem]]. cbn. destruct H as (? & ? & _). by split_and!.
  - cbn. destruct H as (? & ? & ?). split_and!; [done..|]. intros _. eauto.
Qed.

(** C28: the control catalog is applied by one caller at a time.  However the
    boot loop and operators' requests interleave, from a new process on, at most
    one of them is between [tryBegin] and [end]; and [Run] itself refuses when a
    pass is in flight, with the state untouched, and otherwise always lowers the
    flag again, keeps the last report when it could not connect (and then Auth
    was not called), and replaces it when a pass ran. *)
Theorem steward_single_flight started duration s f :
  rtc flight_step (mkFlight new_ctrl ∅ ∅) f ->
  (size (fl_passing f) <= 1)%nat
  /\ let '(rep, err, s') := run started duration s in
     if ct_running (fst s) then rep = None /\ err = Some ErrApplyRunning /\ s' = s
     else ct_running (fst s') = false
       /\ match rep with
          | Some r => ct_last (fst s') = Some r
          | None => ct_last (fst s') = ct_last (fst s)
              /\ ch_peer (n_peer (snd s')) = ch_peer (n_peer (snd s))
              /\ exists e, err = Some (ConnectFailed e)
          end.
Proof.
  intros Hr. split.
  - assert (Hf : flight_ok f) by by eapply flight_steps_ok. unfold flight_ok in Hf. destruct (ct_running (fl_ctrl f)).
    + destruct Hf as [i ->]. rewrite size_singleton. lia.
    + rewrite Hf, size_empty. lia.
  - destruct s as [c n]. unfold RunnerRun, tryBegin. cbn [fst snd].
    destruct (ct_running c) eqn:Ec; cbn [negb]; [done|].
    pose proof (body_flags started duration (mkCtrl (ct_conn c) (ct_identity c) true (ct_last c), n)) as H.
    destruct (run_body _ _ _ _ _ _ _ _ _ _ _) as [[rep err] [c' n']]. cbn in *.
    split; [done|]. destruct rep as [r|]; [done|]. destruct H as (_ & H & Hn). specialize (Hn eq_refl).
    by destruct Hn.
Qed.

(** ** The boot loop ends *)

Context (clock : nat -> Z * string) (elapse : nat -> @RNode R Kt A -> @RNode R Kt A).
Context (cancelled : nat -> bool).

Definition boot_wait (i : nat) : Z := Z.min (5 * Second * 2 ^ Z.of_nat i) (5 * Minute).

Lemma boot_wait_next i : boot_next (boot_wait i) = boot_wait (S i).
Proof.
  unfold boot_next, boot_wait, bootMaxBackoff, Minute, Second.
  rewrite Nat2Z.inj_succ, Z.pow_succ_r by lia.
  assert (0 < 2 ^ Z.of_nat i) by (apply Z.pow_pos_nonneg; lia).
  destruct (Z.ltb_spec (Z.min (5 * 1000000000 * 2 ^ Z.of_nat i) (5 * (60 * 1000000000))) (5 * (60 * 1000000000)));
    [cbv zeta; destruct (Z.ltb_spec (5 * (60 * 1000000000))
       (Z.min (5 * 1000000000 * 2 ^ Z.of_nat i) (5 * (60 * 1000000000)) * 2))|]; lia.
Qed.

Lemma boot_loop_spec rest waits s :
  (forall i d, waits !! i = Some d -> d = boot_wait i) ->
  let '(out, waits', s') :=
    boot_loop srv NewClient creds_failed draws cfg cat keyDir registry clock elapse cancelled
      rest (boot_wait (length waits)) waits s in
  (length waits' <= length waits + rest)%nat
  /\ (forall i d, waits' !! i = Some d -> d = boot_wait i)
  /\ match out with
     | BootConverged => exists s0 rep, run (fst (clock (length waits'))) (snd (clock (length waits'))) s0
                          = (Some rep, None, s') /\ rr_Failed rep = 0
     | BootCancelled => cancelled (length waits') = true
     | BootGaveUp => length waits' = (length waits + rest)%nat
     end.
Proof.
  revert waits s. induction rest as [|rest IH]; intros waits s Hw; cbn [boot_loop].
  - split_and!; [lia|done|lia].
  - destruct (run _ _ s) as [[rep err] s1] eqn:Er. destruct (converged rep err) eqn:Ec.
    + split_and!; [lia|done|]. destruct err, rep as [rep|]; try done. apply Z.eqb_eq in Ec. eauto.
    + destruct (cancelled (length waits)) eqn:Ex; [split_and!; [lia|done|done]|].
      rewrite boot_wait_next. specialize (IH (waits ++ [boot_wait (length waits)]) (elapse (length waits) s1)).
      rewrite length_app in IH. cbn in IH. rewrite Nat.add_1_r in IH.
      destruct (boot_loop _ _ _ _ _ _ _ _ _ _ _ _ _ _ _) as [[out w'] s'].
      destruct IH as (H1 & H2 & H3).
      { intros i d [Hi|[Hi Hd]]%lookup_app_Some; [by apply Hw|].
        apply list_lookup_singleton_Some in Hd as [Hz <-]. f_equal. lia. }
      split_and!; [lia|done|]. destruct out; [done..|lia].
Qed.

End RunClaims.

(** ** Tokens for another relying party *)

Section Outbound.
Context {T : GoText} {C : Crypto} {R : RSA} {K : TokenKit}.

Record OutboundTokens := {
  ob_cfg : CtrlConfig; ob_src : option (Identity * tokenSource) }.

Definition NewOutboundTokens (cfg : CtrlConfig) (audience : string) (scopes : list string) : OutboundTokens :=
  {| ob_cfg := {| cc_TokenURL := cc_TokenURL cfg; cc_GRPCAddr := cc_GRPCAddr cfg; cc_CAFile := cc_CAFile cfg;
       cc_ClientCertFile := cc_ClientCertFile cfg; cc_ClientKeyFile := cc_ClientKeyFile cfg;
       cc_ServerName := cc_ServerName cfg; cc_Audience := audience; cc_Scopes := scopes;
       cc_RefreshSkew := cc_RefreshSkew cfg |};
     ob_src := None |}.

Definition source (o : OutboundTokens) : M identity_error (Identity * tokenSource * OutboundTokens) :=
  match ob_src o with
  | Some (id, ts) => mret (id, ts, o)
  | None =>
      id ← LoadIdentity;
      mret (id, noToken, {| ob_cfg := ob_cfg o; ob_src := Some (id, noToken) |})
  end.

Definition OutboundToken (d : Draw) (o : OutboundTokens) (w : World)
    : result identity_error string * OutboundTokens * World :=
  match source o w with
  | (Err e, w) => (Err e, o, w)
  | (Ok (id, ts, o), w) =>
      let '(t, ts) := Token (ob_cfg o) id d ts in
      (t, {| ob_cfg := ob_cfg o; ob_src := Some (id, ts) |}, w)
  end.
End Outbound.
