(* ===== verification/StewardRun.v ===== *)
(** * What an operator may believe of a steward report

    The runner over its real parts: the control identity read from the
    control_plane row, the token of every call, the pass over Auth.  The sample
    at the end runs the builtin catalog against the Auth of [Converged]. *)

From S2P Require Import Prelude Json Storage World AppError Queries Agent Keys Process Http.
From S2P Require Import SetupConfig Identity Applier Realize Converged ControlClient Runner.
From S2P Require Gateway Steward SetupSample.

Section StewardRun.
Context {T : GoText} {C : Crypto} {R : RSA} {J : Gateway.JsonText} {Kt : Transport} {K : TokenKit}.
Context {A : Type} (srv : MgmtServer A) (view : A -> AuthView) `{!MgmtLaws srv view}.
Context (NewClient : string -> creds -> bool -> option string) (creds_failed : identity_error -> status).
Context (draws : nat -> Draw) (cfg : CtrlConfig) (cat : Steward.Catalog) (keyDir : string).
Context (registry : option (string -> string -> bool -> M error ())).
Implicit Types s : @RNode R Kt A.

Definition auth_view s : AuthView := view (ch_peer (n_peer (snd s))).

(** A call that cannot present a token is a failed call that reached nobody, so
    Auth's promises hold through the tokens too. *)
#[local] Instance bearer_laws id :
  MgmtLaws (bearer srv creds_failed draws cfg id) (fun ch => view (ch_peer ch)).
Proof.
  intros r cred [p ts i]. unfold bearer. cbn [ch_peer ch_tokens ch_calls].
  destruct (Token cfg id (draws i) ts) as [[token|e] ts'].
  - pose proof (mgmt_law (srv := srv) (view := view) r ("Bearer " +:+ token)%string p) as H.
    by destruct (srv r _ p).
  - destruct r; cbn; split_and?; eauto; done.
Qed.

Lemma tally_cons st o l : tally st (o :: l) = (if is_status st o then 1 else 0) + tally st l.
Proof. unfold tally. cbn. destruct (is_status st o); cbn; lia. Qed.
Lemma tally_none l : tally StatusFailed l = 0 -> Forall (fun oc => oc_Status oc <> StatusFailed) l.
Proof.
  induction l as [|o l IH]; [done|]. rewrite tally_cons. unfold is_status.
  assert (0 <= tally StatusFailed l) by (unfold tally; lia).
  case_bool_decide; [lia|]. constructor; [done|]. apply IH. lia.
Qed.
Lemma tally_total l : tally StatusCreated l + tally StatusEnsured l + tally StatusFailed l = Z.of_nat (length l).
Proof.
  induction l as [|o l IH]; [done|]. rewrite !tally_cons, length_cons. unfold is_status.
  destruct (oc_Status o); repeat case_bool_decide; first [done | lia].
Qed.
Lemma tally_app st l k : tally st (l ++ k) = tally st l + tally st k.
Proof. unfold tally. rewrite List.filter_app, length_app. lia. Qed.

End StewardRun.

(** ** A sample control path *)

Existing Instances SetupSample.install_text SetupSample.install_crypto SetupSample.install_rsa
  SetupSample.install_transport text_json.

(** A token endpoint that answers every assertion with a token for five minutes. *)
Definition answers (token : string) (code : Z) (err : string) : TokenAnswer :=
  Build_TokenAnswer code (Build_tokenResponse token 300 err "") None.
Definition token_kit (sig : string) (a : TokenAnswer) : TokenKit := {|
  jwt_SignedString _ _ := Ok sig; http_NewRequest _ := None; http_Do _ _ := Ok a |}.
Definition open_tokens : TokenKit := token_kit "signed" (answers "t0" 200 "").

Definition ctrl_env (key : string) : string :=
  if str_eqb key "AUTH_SETUP_ADDR" then "auth:9090"
  else if str_eqb key "AUTH_TOKEN_URL" then "https://auth/token" else "".
Definition ctrl_config : CtrlConfig := LoadCtrlConfig ctrl_env.
Definition every_second (i : nat) : Draw :=
  let t := Z.of_nat i * Second in Build_Draw (Some "0123456789abcdef"%string) t t t.
Definition ctrl_node : @RNode SetupSample.install_rsa SetupSample.install_transport Mgmt :=
  (new_ctrl, @mkNode SetupSample.install_rsa _ (SetupSample.world_of SetupSample.kept_db []) (mkDisk ∅ [])
     ["k1"; "k2"; "k3"; "k4"; "k5"]%string (mkChannel (mkMgmt empty_view []) noToken 0)).
Definition no_creds (_ : identity_error) : status := AppError.Status codes_Unauthenticated "per-RPC creds failed".

Definition sample_run :=
  @RunnerRun _ _ _ _ _ open_tokens _ small_mgmt (fun _ _ _ => None) no_creds every_second ctrl_config builtin
    "/keys" None 1000 "1s" ctrl_node.


Lemma steward_single_flight_witness :
  exists f, rtc flight_step (mkFlight new_ctrl ∅ ∅) f /\ fl_passing f = {[ 1%nat ]}
    /\ (size (fl_passing f) <= 1)%nat /\ ct_running (fst (snd sample_run)) = false.
Proof.
  set (f := mkFlight (snd (tryBegin new_ctrl)) ({[ 1%nat ]} ∪ ∅) ∅).
  assert (Hs : rtc flight_step (mkFlight new_ctrl ∅ ∅) f).
  { apply rtc_once. apply (step_begin (mkFlight new_ctrl ∅ ∅) 1%nat); [by apply not_elem_of_empty|done]. }
  destruct (@steward_single_flight _ _ _ _ _ open_tokens _ small_mgmt (fun _ _ _ => None) no_creds
    every_second ctrl_config builtin "/keys" None 1000 "1s" ctrl_node f Hs) as [H1 H2].
  exists f. split_and!; [done|apply (right_id_L ∅ (∪))|done|]. fold sample_run in H2.
  destruct sample_run as [[rep err] s']. apply H2.
Defined.

(** Two endpoints that refuse alike, with different tokens in their answers and
    different signatures sent to them. *)
Definition refusing (sig token : string) : TokenKit := token_kit sig (answers token 401 "invalid_client").
Definition sample_identity (key : string) : @Identity SetupSample.install_rsa :=
  @Build_Identity SetupSample.install_rsa "oauth" "77" key "kid".

Lemma token_errors_redacted_witness :
  mint (K := refusing "sig1" "secret1") ctrl_config (sample_identity "k1") (every_second 1)
    = mint (K := refusing "sig2" "secret2") ctrl_config (sample_identity "k2") (every_second 9)
  /\ mint (K := refusing "sig1" "secret1") ctrl_config (sample_identity "k1") (every_second 1)
     = Err (IdentityFailed "authctrl: token endpoint rejected the control client (invalid_client)").
Proof.
  pose proof (token_errors_redacted (refusing "sig1" "secret1") (refusing "sig2" "secret2") ctrl_config
    (sample_identity "k1") (sample_identity "k2") (every_second 1) (every_second 9)) as H.
  assert (E : mint (K := refusing "sig1" "secret1") ctrl_config (sample_identity "k1") (every_second 1)
     = Err (IdentityFailed "authctrl: token endpoint rejected the control client (invalid_client)"))
    by (vm_compute; reflexivity).
  split; [|exact E]. rewrite E in H |- *.
  destruct (mint (K := refusing "sig2" "secret2") _ _ _) as [x|e].
  - exfalso. apply H; [split; cbn; done|done|by eexists|by eexists].
  - f_equal. apply H; [split; cbn; done|done|by eexists|by eexists].
Defined.
