(* ===== verification/Vault.v ===== *)
(** * The outbound vault client

    [internal/secretctrl]: where a provisioned credential is written, under
    which address, and what its failures tell.  The state [S] of a program that
    calls the vault, its HTTP transport and its token source are parameters. *)

From S2P Require Import Prelude Json Storage World AppError Agent Keys Process Identity ControlClient.

(** ** Data *)

Record VaultConfig := { vc_BaseURL : string; vc_Audience : string; vc_Timeout : Z; vc_Tenant : string }.

Record Address := { ad_Project : string; ad_Environment : string; ad_FolderPath : string; ad_Key : string }.

(** One write: the address, the value in base64, and the two optional headers. *)
Record VaultWrite := {
  vw_url : string; vw_address : Address; vw_value : string; vw_description : string;
  vw_tenant : option string; vw_authorization : option string }.

Inductive vault_error := ErrNotConfigured | ErrUnavailable (detail : string) | VaultFailed (msg : string).

Definition vault_Error (e : vault_error) : string :=
  match e with
  | ErrNotConfigured => "secretctrl: SECRET_BASE_URL is not configured"
  | ErrUnavailable d => "secretctrl: maintainerd-secret is unavailable: " +:+ d
  | VaultFailed msg => msg
  end.

Definition identity_Error (e : identity_error) : string :=
  match e with
  | ErrNoControlIdentity => "authctrl: no control-plane identity is provisioned yet"
  | IdentityFailed msg => msg
  end.

(** [base64.StdEncoding.EncodeToString]: padded. *)
Definition base64_digit (n : nat) : ascii :=
  if Nat.eqb n 62 then "+"%char else if Nat.eqb n 63 then "/"%char else base64url_digit n.
Fixpoint base64_StdEncoding (l : list nat) : string :=
  match l with
  | a :: b :: c :: r =>
      String (base64_digit (a / 4)) (String (base64_digit (a mod 4 * 16 + b / 16))
        (String (base64_digit (b mod 16 * 4 + c / 64)) (String (base64_digit (c mod 64)) (base64_StdEncoding r))))
  | [a; b] =>
      String (base64_digit (a / 4)) (String (base64_digit (a mod 4 * 16 + b / 16))
        (String (base64_digit (b mod 16 * 4)) "="))
  | [a] => String (base64_digit (a / 4)) (String (base64_digit (a mod 4 * 16)) "==")
  | [] => ""
  end%nat.

(** [strings.Trim(s, "/")]. *)
Fixpoint drop_slashes (l : list ascii) : list ascii :=
  match l with
  | a :: l' => if Ascii.eqb a "/" then drop_slashes l' else l
  | [] => []
  end.
Definition trim_slashes (s : string) : string :=
  string_of_list_ascii (rev (drop_slashes (rev (drop_slashes (list_ascii_of_string s))))).

Definition Ref (a : Address) : string :=
  let path := trim_slashes (ad_FolderPath a) in
  let path := if negb (is_empty path) then path +:+ "/" else path in
  "secret://" +:+ ad_Project a +:+ "/" +:+ ad_Environment a +:+ "/" +:+ path +:+ ad_Key a.

Definition sanitizeSegment (s : string) : string :=
  let s := TrimSpace s in
  if is_empty s || ContainsAny s "/\" || Contains s ".." then "" else s.

(** ** The client *)

Section Client.
Context {S : Type}.
(** A request that cannot be built, and the status of an answer. *)
Context (NewRequest : string -> option string) (Do_get : string -> P S string Z) (Do_write : VaultWrite -> P S string Z).
Context (tokens : option (P S identity_error string)).

Definition New (cfg : VaultConfig) : option VaultConfig :=
  if is_empty (TrimSpace (vc_BaseURL cfg)) then None
  else Some (Build_VaultConfig (vc_BaseURL cfg) (vc_Audience cfg)
               (if vc_Timeout cfg <=? 0 then 3 * Second else vc_Timeout cfg) (vc_Tenant cfg)).

Definition Probe (c : option VaultConfig) : P S vault_error () :=
  match c with
  | None => p_fail ErrNotConfigured
  | Some cfg =>
      let url := vc_BaseURL cfg +:+ "/readyz" in
      match NewRequest url with
      | Some e => p_fail (ErrUnavailable ("build readiness request: " +:+ e))
      | None =>
          code ← p_map_err ErrUnavailable (Do_get url);
          if negb (code =? 200) then p_fail (ErrUnavailable ("readiness probe answered " +:+ pretty code))
          else mret ()
      end
  end.

Definition bearer_header (cfg : VaultConfig) : P S vault_error (option string) :=
  match tokens with
  | None => mret None
  | Some token =>
      t ← p_map_err (fun e => VaultFailed ("secretctrl: no outbound token for " +:+ vc_Audience cfg
                                           +:+ ": " +:+ identity_Error e)) token;
      mret (Some ("Bearer " +:+ t))
  end.

Definition PutCredential (c : option VaultConfig) (addr : Address) (value description : string)
    : P S vault_error () :=
  match c with
  | None => p_fail ErrNotConfigured
  | Some cfg =>
      if is_empty (ad_Project addr) || is_empty (ad_Environment addr) || is_empty (ad_Key addr) then
        p_fail (VaultFailed "secretctrl: incomplete secret address (project, environment and key are required)")
      else
        let url := vc_BaseURL cfg +:+ "/api/v1/secrets" in
        match NewRequest url with
        | Some e => p_fail (VaultFailed ("secretctrl: build secret write: " +:+ e))
        | None =>
            auth ← bearer_header cfg;
            code ← p_map_err ErrUnavailable (Do_write {|
              vw_url := url; vw_address := addr; vw_value := base64_StdEncoding (bytes value);
              vw_description := description;
              vw_tenant := if negb (is_empty (vc_Tenant cfg)) then Some (vc_Tenant cfg) else None;
              vw_authorization := auth |});
            if (code =? 200) || (code =? 201) then mret ()
            else if (500 <=? code) || (code =? 429)
              then p_fail (ErrUnavailable ("secret write answered " +:+ pretty code))
              else p_fail (VaultFailed ("secretctrl: secret refused the write with status " +:+ pretty code))
        end
  end.

(** [Credentials], never nil: the address policy over a client that may be. *)
Record Credentials := { cr_client : option VaultConfig; cr_project : string; cr_environment : string }.

Definition credential_address (c : Credentials) (template param : string) : Address := {|
  ad_Project := cr_project c; ad_Environment := cr_environment c;
  ad_FolderPath := sanitizeSegment template; ad_Key := sanitizeSegment param |}.

Definition CredentialsStore {T : GoText} (c : Credentials) (template param value : string)
    : P S vault_error string :=
  let addr := credential_address c template param in
  if is_empty (ad_FolderPath addr) || is_empty (ad_Key addr) then
    p_fail (VaultFailed ("secretctrl: cannot address a credential for template " +:+ fmt_q template
                         +:+ " parameter " +:+ fmt_q param))
  else
    PutCredential (cr_client c) addr value
      ("Provisioned by maintainerd-core for deployment template " +:+ template) ;;
    mret (Ref addr).
End Client.

(** ** Addresses *)

Lemma sanitized_clean s : sanitizeSegment s <> ""%string ->
  sanitizeSegment s = TrimSpace s /\ ContainsByte (sanitizeSegment s) "/" = false.
Proof.
  unfold sanitizeSegment. cbv zeta. destruct (is_empty (TrimSpace s)); [done|]. cbn [orb].
  destruct (ContainsAny (TrimSpace s) "/\") eqn:E; [done|]. cbn [orb].
  destruct (Contains (TrimSpace s) ".."); [done|]. intros _. split; [done|].
  unfold ContainsAny in E. cbn in E. by apply orb_false_elim in E as [E _].
Qed.

Lemma contains_byte_cons c a s : ContainsByte (String a s) c = Ascii.eqb c a || ContainsByte s c.
Proof. done. Qed.

Lemma drop_slashes_clean s : ContainsByte s "/" = false ->
  drop_slashes (list_ascii_of_string s) = list_ascii_of_string s.
Proof.
  destruct s as [|a s]; [done|]. rewrite contains_byte_cons, Ascii.eqb_sym. cbn [drop_slashes list_ascii_of_string].
  by destruct (Ascii.eqb a "/").
Qed.

Lemma trim_slashes_clean s : ContainsByte s "/" = false -> trim_slashes s = s.
Proof.
  intros H. unfold trim_slashes. rewrite drop_slashes_clean by done.
  assert (Hr : drop_slashes (rev (list_ascii_of_string s)) = rev (list_ascii_of_string s)).
  { rewrite <- (list_ascii_of_string_of_list_ascii (rev _)). apply drop_slashes_clean.
    unfold ContainsByte in *. rewrite list_ascii_of_string_of_list_ascii.
    destruct (existsb _ (rev _)) eqn:E; [|done]. apply existsb_exists in E as (x & Hx & E).
    apply in_rev in Hx. rewrite <- H. symmetry. apply existsb_exists. eauto. }
  rewrite Hr, rev_involutive. apply string_of_list_ascii_of_string.
Qed.

(** Text up to the first slash. *)
Lemma slash_inj a b x y : ContainsByte a "/" = false -> ContainsByte b "/" = false ->
  (a +:+ "/" +:+ x = b +:+ "/" +:+ y)%string -> a = b /\ x = y.
Proof.
  revert b. induction a as [|c a IH]; intros [|d b]; rewrite ?contains_byte_cons.
  - intros _ _ E. by injection E.
  - intros _ H E. change ("/" +:+ x = String d (b +:+ "/" +:+ y))%string in E. by injection E as <- _.
  - intros H _ E. change (String c (a +:+ "/" +:+ x) = "/" +:+ y)%string in E. by injection E as -> _.
  - intros [_ H1]%orb_false_elim [_ H2]%orb_false_elim E.
    change (String c (a +:+ "/" +:+ x) = String d (b +:+ "/" +:+ y))%string in E.
    injection E as -> E. apply IH in E as [-> ->]; done.
Qed.

Lemma append_assoc (a b c : string) : ((a +:+ b) +:+ c = a +:+ (b +:+ c))%string.
Proof.
  induction a as [|x a IH]; [done|]. change (String x ((a +:+ b) +:+ c) = String x (a +:+ (b +:+ c)))%string.
  by f_equal.
Qed.
Lemma app_inv_head_str (p x y : string) : (p +:+ x = p +:+ y)%string -> x = y.
Proof.
  induction p as [|c p IH]; [done|]. intros E.
  change (String c (p +:+ x) = String c (p +:+ y))%string in E. injection E as E. auto.
Qed.

Section VaultClaims.
Context {T : GoText} {S : Type}.
Context (NewRequest : string -> option string) (Do_write : VaultWrite -> P S string Z).
Context (tokens : option (P S identity_error string)).
Abbreviation store := (CredentialsStore NewRequest Do_write tokens).

Lemma put_written c addr value desc s s' :
  PutCredential NewRequest Do_write tokens c addr value desc s = (Ok (), s') ->
  exists cfg w s0 code, c = Some cfg /\ vw_address w = addr /\ vw_value w = base64_StdEncoding (bytes value)
    /\ vw_url w = (vc_BaseURL cfg +:+ "/api/v1/secrets")%string
    /\ (is_Some tokens -> is_Some (vw_authorization w))
    /\ Do_write w s0 = (Ok code, s') /\ (code = 200 \/ code = 201).
Proof.
  unfold PutCredential, bearer_header. destruct c as [cfg|]; [|done].
  destruct (is_empty _ || _ || _); [done|]. destruct (NewRequest _); [done|].
  intros (auth & s0 & Ha & (code & s1 & Hd%p_map_err_ok & Hc)%p_bind_ok)%p_bind_ok.
  assert (Hs : s1 = s' /\ (code = 200 \/ code = 201)).
  { destruct (Z.eqb_spec code 200); [injection Hc; auto|]. destruct (Z.eqb_spec code 201); [injection Hc; auto|].
    cbn [orb] in Hc. by destruct (_ || _). }
  destruct Hs as [-> Hs]. lazymatch type of Hd with Do_write ?w _ = _ => exists cfg, w, s0, code end.
  split_and!; [done..| |exact Hd|exact Hs].
  destruct tokens as [token|]; [|by intros [? ?]]. intros _. cbn.
  apply p_bind_ok in Ha as (t & s2 & _ & Ha). injection Ha as <- _. by eexists.
Qed.

Lemma stored c template param value s ref s' :
  store c template param value s = (Ok ref, s') ->
  sanitizeSegment template <> ""%string /\ sanitizeSegment param <> ""%string
  /\ ref = Ref (credential_address c template param)
  /\ PutCredential NewRequest Do_write tokens (cr_client c) (credential_address c template param) value
       ("Provisioned by maintainerd-core for deployment template " +:+ template) s = (Ok (), s').
Proof.
  unfold CredentialsStore. cbv zeta. cbn [credential_address ad_FolderPath ad_Key].
  destruct (is_empty (sanitizeSegment template)) eqn:E1; [done|].
  destruct (is_empty (sanitizeSegment param)) eqn:E2; [done|]. cbn [orb].
  unfold mbind, P_bind, mret, P_ret. destruct (PutCredential _ _ _ _ _ _ _ s) as [[[]|e] s1]; [|done].
  intros [= <- <-]. split_bools. done.
Qed.

Lemma credential_ref c template param : sanitizeSegment template <> ""%string ->
  Ref (credential_address c template param)
  = ("secret://" +:+ cr_project c +:+ "/" +:+ cr_environment c +:+ "/"
     +:+ sanitizeSegment template +:+ "/" +:+ sanitizeSegment param)%string.
Proof.
  intros H. destruct (sanitized_clean _ H) as [_ Hc]. unfold Ref, credential_address.
  cbn [ad_Project ad_Environment ad_FolderPath ad_Key]. cbv zeta. rewrite trim_slashes_clean by done.
  destruct (is_empty (sanitizeSegment template)) eqn:E; [by apply str_eqb_eq in E|]. cbn [negb].
  do 5 f_equal. apply append_assoc.
Qed.

(** A reference stands for a secret that was written.  [Store] returns one
    only if a vault is configured and answered the write of exactly this value,
    at the address the policy chose, with 200 or 201, carrying a token when a
    token source is configured; and two references are equal only if they name
    the same template and the same parameter, up to surrounding space, so no
    name can reach another's address. *)
Theorem vault_reference_sound c template param value s ref s' :
  store c template param value s = (Ok ref, s') ->
  (exists cfg w s0 code, cr_client c = Some cfg
     /\ vw_address w = Build_Address (cr_project c) (cr_environment c) (TrimSpace template) (TrimSpace param)
     /\ vw_value w = base64_StdEncoding (bytes value)
     /\ (is_Some tokens -> is_Some (vw_authorization w))
     /\ Do_write w s0 = (Ok code, s') /\ (code = 200 \/ code = 201))
  /\ forall template' param' value' s1 s1', store c template' param' value' s1 = (Ok ref, s1') ->
       TrimSpace template' = TrimSpace template /\ TrimSpace param' = TrimSpace param.
Proof.
  intros (Ht & Hp & Hr & Hw)%stored.
  destruct (sanitized_clean _ Ht) as [Et Ct], (sanitized_clean _ Hp) as [Ep Cp]. split.
  - apply put_written in Hw as (cfg & w & s0 & code & Hc & Ha & Hv & _ & Hk & Hd & Hx).
    exists cfg, w, s0, code. split_and!; try done. rewrite Ha. unfold credential_address. by rewrite Et, Ep.
  - intros t' p' v' s1 s1' (Ht' & Hp' & Hr' & _)%stored.
    destruct (sanitized_clean _ Ht') as [Et' Ct'], (sanitized_clean _ Hp') as [Ep' Cp'].
    rewrite Hr in Hr'. rewrite !credential_ref in Hr' by done.
    apply app_inv_head_str, app_inv_head_str, app_inv_head_str, app_inv_head_str, app_inv_head_str in Hr'.
    apply slash_inj in Hr' as [E1 E2]; [|done..]. rewrite <- Et, <- Ep, <- Et', <- Ep'. done.
Qed.
End VaultClaims.
