(* ===== verification/DeployTemplate.v ===== *)
(** * Deployment templates

    [internal/deploytemplate]: a stored template is rendered with parameters
    into a workload spec; every [secret]-typed parameter is written to the vault
    and only its reference reaches the spec.

    Parameters and specs are the values [encoding/json] decodes; a Go [int] is
    the number its text denotes.  [text/template], the conversion of a [float64]
    and kit's [WorkloadSpec] are parameters ([TemplateKit], [WorkloadKit]). *)

From S2P Require Import Prelude Json Storage World AppError Queries Agent Process.
From S2P Require Resource.
Import Resource (WorkloadKit, WorkloadSpec, WorkloadSpec_unmarshal, WorkloadSpec_Validate).

(** ** Data *)

(** [Parameter]; its [Default] is [VNull] for Go's nil. *)
Record Param := {
  pa_Name : string; pa_Type : string; pa_Required : bool; pa_Default : value; pa_Generate : bool }.

Record Template := {
  tp_UUID : Z; tp_Name : string; tp_Version : string; tp_Capability : string; tp_Image : string;
  tp_Parameters : list Param; tp_Spec : object; tp_Metadata : object;
  tp_CreatedAt : Z; tp_UpdatedAt : Z }.

(** A nil slice or map is [None]. *)
Record CreateInput := {
  dc_Name : string; dc_Version : string; dc_Capability : string; dc_Image : string;
  dc_Parameters : option (list Param); dc_Spec : option object; dc_Metadata : option object }.

Record RenderInput := { ri_Name : string; ri_Version : string; ri_Params : object }.

(** [Parse] and [Execute] of a template text with its one function, and [int(f)]. *)
Class TemplateKit := {
  template_Execute : (value -> string) -> string -> object -> result string string;
  float64_int : string -> Z;
}.

Class WorkloadFields {W : WorkloadKit} := {
  spec_Image : WorkloadSpec -> string; set_Image : string -> WorkloadSpec -> WorkloadSpec;
  spec_Name : WorkloadSpec -> string; set_Name : string -> WorkloadSpec -> WorkloadSpec;
  SpecHash : WorkloadSpec -> result string string;
}.

Record Rendered {W : WorkloadKit} := {
  rd_Template : Template; rd_Params : object; rd_Spec : WorkloadSpec; rd_SpecHash : string }.

(** Core's database, the random source (16 or 32 bytes a draw, [None] a failed
    one) and the vault with whatever it takes to call it. *)
Record TNode (V : Type) := mkTNode { tn_world : World; tn_entropy : list (option string); tn_vault : V }.
Arguments mkTNode {V}.
Arguments tn_world {V} t.
Arguments tn_entropy {V} t.
Arguments tn_vault {V} t.

(** [CredentialSink]: the name of the template, of the parameter, the value. *)
Definition CredentialSink (V : Type) : Type := string -> string -> string -> P V string string.

(** ** The parameters column *)

Definition zeroParam : Param := Build_Param "" "" false VNull false.

(** [json.Marshal] of one, with its omitempty fields. *)
Definition Param_marshal (p : Param) : value :=
  VObj ([("name", VStr (pa_Name p)); ("type", VStr (pa_Type p))]%string
        ++ (if pa_Required p then [("required"%string, VBool true)] else [])
        ++ (match pa_Default p with VNull => [] | d => [("default"%string, d)] end)
        ++ (if pa_Generate p then [("generate"%string, VBool true)] else [])).

Definition field_str (k : string) (m : object) : string :=
  match obj_get k m with Some (VStr s) => s | _ => "" end.
Definition field_bool (k : string) (m : object) : bool :=
  match obj_get k m with Some (VBool b) => b | _ => false end.

(** [json.Unmarshal] into [[]Parameter], its error ignored: a field or an
    element of the wrong type stays zero. *)
Definition Param_unmarshal (v : value) : Param :=
  match v with
  | VObj m => {| pa_Name := field_str "name" m; pa_Type := field_str "type" m;
                 pa_Required := field_bool "required" m;
                 pa_Default := default VNull (obj_get "default" m);
                 pa_Generate := field_bool "generate" m |}
  | _ => zeroParam
  end.

Definition marshal_parameters (l : option (list Param)) : result unit value :=
  match l with
  | None => Ok VNull
  | Some ps =>
      let v := VArr (map Param_marshal ps) in if marshalable v then Ok v else Err tt
  end.
Definition unmarshal_parameters (v : value) : list Param :=
  match v with VArr l => map Param_unmarshal l | _ => [] end.

Definition toTemplate (row : DeploymentTemplateRow) : Template := {|
  tp_UUID := dt_TemplateUuid row; tp_Name := dt_Name row; tp_Version := dt_Version row;
  tp_Capability := dt_Capability row; tp_Image := dt_Image row;
  tp_Parameters := unmarshal_parameters (dt_Parameters row);
  tp_Spec := JSONToMap (dt_Spec row); tp_Metadata := JSONToMap (dt_Metadata row);
  tp_CreatedAt := dt_CreatedAt row; tp_UpdatedAt := dt_UpdatedAt row |}.

Fixpoint firstNonEmpty (vals : list string) : string :=
  match vals with
  | [] => ""
  | v :: vals => if negb (is_empty v) then v else firstNonEmpty vals
  end.

(** ** Create and Get *)

Definition Create (in_ : CreateInput) : M error Template :=
  if is_empty (TrimSpace (dc_Name in_)) || is_empty (TrimSpace (dc_Image in_))
  then fail (NewValidation "name and image are required")
  else
    let version := if is_empty (dc_Version in_) then "v1"%string else dc_Version in_ in
    params ← lift (result_map_err (fun _ => NewValidation "invalid parameters")
                     (marshal_parameters (dc_Parameters in_)));
    spec ← lift (result_map_err (fun _ => NewValidation "invalid spec") (marshalMap (dc_Spec in_)));
    meta ← lift (result_map_err (fun _ => NewValidation "invalid metadata") (marshalMap (dc_Metadata in_)));
    row ← map_err DbError
            (CreateDeploymentTemplate (dc_Name in_) version (dc_Capability in_) (dc_Image in_)
               params spec meta);
    mret (toTemplate row).

Definition Get (name version : string) : M error Template :=
  row ← map_err (fun e => match e with
                          | ErrNoRows => NewNotFound "deployment template"
                          | e => DbError e
                          end)
          (GetDeploymentTemplate name (firstNonEmpty [version; "v1"%string]));
  mret (toTemplate row).

(** ** Parameters *)

Definition is_nil_or_empty (v : option value) : bool :=
  match v with
  | None | Some VNull => true
  | Some (VStr s) => is_empty s
  | _ => false
  end.

Section Params.
Context {T : GoText} {K : TemplateKit}.

Definition must_be (p : Param) (what : string) : result string value :=
  Err ("parameter " +:+ fmt_q (pa_Name p) +:+ " must be " +:+ what)%string.

Definition coerceParam (p : Param) (v : value) : result string value :=
  if str_eqb (pa_Type p) "" || str_eqb (pa_Type p) "string" || str_eqb (pa_Type p) "secret" then
    Ok (VStr (Sprint v))
  else if str_eqb (pa_Type p) "int" then
    match v with
    | VNum r => Ok (VNum (pretty (float64_int r)))
    | VStr s => match Atoi s with Some z => Ok (VNum (pretty z)) | None => must_be p "an int" end
    | _ => must_be p "an int"
    end
  else if str_eqb (pa_Type p) "bool" then
    match v with VBool b => Ok (VBool b) | _ => must_be p "a bool" end
  else Err ("parameter " +:+ fmt_q (pa_Name p) +:+ " has unsupported type " +:+ fmt_q (pa_Type p))%string.

Definition is_secret (p : Param) : bool := str_eqb (pa_Type p) "secret".

Fixpoint resolve_loop (defs : list Param) (out : object) : result string object :=
  match defs with
  | [] => Ok out
  | p :: defs =>
      if is_empty (pa_Name p) then Err "parameter name is required"%string
      else if is_secret p then resolve_loop defs out
      else
        let v := obj_get (pa_Name p) out in
        let set_coerced v :=
          match coerceParam p v with
          | Ok c => resolve_loop defs (obj_set (pa_Name p) c out)
          | Err e => Err e
          end in
        if is_nil_or_empty v then
          match pa_Default p with
          | VNull =>
              if pa_Required p then Err ("parameter " +:+ fmt_q (pa_Name p) +:+ " is required")%string
              else resolve_loop defs out
          | d => set_coerced d
          end
        else set_coerced (default VNull v)
  end.

Definition resolveParams (defs : list Param) (supplied : object) : result string object :=
  resolve_loop defs supplied.

(** ** Rendering *)

Definition secretRefPrefix : string := "secret://".
Definition secretRefFunc (v : value) : string :=
  let s := Sprint v in if HasPrefix s secretRefPrefix then s else secretRefPrefix +:+ s.

Definition TrimPrefix (s pre : string) : string :=
  if HasPrefix s pre then str_drop (String.length pre) s else s.
Definition TrimSuffix (s suf : string) : string :=
  if HasSuffix s suf then str_take (String.length s - String.length suf) s else s.

Definition exactParamTemplate (s : string) : option string :=
  let trimmed := TrimSpace s in
  if negb (HasPrefix trimmed "{{") || negb (HasSuffix trimmed "}}") then None
  else
    let inner := TrimSpace (TrimSuffix (TrimPrefix trimmed "{{") "}}") in
    if negb (HasPrefix inner ".") || ContainsAny inner " |()" then None
    else
      let name := TrimPrefix inner "." in
      if is_empty name then None else Some name.

Definition renderString (s : string) (params : object) : result string value :=
  if negb (Contains s "{{") then Ok (VStr s)
  else match exactParamTemplate s with
  | Some name =>
      match obj_get name params with
      | None => Err ("parameter " +:+ fmt_q name +:+ " is not defined")%string
      | Some v => Ok v
      end
  | None =>
      match template_Execute secretRefFunc s params with
      | Ok text => Ok (VStr text)
      | Err e => Err e
      end
  end.

(** The entries of an object in the order of the pairs; Go ranges over a map in
    any order, which decides only which of several errors is returned. *)
Fixpoint renderAny (v : value) (params : object) : result string value :=
  match v with
  | VObj m =>
      let fix fields (m : object) : result string object :=
        match m with
        | [] => Ok []
        | (k, x) :: m =>
            match renderAny x params with
            | Err e => Err e
            | Ok y => match fields m with Err e => Err e | Ok r => Ok ((k, y) :: r) end
            end
        end in
      match fields m with Ok r => Ok (VObj r) | Err e => Err e end
  | VArr l =>
      let fix items (l : list value) : result string (list value) :=
        match l with
        | [] => Ok []
        | x :: l =>
            match renderAny x params with
            | Err e => Err e
            | Ok y => match items l with Err e => Err e | Ok r => Ok (y :: r) end
            end
        end in
      match items l with Ok r => Ok (VArr r) | Err e => Err e end
  | VStr s => renderString s params
  | x => Ok x
  end.
End Params.

(** ** Secrets *)

Definition ErrSecretMaterialUnavailable : string :=
  "deploytemplate: a secret-typed parameter could not be written to maintainerd-secret".

Section Service.
Context {T : GoText} {K : TemplateKit} {W : WorkloadKit} {F : WorkloadFields}.
Context {V : Type} (credentials : option (CredentialSink V)).

Definition on_world {E A} (m : M E A) : P (TNode V) E A := fun n =>
  let '(r, w) := m (tn_world n) in (r, mkTNode w (tn_entropy n) (tn_vault n)).
Definition on_vault {E A} (m : P V E A) : P (TNode V) E A := fun n =>
  let '(r, v) := m (tn_vault n) in (r, mkTNode (tn_world n) (tn_entropy n) v).

Definition generateSecret : P (TNode V) error string := fun n =>
  let rest := mkTNode (tn_world n) (tail (tn_entropy n)) (tn_vault n) in
  match tn_entropy n with
  | Some raw :: _ => (Ok (base64_RawURLEncoding (bytes raw)), rest)
  | _ => (Err (PlainError "deploytemplate: generate credential: entropy source failed"), rest)
  end.

Definition secretValue (p : Param) (supplied : option value) : P (TNode V) error (option string) :=
  let absent :=
    match pa_Default p with
    | VNull =>
        if pa_Generate p then (value ← generateSecret; mret (Some value))
        else if pa_Required p
          then p_fail (NewValidation ("parameter " +:+ fmt_q (pa_Name p) +:+ " is required"))
          else mret None
    | _ => p_fail (NewValidation ("parameter " +:+ fmt_q (pa_Name p)
             +:+ " is a secret and must not declare a default — set generate instead"))
    end in
  match supplied with
  | Some (VStr s) => if negb (is_empty s) then mret (Some s) else absent
  | _ => absent
  end.

(** [delete(params, k)] and [params[k] = v]. *)
Definition obj_delete (k : string) (m : object) : object :=
  List.filter (fun kv => negb (str_eqb (fst kv) k)) m.

Fixpoint vaultSecrets (tplName : string) (defs : list Param) (params : object)
    : P (TNode V) error object :=
  match defs with
  | [] => mret params
  | p :: defs =>
      if negb (is_secret p) then vaultSecrets tplName defs params
      else
        value ← secretValue p (obj_get (pa_Name p) params);
        match value with
        | None => vaultSecrets tplName defs (obj_delete (pa_Name p) params)
        | Some value =>
            match credentials with
            | None => p_fail (ServiceUnavailableError (ErrSecretMaterialUnavailable +:+ ": parameter "
                        +:+ fmt_q (pa_Name p) +:+ " needs a vault and none is configured (SECRET_BASE_URL)"))
            | Some Store =>
                ref ← p_map_err (fun e => ServiceUnavailableError (ErrSecretMaterialUnavailable
                        +:+ ": parameter " +:+ fmt_q (pa_Name p) +:+ ": " +:+ e))
                      (on_vault (Store tplName (pa_Name p) value));
                vaultSecrets tplName defs (obj_set (pa_Name p) (VStr ref) params)
            end
        end
  end.

(** What [Render] does with the resolved and vaulted parameters: no state. *)
Definition assemble (tpl : Template) (params : object) : result error Rendered :=
  match renderAny (VObj (tp_Spec tpl)) params with
  | Err e => Err (NewValidation e)
  | Ok (VObj renderedMap) =>
      if negb (marshalable (VObj renderedMap)) then Err (PlainError "json: unsupported type")
      else match WorkloadSpec_unmarshal (VObj renderedMap) with
      | Err _ => Err (NewValidation "rendered spec is not a WorkloadSpec")
      | Ok spec =>
          let spec := if is_empty (spec_Image spec) then set_Image (tp_Image tpl) spec else spec in
          let spec :=
            if is_empty (spec_Name spec) then
              match obj_get "name" params with
              | Some (VStr name) => set_Name (if negb (is_empty name) then name else tp_Name tpl) spec
              | _ => set_Name (tp_Name tpl) spec
              end
            else spec in
          match WorkloadSpec_Validate spec with
          | Some e => Err (NewValidation e)
          | None =>
              match SpecHash spec with
              | Err e => Err (PlainError e)
              | Ok hash => Ok (Build_Rendered W tpl params spec hash)
              end
          end
      end
  | Ok _ => Err (NewValidation "template spec must render to an object")
  end.

Definition Render (in_ : RenderInput) : P (TNode V) error Rendered :=
  tpl ← on_world (Get (ri_Name in_) (ri_Version in_));
  params ← p_lift (result_map_err NewValidation (resolveParams (tp_Parameters tpl) (ri_Params in_)));
  params ← vaultSecrets (tp_Name tpl) (tp_Parameters tpl) params;
  p_lift (assemble tpl params).
End Service.
