(* ===== verification/TemplateSecrets.v ===== *)
(** * What a rendered template reveals

    Theorems about [DeployTemplate]: the values of secret parameters reach the
    vault and nothing else, a rendered spec has the shape of the stored one, and
    what is stored is what was given. *)

From S2P Require Import Prelude Json Storage World AppError Queries Agent Process Identity ControlClient Vault.
From S2P Require Import DeployTemplate.
From S2P Require Resource.
Import Resource (WorkloadKit).

(** ** Parameters that differ in secrets only *)

Definition hidden (v : value) : Prop := exists s, v = VStr s /\ s <> ""%string.

Definition entry_agrees (N : string -> Prop) (kv1 kv2 : string * value) : Prop :=
  fst kv1 = fst kv2 /\ (snd kv1 = snd kv2 \/ (N (fst kv1) /\ hidden (snd kv1) /\ hidden (snd kv2))).

(** Two Go maps with the same keys, equal outside [N]; at a name of [N] both may
    hold texts of their own. *)
Definition agree (N : string -> Prop) (m1 m2 : object) : Prop :=
  NoDup (map fst m1) /\ Forall2 (entry_agrees N) m1 m2.

Lemma entry_agrees_mono (N N' : string -> Prop) kv1 kv2 :
  (N (fst kv1) -> N' (fst kv1)) -> entry_agrees N kv1 kv2 -> entry_agrees N' kv1 kv2.
Proof. intros H [? [?|(? & ? & ?)]]; split; auto. Qed.

Lemma agree_get N m1 m2 k : agree N m1 m2 ->
  match obj_get k m1, obj_get k m2 with
  | None, None => True
  | Some v1, Some v2 => v1 = v2 \/ (N k /\ hidden v1 /\ hidden v2)
  | _, _ => False
  end.
Proof.
  intros [_ H]. induction H as [|[k1 v1] [k2 v2] l1 l2 [Hk Hv] Hl IH]; [done|]. cbn in *. subst k2.
  unfold str_eqb. destruct (String.eqb_spec k1 k) as [->|]; [done|]. exact IH.
Qed.

Lemma obj_set_keys k v m : NoDup (map fst m) -> NoDup (map fst (obj_set k v m))
  /\ forall x, x ∈ map fst (obj_set k v m) -> x = k \/ x ∈ map fst m.
Proof.
  induction m as [|[j u] m IH]; cbn.
  - intros _. split; [apply NoDup_singleton|]. intros x Hx%list_elem_of_singleton. by left.
  - intros [Hj Hm]%NoDup_cons. destruct (IH Hm) as [H1 H2]. unfold str_eqb.
    destruct (String.eqb_spec j k) as [->|Hne]; cbn.
    + split; [by constructor|]. intros x. rewrite elem_of_cons. tauto.
    + split.
      * constructor; [|done]. intros [?|?]%H2; congruence.
      * intros x [->|[->|?]%H2]%elem_of_cons; [right|by left|right]; set_solver.
Qed.

Lemma agree_set (N N' : string -> Prop) k v m1 m2 :
  (forall x, N x -> x = k \/ N' x) -> agree N m1 m2 -> agree N' (obj_set k v m1) (obj_set k v m2).
Proof.
  intros HN [Hd H]. split; [by apply obj_set_keys|].
  induction H as [|[k1 v1] [k2 v2] l1 l2 He Hl IH]; cbn [obj_set].
  - constructor; [|constructor]. split; [done|by left].
  - destruct He as [Hk Hv]. cbn in Hk, Hv, Hd. subst k2. apply NoDup_cons in Hd as [Hn Hd].
    unfold str_eqb. destruct (String.eqb_spec k1 k) as [->|Hne].
    + constructor; [split; [done|by left]|]. clear IH. revert Hn.
      induction Hl as [|[j1 u1] [j2 u2] l1 l2 He Hl IH]; [constructor|]. cbn. intros Hn. constructor.
      * eapply entry_agrees_mono; [|exact He]. cbn. intros [->|?]%HN; [|done]. set_solver.
      * apply IH; [|set_solver]. by apply NoDup_cons in Hd as [_ Hd].
    + constructor; [|by apply IH]. eapply entry_agrees_mono; [|by split]. cbn. intros [?|?]%HN; done.
Qed.

Lemma agree_delete (N N' : string -> Prop) k m1 m2 :
  (forall x, N x -> x = k \/ N' x) -> agree N m1 m2 -> agree N' (obj_delete k m1) (obj_delete k m2).
Proof.
  intros HN [Hd H]. unfold obj_delete. induction H as [|[k1 v1] [k2 v2] l1 l2 He Hl IH]; [done|].
  cbn in Hd. apply NoDup_cons in Hd as [Hn Hd]. destruct (IH Hd) as [IH1 IH2].
  pose proof He as [Hk _]. cbn in Hk |- *. subst k2. unfold str_eqb.
  destruct (String.eqb_spec k1 k) as [->|Hne]; cbn; [done|]. split.
  - constructor; [|done]. intros (kv & Hkv & Hin)%list_elem_of_fmap. apply Hn.
    apply list_elem_of_In, filter_In in Hin as [Hin _]. apply list_elem_of_fmap.
    exists kv. split; [done|]. by apply list_elem_of_In.
  - constructor; [|done]. eapply entry_agrees_mono; [|exact He]. cbn. intros [?|?]%HN; done.
Qed.

Lemma agree_nothing m1 m2 : agree (fun _ => False) m1 m2 -> m1 = m2.
Proof.
  intros [_ H]. induction H as [|[k1 v1] [k2 v2] l1 l2 [Hk Hv] Hl IH]; [done|]. cbn in *.
  destruct Hv as [Hv|[[] _]]. by subst.
Qed.

(** ** Secrets do not reach the result *)

Section Blind.
Context {T : GoText} {K : TemplateKit} {W : WorkloadKit} {F : WorkloadFields}.
Context {V : Type} (credentials : option (CredentialSink V)) (Rel : V -> V -> Prop).

(** Two vaults that differ in the values they hold. *)
Definition sim (n1 n2 : TNode V) : Prop :=
  tn_world n1 = tn_world n2
  /\ Forall2 (fun a b : option string => is_Some a <-> is_Some b) (tn_entropy n1) (tn_entropy n2)
  /\ Rel (tn_vault n1) (tn_vault n2).

(** Two runs answer alike and end in alike states. *)
Definition alike_runs {E A} (QA : A -> A -> Prop) (r1 r2 : result E A * TNode V) : Prop :=
  match fst r1, fst r2 with
  | Ok a, Ok b => QA a b
  | Err e, Err e' => e = e'
  | _, _ => False
  end /\ sim (snd r1) (snd r2).

(** A vault whose answer does not depend on the value it is given. *)
Definition blind (Store : CredentialSink V) : Prop := forall t p v1 v2 x y, Rel x y ->
  fst (Store t p v1 x) = fst (Store t p v2 y) /\ Rel (snd (Store t p v1 x)) (snd (Store t p v2 y)).

Hypothesis Hblind : forall Store, credentials = Some Store -> blind Store.

Lemma alike_bind {E A B} (QA : A -> A -> Prop) (QB : B -> B -> Prop) (m1 m2 : P (TNode V) E A)
    (k1 k2 : A -> P (TNode V) E B) n1 n2 :
  alike_runs QA (m1 n1) (m2 n2) ->
  (forall a b s1 s2, QA a b -> sim s1 s2 -> alike_runs QB (k1 a s1) (k2 b s2)) ->
  alike_runs QB ((m1 ≫= k1) n1) ((m2 ≫= k2) n2).
Proof.
  unfold alike_runs at 1. unfold mbind, P_bind.
  destruct (m1 n1) as [[a|e] s1], (m2 n2) as [[b|e'] s2]; cbn; intros [H Hs] Hk; try done.
  by apply Hk.
Qed.

Lemma alike_ret {E A} (QA : A -> A -> Prop) a b n1 n2 : QA a b -> sim n1 n2 ->
  alike_runs QA ((mret a : P (TNode V) E A) n1) ((mret b : P (TNode V) E A) n2).
Proof. done. Qed.

(** A step of the database, or of the vault with two values. *)
Lemma alike_world {E A} (m : M E A) n1 n2 : sim n1 n2 ->
  alike_runs eq (on_world m n1) (on_world m n2).
Proof.
  intros (Hw & He & Hv). unfold on_world, alike_runs. rewrite <- Hw.
  by destruct (m (tn_world n1)) as [[a|e] w].
Qed.

Lemma alike_store Store t p v1 v2 n1 n2 : credentials = Some Store -> sim n1 n2 ->
  alike_runs eq (on_vault (Store t p v1) n1) (on_vault (Store t p v2) n2).
Proof.
  intros HS (Hw & He & Hv). destruct (Hblind _ HS t p v1 v2 _ _ Hv) as [Ha Hr]. unfold on_vault.
  destruct (Store t p v1 (tn_vault n1)) as [[a|e] x], (Store t p v2 (tn_vault n2)) as [[b|e'] y];
    cbn in *; simplify_eq; done.
Qed.

Lemma resolve_alike N defs o1 o2 :
  (forall p, p ∈ defs -> N (pa_Name p) -> is_secret p = true) -> agree N o1 o2 ->
  match resolve_loop defs o1, resolve_loop defs o2 with
  | Ok a, Ok b => agree N a b
  | Err e, Err e' => e = e'
  | _, _ => False
  end.
Proof.
  revert o1 o2. induction defs as [|p defs IH]; intros o1 o2 HN Ha; [done|]. cbn [resolve_loop].
  assert (HN' : forall q, q ∈ defs -> N (pa_Name q) -> is_secret q = true).
  { intros q Hq. apply HN. by apply list_elem_of_further. }
  destruct (is_empty (pa_Name p)); [done|]. destruct (is_secret p) eqn:Es; [by apply IH|]. cbv zeta.
  assert (Hg : obj_get (pa_Name p) o1 = obj_get (pa_Name p) o2).
  { pose proof (agree_get N o1 o2 (pa_Name p) Ha) as Hg.
    destruct (obj_get _ o1), (obj_get _ o2); try done. destruct Hg as [->|[Hg _]]; [done|].
    apply HN in Hg; [congruence|]. apply list_elem_of_here. }
  assert (Hset : forall v, match
      (match coerceParam p v with Ok c => resolve_loop defs (obj_set (pa_Name p) c o1) | Err e => Err e end),
      (match coerceParam p v with Ok c => resolve_loop defs (obj_set (pa_Name p) c o2) | Err e => Err e end)
    with Ok a, Ok b => agree N a b | Err e, Err e' => e = e' | _, _ => False end).
  { intros v. destruct (coerceParam p v) as [c|]; [|done]. apply IH; [done|]. by apply (agree_set N); [right|]. }
  rewrite <- Hg. destruct (is_nil_or_empty _); [|apply Hset].
  destruct (pa_Default p); [|apply Hset..]. destruct (pa_Required p); [done|]. by apply IH.
Qed.

(** Both have a value to store, or neither. *)
Lemma secretValue_alike p v1 v2 n1 n2 :
  match v1, v2 with
  | None, None => True
  | Some v1, Some v2 => v1 = v2 \/ (hidden v1 /\ hidden v2)
  | _, _ => False
  end -> sim n1 n2 ->
  alike_runs (fun a b => is_Some a <-> is_Some b) (secretValue p v1 n1) (secretValue p v2 n2).
Proof.
  intros Hv Hs. unfold secretValue. cbv zeta.
  set (absent := match pa_Default p with VNull => _ | _ => _ end : P (TNode V) error (option string)).
  assert (Hab : alike_runs (fun a b => is_Some a <-> is_Some b) (absent n1) (absent n2)).
  { unfold absent. destruct (pa_Default p); try done. destruct (pa_Generate p).
    - apply (alike_bind (fun _ _ => True)); [|by intros; apply alike_ret].
      destruct Hs as (Hw & He & Hr). unfold generateSecret.
      destruct He as [|[a|] [b|] l1 l2 Hab He]; cbn; try done; destruct Hab as [H1 H2];
        [by destruct H1|by destruct H2].
    - by destruct (pa_Required p). }
  destruct v1 as [v1|], v2 as [v2|]; [|done..|apply Hab].
  destruct Hv as [->|[(s1 & -> & H1) (s2 & -> & H2)]].
  - destruct v2; try apply Hab. by destruct (negb _).
  - destruct (is_empty s1) eqn:E1; [by apply str_eqb_eq in E1|].
    destruct (is_empty s2) eqn:E2; [by apply str_eqb_eq in E2|]. done.
Qed.

Definition secret_in (defs : list Param) (k : string) : Prop :=
  exists p, p ∈ defs /\ is_secret p = true /\ pa_Name p = k.

Lemma secret_in_cons p defs k : secret_in (p :: defs) k -> k = pa_Name p \/ secret_in defs k.
Proof.
  intros (q & [->|Hq]%elem_of_cons & Hs & <-); [by left|]. right. by exists q.
Qed.

Lemma vault_alike t defs m1 m2 n1 n2 :
  agree (secret_in defs) m1 m2 -> sim n1 n2 ->
  alike_runs eq (vaultSecrets credentials t defs m1 n1) (vaultSecrets credentials t defs m2 n2).
Proof.
  revert m1 m2 n1 n2. induction defs as [|p defs IH]; intros m1 m2 n1 n2 Ha Hs; cbn [vaultSecrets].
  - apply alike_ret; [|done]. apply agree_nothing. destruct Ha as [Hd Ha]. split; [done|].
    eapply Forall2_impl; [exact Ha|]. intros [k u] [k' u'] [H1 [H2|[(q & Hq & _) _]]].
    + split; [done|by left].
    + by apply elem_of_nil in Hq.
  - destruct (is_secret p) eqn:Es; cbn [negb].
    2:{ apply IH; [|done]. destruct Ha as [Hd Ha]. split; [done|]. eapply Forall2_impl; [exact Ha|].
        intros kv kv'. apply entry_agrees_mono. intros (q & [->|Hq]%elem_of_cons & H1 & H2); [congruence|].
        by exists q. }
    eapply alike_bind; [apply secretValue_alike|].
    + pose proof (agree_get _ m1 m2 (pa_Name p) Ha) as Hg.
      destruct (obj_get _ m1), (obj_get _ m2); try done. destruct Hg as [->|[_ Hg]]; auto.
    + done.
    + intros a b s1 s2 Hab Hs'. destruct a as [x|], b as [y|];
        [|by destruct (proj1 Hab ltac:(by eexists))|by destruct (proj2 Hab ltac:(by eexists))|].
      * pose proof (fun Store E => alike_store Store t (pa_Name p) x y s1 s2 E Hs') as Hst.
        destruct credentials as [Store|]; [|done]. specialize (Hst Store eq_refl).
        apply (alike_bind eq).
        { unfold p_map_err. destruct (on_vault _ s1) as [[r|e] z1], (on_vault _ s2) as [[r'|e'] z2];
            destruct Hst as [H1 H2]; cbn in *; simplify_eq; done. }
        intros r ? z1 z2 <- Hz. apply IH; [|done].
        eapply agree_set; [apply secret_in_cons|done].
      * apply IH; [|done]. eapply agree_delete; [apply secret_in_cons|done].
Qed.
End Blind.


(** The vault client is blind if the service behind it is: its status depends on
    the address and the caller, not on the value. *)
Section ClientBlind.
Context {T : GoText} {S : Type} (Rel : S -> S -> Prop).
Context (NewRequest : string -> option string) (Do_write : VaultWrite -> P S string Z).
Context (tokens : option (P S identity_error string)).

Definition with_value (v : string) (w : VaultWrite) : VaultWrite :=
  Build_VaultWrite (vw_url w) (vw_address w) v (vw_description w) (vw_tenant w) (vw_authorization w).

Hypothesis Hwrite : forall w v1 v2 x y, Rel x y ->
  fst (Do_write (with_value v1 w) x) = fst (Do_write (with_value v2 w) y)
  /\ Rel (snd (Do_write (with_value v1 w) x)) (snd (Do_write (with_value v2 w) y)).
Hypothesis Htoken : forall token x y, tokens = Some token -> Rel x y ->
  fst (token x) = fst (token y) /\ Rel (snd (token x)) (snd (token y)).

Definition twin {E A} (r1 r2 : result E A * S) : Prop := fst r1 = fst r2 /\ Rel (snd r1) (snd r2).

Lemma twin_bind {E A B} (m1 m2 : P S E A) (k1 k2 : A -> P S E B) x y :
  twin (m1 x) (m2 y) -> (forall a x' y', Rel x' y' -> twin (k1 a x') (k2 a y')) ->
  twin ((m1 ≫= k1) x) ((m2 ≫= k2) y).
Proof.
  unfold twin at 1, mbind, P_bind. destruct (m1 x) as [[a|e] x'], (m2 y) as [[b|e'] y']; cbn;
    intros [H1 H2] Hk; simplify_eq; [by apply Hk|done].
Qed.
Lemma twin_map_err {E F A} (f : E -> F) (m1 m2 : P S E A) x y :
  twin (m1 x) (m2 y) -> twin (p_map_err f m1 x) (p_map_err f m2 y).
Proof. unfold twin, p_map_err. destruct (m1 x), (m2 y). cbn. by intros [-> ?]. Qed.

Lemma credentials_blind c :
  blind Rel (fun t p v => p_map_err vault_Error (CredentialsStore NewRequest Do_write tokens c t p v)).
Proof.
  intros t p v1 v2 x y Hr. apply twin_map_err. unfold CredentialsStore. cbv zeta.
  destruct (is_empty _ || _); [done|]. apply twin_bind; [|by intros [] ???].
  unfold PutCredential. destruct (cr_client c) as [cfg|]; [|done].
  destruct (is_empty _ || _ || _); [done|]. destruct (NewRequest _); [done|].
  apply twin_bind.
  { unfold bearer_header. destruct tokens as [token|]; [|done].
    apply twin_bind; [by apply twin_map_err, Htoken|by intros]. }
  intros auth x' y' Hr'. apply twin_bind; [|intros; by repeat case_match].
  apply twin_map_err.
  exact (Hwrite (Build_VaultWrite _ _ "" _ _ auth) (base64_StdEncoding (bytes v1))
    (base64_StdEncoding (bytes v2)) x' y' Hr').
Qed.
End ClientBlind.

(** ** Every secret of a rendered template is a reference *)

Lemma obj_get_delete k k' m : obj_get k (obj_delete k' m) = if str_eqb k' k then None else obj_get k m.
Proof.
  unfold obj_delete. induction m as [|[j u] m IH]; cbn; [by destruct (str_eqb k' k)|].
  unfold str_eqb in *. destruct (String.eqb_spec j k') as [->|Hne]; cbn; rewrite IH.
  - destruct (String.eqb_spec k' k) as [->|]; done.
  - unfold str_eqb. destruct (String.eqb_spec k' k) as [->|]; [by destruct (String.eqb_spec j k)|done].
Qed.

Section References.
Context {T : GoText} {K : TemplateKit} {W : WorkloadKit} {F : WorkloadFields}.
Context {V : Type} (credentials : option (CredentialSink V)).

(** The parameter is absent, or what the vault returned for a write under the
    template's and the parameter's names. *)
Definition stored_or_absent (t k : string) (params : object) : Prop :=
  match obj_get k params with
  | None => True
  | Some v => exists Store value x ref x', credentials = Some Store
      /\ Store t k value x = (Ok ref, x') /\ v = VStr ref
  end.

Lemma vault_references t defs m n m' n' :
  vaultSecrets credentials t defs m n = (Ok m', n') ->
  (forall p, p ∈ defs -> is_secret p = true -> stored_or_absent t (pa_Name p) m')
  /\ forall k, stored_or_absent t k m -> stored_or_absent t k m'.
Proof.
  revert m n. induction defs as [|p defs IH]; intros m n; cbn [vaultSecrets].
  - intros [= <- <-]. split; [|done]. by intros q ?%elem_of_nil.
  - assert (Hstep : forall m1 n1, vaultSecrets credentials t defs m1 n1 = (Ok m', n') ->
      (forall k, stored_or_absent t k m -> stored_or_absent t k m1) ->
      (is_secret p = true -> stored_or_absent t (pa_Name p) m1) ->
      (forall q, q ∈ p :: defs -> is_secret q = true -> stored_or_absent t (pa_Name q) m')
      /\ forall k, stored_or_absent t k m -> stored_or_absent t k m').
    { intros m1 n1 [H1 H2]%IH Hk Hp. split; [|by auto].
      intros q [->|Hq]%elem_of_cons Hq'; [by auto|by apply H1]. }
    destruct (is_secret p) eqn:Es; cbn [negb]; [|intros E; by apply (Hstep m n)].
    intros (a & s1 & _ & E)%p_bind_ok. destruct a as [value|].
    + destruct credentials as [Store|] eqn:EC; [|done].
      apply p_bind_ok in E as (ref & s2 & Hs%p_map_err_ok & E). unfold on_vault in Hs.
      destruct (Store t (pa_Name p) value (tn_vault s1)) as [r x'] eqn:ES. injection Hs as -> <-.
      apply (Hstep _ _ E); unfold stored_or_absent; [intros k|intros _]; rewrite obj_get_set.
      * unfold str_eqb. destruct (String.eqb_spec (pa_Name p) k) as [<-|]; [|done]. intros _.
        rewrite EC. eauto 10.
      * rewrite str_eqb_refl, EC. eauto 10.
    + apply (Hstep _ _ E); unfold stored_or_absent; [intros k|intros _]; rewrite obj_get_delete.
      * by destruct (str_eqb (pa_Name p) k).
      * by rewrite str_eqb_refl.
Qed.
End References.

Lemma assemble_ok {T : GoText} {K : TemplateKit} {W : WorkloadKit} {F : WorkloadFields} tpl m r :
  assemble tpl m = Ok r -> rd_Template r = tpl /\ rd_Params r = m.
Proof.
  unfold assemble. destruct (renderAny _ _) as [[]|]; try done.
  destruct (negb _); [done|]. destruct (Resource.WorkloadSpec_unmarshal _); [|done]. cbv zeta.
  destruct (Resource.WorkloadSpec_Validate _); [done|]. destruct (SpecHash _); [|done]. by intros [= <-].
Qed.

(** A render that succeeds has vaulted its secrets.  Every secret-typed
    parameter of the template is then either absent from the parameters the spec
    was rendered with, or it is a reference the vault returned for a write under
    this template and parameter; without a vault every one of them is absent.
    So a vault that is missing or refuses ends the provision, and there is no
    other way for the value into the spec. *)
Theorem rendered_secrets_are_references {T : GoText} {K : TemplateKit} {W : WorkloadKit}
    {F : WorkloadFields} {V} (credentials : option (CredentialSink V)) in_ n r n' :
  Render credentials in_ n = (Ok r, n') ->
  forall p, p ∈ tp_Parameters (rd_Template r) -> is_secret p = true ->
  match obj_get (pa_Name p) (rd_Params r) with
  | None => True
  | Some v => exists Store value x ref x', credentials = Some Store
      /\ Store (tp_Name (rd_Template r)) (pa_Name p) value x = (Ok ref, x') /\ v = VStr ref
  end.
Proof.
  intros (tpl & s1 & _ & (m & s2 & _ & (m' & s3 & Hv & Ha)%p_bind_ok)%p_bind_ok)%p_bind_ok p.
  injection Ha as Ha _. apply assemble_ok in Ha as Hr.
  destruct Hr as [-> ->]. intros Hp Hs. exact (proj1 (vault_references credentials _ _ _ _ _ _ Hv) p Hp Hs).
Qed.
