(* ===== verification/TemplateRender.v ===== *)
(** * Rendered specs and stored templates

    The shape of what a template renders to, the round trip of a template
    through its row, and sample renders. *)

From S2P Require Import Prelude Json Storage World AppError Queries Agent Process Identity ControlClient Vault.
From S2P Require Import DeployTemplate TemplateSecrets.
From S2P Require Resource Sample SetupSample.
Import Resource (WorkloadKit).

(** ** The shape of a rendered spec *)

Section Shape.
Context {T : GoText} {K : TemplateKit}.

Inductive shape (params : object) : value -> value -> Prop :=
  | shape_obj m m' : Forall2 (fun kv kv' => fst kv' = fst kv /\ shape params (snd kv) (snd kv')) m m' ->
      shape params (VObj m) (VObj m')
  | shape_arr l l' : Forall2 (shape params) l l' -> shape params (VArr l) (VArr l')
  | shape_plain s : Contains s "{{" = false -> shape params (VStr s) (VStr s)
  | shape_text s t : Contains s "{{" = true -> template_Execute secretRefFunc s params = Ok t ->
      shape params (VStr s) (VStr t)
  | shape_param s name v : Contains s "{{" = true -> exactParamTemplate s = Some name ->
      obj_get name params = Some v -> shape params (VStr s) v
  | shape_null : shape params VNull VNull
  | shape_bool b : shape params (VBool b) (VBool b)
  | shape_num r : shape params (VNum r) (VNum r)
  | shape_other : shape params VOther VOther.

Lemma fields_shape params m r :
  Forall (fun kv => forall v', renderAny (snd kv) params = Ok v' -> shape params (snd kv) v') m ->
  (fix fields (m : object) : result string object :=
     match m with
     | [] => Ok []
     | (k, x) :: m =>
         match renderAny x params with
         | Err e => Err e
         | Ok y => match fields m with Err e => Err e | Ok r => Ok ((k, y) :: r) end
         end
     end) m = Ok r ->
  Forall2 (fun kv kv' => fst kv' = fst kv /\ shape params (snd kv) (snd kv')) m r.
Proof.
  intros H. revert r. induction H as [|[k x] m Hx Hm IH]; intros r; [intros [= <-]; constructor|].
  cbn in Hx. destruct (renderAny x params) as [y|] eqn:E; [|done].
  destruct (_ m) as [r'|]; [|done]. intros [= <-]. constructor; auto.
Qed.

Lemma items_shape params l r :
  Forall (fun x => forall v', renderAny x params = Ok v' -> shape params x v') l ->
  (fix items (l : list value) : result string (list value) :=
     match l with
     | [] => Ok []
     | x :: l =>
         match renderAny x params with
         | Err e => Err e
         | Ok y => match items l with Err e => Err e | Ok r => Ok (y :: r) end
         end
     end) l = Ok r ->
  Forall2 (shape params) l r.
Proof.
  intros H. revert r. induction H as [|x l Hx Hl IH]; intros r; [intros [= <-]; constructor|].
  destruct (renderAny x params) as [y|] eqn:E; [|done].
  destruct (_ l) as [r'|]; [|done]. intros [= <-]. constructor; auto.
Qed.

Lemma renderString_shape s params v' : renderString s params = Ok v' -> shape params (VStr s) v'.
Proof.
  unfold renderString. destruct (Contains s "{{") eqn:Ec; cbn [negb]; [|intros [= <-]; by constructor].
  destruct (exactParamTemplate s) as [name|] eqn:Ep.
  - destruct (obj_get name params) as [v|] eqn:Eg; [|done]. intros [= <-]. by eapply shape_param.
  - destruct (template_Execute _ _ _) as [t|] eqn:Et; [|done]. intros [= <-]. by eapply shape_text.
Qed.

Lemma renderAny_shape v params : forall v', renderAny v params = Ok v' -> shape params v v'.
Proof.
  induction v as [|b|r|s|l IH|m IH|] using value_ind'; intros v' E; cbn in E;
    try (injection E as <-; constructor).
  - by apply renderString_shape.
  - destruct (_ l) as [r|] eqn:Er; [|done]. injection E as <-. apply shape_arr. by apply (items_shape params l r IH).
  - destruct (_ m) as [r|] eqn:Er; [|done]. injection E as <-. apply shape_obj. by apply (fields_shape params m r IH).
Qed.

Lemma shape_keys params m v' : shape params (VObj m) v' ->
  exists m', v' = VObj m' /\ map fst m' = map fst m.
Proof.
  intros H. inversion H as [m0 m' Hm| | | | | | | |]; subst. exists m'. split; [done|].
  clear H. induction Hm as [|kv kv1 l l1 [Hk _] Hl IH]; [done|]. cbn. by rewrite Hk, IH.
Qed.
End Shape.


(** ** What is stored is what was given *)

Lemma field_of_marshal p : Param_unmarshal (Param_marshal p) = p.
Proof.
  destruct p as [n t r d g]. unfold Param_marshal. cbn. f_equal.
  - by destruct r, d, g.
  - by destruct r, d, g.
  - by destruct r, d, g.
Qed.

Lemma parameters_roundtrip l v : marshal_parameters l = Ok v -> unmarshal_parameters v = default [] l.
Proof.
  unfold marshal_parameters. destruct l as [ps|]; [|intros [= <-]; done]. cbv zeta.
  destruct (marshalable _); [|done]. intros [= <-]. cbn. rewrite map_map.
  rewrite (map_ext _ id) by apply field_of_marshal. apply map_id.
Qed.

Lemma insert_selected {R} `{!TableRow R} mk u (t : Table R) r t' (p : R -> bool) :
  insert mk u t = Ok (r, t') -> row_deleted r = None -> p r = true ->
  (forall q, p q = true -> row_key_eqb q r = true) -> select_one p t' = Ok r.
Proof.
  intros Hi Hl Hp Hk. pose proof Hi as (_ & Hrows & _)%insert_inv. unfold select_one, select.
  rewrite Hrows, filter_app.
  assert (Hnil : filter (fun q => live q && p q = true) (tbl_rows t) = []).
  { unfold insert in Hi. destruct (negb _); [done|]. destruct (existsb _ _) eqn:Ex; [done|].
    injection Hi as <- _. destruct (filter _ _) as [|q l] eqn:Ef; [done|].
    assert (Hq : q ∈ filter (fun q => live q && p q = true) (tbl_rows t)) by (rewrite Ef; left).
    apply list_elem_of_filter in Hq as [Hq Hin]. apply andb_prop in Hq as [H1 H2].
    rewrite <- not_true_iff_false in Ex. destruct Ex. apply existsb_exists. exists q.
    split; [by apply list_elem_of_In|]. rewrite H1, (Hk q H2). by rewrite orb_true_r. }
  rewrite Hnil. cbn. rewrite decide_True; [done|]. unfold live. by rewrite Hl, Hp.
Qed.

(** C32: a template survives its row.  What [Create] accepts comes back as it
    was given, defaults, flags and types of every parameter included, the empty
    version as v1; and a [Get] by the same name and version right after it finds
    exactly this template. *)
Theorem template_roundtrip in_ w t w' :
  Create in_ w = (Ok t, w') -> w_faults w' = [] ->
  Get (dc_Name in_) (dc_Version in_) w' = (Ok t, w')
  /\ tp_Name t = dc_Name in_ /\ tp_Image t = dc_Image in_ /\ tp_Capability t = dc_Capability in_
  /\ tp_Version t = (if is_empty (dc_Version in_) then "v1"%string else dc_Version in_)
  /\ tp_Parameters t = default [] (dc_Parameters in_)
  /\ tp_Spec t = default [] (dc_Spec in_) /\ tp_Metadata t = default [] (dc_Metadata in_).
Proof.
  unfold Create. destruct (is_empty _ || _); [done|]. cbv zeta.
  set (ver := if is_empty (dc_Version in_) then "v1"%string else dc_Version in_).
  unfold mbind, M_bind, lift, mret, M_ret.
  destruct (marshal_parameters _) as [ps|] eqn:Ep; [|done]. cbn.
  destruct (marshalMap (dc_Spec in_)) as [sp|] eqn:Es; [|done]. cbn.
  destruct (marshalMap (dc_Metadata in_)) as [me|] eqn:Em; [|done]. cbn. unfold map_err.
  destruct (CreateDeploymentTemplate _ _ _ _ _ _ _ w) as [[row|e] w1] eqn:Ec; [|done]. cbn.
  intros [= <- <-] Hf.
  apply q_insert_Ok_inv in Ec as (tab & Hi & ->). pose proof Hi as (Hr & _ & _)%insert_inv.
  apply parameters_roundtrip in Ep. apply marshalMap_roundtrip in Es, Em.
  rewrite Hr. cbn. split_and!; [|done..|exact Ep|exact Es|exact Em].
  assert (Hv : firstNonEmpty [dc_Version in_; "v1"%string] = ver).
  { unfold ver. cbn. by destruct (is_empty (dc_Version in_)). }
  unfold Get, mbind, M_bind, map_err, GetDeploymentTemplate. rewrite Hv, (q_get_run _ Hf).
  match goal with |- context [select_one ?p ?t] => assert (Hsel : select_one p t = Ok row) end.
  { cbn. eapply (insert_selected _ _ _ _ _ _ Hi); rewrite ?Hr; cbn; [done| |].
    - by rewrite !str_eqb_refl.
    - done. }
  rewrite Hsel, Hr. done.
Qed.

(** ** A sample template *)

Existing Instances SetupSample.install_text Sample.open_kit.

(** A template engine that answers with the text it was given. *)
Definition echo_kit : TemplateKit := {| template_Execute _ s _ := Ok s; float64_int _ := 0 |}.
Definition value_fields : WorkloadFields := {|
  spec_Image v := match v with VObj m => field_str "image" m | _ => "" end;
  set_Image s v := VObj (obj_set "image" (VStr s) (JSONToMap v));
  spec_Name v := match v with VObj m => field_str "name" m | _ => "" end;
  set_Name s v := VObj (obj_set "name" (VStr s) (JSONToMap v));
  SpecHash v := Ok (Sprint v) |}.
Existing Instances echo_kit value_fields.

(** A database server whose password is given or generated. *)
Definition postgres : CreateInput := {|
  dc_Name := "postgres"; dc_Version := ""; dc_Capability := "database"; dc_Image := "postgres:16";
  dc_Parameters := Some [Build_Param "password" "secret" false VNull true;
                         Build_Param "port" "int" false (VNum "5432") false];
  dc_Spec := Some [("env", VObj [("PGPASSWORD", VStr "{{.password}}")]); ("port", VStr "{{ .port }}")];
  dc_Metadata := None |}%string.

Definition template_world : World := snd (Create postgres Sample.sample_world).

Lemma template_roundtrip_witness :
  exists t, Create postgres Sample.sample_world = (Ok t, template_world)
    /\ Get "postgres" "" template_world = (Ok t, template_world).
Proof.
  destruct (Create postgres Sample.sample_world) as [[t|e] w'] eqn:E;
    [|exfalso; assert (H : is_ok (fst (Create postgres Sample.sample_world)) = true) by (vm_compute; reflexivity);
      rewrite E in H; discriminate].
  assert (Hw : w' = template_world) by (unfold template_world; by rewrite E).
  exists t. split; [by rewrite Hw|]. rewrite <- Hw.
  assert (Hf : w_faults w' = []) by (rewrite Hw; vm_compute; reflexivity).
  exact (proj1 (template_roundtrip postgres Sample.sample_world t w' E Hf)).
Defined.

(** A vault that keeps what it is given and answers 201. *)
Definition keep_write (w : VaultWrite) : P (list VaultWrite) string Z := fun l => (Ok 201, l ++ [w]).
Definition sample_credentials : Credentials := {|
  cr_client := New (Build_VaultConfig "https://secret" "aud" 0 "");
  cr_project := "default"; cr_environment := "prod" |}.
Definition sample_store (t p v : string) : P (list VaultWrite) vault_error string :=
  CredentialsStore (fun _ => None) keep_write None sample_credentials t p v.
Definition sample_sink : CredentialSink (list VaultWrite) := fun t p v => p_map_err vault_Error (sample_store t p v).

Lemma vault_reference_sound_witness :
  exists s', sample_store "postgres" " password " "hunter2" []
    = (Ok "secret://default/prod/postgres/password"%string, s')
  /\ exists w, s' = [w] /\ ad_Key (vw_address w) = "password"%string.
Proof.
  destruct (sample_store "postgres" " password " "hunter2" []) as [r s'] eqn:E.
  assert (Hr : r = Ok "secret://default/prod/postgres/password"%string)
    by (apply (f_equal fst) in E; vm_compute in E; by rewrite <- E).
  subst r. exists s'. split; [done|].
  destruct (vault_reference_sound (fun _ => None) keep_write None sample_credentials "postgres" " password "
    "hunter2" [] _ s' E) as [(cfg & w & s0 & code & _ & Ha & _ & _ & Hd & _) _].
  unfold keep_write in Hd. injection Hd as _ Hd.
  assert (Hl : length s' = 1%nat) by (apply (f_equal snd) in E; cbn [snd] in E; by rewrite <- E).
  rewrite <- Hd, length_app in Hl. cbn in Hl. destruct s0 as [|]; [|cbn in Hl; lia].
  exists w. split; [by rewrite <- Hd|]. rewrite Ha. vm_compute. reflexivity.
Defined.

Definition template_node (e : list (option string)) : TNode (list VaultWrite) :=
  mkTNode template_world e [].
Abbreviation sample_render ps n := (Render (Some sample_sink) (Build_RenderInput "postgres" "v1" ps) n).
Definition given (s : string) : object := [("password", VStr s); ("name", VStr "db")]%string.

Lemma rendered_secrets_are_references_witness :
  exists r n', sample_render (given "hunter2") (template_node []) = (Ok r, n')
    /\ exists ref, obj_get "password" (rd_Params r) = Some (VStr ref).
Proof.
  destruct (sample_render (given "hunter2") (template_node [])) as [res n'] eqn:E.
  assert (Hp : match res with Ok r => tp_Parameters (rd_Template r) = default [] (dc_Parameters postgres)
                 /\ is_Some (obj_get "password" (rd_Params r)) | Err _ => False end).
  { apply (f_equal fst) in E. vm_compute in E. rewrite <- E. split; [reflexivity|]. by eexists. }
  destruct res as [r|e]; [|destruct Hp]. destruct Hp as [Hp [v Hv]]. exists r, n'. split; [reflexivity|].
  pose proof (rendered_secrets_are_references (Some sample_sink) (Build_RenderInput "postgres" "v1" (given "hunter2"))
    (template_node []) r n' E
    (Build_Param "password" "secret" false VNull true)) as H.
  cbn [pa_Name] in H. rewrite Hp, Hv in H. destruct H as (S & x & s & ref & s' & _ & _ & ->).
  - left.
  - reflexivity.
  - exists ref. exact Hv.
Defined.

(** Two vaults that hold as many writes. *)
Definition same_length (x y : list VaultWrite) : Prop := length x = length y.

Lemma sample_sink_blind : blind same_length sample_sink.
Proof.
  apply (credentials_blind same_length (fun _ => None) keep_write None).
  - intros w v1 v2 x y H. unfold keep_write, same_length in *. cbn. rewrite !length_app. cbn. split; [done|lia].
  - done.
Qed.


(** Two substitutions next to each other, without spaces, are taken for one
    parameter of an impossible name. *)
Lemma adjacent_substitutions_refused :
  renderString "{{.host}}:{{.port}}" [("host", VStr "db"); ("port", VStr "5432")]%string
  = Err ("parameter " +:+ fmt_q "host}}:{{.port" +:+ " is not defined")%string
  /\ renderString "{{ .host }}:{{ .port }}" [("host", VStr "db"); ("port", VStr "5432")]%string
     = Ok (VStr "{{ .host }}:{{ .port }}").
Proof. split; vm_compute; reflexivity. Qed.
