(* ===== verification/Capabilities.v ===== *)
(** * The capability probe

    [internal/server/capabilities.go]: the one anonymous endpoint that describes
    the instance.  Its setup half is [Setup.ConsoleIdentity], memoized: the cache
    is also the rate limit of an endpoint nobody has to authenticate to. *)

From S2P Require Import Prelude Json Storage World AppError Queries Http Setup Sample SetupSample.
From S2P Require Authz.

Definition capabilitiesCacheTTL : Z := 5 * Second.
Definition capabilityServiceName : string := "core".
Definition capabilityGuardTransport : string := "http".

(** [ci_Setup] tells whether a probe is wired. *)
Record CapabilityInfo := {
  ci_Version : string; ci_AuthIssuer : string; ci_AuthAudience : string; ci_AuthTokenEndpoint : string;
  ci_AuthAuthorizeEndpoint : string; ci_Setup : bool }.

Record capabilityAuth := {
  ca_Issuer : string; ca_Audience : string; ca_TokenEndpoint : string; ca_AuthorizeEndpoint : string }.

(** [py_Console] is the client id of the console block. *)
Record capabilitiesPayload := {
  py_Service : string; py_Version : string; py_GuardTransport : string; py_GuardMode : string;
  py_SetupComplete : bool; py_Auth : option capabilityAuth; py_Console : option string }.

(** The memoized half; [None] is the zero time. *)
Record capCache := mkCache { cc_complete : bool; cc_consoleClientID : string; cc_checkedAt : option Z }.
Definition newCache : capCache := mkCache false "" None.

Definition orUnknown (v : string) : string := if is_empty v then "unknown" else v.

Section Probe.
Context (info : CapabilityInfo) (guard : Authz.Guard).

(** [now] is read for the age of the entry, [after] when the read returned. *)
Definition setupIdentity (now after : Z) (h : capCache) : M dberr (bool * string * capCache) :=
  if negb (ci_Setup info) then mret (false, ""%string, h)
  else if cc_complete h then mret (true, cc_consoleClientID h, h)
  else if (match cc_checkedAt h with Some t => now - t <? capabilitiesCacheTTL | None => false end)
    then mret (false, ""%string, h)
  else
    '(complete, clientID) ← ConsoleIdentity;
    mret (complete, clientID, mkCache complete clientID (Some after)).

Definition payload (complete : bool) (consoleClientID : string) : capabilitiesPayload := {|
  py_Service := capabilityServiceName; py_Version := orUnknown (ci_Version info);
  py_GuardTransport := capabilityGuardTransport; py_GuardMode := Authz.Mode_Name (Authz.g_Mode guard);
  py_SetupComplete := complete;
  py_Auth := match Authz.g_Mode guard with
             | Authz.ModeEnforced => Some (Build_capabilityAuth (ci_AuthIssuer info) (ci_AuthAudience info)
                 (ci_AuthTokenEndpoint info) (ci_AuthAuthorizeEndpoint info))
             | _ => None
             end;
  py_Console := if negb (is_empty consoleClientID) then Some consoleClientID else None |}.

Definition serve (now after : Z) (h : capCache) : M dberr (reply capabilitiesPayload * capCache) :=
  '(complete, clientID, h) ← setupIdentity now after h;
  mret (Success (payload complete clientID) "", h).
End Probe.

(** ** What an anonymous caller learns *)

(** Two instances an anonymous caller may tell apart by nothing: the identity
    settings count only when the guard enforces them. *)
Definition same_disclosure (i1 i2 : CapabilityInfo) (g1 g2 : Authz.Guard) : Prop :=
  ci_Version i1 = ci_Version i2 /\ ci_Setup i1 = ci_Setup i2 /\ Authz.g_Mode g1 = Authz.g_Mode g2
  /\ (Authz.g_Mode g1 = Authz.ModeEnforced ->
        (ci_AuthIssuer i1, ci_AuthAudience i1, ci_AuthTokenEndpoint i1, ci_AuthAuthorizeEndpoint i1)
        = (ci_AuthIssuer i2, ci_AuthAudience i2, ci_AuthTokenEndpoint i2, ci_AuthAuthorizeEndpoint i2)).

(** The capability probe discloses two facts of the database and no more.
    Its answer is the same on any two instances whose version, guard mode and
    (only when enforced) published identity settings agree and whose records
    agree on whether setup completed and on the console's client id: whatever
    else differs, keys, tenants, the guard's reason, the settings of an unguarded
    instance.  It never fails, whatever the database does, and then reports
    setup as not complete. *)
Theorem capability_disclosure i1 i2 g1 g2 now after h w1 w2 :
  same_disclosure i1 i2 g1 g2 -> fst (ConsoleIdentity w1) = fst (ConsoleIdentity w2) ->
  fst (serve i1 g1 now after h w1) = fst (serve i2 g2 now after h w2)
  /\ is_ok (fst (serve i1 g1 now after h w1)) = true
  /\ (is_ok (fst (GetControlPlane w1)) = false -> cc_complete h = false ->
      match fst (serve i1 g1 now after h w1) with
      | Ok (rep, _) => (py_SetupComplete <$> rp_data rep) = Some false
      | Err _ => False
      end).
Proof.
  intros (Hv & Hs & Hm & Ha) Hc.
  assert (Hp : forall c id, payload i1 g1 c id = payload i2 g2 c id).
  { intros c id. unfold payload. rewrite Hv, <- Hm. destruct (Authz.g_Mode g1); [|done..].
    by injection (Ha eq_refl) as -> -> -> ->. }
  assert (Hok : forall w, exists b s w', ConsoleIdentity w = (Ok (b, s), w')
    /\ (is_ok (fst (GetControlPlane w)) = false -> b = false)).
  { intros w. unfold ConsoleIdentity, loadPersisted, try, mbind, M_bind, mret, M_ret.
    destruct (GetControlPlane w) as [[row|e] w']; [|by do 3 eexists].
    cbn. destruct (completed _); by do 3 eexists. }
  destruct (Hok w1) as (b1 & s1 & w1' & E1 & Hb1), (Hok w2) as (b2 & s2 & w2' & E2 & _).
  rewrite E1, E2 in Hc. injection Hc as <- <-.
  unfold serve, setupIdentity, mbind, M_bind, mret, M_ret. rewrite Hs.
  destruct (negb (ci_Setup i2)); cbn; [by rewrite Hp|].
  destruct (cc_complete h) eqn:Eh; cbn; [by rewrite Hp|].
  destruct (match cc_checkedAt h with Some t => _ | None => _ end); cbn; [by rewrite Hp|].
  rewrite E1, E2, Hp. split_and!; [done|done|]. intros Hr _. by rewrite (Hb1 Hr).
Qed.

(** ** The cache is the rate limit *)

Record probeRequest := { pr_now : Z; pr_after : Z; pr_world : World }.

Section Cache.
Context (info : CapabilityInfo).

(** Whether a probe goes to the database. *)
Definition reads (now : Z) (h : capCache) : bool :=
  ci_Setup info && negb (cc_complete h)
  && negb (match cc_checkedAt h with Some t => now - t <? capabilitiesCacheTTL | None => false end).

(** A sequence of probes: the cache, and the times at which reads returned. *)
Definition probe_step (s : capCache * list Z) (q : probeRequest) : capCache * list Z :=
  match fst (setupIdentity info (pr_now q) (pr_after q) (fst s) (pr_world q)) with
  | Ok (_, _, h) => (h, if reads (pr_now q) (fst s) then snd s ++ [pr_after q] else snd s)
  | Err _ => s
  end.
Definition probes (qs : list probeRequest) : capCache * list Z := foldl probe_step (newCache, []) qs.

(** The clock of the process does not go back between two probes. *)
Fixpoint clock_ok (t : Z) (qs : list probeRequest) : Prop :=
  match qs with
  | [] => True
  | q :: qs => t <= pr_now q /\ pr_now q <= pr_after q /\ clock_ok (pr_after q) qs
  end.

Lemma quiet_probe now after h : reads now h = false ->
  exists r, forall w, setupIdentity info now after h w = (Ok r, w).
Proof.
  unfold reads, setupIdentity. destruct (ci_Setup info); cbn; [|by eexists].
  destruct (cc_complete h); cbn; [by eexists|].
  destruct (match cc_checkedAt h with Some t => _ | None => _ end); [by eexists|done].
Qed.

Lemma identity_ok w : exists b s w', ConsoleIdentity w = (Ok (b, s), w').
Proof.
  unfold ConsoleIdentity, loadPersisted, try, mbind, M_bind, mret, M_ret.
  destruct (GetControlPlane w) as [[row|e] w']; [|by do 3 eexists]. cbn.
  destruct (completed _); by do 3 eexists.
Qed.

Definition spaced (l : list Z) : Prop :=
  forall i a b, l !! i = Some a -> l !! S i = Some b -> a + capabilitiesCacheTTL <= b.

Record cache_inv (qs : list probeRequest) (s : capCache * list Z) : Prop := {
  ci_last : last (snd s) = cc_checkedAt (fst s);
  ci_spaced : spaced (snd s);
  ci_honest : cc_complete (fst s) = true -> exists q w, q ∈ qs
    /\ ConsoleIdentity (pr_world q) = (Ok (true, cc_consoleClientID (fst s)), w) }.

Lemma spaced_snoc l a b : last l = Some a -> spaced l -> a + capabilitiesCacheTTL <= b -> spaced (l ++ [b]).
Proof.
  intros Hl Hs Hab i x y Hx Hy. destruct (decide (S i < length l)%nat) as [H|H].
  - rewrite lookup_app_l in Hx, Hy by lia. eauto.
  - pose proof (lookup_lt_Some _ _ _ Hy) as Hlt. rewrite length_app in Hlt. cbn in Hlt.
    assert (Hi : S i = length l) by lia. rewrite Hi in Hy.
    rewrite list_lookup_middle in Hy by done. injection Hy as <-.
    rewrite lookup_app_l in Hx by lia. rewrite last_lookup, <- Hi in Hl. cbn in Hl. congruence.
Qed.

Lemma probe_step_inv qs s q :
  (forall t, cc_checkedAt (fst s) = Some t -> t <= pr_now q) -> pr_now q <= pr_after q ->
  cache_inv qs s -> cache_inv (qs ++ [q]) (probe_step s q).
Proof.
  intros Ht Hq [H1 H2 H3]. destruct s as [h l]. unfold probe_step. cbn [fst snd] in *.
  assert (Hmono : forall q' w, q' ∈ qs /\ ConsoleIdentity (pr_world q') = (Ok (true, cc_consoleClientID h), w) ->
    exists q' w, q' ∈ qs ++ [q] /\ ConsoleIdentity (pr_world q') = (Ok (true, cc_consoleClientID h), w)).
  { intros q' w [? ?]. exists q', w. split; [|done]. apply elem_of_app. by left. }
  unfold reads, setupIdentity. destruct (ci_Setup info); cbn.
  2:{ split; cbn; [done|done|]. intros Hc. destruct (H3 Hc) as (q' & w & H). eauto. }
  destruct (cc_complete h) eqn:Ec; cbn.
  { split; cbn; [done|done|]. intros _. destruct (H3 eq_refl) as (q' & w & H). eauto. }
  destruct (match cc_checkedAt h with Some t => _ | None => _ end) eqn:Ef; cbn.
  { split; cbn; [done|done|]. rewrite Ec. done. }
  destruct (identity_ok (pr_world q)) as (b & s & w' & E). unfold mbind, M_bind. rewrite E. cbn.
  split; cbn.
  - by rewrite last_snoc.
  - destruct (cc_checkedAt h) as [t|] eqn:Eh.
    + apply Z.ltb_ge in Ef. apply (spaced_snoc l t); [done|done|lia].
    + apply last_None in H1 as ->. intros [|i] x y Hx Hy; done.
  - intros ->. exists q, w'. split; [|done]. apply elem_of_app. right. by apply list_elem_of_singleton.
Qed.

Lemma clock_app t qs q : clock_ok t (qs ++ [q]) ->
  clock_ok t qs /\ pr_now q <= pr_after q /\ t <= pr_now q
  /\ forall p, p ∈ qs -> pr_after p <= pr_now q.
Proof.
  revert t. induction qs as [|p qs IH]; intros t; cbn.
  - intros (? & ? & _). split_and!; [done..|]. by intros p ?%elem_of_nil.
  - intros (? & ? & (? & ? & ? & Hp)%IH). split_and!; [done..|lia|].
    intros p' [->|?]%elem_of_cons; auto.
Qed.

Lemma probes_inv t qs : clock_ok t qs ->
  cache_inv qs (probes qs)
  /\ forall c, cc_checkedAt (fst (probes qs)) = Some c -> exists q, q ∈ qs /\ c = pr_after q.
Proof.
  unfold probes. induction qs as [|q qs IH] using rev_ind; intros Hc.
  - split; [|done]. split; [done| |done]. by intros i a b ?.
  - apply clock_app in Hc as (Hc & Hq & Ht & Hp). destruct (IH Hc) as [Hi Hl]. rewrite foldl_snoc. split.
    + apply probe_step_inv; [|done|done]. intros c (p & Hin & ->)%Hl. by apply Hp.
    + intros c. generalize dependent (foldl probe_step (newCache, []) qs). intros s _ Hi Hl.
      assert (Hstay : cc_checkedAt (fst s) = Some c -> exists q0, q0 ∈ qs ++ [q] /\ c = pr_after q0).
      { intros (p & Hin & ->)%Hl. exists p. split; [|done]. apply elem_of_app. by left. }
      unfold probe_step, setupIdentity. destruct (negb (ci_Setup info)); [exact Hstay|].
      destruct (cc_complete (fst s)); [exact Hstay|].
      destruct (match cc_checkedAt (fst s) with Some t => _ | None => _ end); [exact Hstay|].
      destruct (identity_ok (pr_world q)) as (b & s' & w' & E). unfold mbind, M_bind. rewrite E. cbn.
      intros [= <-]. exists q. split; [|done]. apply elem_of_app. right. by apply list_elem_of_singleton.
Qed.
End Cache.

(** The anonymous probe cannot be used to load the database, and what it
    says of setup is monotone and true.  Whatever probes arrive, in whatever
    states of the database, reads are at least five seconds apart; a probe
    between them answers from the cache and does not touch the database; once
    an answer said complete, every later one does, without a read, and some read
    of the record said so, with the client id that is answered. *)
Theorem capability_cache_sound info t qs :
  clock_ok t qs ->
  let '(h, times) := probes info qs in
  spaced times
  /\ (forall now after, reads info now h = false ->
        exists r, forall w, setupIdentity info now after h w = (Ok r, w))
  /\ (cc_complete h = true ->
        (forall now, reads info now h = false)
        /\ (ci_Setup info = true -> forall now after w,
              setupIdentity info now after h w = (Ok (true, cc_consoleClientID h, h), w))
        /\ exists q w, q ∈ qs /\ ConsoleIdentity (pr_world q) = (Ok (true, cc_consoleClientID h), w)).
Proof.
  intros Hc. destruct (probes_inv info t qs Hc) as [[H1 H2 H3] _].
  destruct (probes info qs) as [h times]. cbn in *. split_and!; [done|intros now after; apply quiet_probe|].
  intros Hh. split_and!; [| |by apply H3].
  - intros now. unfold reads. rewrite Hh. cbn. by rewrite andb_false_r.
  - intros Hs now after w. unfold setupIdentity. by rewrite Hs, Hh.
Qed.

(** ** A sample instance *)

Existing Instance SetupSample.install_text.

Definition open_info : CapabilityInfo := Build_CapabilityInfo "v1.2.3" "https://left-over" "" "" "" true.
Definition bare_info : CapabilityInfo := Build_CapabilityInfo "v1.2.3" "" "" "" "" true.
Definition dev_guard (reason : string) : Authz.Guard := Authz.Build_Guard Authz.ModeDevOpen None reason.
Definition kept_world : World := world_of kept_db [].
Definition first_world : World := world_of empty_db [].

Lemma capability_disclosure_witness :
  fst (serve open_info (dev_guard "AUTH_JWKS_URL is unset") 0 0 newCache (world_of empty_db [FaultBefore]))
  = fst (serve bare_info (dev_guard "") 0 0 newCache first_world).
Proof.
  apply (capability_disclosure open_info bare_info (dev_guard "AUTH_JWKS_URL is unset") (dev_guard "")
    0 0 newCache (world_of empty_db [FaultBefore]) first_world).
  - split_and!; [reflexivity..|]. intros H. discriminate H.
  - vm_compute. reflexivity.
Defined.

(** Setup completes between the second and the third probe. *)
Definition sample_probes : list probeRequest :=
  [Build_probeRequest 0 1 first_world; Build_probeRequest Second (Second + 1) first_world;
   Build_probeRequest (6 * Second) (6 * Second + 1) kept_world;
   Build_probeRequest (60 * Second) (60 * Second + 1) first_world].

Lemma capability_cache_sound_witness :
  clock_ok 0 sample_probes /\ cc_complete (fst (probes open_info sample_probes)) = true
  /\ snd (probes open_info sample_probes) = [1; 6 * Second + 1]
  /\ forall now, reads open_info now (fst (probes open_info sample_probes)) = false.
Proof.
  assert (Hc : clock_ok 0 sample_probes) by (cbn; unfold Second; lia).
  assert (Hd : cc_complete (fst (probes open_info sample_probes)) = true) by (vm_compute; reflexivity).
  split_and!; [exact Hc|exact Hd|vm_compute; reflexivity|].
  pose proof (capability_cache_sound open_info 0 sample_probes Hc) as H.
  destruct (probes open_info sample_probes) as [h times]. destruct H as (_ & _ & H). exact (proj1 (H Hd)).
Defined.
