(* ===== verification/SecretManager.v ===== *)
(** * Secret providers

    [internal/platform/config/secret_manager.go] and [env.go]: where a secret
    comes from, when the environment may stand in for the provider, and what is
    done to every value.  A remote store (AWS, Vault, GCP, Azure) answers each
    attempt at will; the environment is the process's own. *)

From S2P Require Import Prelude Json Storage World Agent Vault.

(** [ErrSecretNotFound] in an error's chain, or any other failure. *)
Inductive secret_err := SecretNotFound (msg : string) | SecretError (msg : string).
Definition secret_text (e : secret_err) : string := match e with SecretNotFound m | SecretError m => m end.

(** What reading a file answers. *)
Inductive file_read := FileData (data : string) | FileMissing | FileError (e : string).

Record URL := { u_Scheme : string; u_Host : string; u_Hostname : string }.

(** The file system, [net/url], base64 and the remote stores: the provider's
    name, the arguments of its constructor, then the attempt and the key. *)
Class SecretKit := {
  os_ReadSecret : string -> file_read;
  url_Parse : string -> result string URL;
  base64_Decode : string -> result string string;
  newRemote : string -> list string -> result string (nat -> string -> result secret_err string);
}.

Inductive SecretManager :=
  | EnvProvider
  | FileProvider (basePath : string)
  | RemoteProvider (get : nat -> string -> result secret_err string).

(** [strings.EqualFold] against a word without the letters k and s, or of a text
    that is ASCII. *)
Definition EqualFold (a b : string) : bool := str_eqb (string_map lower_ascii a) (string_map lower_ascii b).

(** [strings.TrimRight(s, "/")]. *)
Definition trim_right_slashes (s : string) : string :=
  string_of_list_ascii (rev (drop_slashes (rev (list_ascii_of_string s)))).

Definition underscore_to_hyphen (a : ascii) : ascii := if Ascii.eqb a "_" then "-"%char else a.

Section Secrets.
Context {T : GoText} {K : SecretKit} (Getenv : string -> string).

Definition GetEnv (key : string) : result string string :=
  let val := Getenv key in
  if is_empty val then Err ("required environment variable " +:+ fmt_q key +:+ " is not set")%string else Ok val.
Definition GetEnvOrDefault (key defaultVal : string) : string :=
  let val := Getenv key in if is_empty val then defaultVal else val.
Definition parseIntDefault (s : string) (fallback : Z) : Z :=
  match Atoi s with Some n => n | None => fallback end.

Definition envFallbackEnabled : bool := negb (EqualFold (GetEnvOrDefault "SECRET_STRICT" "false") "true").

Definition validProviders : list string :=
  ["env"; "file"; "aws_secrets"; "aws_ssm"; "vault"; "gcp"; "azure_kv"]%string.
Definition ValidateSecretProvider (provider : string) : result string () :=
  if existsb (str_eqb provider) validProviders then Ok ()
  else Err ("invalid SECRET_PROVIDER " +:+ fmt_q provider +:+ ", must be one of: ["
            +:+ join " " validProviders +:+ "]")%string.

Definition requireSecureSecretTransport (name rawURL : string) : result string () :=
  match url_Parse rawURL with
  | Err e => Err (name +:+ " is not a valid URL: " +:+ e)
  | Ok u =>
      if EqualFold (u_Scheme u) "https" then Ok ()
      else if str_eqb (u_Hostname u) "localhost" || str_eqb (u_Hostname u) "127.0.0.1"
              || str_eqb (u_Hostname u) "::1" then Ok ()
      else if EqualFold (GetEnvOrDefault "APP_ENV" "production") "production"
        then Err (name +:+ " must use https in production (got " +:+ fmt_q rawURL
                  +:+ "): secrets would cross the network in cleartext")
      else Ok ()
  end%string.

Definition newSecretManager (provider prefix : string) : result string SecretManager :=
  let remote args := get ← newRemote provider args; Ok (RemoteProvider get) in
  if str_eqb provider "env" then Ok EnvProvider
  else if str_eqb provider "file" then Ok (FileProvider (GetEnvOrDefault "SECRET_FILE_PATH" "/run/secrets"))
  else if str_eqb provider "aws_secrets" || str_eqb provider "aws_ssm" then
    remote [GetEnvOrDefault "AWS_REGION" "us-east-1"; prefix]
  else if str_eqb provider "vault" then
    let address := GetEnvOrDefault "VAULT_ADDR" "http://localhost:8200" in
    requireSecureSecretTransport "VAULT_ADDR" address ;;
    remote [address; Getenv "VAULT_TOKEN"; prefix; GetEnvOrDefault "VAULT_MOUNT" "secret"]
  else if str_eqb provider "gcp" then
    match GetEnv "GCP_PROJECT_ID" with
    | Err e => Err ("GCP Secret Manager requires GCP_PROJECT_ID: " +:+ e)
    | Ok projectID => remote [projectID]
    end
  else if str_eqb provider "azure_kv" then
    match GetEnv "AZURE_KEYVAULT_URL" with
    | Err e => Err ("azure key vault requires AZURE_KEYVAULT_URL: " +:+ e)
    | Ok vaultURL => remote [vaultURL]
    end
  else Err ("unknown SECRET_PROVIDER " +:+ fmt_q provider)%string.

(** ** One read *)

Definition env_GetSecret (key : string) : result secret_err string :=
  let value := Getenv key in
  if is_empty value then
    Err (SecretNotFound ("environment variable " +:+ fmt_q key +:+ ": secret not found"))
  else Ok value.

Definition file_GetSecret (basePath key : string) : result secret_err string :=
  let path := (basePath +:+ "/" +:+ ToLower (string_map underscore_to_hyphen key))%string in
  match os_ReadSecret path with
  | FileData data => Ok data
  | FileMissing => Err (SecretNotFound ("secret file " +:+ fmt_q path +:+ ": secret not found"))
  | FileError e => Err (SecretError ("failed to read secret file " +:+ fmt_q path +:+ ": " +:+ e))
  end.

Definition GetSecret (sm : SecretManager) (attempt : nat) (key : string) : result secret_err string :=
  match sm with
  | EnvProvider => env_GetSecret key
  | FileProvider basePath => file_GetSecret basePath key
  | RemoteProvider get => get attempt key
  end.

Definition providerIsLocal (sm : SecretManager) : bool :=
  match sm with RemoteProvider _ => false | _ => true end.

(** The attempts left after this one, and the calls so far. *)
Fixpoint fetch_loop (sm : SecretManager) (key : string) (rest attempt : nat) : result secret_err string * nat :=
  match GetSecret sm attempt key with
  | Ok secret => (Ok secret, attempt)
  | Err (SecretNotFound m) => (Err (SecretNotFound m), attempt)
  | Err (SecretError m) =>
      if providerIsLocal sm then (Err (SecretError m), attempt)
      else match rest with
      | O => (Err (SecretError ("failed to load secret " +:+ fmt_q key +:+ " after 3 attempts: " +:+ m)), attempt)
      | S rest => fetch_loop sm key rest (S attempt)
      end
  end.
Definition fetchFromProvider (sm : SecretManager) (key : string) : result secret_err string :=
  fst (fetch_loop sm key 2 1).

(** ** Resolution *)

Inductive secretSource := sourceProvider | sourceEnvFall.

Definition resolveSecret (sm : SecretManager) (key : string) : result string (option (string * secretSource)) :=
  match fetchFromProvider sm key with
  | Ok raw => Ok (Some (raw, sourceProvider))
  | Err (SecretError m) => Err m
  | Err (SecretNotFound _) =>
      match sm with
      | EnvProvider => Ok None
      | _ =>
          if negb envFallbackEnabled then Ok None
          else if negb (is_empty (Getenv key)) then Ok (Some (Getenv key, sourceEnvFall))
          else Ok None
      end
  end.

Definition normalizeSecret (key raw : string) : result string string :=
  let trimmed := TrimSpace raw in
  if HasPrefix trimmed "base64:" then
    match base64_Decode (str_drop 7 trimmed) with
    | Ok decoded => Ok decoded
    | Err e => Err ("failed to decode base64 secret " +:+ fmt_q key +:+ ": " +:+ e)%string
    end
  else Ok trimmed.

Definition loadSecret (sm : SecretManager) (provider key : string) : result string string :=
  found ← resolveSecret sm key;
  match found with
  | None =>
      if envFallbackEnabled
      then Err ("secret " +:+ fmt_q key +:+ " not found in provider " +:+ fmt_q provider +:+ " or the environment")
      else Err ("secret " +:+ fmt_q key +:+ " not found in provider " +:+ fmt_q provider
                +:+ " (SECRET_STRICT is on, so the environment is not consulted)")
  | Some (raw, _) =>
      normalized ← normalizeSecret key raw;
      if is_empty normalized then Err ("secret " +:+ fmt_q key +:+ " is empty") else Ok normalized
  end%string.

(** The empty text is Go's nil: not configured. *)
Definition loadSecretOptional (sm : SecretManager) (key : string) : result string string :=
  match resolveSecret sm key with
  | Err e => Err ("failed to load optional secret " +:+ fmt_q key +:+ ": " +:+ e)%string
  | Ok None => Ok ""%string
  | Ok (Some (raw, _)) => normalizeSecret key raw
  end.
End Secrets.

(** ** Where a secret may come from *)

Section SecretClaims.
Context {T : GoText} {K : SecretKit} (Getenv : string -> string).

Lemma fetch_loop_spec sm key rest attempt :
  let '(r, calls) := fetch_loop Getenv sm key rest attempt in
  (attempt <= calls <= attempt + rest)%nat
  /\ (providerIsLocal sm = true -> calls = attempt)
  /\ match r with
     | Ok raw => GetSecret Getenv sm calls key = Ok raw
     | Err (SecretNotFound m) => GetSecret Getenv sm calls key = Err (SecretNotFound m)
     | Err (SecretError _) => exists m, GetSecret Getenv sm calls key = Err (SecretError m)
     end.
Proof.
  revert attempt. induction rest as [|rest IH]; intros attempt; cbn [fetch_loop];
    destruct (GetSecret Getenv sm attempt key) as [raw|[m|m]] eqn:E; try (split_and!; [lia|lia|done|done]).
  - destruct (providerIsLocal sm) eqn:El; (split_and!; [lia..|done|]); eauto.
  - destruct (providerIsLocal sm) eqn:El; [split_and!; [lia..|done|]; eauto|].
    specialize (IH (S attempt)). destruct (fetch_loop _ _ _ _ _) as [r calls].
    destruct IH as (H1 & _ & H3). split_and!; [lia..|done|done].
Qed.

(** An outage of the secret store is never read as an absent secret, and
    the environment stands in only for a secret the store says it does not have.
    A resolution makes at most three calls, one if the provider is local; it
    answers with the store's own value, or, when the last answer was definitely
    absent and the store is not the environment itself and fallback is on, with
    the variable's; otherwise the secret is unset.  If the last answer was a
    failure, both the required and the optional load fail. *)
Theorem secret_source_honest sm provider key :
  let '(_, calls) := fetch_loop Getenv sm key 2 1 in
  (1 <= calls <= 3)%nat /\ (providerIsLocal sm = true -> calls = 1%nat)
  /\ match resolveSecret Getenv sm key with
     | Ok (Some (raw, sourceProvider)) => GetSecret Getenv sm calls key = Ok raw
     | Ok (Some (raw, sourceEnvFall)) =>
         (exists m, GetSecret Getenv sm calls key = Err (SecretNotFound m))
         /\ sm <> EnvProvider /\ EqualFold (GetEnvOrDefault Getenv "SECRET_STRICT" "false") "true" = false
         /\ raw = Getenv key /\ raw <> ""%string
     | Ok None => exists m, GetSecret Getenv sm calls key = Err (SecretNotFound m)
     | Err _ => (exists m, GetSecret Getenv sm calls key = Err (SecretError m))
         /\ is_ok (loadSecret Getenv sm provider key) = false
         /\ is_ok (loadSecretOptional Getenv sm key) = false
     end.
Proof.
  pose proof (fetch_loop_spec sm key 2 1) as H.
  unfold loadSecret, loadSecretOptional, resolveSecret, fetchFromProvider.
  destruct (fetch_loop Getenv sm key 2 1) as [r calls]. destruct H as (H1 & H2 & H3).
  split_and!; [lia..|done|]. cbn [fst]. destruct r as [raw|[m|m]]; [done| |done].
  assert (Hex : exists m, GetSecret Getenv sm calls key = Err (SecretNotFound m)) by eauto.
  destruct sm as [|b|get]; [done|..]; unfold envFallbackEnabled.
  all: destruct (EqualFold _ _) eqn:Ef; cbn [negb]; [done|].
  all: destruct (is_empty (Getenv key)) eqn:Ee; cbn [negb]; [done|]; split_bools; done.
Qed.
End SecretClaims.
