(* ===== verification/Telemetry.v ===== *)
(** * Telemetry

    [internal/platform/telemetry] (tracing, logs, metrics, the counters) and
    [cmd/server/telemetry.go], which starts them and returns the one hook that
    ends them.  The OpenTelemetry SDK is a parameter: every construction may fail.
    What is kept is which providers are installed, which are running, in which
    order they were told to shut down, and what the counters counted. *)

From S2P Require Import Prelude Json Storage World Agent Hosts Vault SecretManager.

Inductive provider := TracerProvider | LoggerProvider | MeterProvider.
#[global] Instance provider_eq_dec : EqDecision provider.
Proof. solve_decision. Defined.

(** A global provider of the SDK: the default, the no-op one or a running one. *)
Inductive installed := Unset | Noop | Sdk.

Definition attributes : Type := list (string * string).

Record Otel := {
  ot_tracer : installed; ot_logger : installed; ot_meter : installed; ot_propagator : bool;
  (* providers that were started and not told to shut down, latest first *)
  ot_running : list provider;
  (* the resource each of them was started with *)
  ot_resources : list (provider * attributes);
  (* the shutdowns, in order *)
  ot_shut : list provider;
  (* the attributes of build_info, once its callback is registered *)
  ot_build_info : option attributes;
  (* the package variables of metrics.go: whether they are non-nil *)
  authEventCounter : bool; securityDenialCounter : bool; auditWriteFailureCounter : bool;
  (* the increments of the counters *)
  ot_counted : list (string * attributes) }.
#[global] Instance Otel_eta : EtaRecord Otel := fun o =>
  Build_Otel (ot_tracer o) (ot_logger o) (ot_meter o) (ot_propagator o) (ot_running o) (ot_resources o) (ot_shut o)
    (ot_build_info o) (authEventCounter o) (securityDenialCounter o) (auditWriteFailureCounter o)
    (ot_counted o).

Definition otel_zero : Otel := Build_Otel Unset Unset Unset false [] [] [] None false false false [].

(** The SDK and the build information of the binary.  A construction answers
    with its error; a counter also with whether the instrument is non-nil. *)
Class OtelKit := {
  semconv_SchemaURL : string;
  resource_Default : attributes;
  resource_Merge : attributes -> string * attributes -> result string attributes;
  k_trace_exporter : option string;
  k_log_exporter : option string;
  k_prom_exporter : option string;
  k_gauge : option string;
  k_callback : option string;
  k_counter : string -> bool * option string;
  k_ReadBuildInfo : option (list (string * string));
}.

(** What a [shutdown] of the package does: nothing, or end a provider. *)
Definition shutdown : Type := option provider.
Definition noopShutdown : shutdown := None.

Definition defaultServiceName : string := "maintainerd-auth".

(** [strconv.ParseBool]; [None] is its error. *)
Definition ParseBool (s : string) : option bool :=
  if existsb (str_eqb s) ["1"; "t"; "T"; "true"; "TRUE"; "True"]%string then Some true
  else if existsb (str_eqb s) ["0"; "f"; "F"; "false"; "FALSE"; "False"]%string then Some false
  else None.

Section Telemetry.
Context {O : OtelKit} (Getenv : string -> string) (AppVersion : string).
Abbreviation getenv := (GetEnvOrDefault Getenv).

(** An init function returns the shutdown, the error ([None] is nil) and the state. *)
Definition init_result : Type := shutdown * option string * Otel.

Definition Enabled : bool := default false (ParseBool (getenv "OTEL_ENABLED" "false")).
Definition serviceName : string := getenv "OTEL_SERVICE_NAME" defaultServiceName.

(** The resource all providers share; [resource.Merge] fails on a conflict of
    schema URLs. *)
Definition buildResource (serviceName appVersion : string) : result string attributes :=
  resource_Merge resource_Default
    (semconv_SchemaURL, [("service.name", serviceName); ("service.version", appVersion)]%string).

(** A provider that is built with the resource and running. *)
Definition started (p : provider) (res : attributes) (o : Otel) : Otel :=
  o <| ot_running := p :: ot_running o |> <| ot_resources := (p, res) :: ot_resources o |>.

Definition Init (o : Otel) : init_result :=
  if negb Enabled then (noopShutdown, None, o <| ot_tracer := Noop |>)
  else match buildResource serviceName AppVersion with
  | Err err => (noopShutdown, Some ("telemetry: build resource: " +:+ err), o)
  | Ok res =>
      match k_trace_exporter with
      | Some err => (noopShutdown, Some ("telemetry: create OTLP exporter: " +:+ err), o)
      | None => (Some TracerProvider, None,
          started TracerProvider res o <| ot_tracer := Sdk |> <| ot_propagator := true |>)
      end
  end%string.

Definition InitLogs (o : Otel) : init_result :=
  if negb Enabled then (noopShutdown, None, o <| ot_logger := Noop |>)
  else match buildResource serviceName AppVersion with
  | Err err => (noopShutdown, Some ("telemetry: build resource for logs: " +:+ err), o)
  | Ok res =>
      match k_log_exporter with
      | Some err => (noopShutdown, Some ("telemetry: create OTLP log exporter: " +:+ err), o)
      | None => (Some LoggerProvider, None,
          started LoggerProvider res o <| ot_logger := Sdk |>)
      end
  end%string.

(** The last value of each of the two settings. *)
Definition readBuildInfo : string * string :=
  match k_ReadBuildInfo with
  | None => ("", "")
  | Some settings =>
      foldl (fun '(commit, date) kv =>
        if str_eqb (fst kv) "vcs.revision" then (snd kv, date)
        else if str_eqb (fst kv) "vcs.time" then (commit, snd kv)
        else (commit, date)) ("", "") settings
  end%string.

Definition build_info_attributes : attributes :=
  let '(commit, date) := readBuildInfo in
  [("version"%string, AppVersion); ("service"%string, serviceName)]
  ++ (if negb (is_empty commit) then [("commit"%string, commit)] else [])
  ++ (if negb (is_empty date) then [("build_date"%string, date)] else []).

(** [if counter, err = meter.Int64Counter(name); err != nil]: the variable takes
    the instrument whether or not there is an error. *)
Definition register_counter (name : string) (set : bool -> Otel -> Otel)
    (k : Otel -> init_result) (o : Otel) : init_result :=
  let '(instrument, err) := k_counter name in
  let o := set instrument o in
  match err with
  | Some e => (Some MeterProvider, Some ("telemetry: register " +:+ name +:+ " counter: " +:+ e)%string, o)
  | None => k o
  end.

Definition InitMetrics (o : Otel) : init_result :=
  match buildResource serviceName AppVersion with
  | Err err => (noopShutdown, Some ("telemetry: build resource for metrics: " +:+ err), o)
  | Ok res =>
      match k_prom_exporter with
      | Some err => (noopShutdown, Some ("telemetry: create prometheus exporter: " +:+ err), o)
      | None =>
          let o := started MeterProvider res o <| ot_meter := Sdk |> in
          match k_gauge with
          | Some err => (Some MeterProvider, Some ("telemetry: register build_info gauge: " +:+ err), o)
          | None =>
              match k_callback with
              | Some err => (Some MeterProvider, Some ("telemetry: register build_info callback: " +:+ err), o)
              | None =>
                  register_counter "auth_events_total" (fun b o => o <| authEventCounter := b |>)
                  (register_counter "security_denials_total" (fun b o => o <| securityDenialCounter := b |>)
                  (register_counter "audit_write_failures_total"
                     (fun b o => o <| auditWriteFailureCounter := b |>)
                  (fun o => (Some MeterProvider, None, o))))
                  (o <| ot_build_info := Some build_info_attributes |>)
              end
          end
      end
  end%string.

(** ** The counters *)

Definition count (name : string) (attrs : attributes) (o : Otel) : Otel :=
  o <| ot_counted := ot_counted o ++ [(name, attrs)] |>.

Definition RecordAuthEvent (category eventType result : string) (o : Otel) : Otel :=
  if negb (authEventCounter o) then o
  else count "auth_events_total" [("category", category); ("event_type", eventType); ("result", result)]%string o.
Definition RecordSecurityDenial (denialType : string) (o : Otel) : Otel :=
  if negb (securityDenialCounter o) then o
  else count "security_denials_total" [("type", denialType)]%string o.
Definition RecordAuditWriteFailure (o : Otel) : Otel :=
  if negb (auditWriteFailureCounter o) then o else count "audit_write_failures_total" [] o.

(** ** The identifiers of the current span *)

(** The bytes of a span context: sixteen of the trace, eight of the span. *)
Record SpanContext := { sc_TraceID : string; sc_SpanID : string }.

(** [HasTraceID], [HasSpanID]: some byte is not zero. *)
Definition id_valid (id : string) : bool :=
  existsb (fun a => negb (Ascii.eqb a "000")) (list_ascii_of_string id).

Definition TraceIDFromContext (sc : SpanContext) : string * string :=
  (if id_valid (sc_TraceID sc) then hex_EncodeToString (sc_TraceID sc) else ""%string,
   if id_valid (sc_SpanID sc) then hex_EncodeToString (sc_SpanID sc) else ""%string).

(** ** cmd/server/telemetry.go *)

(** The shutdown of a provider is tried once and its error is only logged. *)
Definition shutdownWithTimeout (s : shutdown) (o : Otel) : Otel :=
  match s with
  | None => o
  | Some p => o <| ot_running := filter (fun q => q <> p) (ot_running o) |> <| ot_shut := ot_shut o ++ [p] |>
  end.

(** The hook on success, or the error. *)
Definition initTelemetry (o : Otel) : result string (Otel -> Otel) * Otel :=
  let '(tracingShutdown, err, o) := Init o in
  match err with
  | Some e => (Err ("initialize OpenTelemetry tracing: " +:+ e)%string, o)
  | None =>
      let '(metricsShutdown, err, o) := InitMetrics o in
      match err with
      | Some e =>
          (Err ("initialize OpenTelemetry metrics: " +:+ e)%string, shutdownWithTimeout tracingShutdown o)
      | None => (Ok (fun o => shutdownWithTimeout tracingShutdown (shutdownWithTimeout metricsShutdown o)), o)
      end
  end.

(** ** What is started is ended *)

(** The metrics provider is started, and ends with its shutdown, unless the
    resource or the exporter could not be built. *)
Definition meter_starts : bool :=
  match buildResource serviceName AppVersion, k_prom_exporter with Ok _, None => true | _, _ => false end.

Lemma register_counter_inv name set k o s e o' :
  register_counter name set k o = (s, e, o') ->
  (exists msg, s = Some MeterProvider /\ e = Some msg /\ o' = set (fst (k_counter name)) o)
  \/ k (set (fst (k_counter name)) o) = (s, e, o').
Proof.
  unfold register_counter. destruct (k_counter name) as [b [err|]]; intros H; [left|by right].
  injection H as <- <- <-. eauto.
Qed.

Lemma InitMetrics_running o s e o' : InitMetrics o = (s, e, o') ->
  ot_shut o' = ot_shut o
  /\ (if meter_starts then s = Some MeterProvider /\ ot_running o' = MeterProvider :: ot_running o
      else s = None /\ is_Some e /\ ot_running o' = ot_running o).
Proof.
  unfold InitMetrics, meter_starts.
  destruct (buildResource _ _) as [res|err]; [|intros H; injection H as <- <- <-; eauto].
  destruct k_prom_exporter as [err|]; [intros H; injection H as <- <- <-; eauto|]. cbv zeta.
  destruct k_gauge as [err|]; [intros H; injection H as <- <- <-; done|].
  destruct k_callback as [err|]; [intros H; injection H as <- <- <-; done|].
  intros [(m & -> & -> & ->)|H]%register_counter_inv; [done|].
  apply register_counter_inv in H as [(m & -> & -> & ->)|H]; [done|].
  apply register_counter_inv in H as [(m & -> & -> & ->)|H]; [done|].
  by injection H as <- <- <-.
Qed.

Lemma shutdown_first (p : provider) l : p ∉ l -> filter (fun q => q <> p) (p :: l) = l.
Proof.
  intros Hp. rewrite filter_cons_False by (intros H; by apply H).
  induction l as [|q l IH]; [done|]. rewrite filter_cons_True by set_solver. f_equal. apply IH. set_solver.
Qed.

Lemma Init_running o s e o1 : Init o = (s, e, o1) ->
  ot_shut o1 = ot_shut o
  /\ ((is_Some e /\ ot_running o1 = ot_running o)
      \/ (e = None /\ (if Enabled then s = Some TracerProvider /\ ot_running o1 = TracerProvider :: ot_running o
                       else s = None /\ ot_running o1 = ot_running o))).
Proof.
  unfold Init. destruct Enabled; cbn [negb].
  - destruct (buildResource _ _) as [res|err]; [|intros H; injection H as <- <- <-; eauto].
    destruct k_trace_exporter; intros H; injection H as <- <- <-; cbn; eauto 6.
  - intros H. injection H as <- <- <-. eauto 6.
Qed.

Lemma InitLogs_running o s e o1 : InitLogs o = (s, e, o1) ->
  ot_shut o1 = ot_shut o
  /\ ((is_Some e /\ ot_running o1 = ot_running o)
      \/ (e = None /\ (if Enabled then s = Some LoggerProvider /\ ot_running o1 = LoggerProvider :: ot_running o
                       else s = None /\ ot_running o1 = ot_running o))).
Proof.
  unfold InitLogs. destruct Enabled; cbn [negb].
  - destruct (buildResource _ _) as [res|err]; [|intros H; injection H as <- <- <-; eauto].
    destruct k_log_exporter; intros H; injection H as <- <- <-; cbn; eauto 6.
  - intros H. injection H as <- <- <-. eauto 6.
Qed.

(** The hook the server defers ends everything that was started, the metrics
    before the traces, so that the last counters are exported; and a start that
    fails leaves no tracing behind.  What it may leave behind is the metrics
    provider: exactly when that was started and a later registration failed. *)
Theorem telemetry_ended o : TracerProvider ∉ ot_running o -> MeterProvider ∉ ot_running o ->
  match initTelemetry o with
  | (Ok hook, o') =>
      ot_running (hook o') = ot_running o
      /\ ot_shut (hook o') = ot_shut o ++ MeterProvider :: (if Enabled then [TracerProvider] else [])
  | (Err _, o') =>
      ot_running o' = ot_running o \/ (meter_starts = true /\ ot_running o' = MeterProvider :: ot_running o)
  end.
Proof.
  intros Ht Hm. unfold initTelemetry.
  destruct (Init o) as [[ts e1] o1] eqn:E1. destruct (Init_running _ _ _ _ E1) as (Hs1 & H1).
  destruct H1 as [[[m ->] H1]|[-> H1]]; [by left|].
  destruct (InitMetrics o1) as [[ms e2] o2] eqn:E2.
  destruct (InitMetrics_running _ _ _ _ E2) as [Hs2 H2].
  assert (Htm : forall l, filter (fun q => q <> TracerProvider) (MeterProvider :: TracerProvider :: l)
    = MeterProvider :: filter (fun q => q <> TracerProvider) (TracerProvider :: l)) by done.
  assert (Hmt : MeterProvider ∉ TracerProvider :: ot_running o) by set_solver.
  destruct meter_starts; [destruct H2 as [-> H2]|destruct H2 as (-> & [m ->] & H2)];
    [destruct e2 as [m|]|]; destruct Enabled; destruct H1 as [-> H1]; rewrite H1 in H2;
    cbn [shutdownWithTimeout ot_running ot_shut]; record_simpl;
    rewrite ?H2, ?Htm, ?shutdown_first, ?Hs2, ?Hs1, <- ?app_assoc by done; cbn; auto.
Qed.
End Telemetry.

(** An SDK that refuses the build_info gauge. *)
Definition no_gauge : OtelKit := {|
  semconv_SchemaURL := ""; resource_Default := []; resource_Merge d x := Ok (d ++ snd x);
  k_trace_exporter := None; k_log_exporter := None; k_prom_exporter := None;
  k_gauge := Some "refused"%string; k_callback := None; k_counter _ := (true, None); k_ReadBuildInfo := None |}.

(** A registration that fails leaves the metrics provider installed and running,
    with nobody left who could end it. *)
Theorem metrics_provider_leaks :
  let '(res, o) := @initTelemetry no_gauge (fun _ => ""%string) "dev" otel_zero in
  is_ok res = false /\ ot_running o = [MeterProvider] /\ ot_meter o = Sdk.
Proof. vm_compute. done. Qed.

Lemma telemetry_ended_witness :
  ot_running (snd (@initTelemetry no_gauge (fun _ => ""%string) "dev" otel_zero)) = []
  \/ (@meter_starts no_gauge (fun _ => ""%string) "dev" = true
     /\ ot_running (snd (@initTelemetry no_gauge (fun _ => ""%string) "dev" otel_zero)) = [MeterProvider]).
Proof.
  apply (@telemetry_ended no_gauge (fun _ => ""%string) "dev" otel_zero); by intros ?%elem_of_nil.
Defined.

(** Spans that have both identifiers are told apart in the logs: the text names
    the span. *)
Lemma trace_id_faithful sc sc' :
  id_valid (sc_TraceID sc) && id_valid (sc_SpanID sc) = true ->
  id_valid (sc_TraceID sc') && id_valid (sc_SpanID sc') = true ->
  TraceIDFromContext sc = TraceIDFromContext sc' -> sc = sc'.
Proof.
  unfold TraceIDFromContext. intros [-> ->]%andb_true_iff [-> ->]%andb_true_iff [= Ht Hs].
  apply (f_equal hex_DecodeString) in Ht, Hs. rewrite !hex_roundtrip in Ht, Hs.
  destruct sc, sc'. cbn in *. congruence.
Qed.

(** A counter counts nothing before the metrics were started, and one increment
    per event afterwards. *)
Lemma counters_armed {O : OtelKit} Getenv v o s o' category ev res :
  (forall name, k_counter name = (true, None)) -> InitMetrics Getenv v o = (s, None, o') ->
  RecordAuthEvent category ev res otel_zero = otel_zero
  /\ ot_counted (RecordAuditWriteFailure (RecordSecurityDenial ev (RecordAuthEvent category ev res o')))
     = ot_counted o' ++ [("auth_events_total", [("category", category); ("event_type", ev); ("result", res)]);
         ("security_denials_total", [("type", ev)]); ("audit_write_failures_total", [])]%string.
Proof.
  intros Hk. unfold InitMetrics, register_counter. rewrite !Hk.
  destruct (buildResource _ _); [|done]. destruct k_prom_exporter; [done|]. cbv zeta.
  destruct k_gauge; [done|]. destruct k_callback; [done|]. intros H. injection H as <- <-.
  split; [done|]. cbn. by rewrite <- !app_assoc.
Qed.
