(* ===== verification/Config.v ===== *)
(** * Startup configuration

    [internal/platform/config/config.go], [control_plane.go] and
    [dependencies.go]: every setting of the process, read once from the
    environment and the secret provider by [Init], which fails rather than start
    an unsafe process.  The package variables are the record [Settings];
    [time.ParseDuration] and the files are parameters. *)

From S2P Require Import Prelude Json Storage World Agent SetupConfig SecretManager.
From S2P Require SetupSample.

Record Settings := {
  AppEnv : string; AppVersion : string; AppPublicHostname : string; AppPrivateHostname : string;
  ManagementPort : string; GRPCTLSCertFile : string; GRPCTLSKeyFile : string; GRPCClientCAFile : string;
  GRPCRequireMTLS : bool; ControlPlaneEnabled : bool; GRPCEnabled : bool; InstanceRole : string;
  SetupWindowTTL : Z; SetupBootstrapToken : string; CoreSetupToken : string;
  AuthJWKSURL : string; AuthIssuer : string; AuthAudience : string; AuthTokenURL : string;
  SecretBaseURL : string; SecretProject_ : string; SecretEnvironment_ : string; DependencyProbeTimeout : Z;
  DeploymentMode_ : string; GatewayLeaseTTL : Z; GatewayAttemptBudget : Z;
  SupervisorInterval : Z; AgentOfflineAfter : Z; SupervisorStaleAfter : Z; SupervisorEscalateAfter : Z;
  AgentCACertFile : string; AgentCAKeyFile : string; AgentCertTTL : Z;
  AppFrontendIdentityHostname : string; AppFrontendConsoleHostname : string;
  JWTPrivateKey : string; JWTPublicKey : string; JWTKeyRotationPeriodSeconds : Z;
  SecretRefreshPeriodSeconds : Z; AppEncryptionKey : string; HMACSecretKey : string;
  SecretProvider : string; SecretPrefix : string;
  DBHost : string; DBPort : string; DBUser : string; DBPassword : string; DBName : string; DBSSLMode : string;
  DBMaxOpenConns : Z; DBMaxIdleConns : Z; DBConnMaxLifetimeSec : Z; DBStatementTimeoutMs : Z;
  CookieSecure : bool; CookieSameSite : string; CookieDomain : string; LogLevel : string }.

Definition EnvDevelopment : string := "development".
Definition InstanceRoleSystem : string := "system".
Definition InstanceRoleRegular : string := "regular".

Definition normalizeListenAddr (port : string) : string :=
  let port := TrimSpace port in
  if is_empty port then "" else if Contains port ":" then port else ":" +:+ port.

Definition IsSystemInstance (c : Settings) : bool := str_eqb (InstanceRole c) InstanceRoleSystem.
Definition IsDevelopment (appEnv : string) : bool := str_eqb appEnv EnvDevelopment.

Section Config.
Context {T : GoText} {K : SecretKit} {Tr : Transport} (time_ParseDuration : string -> result string Z).
(** The value the linker may have put in [AppVersion], and the environment after
    the optional .env file was loaded. *)
Context (buildVersion : string) (Getenv : string -> string).
Abbreviation getenv := (GetEnvOrDefault Getenv).

Definition resolveInstanceRole (raw : string) : result string string :=
  let role := ToLower (TrimSpace raw) in
  if is_empty role then Ok InstanceRoleRegular
  else if str_eqb role InstanceRoleSystem || str_eqb role InstanceRoleRegular then Ok role
  else Err ("invalid INSTANCE_ROLE " +:+ fmt_q raw +:+ ", must be one of: [system regular]")%string.

Definition validateControlPlaneTLS (enabled : bool) (cert key ca : string) : result string () :=
  if negb enabled then Ok ()
  else if is_empty (TrimSpace cert) || is_empty (TrimSpace key) then
    Err "GRPC_TLS_CERT_FILE and GRPC_TLS_KEY_FILE are required when CONTROL_PLANE_ENABLED=true"
  else if is_empty (TrimSpace ca) then
    Err "GRPC_CLIENT_CA_FILE is required when CONTROL_PLANE_ENABLED=true: the control plane only accepts verified client certificates"
  else match os_ReadFile ca with
  | Err e => Err ("read gRPC client CA file " +:+ fmt_q ca +:+ ": " +:+ e)
  | Ok caBytes =>
      if AppendCertsFromPEM caBytes then Ok ()
      else Err ("gRPC client CA file " +:+ fmt_q ca +:+ " contains no PEM certificate")
  end%string.

Definition dependencyMissing (jwks issuer audience tokenURL secretURL : string) : list string :=
  (if is_empty jwks then ["AUTH_JWKS_URL"] else [])
  ++ (if is_empty issuer then ["AUTH_ISSUER"] else [])
  ++ (if is_empty audience then ["AUTH_AUDIENCE"] else [])
  ++ (if is_empty tokenURL then ["AUTH_TOKEN_URL"] else [])
  ++ (if is_empty secretURL then ["SECRET_BASE_URL"] else []).

Definition validateSecretTransport (appEnv secretURL : string) : result string () :=
  match url_Parse secretURL with
  | Err e => Err ("SECRET_BASE_URL is not a valid URL: " +:+ e)
  | Ok u =>
      if is_empty (u_Host u) then
        Err ("SECRET_BASE_URL must be an absolute URL with a scheme and host (got " +:+ fmt_q secretURL +:+ ")")
      else if negb (IsDevelopment appEnv) && negb (EqualFold (u_Scheme u) "https") then
        Err ("SECRET_BASE_URL must use https outside development (got scheme " +:+ fmt_q (u_Scheme u)
             +:+ ") — every request core sends there carries a bearer token for the vault")
      else Ok ()
  end%string.

Definition validateDependencies (appEnv jwks issuer audience tokenURL secretURL : string) : result string () :=
  let missing := dependencyMissing jwks issuer audience tokenURL secretURL in
  if IsDevelopment appEnv then Ok ()
  else match missing with
  | _ :: _ => Err ("config: maintainerd-auth and maintainerd-secret are hard dependencies of maintainerd-core and this install is missing "
      +:+ join ", " missing
      +:+ ". Auth issues the tokens core verifies and mints the ones it presents outbound; secret holds the credentials core generates when it provisions a service. Set APP_ENV=development to run without them")
  | [] => validateSecretTransport appEnv secretURL
  end%string.

(** The two checks [Init] repeats: a duration that must be positive, a count
    that must be at least one. *)
Definition positiveDuration (key def : string) : result string Z :=
  match time_ParseDuration (getenv key def) with
  | Err e => Err (key +:+ " is not a valid duration: " +:+ e)
  | Ok d => if (d <=? 0)%Z then Err (key +:+ " must be positive (got " +:+ duration_String d +:+ ")") else Ok d
  end%string.
Definition atLeastOne (key def : string) (fallback : Z) : result string Z :=
  let n := parseIntDefault (getenv key def) fallback in
  if n <? 1 then Err (key +:+ " must be at least 1 (got " +:+ pretty n +:+ ")")%string else Ok n.

Definition prefixed {A} (p : string) (r : result string A) : result string A :=
  result_map_err (fun e => (p +:+ e)%string) r.

Definition flag (key : string) : bool := EqualFold (getenv key "false") "true".
Definition int_setting (key def : string) (fallback : Z) : Z := parseIntDefault (getenv key def) fallback.

Definition deploymentMode : result string string :=
  let m := ToLower (TrimSpace (getenv "DEPLOYMENT_MODE" "docker")) in
  if str_eqb m "docker" || str_eqb m "kubernetes" then Ok m
  else Err ("DEPLOYMENT_MODE must be " +:+ fmt_q "docker" +:+ " or " +:+ fmt_q "kubernetes"
            +:+ " (got " +:+ fmt_q m +:+ ")")%string.

Definition encryptionKey (sm : SecretManager) : result string string :=
  v ← prefixed "failed to load APP_ENCRYPTION_KEY: " (loadSecretOptional Getenv sm "APP_ENCRYPTION_KEY");
  if negb (is_empty v) && negb (Nat.eqb (String.length v) 32)
  then Err ("APP_ENCRYPTION_KEY must be 32 bytes (AES-256), got " +:+ pretty (Z.of_nat (String.length v)))%string
  else Ok v.

(** *** Groups of settings [Init] reads one after the other *)

Record Supervision := { sv_Interval : Z; sv_OfflineAfter : Z; sv_StaleAfter : Z; sv_EscalateAfter : Z }.
Definition supervisionSettings : result string Supervision :=
  interval ← positiveDuration "SUPERVISOR_INTERVAL" "15s";
  offline ← positiveDuration "AGENT_OFFLINE_AFTER" "90s";
  stale ← positiveDuration "SUPERVISOR_STALE_AFTER" "5m";
  escalate ← atLeastOne "SUPERVISOR_ESCALATE_AFTER" "5" 5;
  Ok (Build_Supervision interval offline stale escalate).

Record AgentCA := { ac_CertFile : string; ac_KeyFile : string; ac_CertTTL : Z }.
Definition agentCASettings : result string AgentCA :=
  certTTL ← positiveDuration "AGENT_CERT_TTL" "24h";
  Ok (Build_AgentCA (getenv "AGENT_CA_CERT_FILE" "") (getenv "AGENT_CA_KEY_FILE" "") certTTL).

(** Keys Core itself does not need; an operator may set them. *)
Record OptionalKeys := {
  ok_JWTPrivate : string; ok_JWTPublic : string; ok_JWTRotation : Z; ok_Refresh : Z;
  ok_Encryption : string; ok_HMAC : string }.
Definition optionalKeys (sm : SecretManager) : result string OptionalKeys :=
  jwtPriv ← prefixed "failed to load JWT private key: " (loadSecretOptional Getenv sm "JWT_PRIVATE_KEY");
  jwtPub ← prefixed "failed to load JWT public key: " (loadSecretOptional Getenv sm "JWT_PUBLIC_KEY");
  let rotation := int_setting "JWT_KEY_ROTATION_PERIOD_SECONDS" "86400" 86400 in
  let refresh := int_setting "SECRET_REFRESH_PERIOD_SECONDS" "300" 300 in
  encryption ← encryptionKey sm;
  hmac ← prefixed "failed to load HMAC_SECRET_KEY: " (loadSecretOptional Getenv sm "HMAC_SECRET_KEY");
  Ok (Build_OptionalKeys jwtPriv jwtPub rotation refresh encryption hmac).

Record Database := {
  db_Host : string; db_Port : string; db_User : string; db_Password : string; db_Name : string;
  db_SSLMode : string; db_MaxOpen : Z; db_MaxIdle : Z; db_Lifetime : Z; db_Timeout : Z }.
Definition databaseSettings (sm : SecretManager) (provider : string) : result string Database :=
  dbHost ← GetEnv Getenv "DB_HOST";
  dbPort ← GetEnv Getenv "DB_PORT";
  dbUser ← GetEnv Getenv "DB_USER";
  dbPassword ← prefixed "failed to load database password: " (loadSecret Getenv sm provider "DB_PASSWORD");
  dbName ← GetEnv Getenv "DB_NAME";
  Ok (Build_Database dbHost dbPort dbUser dbPassword dbName (getenv "DB_SSLMODE" "disable")
        (int_setting "DB_MAX_OPEN_CONNS" "25" 25) (int_setting "DB_MAX_IDLE_CONNS" "10" 10)
        (int_setting "DB_CONN_MAX_LIFETIME_SEC" "300" 300) (int_setting "DB_STATEMENT_TIMEOUT_MS" "30000" 30000)).

Definition cookieSecure : bool := negb (str_eqb (getenv "COOKIE_SECURE" "true") "false").

Definition Init : result string Settings :=
  let provider := getenv "SECRET_PROVIDER" "env" in
  let prefix := getenv "SECRET_PREFIX" "maintainerd/auth" in
  prefixed "secret provider validation failed: " (ValidateSecretProvider provider) ;;
  sm ← prefixed "failed to initialize secret manager: " (newSecretManager Getenv provider prefix);
  let appEnv := getenv "APP_ENV" "production" in
  let version := let v := Getenv "APP_VERSION" in
    if negb (is_empty v) then v else if is_empty buildVersion then "dev"%string else buildVersion in
  publicHost ← GetEnv Getenv "APP_PUBLIC_HOSTNAME";
  privateHost ← GetEnv Getenv "APP_PRIVATE_HOSTNAME";
  let cert := getenv "GRPC_TLS_CERT_FILE" "" in
  let key := getenv "GRPC_TLS_KEY_FILE" "" in
  let ca := getenv "GRPC_CLIENT_CA_FILE" "" in
  let controlPlane := flag "CONTROL_PLANE_ENABLED" in
  let grpc := controlPlane || flag "GRPC_ENABLED" in
  window ← positiveDuration "SETUP_WINDOW_TTL" "30m";
  let mtls := if controlPlane then true else flag "GRPC_REQUIRE_MTLS" in
  role ← resolveInstanceRole (getenv "INSTANCE_ROLE" InstanceRoleSystem);
  prefixed "control plane TLS configuration is invalid: " (validateControlPlaneTLS controlPlane cert key ca) ;;
  bootstrap ← prefixed "failed to load setup bootstrap token: " (loadSecretOptional Getenv sm "SETUP_BOOTSTRAP_TOKEN");
  setupToken ← prefixed "failed to load core setup token: " (loadSecretOptional Getenv sm "CORE_SETUP_TOKEN");
  let jwks := TrimSpace (getenv "AUTH_JWKS_URL" "") in
  let issuer := TrimSpace (getenv "AUTH_ISSUER" "") in
  let audience := TrimSpace (getenv "AUTH_AUDIENCE" "") in
  let tokenURL := TrimSpace (getenv "AUTH_TOKEN_URL" "") in
  let secretURL := trim_right_slashes (TrimSpace (getenv "SECRET_BASE_URL" "")) in
  probe ← positiveDuration "DEPENDENCY_PROBE_TIMEOUT" "3s";
  mode ← deploymentMode;
  lease ← positiveDuration "LEASE_TTL" "60s";
  budget ← atLeastOne "ATTEMPT_BUDGET" "10" 10;
  sv ← supervisionSettings;
  ca' ← agentCASettings;
  keys ← optionalKeys sm;
  db ← databaseSettings sm provider;
  validateDependencies appEnv jwks issuer audience tokenURL secretURL ;;
  Ok {|
    AppEnv := appEnv; AppVersion := version; AppPublicHostname := publicHost; AppPrivateHostname := privateHost;
    ManagementPort := normalizeListenAddr (getenv "MANAGEMENT_PORT" "8082");
    GRPCTLSCertFile := cert; GRPCTLSKeyFile := key; GRPCClientCAFile := ca;
    GRPCRequireMTLS := mtls; ControlPlaneEnabled := controlPlane; GRPCEnabled := grpc; InstanceRole := role;
    SetupWindowTTL := window; SetupBootstrapToken := bootstrap; CoreSetupToken := setupToken;
    AuthJWKSURL := jwks; AuthIssuer := issuer; AuthAudience := audience; AuthTokenURL := tokenURL;
    SecretBaseURL := secretURL; SecretProject_ := TrimSpace (getenv "SECRET_PROJECT" "default");
    SecretEnvironment_ := TrimSpace (getenv "SECRET_ENVIRONMENT" "default"); DependencyProbeTimeout := probe;
    DeploymentMode_ := mode; GatewayLeaseTTL := lease; GatewayAttemptBudget := budget;
    SupervisorInterval := sv_Interval sv; AgentOfflineAfter := sv_OfflineAfter sv;
    SupervisorStaleAfter := sv_StaleAfter sv;
    SupervisorEscalateAfter := sv_EscalateAfter sv; AgentCACertFile := ac_CertFile ca';
    AgentCAKeyFile := ac_KeyFile ca'; AgentCertTTL := ac_CertTTL ca';
    AppFrontendIdentityHostname := getenv "APP_FRONTEND_IDENTITY_HOSTNAME" "";
    AppFrontendConsoleHostname := getenv "APP_FRONTEND_CONSOLE_HOSTNAME" "";
    JWTPrivateKey := ok_JWTPrivate keys; JWTPublicKey := ok_JWTPublic keys;
    JWTKeyRotationPeriodSeconds := ok_JWTRotation keys; SecretRefreshPeriodSeconds := ok_Refresh keys;
    AppEncryptionKey := ok_Encryption keys; HMACSecretKey := ok_HMAC keys;
    SecretProvider := provider; SecretPrefix := prefix;
    DBHost := db_Host db; DBPort := db_Port db; DBUser := db_User db; DBPassword := db_Password db;
    DBName := db_Name db; DBSSLMode := db_SSLMode db;
    DBMaxOpenConns := db_MaxOpen db; DBMaxIdleConns := db_MaxIdle db;
    DBConnMaxLifetimeSec := db_Lifetime db; DBStatementTimeoutMs := db_Timeout db;
    CookieSecure := cookieSecure;
    CookieSameSite := getenv "COOKIE_SAMESITE" "lax"; CookieDomain := TrimSpace (getenv "COOKIE_DOMAIN" "");
    LogLevel := getenv "LOG_LEVEL" "info" |}%string.
End Config.

(** A snapshot of the package variables.  It leaves out what the boot reads from
    the variables themselves: the dependencies, the deadlines of the supervisor
    and the gateway, and the cookie domain. *)
Record Config := {
  cf_AppEnv : string; cf_AppVersion : string; cf_AppPublicHostname : string;
  cf_AppPrivateHostname : string; cf_ManagementPort : string; cf_GRPCTLSCertFile : string;
  cf_GRPCTLSKeyFile : string; cf_GRPCClientCAFile : string; cf_GRPCRequireMTLS : bool;
  cf_ControlPlaneEnabled : bool; cf_InstanceRole : string; cf_SetupBootstrapToken : string;
  cf_AppEncryptionKey : string; cf_LogLevel : string; cf_AppFrontendIdentityHostname : string;
  cf_AppFrontendConsoleHostname : string; cf_JWTPrivateKey : string; cf_JWTPublicKey : string;
  cf_JWTKeyRotationPeriodSeconds : Z; cf_SecretRefreshPeriodSeconds : Z; cf_HMACSecretKey : string;
  cf_SecretProvider : string; cf_SecretPrefix : string; cf_DBHost : string; cf_DBPort : string;
  cf_DBUser : string; cf_DBPassword : string; cf_DBName : string; cf_DBSSLMode : string;
  cf_DBMaxOpenConns : Z; cf_DBMaxIdleConns : Z; cf_DBConnMaxLifetimeSec : Z;
  cf_DBStatementTimeoutMs : Z; cf_CookieSecure : bool; cf_CookieSameSite : string;
  cf_AgentCACertFile : string; cf_AgentCAKeyFile : string; cf_AgentCertTTL : Z }.

Definition GetConfig (c : Settings) : Config := {|
  cf_AppEnv := AppEnv c; cf_AppVersion := AppVersion c; cf_AppPublicHostname := AppPublicHostname c;
  cf_AppPrivateHostname := AppPrivateHostname c; cf_ManagementPort := ManagementPort c;
  cf_GRPCTLSCertFile := GRPCTLSCertFile c; cf_GRPCTLSKeyFile := GRPCTLSKeyFile c;
  cf_GRPCClientCAFile := GRPCClientCAFile c; cf_GRPCRequireMTLS := GRPCRequireMTLS c;
  cf_ControlPlaneEnabled := ControlPlaneEnabled c; cf_InstanceRole := InstanceRole c;
  cf_SetupBootstrapToken := SetupBootstrapToken c; cf_AppEncryptionKey := AppEncryptionKey c;
  cf_LogLevel := LogLevel c; cf_AppFrontendIdentityHostname := AppFrontendIdentityHostname c;
  cf_AppFrontendConsoleHostname := AppFrontendConsoleHostname c; cf_JWTPrivateKey := JWTPrivateKey c;
  cf_JWTPublicKey := JWTPublicKey c; cf_JWTKeyRotationPeriodSeconds := JWTKeyRotationPeriodSeconds c;
  cf_SecretRefreshPeriodSeconds := SecretRefreshPeriodSeconds c; cf_HMACSecretKey := HMACSecretKey c;
  cf_SecretProvider := SecretProvider c; cf_SecretPrefix := SecretPrefix c; cf_DBHost := DBHost c;
  cf_DBPort := DBPort c; cf_DBUser := DBUser c; cf_DBPassword := DBPassword c; cf_DBName := DBName c;
  cf_DBSSLMode := DBSSLMode c; cf_DBMaxOpenConns := DBMaxOpenConns c;
  cf_DBMaxIdleConns := DBMaxIdleConns c; cf_DBConnMaxLifetimeSec := DBConnMaxLifetimeSec c;
  cf_DBStatementTimeoutMs := DBStatementTimeoutMs c; cf_CookieSecure := CookieSecure c;
  cf_CookieSameSite := CookieSameSite c; cf_AgentCACertFile := AgentCACertFile c;
  cf_AgentCAKeyFile := AgentCAKeyFile c; cf_AgentCertTTL := AgentCertTTL c |}.

(** The DSN of the database ([db.go]). *)
Definition GetDBConnectionString (c : Settings) : string :=
  "host=" +:+ DBHost c +:+ " port=" +:+ DBPort c +:+ " user=" +:+ DBUser c +:+ " password=" +:+ DBPassword c
  +:+ " dbname=" +:+ DBName c +:+ " sslmode=" +:+ DBSSLMode c
  +:+ " options='-c statement_timeout=" +:+ pretty (DBStatementTimeoutMs c) +:+ "'".

(** ** What a process that started may rely on *)

Section ConfigClaims.
Context {T : GoText} {K : SecretKit} {Tr : Transport} (ParseDuration : string -> result string Z).
Context (buildVersion : string) (Getenv : string -> string).
Abbreviation init := (Init ParseDuration buildVersion Getenv).

Lemma positiveDuration_pos key def d : positiveDuration ParseDuration Getenv key def = Ok d -> 0 < d.
Proof.
  unfold positiveDuration. destruct (ParseDuration _) as [z|]; [|done].
  destruct (Z.leb_spec z 0); [done|]. by intros [= <-].
Qed.
Lemma atLeastOne_pos key def f n : atLeastOne Getenv key def f = Ok n -> 1 <= n.
Proof. unfold atLeastOne. destruct (Z.ltb_spec (parseIntDefault (GetEnvOrDefault Getenv key def) f) 1); [done|]. by intros [= <-]. Qed.
Lemma prefixed_Ok {A} p (r : result string A) a : prefixed p r = Ok a -> r = Ok a.
Proof. destruct r; cbn; congruence. Qed.
Lemma is_empty_false s : is_empty s = false <-> s <> ""%string.
Proof. unfold is_empty, str_eqb. destruct (String.eqb_spec s ""); naive_solver. Qed.

Lemma dependencies_checked appEnv jwks issuer audience tokenURL secretURL :
  validateDependencies appEnv jwks issuer audience tokenURL secretURL = Ok () -> appEnv <> "development"%string ->
  Forall (fun s => s <> ""%string) [jwks; issuer; audience; tokenURL; secretURL]
  /\ exists u, url_Parse secretURL = Ok u /\ u_Host u <> ""%string /\ EqualFold (u_Scheme u) "https" = true.
Proof.
  unfold validateDependencies, dependencyMissing, validateSecretTransport, IsDevelopment, EnvDevelopment.
  intros H Hd. destruct (str_eqb appEnv "development") eqn:E; [by apply str_eqb_eq in E|]. revert H. cbv zeta.
  destruct (is_empty jwks) eqn:E1; [done|]. destruct (is_empty issuer) eqn:E2; [done|].
  destruct (is_empty audience) eqn:E3; [done|]. destruct (is_empty tokenURL) eqn:E4; [done|].
  destruct (is_empty secretURL) eqn:E5; [done|]. cbn [app].
  destruct (url_Parse secretURL) as [u|]; [|done]. destruct (is_empty (u_Host u)) eqn:E6; [done|].
  destruct (EqualFold (u_Scheme u) "https") eqn:E7; [|done]. intros _.
  rewrite is_empty_false in E1, E2, E3, E4, E5, E6. split; [by repeat constructor|]. by exists u.
Qed.

Lemma control_plane_checked enabled cert key ca :
  validateControlPlaneTLS enabled cert key ca = Ok () -> enabled = true ->
  TrimSpace cert <> ""%string /\ TrimSpace key <> ""%string
  /\ exists pem, os_ReadFile ca = Ok pem /\ AppendCertsFromPEM pem = true.
Proof.
  unfold validateControlPlaneTLS. intros H ->. revert H. cbn [negb].
  destruct (is_empty (TrimSpace cert)) eqn:E1; [done|]. destruct (is_empty (TrimSpace key)) eqn:E2; [done|].
  cbn [orb]. destruct (is_empty (TrimSpace ca)) eqn:E3; [done|].
  destruct (os_ReadFile ca) as [pem|] eqn:Er; [|done]. destruct (AppendCertsFromPEM pem) eqn:Ep; [|done].
  intros _. rewrite is_empty_false in E1, E2. eauto.
Qed.

Lemma deploymentMode_known m : deploymentMode Getenv = Ok m -> m = "docker"%string \/ m = "kubernetes"%string.
Proof.
  unfold deploymentMode. cbv zeta. destruct (str_eqb _ "docker") eqn:E1; cbn [orb].
  - intros [= <-]. left. by apply str_eqb_eq in E1.
  - destruct (str_eqb _ "kubernetes") eqn:E2; [|done]. intros [= <-]. right. by apply str_eqb_eq in E2.
Qed.
Lemma role_known raw r : resolveInstanceRole raw = Ok r -> r = InstanceRoleSystem \/ r = InstanceRoleRegular.
Proof.
  unfold resolveInstanceRole. cbv zeta. destruct (is_empty _); [intros [= <-]; by right|].
  destruct (str_eqb _ InstanceRoleSystem) eqn:E1; cbn [orb].
  - intros [= <-]. left. by apply str_eqb_eq in E1.
  - destruct (str_eqb _ InstanceRoleRegular) eqn:E2; [|done]. intros [= <-]. right. by apply str_eqb_eq in E2.
Qed.
Lemma encryption_sized sm k : encryptionKey Getenv sm = Ok k -> k = ""%string \/ String.length k = 32%nat.
Proof.
  intros (v & _ & H)%bind_Ok_inv. destruct (is_empty v) eqn:E1; cbn in H.
  - injection H as <-. left. by apply str_eqb_eq in E1.
  - destruct (Nat.eqb_spec (String.length v) 32); cbn in H; [|done]. injection H as <-. by right.
Qed.
Lemma password_set sm provider key v : loadSecret Getenv sm provider key = Ok v -> v <> ""%string.
Proof.
  intros ([[raw src]|] & _ & H)%bind_Ok_inv; [|by destruct (envFallbackEnabled Getenv)].
  apply bind_Ok_inv in H as (n & _ & H). destruct (is_empty n) eqn:E; [done|].
  injection H as <-. by apply is_empty_false.
Qed.

(** The groups of settings. *)
Ltac settings H := repeat match goal with H : (_ ≫= _) = Ok _ |- _ => apply bind_Ok_inv in H as (? & ? & H) end;
  injection H as <-.
Lemma supervision_positive sv : supervisionSettings ParseDuration Getenv = Ok sv ->
  0 < sv_Interval sv /\ 0 < sv_OfflineAfter sv /\ 0 < sv_StaleAfter sv /\ 1 <= sv_EscalateAfter sv.
Proof.
  intros H. unfold supervisionSettings in H. settings H.
  split_and!; (by eapply positiveDuration_pos) || (by eapply atLeastOne_pos).
Qed.
Lemma agent_ca_positive ca : agentCASettings ParseDuration Getenv = Ok ca -> 0 < ac_CertTTL ca.
Proof. intros H. unfold agentCASettings in H. settings H. by eapply positiveDuration_pos. Qed.
Lemma keys_sized sm k : optionalKeys Getenv sm = Ok k ->
  ok_Encryption k = ""%string \/ String.length (ok_Encryption k) = 32%nat.
Proof. intros H. unfold optionalKeys in H. settings H. by eapply encryption_sized. Qed.
Lemma database_password sm provider d : databaseSettings Getenv sm provider = Ok d -> db_Password d <> ""%string.
Proof.
  intros H. unfold databaseSettings in H. settings H. cbn.
  match goal with H : prefixed _ (loadSecret _ _ _ _) = Ok _ |- _ => apply prefixed_Ok, password_set in H end. done.
Qed.

End ConfigClaims.

(** ** A sample install *)

Section Sample.
Existing Instance SetupSample.install_text.

Definition sample_url (s : string) : result string URL :=
  Ok (Build_URL (if HasPrefix s "https:" then "https" else "http") s s).
Definition plain_secrets : SecretKit := {|
  os_ReadSecret _ := FileMissing; url_Parse := sample_url; base64_Decode s := Ok s;
  newRemote _ _ := Err "unreachable"%string |}.
Existing Instances plain_secrets SetupSample.install_transport.

Definition minute (s : string) : result string Z := Ok (60 * Second).
Definition production_env (key : string) : string :=
  if existsb (str_eqb key) ["APP_PUBLIC_HOSTNAME"; "APP_PRIVATE_HOSTNAME"; "DB_HOST"; "DB_PORT"; "DB_USER";
    "DB_PASSWORD"; "DB_NAME"; "AUTH_JWKS_URL"; "AUTH_ISSUER"; "AUTH_AUDIENCE"; "AUTH_TOKEN_URL"] then "set"
  else if str_eqb key "SECRET_BASE_URL" then "https://secret/"
  else if str_eqb key "SUPERVISOR_ESCALATE_AFTER" then "fifty" else "".


(** A supervision threshold with a typo is replaced by the default, not refused. *)
Lemma typo_defaults :
  SupervisorEscalateAfter <$> (match Init minute "" production_env with Ok c => Some c | Err _ => None end)
  = Some 5.
Proof. vm_compute. reflexivity. Qed.

(** Outside development and production, a remote secret store may be reached in
    the clear. *)
Lemma staging_vault_in_clear :
  requireSecureSecretTransport (fun k => if str_eqb k "APP_ENV" then "staging"%string else ""%string)
    "VAULT_ADDR" "http://vault.internal:8200" = Ok ().
Proof. vm_compute. reflexivity. Qed.
End Sample.
