(* ===== verification/Connections.v ===== *)
(** * Connections made at startup

    [internal/platform/database/pool.go] and [internal/platform/config/redis.go]:
    the two clients that are built from the configuration and pinged with
    [retry.WithBackoff] before they are handed out; and
    [internal/platform/database/migrate.go], which opens a connection for goose
    and closes it again.  The drivers and goose are parameters; what is kept is
    whether a client that was built is still open. *)

From S2P Require Import Prelude Json Storage World Mrn Agent Vault SecretManager Config Telemetry.
From S2P Require Retry SetupSample.

Record PoolConfig := {
  pc_MaxConns : Z; pc_MinConns : Z; pc_MaxConnLifetime : Z; pc_MaxConnIdleTime : Z }.

Record RedisOptions := {
  ro_Addr : string; ro_Password : string; ro_DB : Z;
  (* [Some v] is a TLS configuration with that minimum version *)
  ro_TLS : option Z }.
Definition VersionTLS12 : Z := 771.

(** The drivers: the parsing of a DSN, the construction of a pool, the
    instrumentation of the Redis client; a ping acts on the state of the world,
    which moves on between attempts; a wait may be cut short. *)
Class Drivers (St : Type) := {
  pgxpool_ParseConfig : string -> option string;
  pgxpool_New : PoolConfig -> option string;
  ping : St -> result string () * St;
  redis_Instrument : option string;
  sql_Open : string -> option string;
  goose_SetDialect : string -> option string;
  goose_UpContext : St -> option string * St;
  elapse : nat -> St -> St;
  cancelled : nat -> bool;
  ctx_Err : string;
}.

(** What a constructor returns, whether it leaves an open client behind, and the
    state after it. *)
Record opening (A St : Type) := Opening { op_result : result string A; op_open : bool; op_state : St }.
Arguments Opening {A St} op_result op_open op_state.
Arguments op_result {A St} o.
Arguments op_open {A St} o.
Arguments op_state {A St} o.

Section Connections.
Context {St : Type} {D : Drivers St}.

(** [retry.WithBackoff(ctx, name, 10, 2*time.Second, ping)]; [None] is nil. *)
Definition ping_with_backoff (s : St) : option string * St :=
  let '(out, _, _, s) := Retry.WithBackoff ping elapse cancelled 10 (2 * Second) s in
  (match out with
   | Retry.RetryNil => None
   | Retry.RetryErr e => Some e
   | Retry.RetryCancelled => Some ctx_Err
   end, s).

Definition pool_config (c : Settings) : PoolConfig := {|
  pc_MaxConns := int32 (DBMaxOpenConns c); pc_MinConns := int32 (DBMaxIdleConns c);
  pc_MaxConnLifetime := int64 (DBConnMaxLifetimeSec c * Second); pc_MaxConnIdleTime := 90 * Second |}.

Definition NewPool (c : Settings) (s : St) : opening PoolConfig St :=
  if str_eqb (AppEnv c) "production" && str_eqb (DBSSLMode c) "disable"
  then Opening (Err "database SSL is disabled (DB_SSLMODE=disable) — not allowed in production"%string) false s
  else match pgxpool_ParseConfig (GetDBConnectionString c) with
  | Some err => Opening (Err ("failed to parse database config: " +:+ err)%string) false s
  | None =>
      let poolCfg := pool_config c in
      match pgxpool_New poolCfg with
      | Some err => Opening (Err ("failed to create database pool: " +:+ err)%string) false s
      | None =>
          match ping_with_backoff s with
          (* [pool.Close()] *)
          | (Some err, s) => Opening (Err ("failed to connect to database: " +:+ err)%string) false s
          | (None, s) => Opening (Ok poolCfg) true s
          end
      end
  end.

(** The connection is closed on every path behind its opening. *)
Definition RunMigrations (c : Settings) (s : St) : opening () St :=
  match sql_Open (GetDBConnectionString c) with
  | Some err => Opening (Err ("failed to open migration connection: " +:+ err)) false s
  | None =>
      match goose_SetDialect "postgres" with
      | Some err => Opening (Err ("failed to set goose dialect: " +:+ err)) false s
      | None =>
          match goose_UpContext s with
          | (Some err, s) => Opening (Err ("failed to run migrations: " +:+ err)) false s
          | (None, s) => Opening (Ok ()) false s
          end
      end
  end%string.

Context {T : GoText} {K : SecretKit} (Getenv : string -> string) (sm : SecretManager).
Abbreviation getenv := (GetEnvOrDefault Getenv).

Definition redis_options (password : string) : RedisOptions :=
  let addr := getenv "REDIS_ADDR" "redis-db:6379" in
  let useTLS := default false (ParseBool (getenv "REDIS_TLS" "false")) || HasPrefix addr "rediss://" in
  {| ro_Addr := addr; ro_Password := password; ro_DB := 0;
     ro_TLS := if useTLS then Some VersionTLS12 else None |}.

Definition NewRedisClient (s : St) : opening RedisOptions St :=
  match loadSecretOptional Getenv sm "REDIS_PASSWORD" with
  | Err err => Opening (Err ("failed to load Redis password: " +:+ err)%string) false s
  | Ok password =>
      let opts := redis_options password in
      match ping_with_backoff s with
      | (Some err, s) =>
          Opening (Err ("failed to connect to Redis at " +:+ ro_Addr opts +:+ ": " +:+ err)%string) true s
      | (None, s) =>
          match redis_Instrument with
          | Some err => Opening (Err ("failed to register redisotel tracing: " +:+ err)%string) true s
          | None => Opening (Ok opts) true s
          end
      end
  end.

(** ** Theorems *)

Lemma ping_ok s s' : ping_with_backoff s = (None, s') -> exists s0, ping s0 = (Ok (), s').
Proof.
  unfold ping_with_backoff.
  pose proof (Retry.with_backoff_bounded ping elapse cancelled 10 (2 * Second) s ltac:(done) ltac:(done)) as H.
  destruct (Retry.WithBackoff _ _ _ _ _ _) as [[[out waits] calls] s1].
  destruct out; intros E; simplify_eq. by destruct H as (_ & _ & _ & H).
Qed.

(** The pool is handed out only once the database answered, is never open after
    a failure, and in production never speaks to the database in the clear; its
    sizes are those of the configuration when they fit 32 bits. *)
Theorem pool_opened_safely c s :
  let o := NewPool c s in
  match op_result o with
  | Ok cfg =>
      op_open o = true /\ (exists s0, ping s0 = (Ok (), op_state o))
      /\ (AppEnv c = "production"%string -> DBSSLMode c <> "disable"%string)
      /\ (0 <= DBMaxOpenConns c <= max_int32 -> pc_MaxConns cfg = DBMaxOpenConns c)
      /\ (0 <= DBMaxIdleConns c <= max_int32 -> pc_MinConns cfg = DBMaxIdleConns c)
  | Err _ => op_open o = false
  end.
Proof.
  unfold NewPool. destruct (_ && _) eqn:Hs; [done|].
  destruct (pgxpool_ParseConfig _); [done|]. cbv zeta. destruct (pgxpool_New _); [done|].
  destruct (ping_with_backoff s) as [[err|] s1] eqn:Hp; [done|]. cbn.
  split_and!; [done|by eapply ping_ok| | |]; unfold max_int32.
  - intros He Hd. by rewrite He, Hd in Hs.
  - intros H. apply int32_id. lia.
  - intros H. apply int32_id. lia.
Qed.

(** A Redis client that did not answer, or could not be instrumented, is left
    open: only a password that cannot be loaded fails before there is a client. *)
Theorem redis_left_open s err :
  op_result (NewRedisClient s) = Err err -> is_ok (loadSecretOptional Getenv sm "REDIS_PASSWORD") = true ->
  op_open (NewRedisClient s) = true.
Proof.
  unfold NewRedisClient. destruct (loadSecretOptional _ _ _) as [pw|e]; [|done]. cbv zeta.
  destruct (ping_with_backoff s) as [[e|] s1]; [done|]. by destruct redis_Instrument.
Qed.

(** The transport to Redis is encrypted when either the flag or the scheme of the
    address asks for it. *)
Lemma redis_tls password :
  ro_TLS (redis_options password) = Some VersionTLS12 <->
  ParseBool (getenv "REDIS_TLS" "false") = Some true
  \/ HasPrefix (getenv "REDIS_ADDR" "redis-db:6379") "rediss://" = true.
Proof.
  unfold redis_options. cbn.
  destruct (ParseBool _) as [[]|], (HasPrefix _ _); cbn; naive_solver.
Qed.
End Connections.

(** A world in which nothing answers. *)
Definition nothing_up : Drivers () := {|
  pgxpool_ParseConfig _ := None; pgxpool_New _ := None; ping s := (Err "refused"%string, s);
  redis_Instrument := None; sql_Open _ := Some "refused"%string; goose_SetDialect _ := None;
  goose_UpContext s := (None, s); elapse _ s := s; cancelled _ := false; ctx_Err := "context canceled"%string |}.

Lemma redis_left_open_witness :
  op_open (@NewRedisClient () nothing_up SetupSample.install_text plain_secrets (fun _ => ""%string) EnvProvider ()) = true.
Proof.
  eapply (@redis_left_open () nothing_up SetupSample.install_text plain_secrets (fun _ => ""%string) EnvProvider ());
    vm_compute; reflexivity.
Defined.

(** ** The DSN

    [GetDBConnectionString] puts the settings between keywords, unquoted. *)

(** No value that goes into the DSN as it is contains a space. *)
Definition dsn_clean (c : Settings) : Prop :=
  Forall (fun v => ContainsByte v " " = false)
    [DBHost c; DBPort c; DBUser c; DBPassword c; DBName c; DBSSLMode c].

Definition dsn_values (c : Settings) : list string * Z :=
  ([DBHost c; DBPort c; DBUser c; DBPassword c; DBName c; DBSSLMode c], DBStatementTimeoutMs c).

Lemma append_inj_l a b c : (a +:+ b = a +:+ c -> b = c)%string.
Proof. induction a as [|x a IH]; cbn; [done|]. intros E. injection E as E. auto. Qed.

Lemma list_ascii_app a b :
  list_ascii_of_string (a +:+ b) = list_ascii_of_string a ++ list_ascii_of_string b.
Proof. induction a as [|x a IH]; [done|]. exact (f_equal (cons x) IH). Qed.

(** The next value of two equal DSNs: the keyword is the same and the value ends
    at the first space. *)
Lemma dsn_next k v v' r r' :
  ContainsByte v " " = false -> ContainsByte v' " " = false ->
  (k +:+ v +:+ String " " r = k +:+ v' +:+ String " " r')%string -> v = v' /\ r = r'.
Proof. intros Hv Hv' E%append_inj_l. by eapply (split_at_byte " "). Qed.

(** Settings without spaces are what the DSN says: two configurations that
    render to the same DSN agree on every value of it. *)
Theorem dsn_unambiguous c c' : dsn_clean c -> dsn_clean c' ->
  GetDBConnectionString c = GetDBConnectionString c' -> dsn_values c = dsn_values c'.
Proof.
  unfold dsn_clean, dsn_values, GetDBConnectionString. intros H H'. rewrite !Forall_cons in H, H'.
  destruct H as (C1 & C2 & C3 & C4 & C5 & C6 & _), H' as (D1 & D2 & D3 & D4 & D5 & D6 & _). intros E.
  apply (dsn_next "host=") in E as [E1 E]; [|done..]. apply (dsn_next "port=") in E as [E2 E]; [|done..].
  apply (dsn_next "user=") in E as [E3 E]; [|done..]. apply (dsn_next "password=") in E as [E4 E]; [|done..].
  apply (dsn_next "dbname=") in E as [E5 E]; [|done..]. apply (dsn_next "sslmode=") in E as [E6 E]; [|done..].
  apply (append_inj_l "options='-c statement_timeout=") in E.
  assert (Et : pretty (DBStatementTimeoutMs c) = pretty (DBStatementTimeoutMs c')).
  { apply (f_equal (fun s => rev (list_ascii_of_string s))) in E.
    rewrite !list_ascii_app, !rev_app_distr in E. cbn in E. injection E as E.
    apply (f_equal (@rev ascii)) in E. rewrite !rev_involutive in E.
    apply (f_equal string_of_list_ascii) in E. by rewrite !string_of_list_ascii_of_string in E. }
  apply (inj pretty) in Et. by rewrite E1, E2, E3, E4, E5, E6, Et.
Qed.

(** A password with a space is read as further keywords: two installs with
    different passwords and different databases present the same DSN. *)
Definition spaced_env (password name key : string) : string :=
  if str_eqb key "DB_PASSWORD" then password
  else if str_eqb key "DB_NAME" then name else production_env key.

Theorem dsn_password_ambiguous :
  exists c c',
    @Config.Init SetupSample.install_text plain_secrets SetupSample.install_transport minute ""
      (spaced_env "hunter2 dbname=b" "core") = Ok c
    /\ @Config.Init SetupSample.install_text plain_secrets SetupSample.install_transport minute ""
      (spaced_env "hunter2" "b dbname=core") = Ok c'
    /\ GetDBConnectionString c = GetDBConnectionString c' /\ DBPassword c <> DBPassword c'.
Proof.
  eexists _, _. split; [vm_compute; reflexivity|]. split; [vm_compute; reflexivity|].
  split; [vm_compute; reflexivity|discriminate].
Qed.
