(* ===== verification/Decode.v ===== *)
(** * Request bodies

    What the HTTP handlers use of [encoding/json]: [Decode] of a request body
    into a struct, field by field, with the rules a caller can run into
    (case-insensitive names, repeated names, null, values of another type), and
    [strconv.Atoi] with its error ignored, as the handlers read the paging
    parameters.

    A body is the JSON value at its start; [None] is a body that does not start
    with one.  Numbers are literals here: an integer field parses the literal,
    [any] holds the float64 it denotes ([GoFloat]). *)

From S2P Require Import Prelude Json.
From S2P Require Resource.

Inductive json : Type :=
  | JNull
  | JBool (b : bool)
  | JNum (literal : string)
  | JStr (s : string)
  | JArr (l : list json)
  | JObj (m : list (string * json)).

Definition Body : Type := option json.

(** The text [%v] prints for the float64 a literal denotes; [None] when it is
    out of range. *)
Class GoFloat := float64_text : string -> option string.

Section Decode.
Context {T : GoText} {F : GoFloat}.

(** A value of type [any]: of repeated names in an object the last wins. *)
Fixpoint decode_any (j : json) : option value :=
  match j with
  | JNull => Some VNull
  | JBool b => Some (VBool b)
  | JNum lit => VNum <$> float64_text lit
  | JStr s => Some (VStr s)
  | JArr l => VArr <$> mapM decode_any l
  | JObj m =>
      kvs ← mapM (fun kv => v ← decode_any (snd kv); Some (fst kv, v)) m;
      Some (VObj (foldl (fun acc kv => obj_set (fst kv) (snd kv) acc) [] kvs))
  end.

(** *** Fields

    A decoder takes the field's old value; null leaves a value that is not a
    pointer, a map or a slice as it was. *)

Definition dec_string (j : json) (old : string) : option string :=
  match j with JStr s => Some s | JNull => Some old | _ => None end.
Definition dec_bool (j : json) (old : bool) : option bool :=
  match j with JBool b => Some b | JNull => Some old | _ => None end.
Definition dec_int64 (j : json) (old : Z) : option Z :=
  match j with JNum lit => Atoi lit | JNull => Some old | _ => None end.
Definition dec_uuid (j : json) (old : Z) : option Z :=
  match j with JStr s => uuid_Parse s | JNull => Some old | _ => None end.
Definition dec_uuid_ptr (j : json) (_ : option Z) : option (option Z) :=
  match j with JStr s => Some <$> uuid_Parse s | JNull => Some None | _ => None end.

(** A [map[string]any]: the names are added to the map that is there. *)
Definition dec_map (j : json) (old : option object) : option (option object) :=
  match j with
  | JNull => Some None
  | JObj m =>
      kvs ← mapM (fun kv => v ← decode_any (snd kv); Some (fst kv, v)) m;
      Some (Some (foldl (fun acc kv => obj_set (fst kv) (snd kv) acc) (default [] old) kvs))
  | _ => None
  end.

(** A [[]string]: its length and the array behind it, which a second
    occurrence of the field decodes into. *)
Record strings := { sl_len : nat; sl_array : list string }.
Definition slice_of (s : option strings) : option (list string) :=
  (fun s => take (sl_len s) (sl_array s)) <$> s.

Fixpoint dec_elements (l : list json) (array : list string) : option (list string) :=
  match l with
  | [] => Some array
  | j :: l =>
      s ← dec_string j (default ""%string (head array));
      rest ← dec_elements l (tail array);
      Some (s :: rest)
  end.
Definition dec_strings (j : json) (old : option strings) : option (option strings) :=
  match j with
  | JNull => Some None
  | JArr [] => Some (Some {| sl_len := 0; sl_array := [] |})
  | JArr l =>
      array ← dec_elements l (default [] (sl_array <$> old));
      Some (Some {| sl_len := length l; sl_array := array |})
  | _ => None
  end.

(** *** Structs *)

Record field (S : Type) := { fd_name : string; fd_decode : json -> S -> option S }.
Arguments fd_name {S} f.
Arguments fd_decode {S} f.

Definition json_field {S A} (name : string) (proj : S -> A) `{!FieldSetter proj}
    (dec : json -> A -> option A) : field S :=
  {| fd_name := name;
     fd_decode j s := a ← dec j (proj s); Some (set_field proj (fun _ => a) s) |}.

Definition find_field {S} (fields : list (field S)) (name : string) : option (field S) :=
  match List.find (fun f => str_eqb (fd_name f) name) fields with
  | Some f => Some f
  | None => List.find (fun f => str_eqb (Resource.fold_name (fd_name f)) (Resource.fold_name name)) fields
  end.

Fixpoint decode_members {S} (fields : list (field S)) (m : list (string * json)) (s : S) : option S :=
  match m with
  | [] => Some s
  | (name, j) :: m =>
      s ← match find_field fields name with
          | Some f => fd_decode f j s
          | None => Some s
          end;
      decode_members fields m s
  end.

(** [json.NewDecoder(r.Body).Decode(&req)] from the zero value [zero]. *)
Definition Decode {S} (fields : list (field S)) (zero : S) (b : Body) : option S :=
  match b with
  | Some (JObj m) => decode_members fields m zero
  | Some JNull => Some zero
  | _ => None
  end.
End Decode.

(** ** Paging parameters *)

Definition max_uint64 : Z := 2 ^ 64 - 1.

(** [strconv.ParseUint]: a syntax error is [None]; out of range, the largest
    value, whatever follows. *)
Fixpoint ParseUint_loop (n : Z) (s : string) : option Z :=
  match s with
  | EmptyString => Some n
  | String a s' =>
      let d := Z.of_nat (nat_of_ascii a) - 48 in
      if (0 <=? d) && (d <=? 9)
      then if max_uint64 <? n * 10 + d then Some max_uint64 else ParseUint_loop (n * 10 + d) s'
      else None
  end.
Definition ParseUint (s : string) : option Z := if is_empty s then None else ParseUint_loop 0 s.

(** The integer of [n, _ := strconv.Atoi(s)]: 0 on a syntax error, the nearest
    64-bit integer when out of range. *)
Definition Atoi_int (s : string) : Z :=
  match s with
  | String "-" u => default 0 ((fun n => - Z.min n (2 ^ 63)) <$> ParseUint u)
  | String "+" u | u => default 0 ((fun n => Z.min n max_int64) <$> ParseUint u)
  end.
