(* ===== verification/Validators.v ===== *)
(** * Input validation shared by the handlers

    [internal/platform/valid] (e-mail addresses, telephone numbers, dates),
    [internal/platform/pagination] and [internal/platform/ptr]. *)

From S2P Require Import Prelude Json Regex Decode.

(** ** E-mail addresses and telephone numbers *)

Definition in_range (lo hi c : ascii) : bool :=
  (nat_of_ascii lo <=? nat_of_ascii c)%nat && (nat_of_ascii c <=? nat_of_ascii hi)%nat.
Definition is_digit (c : ascii) : bool := in_range "0" "9" c.
Definition is_letter (c : ascii) : bool := in_range "a" "z" c || in_range "A" "Z" c.
Definition one_of (s : string) (c : ascii) : bool := existsb (Ascii.eqb c) (list_ascii_of_string s).

(** [[a-zA-Z0-9._%+\-]], [[a-zA-Z0-9.\-]] and [[a-zA-Z]]. *)
Definition local_char (c : ascii) : bool := is_letter c || is_digit c || one_of "._%+-" c.
Definition domain_char (c : ascii) : bool := is_letter c || is_digit c || one_of ".-" c.

Definition emailRegex : regex :=
  RSeq (rplus (RClass local_char))
    (RSeq (rchar "@") (RSeq (rplus (RClass domain_char))
      (RSeq (rchar ".") (ratleast 2 (RClass is_letter))))).

Definition IsValidEmail (email : string) : bool :=
  if (254 <? String.length email)%nat then false else MatchString emailRegex email.

(** [\s]: tab, line feed, form feed, carriage return and space. *)
Definition is_space (c : ascii) : bool :=
  existsb (Nat.eqb (nat_of_ascii c)) [9; 10; 12; 13; 32]%nat.
Definition phone_char (c : ascii) : bool := is_digit c || is_space c || one_of "-()." c.

Definition phoneRegex : regex :=
  RSeq (ropt (rchar "+")) (RSeq (RClass (in_range "1" "9")) (rbetween 6 20 (RClass phone_char))).

(** [nonDigitRegex.ReplaceAllString(phone, "")]: the bytes of a character that is
    not ASCII are no digits, and all go. *)
Definition digitsOnly (phone : string) : list ascii :=
  filter (fun c => is_digit c = true) (list_ascii_of_string phone).

Definition IsValidPhoneNumber (phone : string) : bool :=
  let n := length (digitsOnly phone) in
  if (n <? 7)%nat || (15 <? n)%nat then false else MatchString phoneRegex phone.

(** ** Dates *)

(** A [time.Time] at midnight UTC; the zero time is the first day of year 1. *)
Record Date := { d_year : Z; d_month : Z; d_day : Z }.
Definition zeroDate : Date := Build_Date 1 1 1.
Definition IsZero (d : Date) : bool := (d_year d =? 1) && (d_month d =? 1) && (d_day d =? 1).

Definition leap (y : Z) : bool := (y mod 4 =? 0) && (negb (y mod 100 =? 0) || (y mod 400 =? 0)).
Definition daysIn (m y : Z) : Z :=
  if m =? 2 then (if leap y then 29 else 28)
  else if existsb (Z.eqb m) [4; 6; 9; 11] then 30 else 31.

Definition digit_value (c : ascii) : option Z :=
  if is_digit c then Some (Z.of_nat (nat_of_ascii c) - 48) else None.
Fixpoint digits_value (l : list ascii) (acc : Z) : option Z :=
  match l with
  | [] => Some acc
  | c :: l => match digit_value c with Some d => digits_value l (acc * 10 + d) | None => None end
  end.

(** [time.Parse] with the layout ["2006-01-02"] in quotes: four digits, two
    and two, every literal in its place and nothing after them, and a day that
    exists. *)
Definition parse_date (s : string) : option Date :=
  match list_ascii_of_string s with
  | [q1; y1; y2; y3; y4; h1; m1; m2; h2; d1; d2; q2] =>
      if Ascii.eqb q1 "034" && Ascii.eqb h1 "-" && Ascii.eqb h2 "-" && Ascii.eqb q2 "034" then
        match digits_value [y1; y2; y3; y4] 0, digits_value [m1; m2] 0, digits_value [d1; d2] 0 with
        | Some y, Some m, Some d =>
            if (1 <=? m) && (m <=? 12) && (1 <=? d) && (d <=? daysIn m y)
            then Some (Build_Date y m d) else None
        | _, _, _ => None
        end
      else None
  | _ => None
  end.

Definition quote : string := String "034" EmptyString.

Definition UnmarshalJSON (b : string) : option Date :=
  if str_eqb b "null" || str_eqb b (quote +:+ quote) then Some zeroDate else parse_date b.

Definition digit_of (n : Z) : ascii := ascii_of_nat (Z.to_nat (48 + n mod 10)).
Definition Format (d : Date) : string :=
  string_of_list_ascii
    [digit_of (d_year d / 1000); digit_of (d_year d / 100); digit_of (d_year d / 10); digit_of (d_year d);
     "-"%char; digit_of (d_month d / 10); digit_of (d_month d);
     "-"%char; digit_of (d_day d / 10); digit_of (d_day d)].

Definition MarshalJSON (d : Date) : string :=
  if IsZero d then "null" else quote +:+ Format d +:+ quote.

(** ** Paging *)

Definition DefaultPageSize : Z := 20.
Definition MaxPageSize : Z := 100.
Definition SortOrderAsc : string := "asc".
Definition SortOrderDesc : string := "desc".

Record PaginationRequestDTO := { pg_Page : Z; pg_Limit : Z; pg_SortBy : string; pg_SortOrder : string }.

(** [q.Get] of the request's query. *)
Definition ParseQuery (get : string -> string) : PaginationRequestDTO :=
  let page := Atoi_int (get "page"%string) in
  let limit := Atoi_int (get "limit"%string) in
  let limit := if limit <? 1 then DefaultPageSize else limit in
  {| pg_Page := if page <? 1 then 1 else page;
     pg_Limit := if MaxPageSize <? limit then MaxPageSize else limit;
     pg_SortBy := get "sort_by"%string; pg_SortOrder := get "sort_order"%string |}.

(** The rules of the validation library: an empty value passes all but
    [Required]; the message of the first rule that fails, per field, under the
    field's JSON name. *)
Definition Validate (p : PaginationRequestDTO) : list (string * string) :=
  (if pg_Page p =? 0 then [("page", "Page is required")]
   else if pg_Page p <? 1 then [("page", "Page must be greater than 0")] else [])
  ++ (if pg_Limit p =? 0 then [("limit", "Limit is required")]
      else if pg_Limit p <? 1 then [("limit", "Limit must be greater than 0")]
      else if MaxPageSize <? pg_Limit p then [("limit", "Limit is too large")] else [])
  ++ (if (50 <? String.length (pg_SortBy p))%nat then [("sort_by", "SortBy cannot exceed 50 characters")] else [])
  ++ (if is_empty (pg_SortOrder p) || str_eqb (pg_SortOrder p) SortOrderAsc
         || str_eqb (pg_SortOrder p) SortOrderDesc then []
      else [("sort_order", "Order must be either 'asc' or 'desc'")])%string.

(** ** Pointers *)

Definition PtrOrNil (s : string) : option string := if is_empty s then None else Some s.
Definition Ptr (s : string) : option string := Some s.
Definition TimePtr (t : Z) : option Z := Some t.

(** ** Theorems *)

(** What an e-mail address is: at most 254 bytes, one text before the [@] and a
    domain after it whose last label is at least two letters. *)
Theorem email_spec email : IsValidEmail email = true <->
  (String.length email <= 254)%nat
  /\ exists user dom tld, list_ascii_of_string email = user ++ "@"%char :: dom ++ "."%char :: tld
     /\ user <> [] /\ Forall (fun c => local_char c = true) user
     /\ dom <> [] /\ Forall (fun c => domain_char c = true) dom
     /\ (2 <= length tld)%nat /\ Forall (fun c => is_letter c = true) tld.
Proof.
  unfold IsValidEmail, MatchString. destruct (Nat.ltb_spec 254 (String.length email)) as [Hl|Hl].
  { split; [done|]. intros [? _]. lia. }
  rewrite re_match_correct. unfold emailRegex.
  split.
  - intros (user & l1 & E & Hu & (at_ & l2 & -> & ->%matches_char & H)%matches_seq)%matches_seq.
    apply matches_seq in H as (dom & l3 & -> & Hd & (dot & tld & -> & ->%matches_char & Ht)%matches_seq).
    apply matches_plus_class in Hu as [? ?]. apply matches_plus_class in Hd as [? ?].
    apply matches_atleast_class in Ht as [? ?]. split; [done|]. by exists user, dom, tld.
  - intros (_ & user & dom & tld & -> & ? & ? & ? & ? & ? & ?).
    apply (m_seq _ _ user ("@"%char :: dom ++ "."%char :: tld)); [by apply matches_plus_class|].
    apply (m_seq _ _ ["@"%char] (dom ++ "."%char :: tld)); [by apply matches_char|].
    apply (m_seq _ _ dom ("."%char :: tld)); [by apply matches_plus_class|].
    apply (m_seq _ _ ["."%char] tld); [by apply matches_char|by apply matches_atleast_class].
Qed.

(** What a telephone number is: an optional plus, a digit that is not zero, then
    six to twenty digits and separators; seven to fifteen digits in all. *)
Theorem phone_spec phone : IsValidPhoneNumber phone = true <->
  (7 <= length (digitsOnly phone) <= 15)%nat
  /\ exists plus first rest, list_ascii_of_string phone = plus ++ first :: rest
     /\ (plus = [] \/ plus = ["+"%char]) /\ in_range "1" "9" first = true
     /\ (6 <= length rest <= 20)%nat /\ Forall (fun c => phone_char c = true) rest.
Proof.
  unfold IsValidPhoneNumber, MatchString.
  destruct (Nat.ltb_spec (length (digitsOnly phone)) 7); [split; [done|intros [? _]; lia]|].
  destruct (Nat.ltb_spec 15 (length (digitsOnly phone))); [split; [done|intros [? _]; lia]|]. cbn [orb].
  rewrite re_match_correct. unfold phoneRegex, ropt.
  split.
  - intros (plus & l1 & E & Hp & (f & rest & -> & (first & -> & Hf)%matches_class & Hr)%matches_seq)%matches_seq.
    apply matches_between_class in Hr as [? ?]; [|lia]. split; [lia|]. exists plus, first, rest.
    split_and!; [done| |done|lia|lia|done].
    apply matches_alt in Hp as [->%matches_eps| ->%matches_char]; auto.
  - intros (_ & plus & first & rest & -> & Hp & Hf & ? & ?).
    apply (m_seq _ _ plus (first :: rest)).
    + apply matches_alt. destruct Hp as [->| ->]; [left; constructor|right; by apply matches_char].
    + apply (m_seq _ _ [first] rest); [by constructor|]. apply matches_between_class; [lia|done].
Qed.

(** The digits of a number read back. *)
Lemma digit_of_value n : digit_value (digit_of n) = Some (n mod 10).
Proof.
  unfold digit_value, digit_of, is_digit, in_range.
  pose proof (Z.mod_pos_bound n 10 eq_refl) as Hb.
  rewrite nat_ascii_embedding by lia. change (nat_of_ascii "0") with 48%nat.
  change (nat_of_ascii "9") with 57%nat.
  rewrite (proj2 (Nat.leb_le 48 _)), (proj2 (Nat.leb_le _ 57)) by lia. cbn [andb]. f_equal. lia.
Qed.

Lemma digit_value_range c v : digit_value c = Some v -> 0 <= v <= 9.
Proof.
  unfold digit_value, is_digit, in_range. destruct (_ && _) eqn:E; [|done]. intros [= <-].
  apply andb_true_iff in E as [H1%Nat.leb_le H2%Nat.leb_le]. change (nat_of_ascii "0") with 48%nat in H1.
  change (nat_of_ascii "9") with 57%nat in H2. lia.
Qed.

Lemma two_digits n : 0 <= n < 100 -> digits_value [digit_of (n / 10); digit_of n] 0 = Some n.
Proof.
  intros Hn. cbn [digits_value]. rewrite !digit_of_value. f_equal.
  Z.to_euclidean_division_equations. lia.
Qed.
Lemma four_digits n : 0 <= n < 10000 ->
  digits_value [digit_of (n / 1000); digit_of (n / 100); digit_of (n / 10); digit_of n] 0 = Some n.
Proof.
  intros Hn. cbn [digits_value]. rewrite !digit_of_value. f_equal.
  Z.to_euclidean_division_equations. lia.
Qed.

(** A day that exists, in a year the layout can write. *)
Definition date_ok (d : Date) : bool :=
  (0 <=? d_year d) && (d_year d <? 10000) && (1 <=? d_month d) && (d_month d <=? 12)
  && (1 <=? d_day d) && (d_day d <=? daysIn (d_month d) (d_year d)).

(** A date survives the wire, and what is read is a day that exists. *)
Theorem date_roundtrip d : date_ok d = true -> UnmarshalJSON (MarshalJSON d) = Some d.
Proof.
  unfold date_ok. intros H. split_bools. unfold MarshalJSON.
  destruct (IsZero d) eqn:Ez.
  { unfold IsZero in Ez. split_bools. destruct d as [y m x]. cbn in *. unfold UnmarshalJSON. cbn.
    unfold zeroDate. f_equal. f_equal; lia. }
  assert (Hd : d_day d <= 31).
  { etransitivity; [by apply Z.leb_le|]. unfold daysIn. repeat case_match; lia. }
  unfold UnmarshalJSON. set (b := (quote +:+ Format d +:+ quote)%string).
  assert (Hl : String.length b = 12%nat) by done.
  assert (Hb : str_eqb b "null" || str_eqb b (quote +:+ quote)%string = false).
  { unfold str_eqb. apply orb_false_iff.
    split; apply String.eqb_neq; intros E; rewrite E in Hl; discriminate Hl. }
  rewrite Hb. unfold parse_date.
  assert (El : list_ascii_of_string b = "034"%char :: list_ascii_of_string (Format d) ++ ["034"%char]) by done.
  rewrite El. unfold Format. rewrite list_ascii_of_string_of_list_ascii. cbn beta iota zeta delta [app].
  rewrite !Ascii.eqb_refl. cbn [andb]. rewrite four_digits, !two_digits by lia.
  rewrite !(proj2 (Z.leb_le _ _)) by lia. by destruct d.
Qed.

Theorem date_read b d : UnmarshalJSON b = Some d -> date_ok d = true.
Proof.
  unfold UnmarshalJSON. destruct (_ || _); [intros [= <-]; done|]. unfold parse_date.
  destruct (list_ascii_of_string b) as [|q1 [|y1 [|y2 [|y3 [|y4 [|h1 [|m1 [|m2 [|h2 [|d1 [|d2 [|q2 [|]]]]]]]]]]]]];
    try done.
  destruct (_ && _); [|done].
  destruct (digits_value [y1; y2; y3; y4] 0) as [y|] eqn:Ey; [|done].
  destruct (digits_value [m1; m2] 0) as [m|]; [|done]. destruct (digits_value [d1; d2] 0) as [x|]; [|done].
  destruct (_ && _) eqn:Hv; [|done]. intros [= <-]. split_bools. unfold date_ok. cbn.
  assert (Hy : 0 <= y < 10000).
  { cbn in Ey. repeat (case_match; [|done]).
    repeat match goal with H : digit_value _ = Some _ |- _ => apply digit_value_range in H end. injection Ey as <-. lia. }
  rewrite !andb_true_iff, !Z.leb_le, Z.ltb_lt. split_and!; lia.
Qed.

(** The zero time stands for 'no date', and it is itself a date: the first day of
    year 1 is read as given and written as null. *)
Theorem first_day_lost :
  UnmarshalJSON (quote +:+ "0001-01-01" +:+ quote) = Some zeroDate
  /\ MarshalJSON zeroDate = "null"%string.
Proof. by vm_compute. Qed.

(** What the query parser answers passes the validation, up to the sort order,
    which it takes as it comes: paging parameters are repaired, not refused. *)
Theorem parsed_page_valid get :
  let p := ParseQuery get in
  1 <= pg_Page p /\ 1 <= pg_Limit p <= MaxPageSize
  /\ (Validate p = [] <-> (String.length (get "sort_by"%string) <= 50)%nat
        /\ get "sort_order"%string ∈ [""; SortOrderAsc; SortOrderDesc]%string).
Proof.
  intros p. unfold p, ParseQuery, Validate. cbn [pg_Page pg_Limit pg_SortBy pg_SortOrder].
  set (page := if _ <? 1 then 1 else _). set (limit := if MaxPageSize <? _ then _ else _).
  assert (Hp : 1 <= page) by (unfold page; destruct (Z.ltb_spec (Atoi_int (get "page"%string)) 1); lia).
  assert (Hl : 1 <= limit <= MaxPageSize).
  { unfold limit, MaxPageSize, DefaultPageSize. destruct (Z.ltb_spec (Atoi_int (get "limit"%string)) 1);
      match goal with |- context [if ?a <? ?b then _ else _] => destruct (Z.ltb_spec a b) end; lia. }
  split_and!; [done|lia|lia|].
  rewrite (proj2 (Z.eqb_neq page 0)), (proj2 (Z.ltb_ge page 1)) by lia.
  rewrite (proj2 (Z.eqb_neq limit 0)), (proj2 (Z.ltb_ge limit 1)), (proj2 (Z.ltb_ge MaxPageSize limit)) by lia.
  cbn [app]. destruct (Nat.ltb_spec 50 (String.length (get "sort_by"%string))).
  { split; [done|]. intros [? _]. lia. }
  cbn [app]. unfold is_empty, str_eqb. set_unfold.
  destruct (String.eqb_spec (get "sort_order"%string) ""), (String.eqb_spec (get "sort_order"%string) SortOrderAsc),
    (String.eqb_spec (get "sort_order"%string) SortOrderDesc); cbn [orb]; split; (done || tauto).
Qed.
