(* ===== verification/Handlers.v ===== *)
(** * The HTTP handlers

    The handlers of the tenant, project, provider, service, agent, resource and
    event packages (each [handler.go]), the routes they register, and [Router] of
    [internal/server/server.go] for the surfaces they serve: the guard in front of
    every route, the handler behind it.  A handler reads the [uuid] of its path,
    the query string and the body, calls one operation of its service and answers
    with the envelope of [Http].

    The third-party router is not modelled: a request comes with the route it was
    matched to, and [routed] says what that means. *)

From S2P Require Import Prelude Json Storage World AppError Http Decode.
From S2P Require Tenant Project Provider Registry Agent EventLog Resource Authz.

(** ** Requests and answers *)

(** What a handler reads of a request: [chi.URLParam(r, "uuid")], the query's
    parameters in order, the body. *)
Record ApiRequest := {
  aq_uuid : string; aq_query : list (string * string); aq_body : Body }.

(** [r.URL.Query().Get(name)]: the first value, or the empty string. *)
Fixpoint query_Get (name : string) (q : list (string * string)) : string :=
  match q with
  | [] => ""
  | (n, v) :: q => if str_eqb n name then v else query_Get name q
  end.
Definition page_of (r : ApiRequest) : Z := Atoi_int (query_Get "page" (aq_query r)).
Definition limit_of (r : ApiRequest) : Z := Atoi_int (query_Get "limit" (aq_query r)).

(** The data field of an answer: an entity, or [items] with their [total]. *)
Inductive ApiData :=
  | DTenant (t : Tenant.Tenant)
  | DTenants (items : list Tenant.Tenant) (total : Z)
  | DProject (p : Project.Project)
  | DProjects (items : list Project.Project) (total : Z)
  | DProvider (p : Provider.Provider)
  | DProviders (items : list Provider.Provider) (total : Z)
  | DService (s : Registry.Registration)
  | DServices (items : list Registry.Registration) (total : Z)
  | DSystemServices (items : list Registry.Registration)
  | DAgent (a : Agent.Agent)
  | DAgents (items : list Agent.Agent) (total : Z)
  | DResource (r : Resource.Resource)
  | DResources (items : list Resource.Resource) (total : Z)
  | DEvents (items : list EventLog.Event) (total : Z).

Definition Handler : Type := World -> reply ApiData * World.

Definition respond (rep : reply ApiData) : Handler := fun w => (rep, w).

(** Calls the service: its error goes through [HandleServiceError]. *)
Definition call {A} (fallbackMsg : string) (m : M error A) (ok : A -> reply ApiData) : Handler :=
  fun w => match m w with
           | (Ok a, w') => (ok a, w')
           | (Err e, w') => (of_service_error fallbackMsg e, w')
           end.

Definition tenant_required : reply ApiData :=
  Error 400 "A valid ?tenant={uuid} query parameter is required".
Definition project_required : reply ApiData :=
  Error 400 "A valid ?project={uuid} query parameter is required".

(** ** Request bodies *)

Record tenantCreateRequest := {
  tcr_Name : string; tcr_DisplayName : string; tcr_Status : string; tcr_IsSystem : bool;
  tcr_AuthTenantUUID : option Z; tcr_Metadata : option object }.
#[global] Instance tenantCreateRequest_eta : EtaRecord tenantCreateRequest := fun r =>
  Build_tenantCreateRequest (tcr_Name r) (tcr_DisplayName r) (tcr_Status r) (tcr_IsSystem r)
    (tcr_AuthTenantUUID r) (tcr_Metadata r).
Record tenantUpdateRequest := {
  tur_DisplayName : string; tur_Status : string; tur_AuthTenantUUID : option Z; tur_Metadata :
  option object }.
#[global] Instance tenantUpdateRequest_eta : EtaRecord tenantUpdateRequest := fun r =>
  Build_tenantUpdateRequest (tur_DisplayName r) (tur_Status r) (tur_AuthTenantUUID r)
    (tur_Metadata r).
Record projectCreateRequest := {
  pcr_TenantUUID : Z; pcr_Name : string; pcr_DisplayName : string; pcr_Description : string;
  pcr_Metadata : option object }.
#[global] Instance projectCreateRequest_eta : EtaRecord projectCreateRequest := fun r =>
  Build_projectCreateRequest (pcr_TenantUUID r) (pcr_Name r) (pcr_DisplayName r)
    (pcr_Description r) (pcr_Metadata r).
Record projectUpdateRequest := {
  pur_DisplayName : string; pur_Description : string; pur_Status : string; pur_Metadata : option
  object }.
#[global] Instance projectUpdateRequest_eta : EtaRecord projectUpdateRequest := fun r =>
  Build_projectUpdateRequest (pur_DisplayName r) (pur_Description r) (pur_Status r)
    (pur_Metadata r).
Record providerCreateRequest := {
  vcr_TenantUUID : Z; vcr_Name : string; vcr_ResourceKind : string; vcr_Driver : string;
  vcr_Config : option object; vcr_Metadata : option object }.
#[global] Instance providerCreateRequest_eta : EtaRecord providerCreateRequest := fun r =>
  Build_providerCreateRequest (vcr_TenantUUID r) (vcr_Name r) (vcr_ResourceKind r) (vcr_Driver
    r) (vcr_Config r) (vcr_Metadata r).
Record providerUpdateRequest := {
  vur_Driver : string; vur_Config : option object; vur_Status : string; vur_Metadata : option
  object }.
#[global] Instance providerUpdateRequest_eta : EtaRecord providerUpdateRequest := fun r =>
  Build_providerUpdateRequest (vur_Driver r) (vur_Config r) (vur_Status r) (vur_Metadata r).
Record serviceCreateRequest := {
  scr_TenantUUID : Z; scr_Name : string; scr_Kind : string; scr_IsSystem : bool; scr_Endpoint :
  string; scr_Version : string; scr_Metadata : option object }.
#[global] Instance serviceCreateRequest_eta : EtaRecord serviceCreateRequest := fun r =>
  Build_serviceCreateRequest (scr_TenantUUID r) (scr_Name r) (scr_Kind r) (scr_IsSystem r)
    (scr_Endpoint r) (scr_Version r) (scr_Metadata r).
Record serviceStatusRequest := {
  ssr_Status : string; ssr_Endpoint : string }.
#[global] Instance serviceStatusRequest_eta : EtaRecord serviceStatusRequest := fun r =>
  Build_serviceStatusRequest (ssr_Status r) (ssr_Endpoint r).
Record agentCreateRequest := {
  acr_TenantUUID : Z; acr_Name : string; acr_Endpoint : string; acr_Version : string;
  acr_Capabilities : option strings; acr_Metadata : option object }.
#[global] Instance agentCreateRequest_eta : EtaRecord agentCreateRequest := fun r =>
  Build_agentCreateRequest (acr_TenantUUID r) (acr_Name r) (acr_Endpoint r) (acr_Version r)
    (acr_Capabilities r) (acr_Metadata r).
Record agentUpdateRequest := {
  aur_Status : string; aur_Endpoint : string; aur_Version : string; aur_Capabilities : option
  strings }.
#[global] Instance agentUpdateRequest_eta : EtaRecord agentUpdateRequest := fun r =>
  Build_agentUpdateRequest (aur_Status r) (aur_Endpoint r) (aur_Version r) (aur_Capabilities r).
Record resourceCreateRequest := {
  rcr_ProjectUUID : Z; rcr_ProviderUUID : option Z; rcr_Kind : string; rcr_Name : string;
  rcr_Spec : option object; rcr_Metadata : option object }.
#[global] Instance resourceCreateRequest_eta : EtaRecord resourceCreateRequest := fun r =>
  Build_resourceCreateRequest (rcr_ProjectUUID r) (rcr_ProviderUUID r) (rcr_Kind r) (rcr_Name r)
    (rcr_Spec r) (rcr_Metadata r).
Record resourceSpecRequest := {
  rsr_Spec : option object; rsr_Metadata : option object }.
#[global] Instance resourceSpecRequest_eta : EtaRecord resourceSpecRequest := fun r =>
  Build_resourceSpecRequest (rsr_Spec r) (rsr_Metadata r).
Record resourceStatusRequest := {
  rtr_Status : option object; rtr_State : string; rtr_ObservedGeneration : Z }.
#[global] Instance resourceStatusRequest_eta : EtaRecord resourceStatusRequest := fun r =>
  Build_resourceStatusRequest (rtr_Status r) (rtr_State r) (rtr_ObservedGeneration r).

Section Handlers.
Context {T : GoText} {F : GoFloat} {K : Resource.WorkloadKit} {C : Agent.Crypto}.

Definition tenantCreateRequest_fields : list (field tenantCreateRequest) :=
  [json_field "name" tcr_Name dec_string;
   json_field "display_name" tcr_DisplayName dec_string;
   json_field "status" tcr_Status dec_string;
   json_field "is_system" tcr_IsSystem dec_bool;
   json_field "auth_tenant_uuid" tcr_AuthTenantUUID dec_uuid_ptr;
   json_field "metadata" tcr_Metadata dec_map].
Definition tenantCreateRequest_zero : tenantCreateRequest :=
  Build_tenantCreateRequest "" "" "" false None None.
Definition tenantUpdateRequest_fields : list (field tenantUpdateRequest) :=
  [json_field "display_name" tur_DisplayName dec_string;
   json_field "status" tur_Status dec_string;
   json_field "auth_tenant_uuid" tur_AuthTenantUUID dec_uuid_ptr;
   json_field "metadata" tur_Metadata dec_map].
Definition tenantUpdateRequest_zero : tenantUpdateRequest :=
  Build_tenantUpdateRequest "" "" None None.
Definition projectCreateRequest_fields : list (field projectCreateRequest) :=
  [json_field "tenant_uuid" pcr_TenantUUID dec_uuid;
   json_field "name" pcr_Name dec_string;
   json_field "display_name" pcr_DisplayName dec_string;
   json_field "description" pcr_Description dec_string;
   json_field "metadata" pcr_Metadata dec_map].
Definition projectCreateRequest_zero : projectCreateRequest :=
  Build_projectCreateRequest 0 "" "" "" None.
Definition projectUpdateRequest_fields : list (field projectUpdateRequest) :=
  [json_field "display_name" pur_DisplayName dec_string;
   json_field "description" pur_Description dec_string;
   json_field "status" pur_Status dec_string;
   json_field "metadata" pur_Metadata dec_map].
Definition projectUpdateRequest_zero : projectUpdateRequest :=
  Build_projectUpdateRequest "" "" "" None.
Definition providerCreateRequest_fields : list (field providerCreateRequest) :=
  [json_field "tenant_uuid" vcr_TenantUUID dec_uuid;
   json_field "name" vcr_Name dec_string;
   json_field "resource_kind" vcr_ResourceKind dec_string;
   json_field "driver" vcr_Driver dec_string;
   json_field "config" vcr_Config dec_map;
   json_field "metadata" vcr_Metadata dec_map].
Definition providerCreateRequest_zero : providerCreateRequest :=
  Build_providerCreateRequest 0 "" "" "" None None.
Definition providerUpdateRequest_fields : list (field providerUpdateRequest) :=
  [json_field "driver" vur_Driver dec_string;
   json_field "config" vur_Config dec_map;
   json_field "status" vur_Status dec_string;
   json_field "metadata" vur_Metadata dec_map].
Definition providerUpdateRequest_zero : providerUpdateRequest :=
  Build_providerUpdateRequest "" None "" None.
Definition serviceCreateRequest_fields : list (field serviceCreateRequest) :=
  [json_field "tenant_uuid" scr_TenantUUID dec_uuid;
   json_field "name" scr_Name dec_string;
   json_field "kind" scr_Kind dec_string;
   json_field "is_system" scr_IsSystem dec_bool;
   json_field "endpoint" scr_Endpoint dec_string;
   json_field "version" scr_Version dec_string;
   json_field "metadata" scr_Metadata dec_map].
Definition serviceCreateRequest_zero : serviceCreateRequest :=
  Build_serviceCreateRequest 0 "" "" false "" "" None.
Definition serviceStatusRequest_fields : list (field serviceStatusRequest) :=
  [json_field "status" ssr_Status dec_string;
   json_field "endpoint" ssr_Endpoint dec_string].
Definition serviceStatusRequest_zero : serviceStatusRequest := Build_serviceStatusRequest "" "".
Definition agentCreateRequest_fields : list (field agentCreateRequest) :=
  [json_field "tenant_uuid" acr_TenantUUID dec_uuid;
   json_field "name" acr_Name dec_string;
   json_field "endpoint" acr_Endpoint dec_string;
   json_field "version" acr_Version dec_string;
   json_field "capabilities" acr_Capabilities dec_strings;
   json_field "metadata" acr_Metadata dec_map].
Definition agentCreateRequest_zero : agentCreateRequest :=
  Build_agentCreateRequest 0 "" "" "" None None.
Definition agentUpdateRequest_fields : list (field agentUpdateRequest) :=
  [json_field "status" aur_Status dec_string;
   json_field "endpoint" aur_Endpoint dec_string;
   json_field "version" aur_Version dec_string;
   json_field "capabilities" aur_Capabilities dec_strings].
Definition agentUpdateRequest_zero : agentUpdateRequest := Build_agentUpdateRequest "" "" "" None.
Definition resourceCreateRequest_fields : list (field resourceCreateRequest) :=
  [json_field "project_uuid" rcr_ProjectUUID dec_uuid;
   json_field "provider_uuid" rcr_ProviderUUID dec_uuid_ptr;
   json_field "kind" rcr_Kind dec_string;
   json_field "name" rcr_Name dec_string;
   json_field "spec" rcr_Spec dec_map;
   json_field "metadata" rcr_Metadata dec_map].
Definition resourceCreateRequest_zero : resourceCreateRequest :=
  Build_resourceCreateRequest 0 None "" "" None None.
Definition resourceSpecRequest_fields : list (field resourceSpecRequest) :=
  [json_field "spec" rsr_Spec dec_map;
   json_field "metadata" rsr_Metadata dec_map].
Definition resourceSpecRequest_zero : resourceSpecRequest := Build_resourceSpecRequest None None.
Definition resourceStatusRequest_fields : list (field resourceStatusRequest) :=
  [json_field "status" rtr_Status dec_map;
   json_field "state" rtr_State dec_string;
   json_field "observed_generation" rtr_ObservedGeneration dec_int64].
Definition resourceStatusRequest_zero : resourceStatusRequest :=
  Build_resourceStatusRequest None "" 0.

(** [uuid.Parse(chi.URLParam(r, "uuid"))] and the refusal. *)
Definition with_uuid (r : ApiRequest) (k : Z -> Handler) : Handler :=
  match uuid_Parse (aq_uuid r) with
  | None => respond BadRequest
  | Some id => k id
  end.
(** [json.NewDecoder(r.Body).Decode(&req)] and the refusal. *)
Definition with_body {S} (fields : list (field S)) (zero : S) (r : ApiRequest) (k : S -> Handler)
    : Handler :=
  match Decode fields zero (aq_body r) with
  | None => respond BadRequestBody
  | Some req => k req
  end.
(** [uuid.Parse(r.URL.Query().Get(name))] and the refusal. *)
Definition with_scope (name : string) (refusal : reply ApiData) (r : ApiRequest) (k : Z -> Handler)
    : Handler :=
  match uuid_Parse (query_Get name (aq_query r)) with
  | None => respond refusal
  | Some id => k id
  end.

(** ** Tenants *)

Definition tenant_create (r : ApiRequest) : Handler :=
  with_body tenantCreateRequest_fields tenantCreateRequest_zero r (fun req =>
  call "Failed to create tenant" (Tenant.Create {|
      Tenant.tc_Name := tcr_Name req; Tenant.tc_DisplayName := tcr_DisplayName req;
      Tenant.tc_Status := tcr_Status req; Tenant.tc_IsSystem := tcr_IsSystem req;
      Tenant.tc_AuthTenantUUID := tcr_AuthTenantUUID req; Tenant.tc_Metadata := tcr_Metadata req |})
    (fun t => Created (DTenant t) "Tenant created")).

Definition tenant_get (r : ApiRequest) : Handler :=
  with_uuid r (fun id =>
  call "Failed to fetch tenant" (Tenant.Get id) (fun t => Success (DTenant t) "")).

Definition tenant_list (r : ApiRequest) : Handler :=
  call "Failed to list tenants" (Tenant.List (page_of r) (limit_of r))
    (fun '(items, total) => Success (DTenants items total) "").

Definition tenant_getSystem (_ : ApiRequest) : Handler :=
  call "Failed to fetch system tenant" Tenant.GetSystem (fun t => Success (DTenant t) "").

Definition tenant_update (r : ApiRequest) : Handler :=
  with_uuid r (fun id =>
  with_body tenantUpdateRequest_fields tenantUpdateRequest_zero r (fun req =>
  call "Failed to update tenant" (Tenant.Update id {|
      Tenant.tu_DisplayName := tur_DisplayName req; Tenant.tu_Status := tur_Status req;
      Tenant.tu_AuthTenantUUID := tur_AuthTenantUUID req; Tenant.tu_Metadata := tur_Metadata req |})
    (fun t => Success (DTenant t) "Tenant updated"))).

Definition tenant_remove (r : ApiRequest) : Handler :=
  with_uuid r (fun id =>
  call "Failed to delete tenant" (Tenant.Delete id) (fun _ => SuccessNil "Tenant deleted")).

(** ** Projects *)

Definition project_create (r : ApiRequest) : Handler :=
  with_body projectCreateRequest_fields projectCreateRequest_zero r (fun req =>
  call "Failed to create project" (Project.Create {|
      Project.pc_TenantUUID := pcr_TenantUUID req; Project.pc_Name := pcr_Name req;
      Project.pc_DisplayName := pcr_DisplayName req; Project.pc_Description := pcr_Description req;
      Project.pc_Metadata := pcr_Metadata req |})
    (fun p => Created (DProject p) "Project created")).

Definition project_get (r : ApiRequest) : Handler :=
  with_uuid r (fun id =>
  call "Failed to fetch project" (Project.Get id) (fun p => Success (DProject p) "")).

Definition project_list (r : ApiRequest) : Handler :=
  with_scope "tenant" tenant_required r (fun tenantUUID =>
  call "Failed to list projects" (Project.List tenantUUID (page_of r) (limit_of r))
    (fun '(items, total) => Success (DProjects items total) "")).

Definition project_update (r : ApiRequest) : Handler :=
  with_uuid r (fun id =>
  with_body projectUpdateRequest_fields projectUpdateRequest_zero r (fun req =>
  call "Failed to update project" (Project.Update id {|
      Project.pu_DisplayName := pur_DisplayName req; Project.pu_Description := pur_Description req;
      Project.pu_Status := pur_Status req; Project.pu_Metadata := pur_Metadata req |})
    (fun p => Success (DProject p) "Project updated"))).

Definition project_remove (r : ApiRequest) : Handler :=
  with_uuid r (fun id =>
  call "Failed to delete project" (Project.Delete id) (fun _ => SuccessNil "Project deleted")).

(** ** Providers *)

Definition provider_create (r : ApiRequest) : Handler :=
  with_body providerCreateRequest_fields providerCreateRequest_zero r (fun req =>
  call "Failed to create provider" (Provider.Create {|
      Provider.vc_TenantUUID := vcr_TenantUUID req; Provider.vc_Name := vcr_Name req;
      Provider.vc_ResourceKind := vcr_ResourceKind req; Provider.vc_Driver := vcr_Driver req;
      Provider.vc_Config := vcr_Config req; Provider.vc_Metadata := vcr_Metadata req |})
    (fun p => Created (DProvider p) "Provider created")).

Definition provider_get (r : ApiRequest) : Handler :=
  with_uuid r (fun id =>
  call "Failed to fetch provider" (Provider.Get id) (fun p => Success (DProvider p) "")).

Definition provider_list (r : ApiRequest) : Handler :=
  with_scope "tenant" tenant_required r (fun tenantUUID =>
  call "Failed to list providers" (Provider.List tenantUUID (page_of r) (limit_of r))
    (fun '(items, total) => Success (DProviders items total) "")).

Definition provider_update (r : ApiRequest) : Handler :=
  with_uuid r (fun id =>
  with_body providerUpdateRequest_fields providerUpdateRequest_zero r (fun req =>
  call "Failed to update provider" (Provider.Update id {|
      Provider.vu_Driver := vur_Driver req; Provider.vu_Config := vur_Config req;
      Provider.vu_Status := vur_Status req; Provider.vu_Metadata := vur_Metadata req |})
    (fun p => Success (DProvider p) "Provider updated"))).

Definition provider_remove (r : ApiRequest) : Handler :=
  with_uuid r (fun id =>
  call "Failed to delete provider" (Provider.Delete id) (fun _ => SuccessNil "Provider deleted")).

(** ** Services *)

Definition service_create (r : ApiRequest) : Handler :=
  with_body serviceCreateRequest_fields serviceCreateRequest_zero r (fun req =>
  call "Failed to register service" (Registry.Create {|
      Registry.sc_TenantUUID := scr_TenantUUID req; Registry.sc_Name := scr_Name req;
      Registry.sc_Kind := scr_Kind req; Registry.sc_IsSystem := scr_IsSystem req;
      Registry.sc_Endpoint := scr_Endpoint req; Registry.sc_Version := scr_Version req;
      Registry.sc_Metadata := scr_Metadata req |})
    (fun s => Created (DService s) "Service registered")).

Definition service_get (r : ApiRequest) : Handler :=
  with_uuid r (fun id =>
  call "Failed to fetch service" (Registry.Get id) (fun s => Success (DService s) "")).

Definition service_list (r : ApiRequest) : Handler :=
  with_scope "tenant" tenant_required r (fun tenantUUID =>
  call "Failed to list services" (Registry.ListByTenant tenantUUID (page_of r) (limit_of r))
    (fun '(items, total) => Success (DServices items total) "")).

Definition service_listSystem (_ : ApiRequest) : Handler :=
  call "Failed to list system services" Registry.ListSystem
    (fun items => Success (DSystemServices items) "").

Definition service_updateStatus (r : ApiRequest) : Handler :=
  with_uuid r (fun id =>
  with_body serviceStatusRequest_fields serviceStatusRequest_zero r (fun req =>
  call "Failed to update service" (Registry.UpdateStatus id {|
      Registry.su_Status := ssr_Status req; Registry.su_Endpoint := ssr_Endpoint req |})
    (fun s => Success (DService s) "Service updated"))).

Definition service_remove (r : ApiRequest) : Handler :=
  with_uuid r (fun id =>
  call "Failed to delete service" (Registry.Delete id) (fun _ => SuccessNil "Service
  deregistered")).

(** ** Agents

    [random] is what [crypto/rand] delivers to the request. *)

Definition agent_create (random : option (list nat)) (r : ApiRequest) : Handler :=
  with_body agentCreateRequest_fields agentCreateRequest_zero r (fun req =>
  call "Failed to create agent" (Agent.Create random {|
      Agent.aci_TenantUUID := acr_TenantUUID req; Agent.aci_Name := acr_Name req;
      Agent.aci_Endpoint := acr_Endpoint req; Agent.aci_Version := acr_Version req;
      Agent.aci_Capabilities := slice_of (acr_Capabilities req);
      Agent.aci_Metadata := acr_Metadata req |})
    (fun a => Created (DAgent a) "Agent created")).

Definition agent_get (r : ApiRequest) : Handler :=
  with_uuid r (fun id =>
  call "Failed to fetch agent" (Agent.Get id) (fun a => Success (DAgent a) "")).

Definition agent_list (r : ApiRequest) : Handler :=
  with_scope "tenant" tenant_required r (fun tenantUUID =>
  call "Failed to list agents" (Agent.List tenantUUID (page_of r) (limit_of r))
    (fun '(items, total) => Success (DAgents items total) "")).

Definition agent_update (r : ApiRequest) : Handler :=
  with_uuid r (fun id =>
  with_body agentUpdateRequest_fields agentUpdateRequest_zero r (fun req =>
  call "Failed to update agent" (Agent.Update id {|
      Agent.aui_Status := aur_Status req; Agent.aui_Endpoint := aur_Endpoint req;
      Agent.aui_Version := aur_Version req;
      Agent.aui_Capabilities := slice_of (aur_Capabilities req) |})
    (fun a => Success (DAgent a) "Agent updated"))).

Definition agent_heartbeat (r : ApiRequest) : Handler :=
  with_uuid r (fun id =>
  call "Failed to record heartbeat" (Agent.Heartbeat id) (fun a => Success (DAgent a) "")).

Definition agent_remove (r : ApiRequest) : Handler :=
  with_uuid r (fun id =>
  call "Failed to delete agent" (Agent.Delete id) (fun _ => SuccessNil "Agent deleted")).

(** ** Resources *)

Definition resource_create (r : ApiRequest) : Handler :=
  with_body resourceCreateRequest_fields resourceCreateRequest_zero r (fun req =>
  call "Failed to create resource" (Resource.Create {|
      Resource.ci_ProjectUUID := rcr_ProjectUUID req; Resource.ci_ProviderUUID :=
      rcr_ProviderUUID req;
      Resource.ci_Kind := rcr_Kind req; Resource.ci_Name := rcr_Name req;
      Resource.ci_Spec := rcr_Spec req; Resource.ci_Metadata := rcr_Metadata req |})
    (fun res => Created (DResource res) "Resource created")).

Definition resource_get (r : ApiRequest) : Handler :=
  with_uuid r (fun id =>
  call "Failed to fetch resource" (Resource.Get id) (fun res => Success (DResource res) "")).

Definition resource_list (r : ApiRequest) : Handler :=
  with_scope "project" project_required r (fun projectUUID =>
  call "Failed to list resources" (Resource.ListByProject projectUUID (page_of r) (limit_of r))
    (fun '(items, total) => Success (DResources items total) "")).

Definition resource_updateSpec (r : ApiRequest) : Handler :=
  with_uuid r (fun id =>
  with_body resourceSpecRequest_fields resourceSpecRequest_zero r (fun req =>
  call "Failed to update resource" (Resource.UpdateSpec id {|
      Resource.us_Spec := rsr_Spec req; Resource.us_Metadata := rsr_Metadata req |})
    (fun res => Success (DResource res) "Resource updated"))).

Definition resource_updateStatus (r : ApiRequest) : Handler :=
  with_uuid r (fun id =>
  with_body resourceStatusRequest_fields resourceStatusRequest_zero r (fun req =>
  call "Failed to update resource status" (Resource.UpdateStatus id {|
      Resource.ut_Status := rtr_Status req; Resource.ut_State := rtr_State req;
      Resource.ut_ObservedGeneration := rtr_ObservedGeneration req |})
    (fun res => Success (DResource res) "Resource status updated"))).

Definition resource_remove (r : ApiRequest) : Handler :=
  with_uuid r (fun id =>
  call "Failed to delete resource" (Resource.Delete id) (fun _ => SuccessNil "Resource deleted")).

(** ** Platform events *)

Definition event_list (r : ApiRequest) : Handler :=
  call "Failed to list platform events" (EventLog.List (page_of r) (limit_of r))
    (fun '(items, total) => Success (DEvents items total) "").

(** ** Routes *)

Record Route := { rt_Method : string; rt_Pattern : string; rt_Handler : ApiRequest -> Handler }.

Definition tenant_Routes : list Route :=
  [{| rt_Method := "GET"; rt_Pattern := "/"; rt_Handler := tenant_list |};
   {| rt_Method := "GET"; rt_Pattern := "/system"; rt_Handler := tenant_getSystem |};
   {| rt_Method := "POST"; rt_Pattern := "/"; rt_Handler := tenant_create |};
   {| rt_Method := "GET"; rt_Pattern := "/{uuid}"; rt_Handler := tenant_get |};
   {| rt_Method := "PATCH"; rt_Pattern := "/{uuid}"; rt_Handler := tenant_update |};
   {| rt_Method := "DELETE"; rt_Pattern := "/{uuid}"; rt_Handler := tenant_remove |}].
Definition project_Routes : list Route :=
  [{| rt_Method := "GET"; rt_Pattern := "/"; rt_Handler := project_list |};
   {| rt_Method := "POST"; rt_Pattern := "/"; rt_Handler := project_create |};
   {| rt_Method := "GET"; rt_Pattern := "/{uuid}"; rt_Handler := project_get |};
   {| rt_Method := "PATCH"; rt_Pattern := "/{uuid}"; rt_Handler := project_update |};
   {| rt_Method := "DELETE"; rt_Pattern := "/{uuid}"; rt_Handler := project_remove |}].
Definition service_Routes : list Route :=
  [{| rt_Method := "GET"; rt_Pattern := "/"; rt_Handler := service_list |};
   {| rt_Method := "GET"; rt_Pattern := "/system"; rt_Handler := service_listSystem |};
   {| rt_Method := "POST"; rt_Pattern := "/"; rt_Handler := service_create |};
   {| rt_Method := "GET"; rt_Pattern := "/{uuid}"; rt_Handler := service_get |};
   {| rt_Method := "PATCH"; rt_Pattern := "/{uuid}"; rt_Handler := service_updateStatus |};
   {| rt_Method := "DELETE"; rt_Pattern := "/{uuid}"; rt_Handler := service_remove |}].
Definition provider_Routes : list Route :=
  [{| rt_Method := "GET"; rt_Pattern := "/"; rt_Handler := provider_list |};
   {| rt_Method := "POST"; rt_Pattern := "/"; rt_Handler := provider_create |};
   {| rt_Method := "GET"; rt_Pattern := "/{uuid}"; rt_Handler := provider_get |};
   {| rt_Method := "PATCH"; rt_Pattern := "/{uuid}"; rt_Handler := provider_update |};
   {| rt_Method := "DELETE"; rt_Pattern := "/{uuid}"; rt_Handler := provider_remove |}].
Definition agent_Routes (random : option (list nat)) : list Route :=
  [{| rt_Method := "GET"; rt_Pattern := "/"; rt_Handler := agent_list |};
   {| rt_Method := "POST"; rt_Pattern := "/"; rt_Handler := agent_create random |};
   {| rt_Method := "GET"; rt_Pattern := "/{uuid}"; rt_Handler := agent_get |};
   {| rt_Method := "PATCH"; rt_Pattern := "/{uuid}"; rt_Handler := agent_update |};
   {| rt_Method := "POST"; rt_Pattern := "/{uuid}/heartbeat"; rt_Handler := agent_heartbeat |};
   {| rt_Method := "DELETE"; rt_Pattern := "/{uuid}"; rt_Handler := agent_remove |}].
Definition resource_Routes : list Route :=
  [{| rt_Method := "GET"; rt_Pattern := "/"; rt_Handler := resource_list |};
   {| rt_Method := "POST"; rt_Pattern := "/"; rt_Handler := resource_create |};
   {| rt_Method := "GET"; rt_Pattern := "/{uuid}"; rt_Handler := resource_get |};
   {| rt_Method := "PATCH"; rt_Pattern := "/{uuid}"; rt_Handler := resource_updateSpec |};
   {| rt_Method := "PATCH"; rt_Pattern := "/{uuid}/status"; rt_Handler := resource_updateStatus |};
   {| rt_Method := "DELETE"; rt_Pattern := "/{uuid}"; rt_Handler := resource_remove |}].
Definition event_Routes : list Route :=
  [{| rt_Method := "GET"; rt_Pattern := "/"; rt_Handler := event_list |}].

(** The segments of [/api/v1] these routes are mounted on. *)
Definition mounts (random : option (list nat)) : list (string * list Route) :=
  [("tenants", tenant_Routes); ("projects", project_Routes); ("services", service_Routes);
   ("providers", provider_Routes); ("agents", agent_Routes random);
   ("resources", resource_Routes); ("events", event_Routes)].

(** What it means that the router matched a request to a route of the mount
    [segment]: the method is the route's, and the path leads into the mount. *)
Definition routed (segment : string) (rt : Route) (r : Authz.Request) : Prop :=
  Authz.rq_Method r = rt_Method rt /\ Authz.apiSegment (Authz.rq_Path r) = segment.

(** The guard in front of the route. *)
Definition serve (g : Authz.Guard) (rt : Route) (r : Authz.Request) (q : ApiRequest) : Handler :=
  Authz.Middleware (fun code msg => respond (Error code msg)) (fun _ _ => rt_Handler rt q) g r.
End Handlers.
