(* ===== verification/Api.v ===== *)
(** * What the HTTP API may do

    The guard, the handlers, the services and the storage together: what a
    request can change, and on whose authority. *)

From S2P Require Import Prelude Json Storage World AppError Queries Evolution Http Decode Handlers.
From S2P Require Tenant Project Provider Registry Agent EventLog Resource Authz.

(** ** The table behind a segment *)

(** Nothing changes but the table of the segment [s]. *)
Record confined (s : string) (d d' : Db) : Prop := {
  cf_tenants : s <> "tenants"%string -> tenants d' = tenants d;
  cf_projects : s <> "projects"%string -> projects d' = projects d;
  cf_providers : s <> "providers"%string -> providers d' = providers d;
  cf_services : s <> "services"%string -> services d' = services d;
  cf_agents : s <> "agents"%string -> agents d' = agents d;
  cf_resources : s <> "resources"%string -> resources d' = resources d;
  cf_events : events d' = events d;
  cf_templates : deployment_templates d' = deployment_templates d;
  cf_control : control_plane d' = control_plane d }.

#[global] Instance confined_preorder s : PreOrder (confined s).
Proof.
  split; [by split|]. intros a b c [] [].
  split; intros; (etransitivity; [|match goal with H : _ |- _ => by apply H end]); auto.
Qed.

(** ** Handlers and what they preserve *)

Definition h_advances (Rel : relation Db) (h : Handler) : Prop :=
  forall w, Rel (w_db w) (w_db (snd (h w))).

Section HandlerAdvances.
Context (Rel : relation Db) `{!PreOrder Rel}.

Lemma h_advances_respond rep : h_advances Rel (respond rep).
Proof. intros w. reflexivity. Qed.
Lemma h_advances_call {A} msg (m : M error A) ok : advances Rel m -> h_advances Rel (call msg m ok).
Proof. intros H w. unfold call. specialize (H w). by destruct (m w) as [[]]. Qed.

Context {T : GoText} {F : GoFloat}.

Lemma h_advances_uuid r k : (forall id, h_advances Rel (k id)) -> h_advances Rel (with_uuid r k).
Proof. intros H. unfold with_uuid. case_match; [done|apply h_advances_respond]. Qed.
Lemma h_advances_body {S} fields (zero : S) r k :
  (forall req, h_advances Rel (k req)) -> h_advances Rel (with_body fields zero r k).
Proof. intros H. unfold with_body. case_match; [done|apply h_advances_respond]. Qed.
Lemma h_advances_scope name no r k :
  (forall id, h_advances Rel (k id)) -> h_advances Rel (with_scope name no r k).
Proof. intros H. unfold with_scope. case_match; [done|apply h_advances_respond]. Qed.
End HandlerAdvances.

#[local] Hint Extern 1 (advances _ (Registry.list_system_loop _)) =>
  apply Registry.list_system_advances; apply _ : advances.

(** Runs through a handler and its service; [confine] closes the writes on the
    segment's own table. *)
Ltac confine :=
  lazymatch goal with
  | |- advances _ (q_update_one _ _ _) => apply advances_update_one; [apply _|by split]
  | |- advances _ (q_update _ _ _) => apply advances_update; [apply _|by split]
  | |- advances _ (q_insert _ _) => apply advances_insert; [apply _|by split]
  end.
Ltac handle :=
  repeat first
    [ apply h_advances_uuid; [apply _|intros ?]
    | apply h_advances_body; [apply _|intros ?]
    | apply h_advances_scope; [apply _|intros ?]
    | apply h_advances_call ];
  advance; try confine.

Ltac open_handler :=
  match goal with |- h_advances _ ?h => let h' := head_of h in unfold h' end.
Ltac each_route := unfold mounts; repeat (first [apply Forall_nil_2 | apply Forall_cons_2]; cbn [snd]).

Section Confinement.
Context {T : GoText} {F : GoFloat} {K : Resource.WorkloadKit} {C : Agent.Crypto}.
Context (random : option (list nat)).

(** A route changes its own table only. *)
Definition route_confined (s : string) (rt : Route) : Prop :=
  forall q, h_advances (confined s) (rt_Handler rt q).

Lemma routes_confined : Forall (fun m => Forall (route_confined (fst m)) (snd m)) (mounts random).
Proof.
  each_route; intros q; cbn [rt_Handler fst].
  all: open_handler; handle.
Qed.

(** A route that answers GET changes nothing. *)
Definition route_reads (rt : Route) : Prop :=
  rt_Method rt = "GET"%string -> forall q, h_advances eq (rt_Handler rt q).

Lemma routes_read : Forall (fun m => Forall route_reads (snd m)) (mounts random).
Proof.
  each_route; intros E q; cbn in E; try discriminate E; cbn [rt_Handler].
  all: open_handler; handle.
Qed.
End Confinement.

(** ** Authority *)

(** The claims a guard outside development lets through to the handlers: a
    verified bearer token that carries [perm]. *)
Definition authority (verifier : option Authz.Verifier) (r : Authz.Request) (perm : string) : Prop :=
  exists v c k, verifier = Some v /\ Authz.bearer (Authz.rq_Authorization r) <> ""%string
    /\ v (Authz.bearer (Authz.rq_Authorization r)) = Ok c
    /\ Authz.SDKVerify v (Authz.bearer (Authz.rq_Authorization r)) = Ok (Some k)
    /\ (perm ∈ Authz.Scopes k \/ perm ∈ Authz.Permissions k).

(** The guard lets a request through to its handler only on the permission its
    segment and method demand. *)
Lemma middleware_passes {R} (refuse : Z -> string -> R) next missing verifier r :
  Authz.exempt (Authz.apiSegment (Authz.rq_Path r)) (Authz.rq_Method r) = false ->
  (exists code msg, Authz.Middleware refuse next (Authz.resolveHTTPGuard missing verifier false) r
     = refuse code msg)
  \/ (exists claims perm,
        Authz.Middleware refuse next (Authz.resolveHTTPGuard missing verifier false) r
          = next claims r
        /\ Authz.demanded r = Some perm /\ authority verifier r perm).
Proof.
  intros Ex. unfold Authz.Middleware. rewrite Ex.
  destruct verifier as [v|]; cbn [Authz.resolveHTTPGuard Authz.g_Mode Authz.g_Verify];
    [|left; eauto].
  destruct (is_empty _) eqn:Eb; [left; eauto|]. apply str_eqb_neq in Eb.
  destruct (Authz.SDKVerify v _) as [claims|] eqn:Ev; [|left; eauto].
  destruct (Authz.map_lookup _ _) as [p|] eqn:Ep; [|left; eauto].
  destruct (negb _) eqn:Eh; [left; eauto|]. right.
  apply negb_false_iff, Authz.HasPermission_spec in Eh as (k & -> & Hin).
  unfold Authz.demanded. rewrite Ep. cbn. do 2 eexists. split_and!; [done..|].
  unfold Authz.SDKVerify in Ev. destruct (v _) as [c|] eqn:Evc; [|done].
  exists v, c, k. split_and!; try done. unfold Authz.SDKVerify. by rewrite Evc.
Qed.

Section Claims.
Context {T : GoText} {F : GoFloat} {K : Resource.WorkloadKit} {C : Agent.Crypto}.
Context (random : option (list nat)).

(** The segments the routes are mounted on are mapped to permissions, and none
    is exempt. *)
Lemma mounts_guarded s rts rt :
  (s, rts) ∈ mounts random -> rt ∈ rts ->
  exists p, Authz.map_lookup s Authz.routePermissions = Some p
    /\ Authz.exempt s (rt_Method rt) = false /\ rt_Method rt <> "HEAD"%string.
Proof.
  intros Hm Hrt. assert (Hh : Forall (fun m => Forall (fun rt => rt_Method rt <> "HEAD"%string) (snd m))
    (mounts random)) by (each_route; done).
  rewrite Forall_forall in Hh. specialize (Hh _ Hm). cbn in Hh. rewrite Forall_forall in Hh.
  specialize (Hh _ Hrt). repeat (apply elem_of_cons in Hm as [[= -> ->]|Hm];
    [eexists; split_and!; [reflexivity|unfold Authz.exempt; reflexivity|done]|]).
  by apply elem_of_nil in Hm.
Qed.

(** C15: the HTTP API changes a table only on that table's write permission.
    Outside development, whatever a request routed to a mounted handler carries,
    whatever the database holds and whichever queries fail: if the database
    changed, the request is not a read, it carries a bearer token the verifier
    accepts whose claims hold the write permission of the segment it was routed
    to, and nothing changed but the table of that segment; the event log, the
    deployment templates and the control-plane record never change. *)
Theorem api_authority_confined missing verifier s rts rt r q w :
  (s, rts) ∈ mounts random -> rt ∈ rts -> routed s rt r ->
  let d := w_db w in
  let d' := w_db (snd (serve (Authz.resolveHTTPGuard missing verifier false) rt r q w)) in
  d' <> d ->
  rt_Method rt <> "GET"%string
  /\ (exists p, Authz.map_lookup s Authz.routePermissions = Some p
       /\ authority verifier r (Authz.Write p))
  /\ confined s d d'.
Proof.
  intros Hm Hrt [Hmeth Hseg] d d' Hch.
  destruct (mounts_guarded s rts rt Hm Hrt) as (p & Hp & Hex & Hhead).
  pose proof (proj1 (Forall_forall _ _) (routes_confined random) _ Hm) as Hc.
  pose proof (proj1 (Forall_forall _ _) (routes_read random) _ Hm) as Hr.
  cbn [fst snd] in Hc, Hr. rewrite Forall_forall in Hc, Hr.
  specialize (Hc rt Hrt). specialize (Hr rt Hrt).
  rewrite <- Hseg, <- Hmeth in Hex.
  destruct (middleware_passes (fun code msg => respond (Error code msg)) (fun _ _ => rt_Handler rt q)
    missing verifier r Hex) as [(code & msg & E)|(claims & perm & E & Hd & Ha)];
    unfold d', serve in *; rewrite E in *; [done|].
  assert (Hget : rt_Method rt <> "GET"%string).
  { intros Hg. apply Hch. symmetry. apply (Hr Hg). }
  split_and!; [done| |apply Hc]. exists p. split; [done|].
  unfold Authz.demanded in Hd. rewrite Hseg, Hp in Hd. cbn in Hd. rewrite Hmeth in Hd.
  apply str_eqb_neq in Hget, Hhead. rewrite Hget, Hhead in Hd. by injection Hd as <-.
Qed.
End Claims.
