(* ===== verification/ApiAtomic.v ===== *)
(** * A refused request changes nothing

    The operations behind the API are not transactions: an update is a lookup,
    a write, and for most kinds a second lookup that resolves the UUID of the
    parent.  Where every live row has a live parent, an operation that fails
    leaves the database as it was; where a parent was deleted, an update is
    committed and then answered with an error. *)

From S2P Require Import Prelude Json Storage World AppError Queries Evolution Http Decode Handlers Api Sample.
From S2P Require Tenant Project Provider Registry Agent EventLog Resource Authz Mrn AgentAccess Hosts.

(** ** Live parents *)

Definition has_tenant (d : Db) (id : Z) : Prop :=
  exists t, t ∈ tbl_rows (tenants d) /\ t_DeletedAt t = None /\ t_TenantID t = id.
Definition has_project (d : Db) (id : Z) : Prop :=
  exists p, p ∈ tbl_rows (projects d) /\ p_DeletedAt p = None /\ p_ProjectID p = id.

Record no_orphans (d : Db) : Prop := {
  np_projects : forall r, r ∈ tbl_rows (projects d) -> p_DeletedAt r = None -> has_tenant d (p_TenantID r);
  np_providers : forall r, r ∈ tbl_rows (providers d) -> v_DeletedAt r = None -> has_tenant d (v_TenantID r);
  np_services : forall r, r ∈ tbl_rows (services d) -> s_DeletedAt r = None -> has_tenant d (s_TenantID r);
  np_agents : forall r, r ∈ tbl_rows (agents d) -> a_DeletedAt r = None -> has_tenant d (a_TenantID r);
  np_resources : forall r, r ∈ tbl_rows (resources d) -> r_DeletedAt r = None -> has_project d (r_ProjectID r) }.

(** ** Operations that read *)

Definition reads {E A} (m : M E A) : Prop :=
  forall w, w_faults w = [] -> w_db (snd (m w)) = w_db w /\ w_faults (snd (m w)) = [].

Lemma reads_ret {E A} (a : A) : reads (mret a : M E A). Proof. done. Qed.
Lemma reads_fail {E A} e : reads (fail e : M E A). Proof. done. Qed.
Lemma reads_lift {E A} r : reads (lift r : M E A). Proof. done. Qed.
Lemma reads_now {E} : reads (@time_Now E). Proof. done. Qed.
Lemma reads_map_err {E E' A} (f : E -> E') (m : M E A) : reads m -> reads (map_err f m).
Proof. intros H w Hf. unfold map_err. specialize (H w Hf). by destruct (m w). Qed.
Lemma reads_bind {E A B} (m : M E A) (k : A -> M E B) :
  reads m -> (forall a, reads (k a)) -> reads (m ≫= k).
Proof.
  intros Hm Hk w Hf. unfold mbind, M_bind. destruct (Hm w Hf) as [Hd Hn].
  destruct (m w) as [[a|e] w1]; cbn in *; [|done]. destruct (Hk a w1 Hn) as [-> ?]. done.
Qed.
Lemma reads_query {A} (q : World -> result dberr A * World) :
  (forall w, snd (q w) = w) -> reads (query q).
Proof. intros H w Hf. rewrite (query_run w Hf), H. done. Qed.

Ltac reads_step :=
  lazymatch goal with
  | |- reads (mret _) => apply reads_ret
  | |- reads (fail _) => apply reads_fail
  | |- reads (lift _) => apply reads_lift
  | |- reads time_Now => apply reads_now
  | |- reads (mbind _ _) => apply reads_bind; [|intros ?]
  | |- reads (map_err _ _) => apply reads_map_err
  | |- reads (query _) => apply reads_query; done
  | |- reads (match ?x with _ => _ end) => destruct x
  | |- reads (let _ := _ in _) => cbv zeta
  | |- reads ?m =>
      let h := head_of m in
      lazymatch h with
      | @q_update => fail | @q_update_one => fail | @q_insert => fail
      | _ => unfold h
      end
  end.
Ltac reading := repeat reads_step.

(** ** Operations that change nothing when they fail *)

Definition atomic {E A} (m : M E A) : Prop :=
  forall w, w_faults w = [] -> no_orphans (w_db w) ->
    match m w with (Err _, w') => w_db w' = w_db w | _ => True end.

Lemma atomic_reads {E A} (m : M E A) : reads m -> atomic m.
Proof. intros H w Hf _. destruct (H w Hf) as [Hd _]. by destruct (m w) as [[]]. Qed.
Lemma atomic_map_err {E E' A} (f : E -> E') (m : M E A) : atomic m -> atomic (map_err f m).
Proof. intros H w Hf Hn. unfold map_err. specialize (H w Hf Hn). by destruct (m w) as [[]]. Qed.
Lemma atomic_after {E A B} (m : M E A) (k : A -> M E B) :
  reads m -> (forall a, atomic (k a)) -> atomic (m ≫= k).
Proof.
  intros Hm Hk w Hf Hn. unfold mbind, M_bind. destruct (Hm w Hf) as [Hd Hf1].
  destruct (m w) as [[a|e] w1]; cbn in *; [|done].
  specialize (Hk a w1 Hf1). rewrite Hd in Hk. specialize (Hk Hn).
  by destruct (k a w1) as [[]].
Qed.
Lemma atomic_then {E A B} (m : M E A) (f : A -> B) : atomic m -> atomic (m ≫= fun a => mret (f a)).
Proof.
  intros Hm w Hf Hn. unfold mbind, M_bind. specialize (Hm w Hf Hn). by destruct (m w) as [[]].
Qed.

Section Writes.
Context {R : Type} `{!TableRow R} (tbl : Db -> Table R) `{!FieldSetter tbl}.

Lemma atomic_insert mk : atomic (q_insert tbl mk).
Proof. intros w Hf _. unfold q_insert. rewrite (query_run w Hf). by destruct (insert _ _ _) as [[]|]. Qed.
Lemma atomic_update p f : atomic (q_update tbl p f).
Proof. intros w Hf _. unfold q_update. rewrite (query_run w Hf). by destruct (update _ _ _) as [[]|]. Qed.

(** A write to a table whose rows keep their fields writes back what it read. *)
Context (Hset : forall d, set_field tbl (fun _ => tbl d) d = d).

Lemma update_empty p f (t t' : Table R) : update p f t = Ok ([], t') -> t' = t.
Proof.
  intros H. pose proof H as (E & _ & _)%update_inv. symmetry in E. apply map_eq_nil in E.
  rewrite update_none in H; [by injection H|]. intros r Hr.
  apply not_true_is_false. intros Hh.
  assert (Hin : r ∈ filter (fun r => hit p r = true) (tbl_rows t)) by by apply list_elem_of_filter.
  rewrite E in Hin. by apply elem_of_nil in Hin.
Qed.

Lemma atomic_update_one p f : atomic (q_update_one tbl p f).
Proof.
  intros w Hf _. unfold q_update_one, q_update, mbind, M_bind. rewrite (query_run w Hf).
  destruct (update _ _ _) as [[rs t]|] eqn:Hu; [|done]. destruct rs; [|done].
  cbn. by rewrite (update_empty _ _ _ _ Hu), Hset.
Qed.

(** A single-row update followed by steps that cannot fail on the row it wrote. *)
Lemma atomic_update_then {B} (h : dberr -> error) p f (k : R -> M error B) :
  (forall w r t, w_faults w = [] -> no_orphans (w_db w) -> r ∈ tbl_rows (tbl (w_db w)) ->
     row_deleted r = None ->
     exists b, fst (k (f w r) (w <| w_db := set_field tbl (fun _ => t) (w_db w) |>)) = Ok b) ->
  atomic (map_err h (q_update_one tbl p f) ≫= k).
Proof.
  intros Hk w Hf Hn. unfold mbind, M_bind, map_err.
  pose proof (atomic_update_one p f w Hf Hn) as Ha.
  destruct (q_update_one tbl p f w) as [[r|e] w1] eqn:E; cbn [result_map_err]; [|done].
  apply q_update_one_Ok_inv in E as (r0 & t & Hin & [Hl _]%hit_live & -> & _ & ->).
  assert (w <| w_faults := tail (w_faults w) |> = w) as -> by (destruct w; cbn in *; by subst).
  destruct (Hk w r0 t Hf Hn Hin Hl) as [b Hb]. by destruct (k _ _) as [[]].
Qed.
End Writes.

Lemma tenant_found {d id} w : w_faults w = [] -> w_db w = d -> has_tenant d id ->
  exists t, GetTenantByID id w = (Ok t, w).
Proof.
  intros Hf <- (t & Hin & Hl & Hid). unfold GetTenantByID. rewrite (q_get_run w Hf).
  destruct (select_one_some (fun t => t_TenantID t =? id) (tenants (w_db w)) t) as [q ->];
    [done..|lia|eauto].
Qed.
Lemma project_found {d id} w : w_faults w = [] -> w_db w = d -> has_project d id ->
  exists t, GetProjectByID id w = (Ok t, w).
Proof.
  intros Hf <- (t & Hin & Hl & Hid). unfold GetProjectByID. rewrite (q_get_run w Hf).
  destruct (select_one_some (fun t => p_ProjectID t =? id) (projects (w_db w)) t) as [q ->];
    [done..|lia|eauto].
Qed.

(** ** The services *)

(** The answer to a write: the parent of the row is resolved in the new database. *)
Ltac parent_found found Hn :=
  intros w r t Hf Hn Hin Hl; unfold or_return, map_err, mbind, M_bind;
  match goal with |- context [?get ?id ?w'] =>
    lazymatch get with GetTenantByID => idtac | GetProjectByID => idtac end;
    destruct (found (w_db w') id w') as [? ->]; [exact Hf|reflexivity| |by eexists]
  end.

Section Services.
Context {T : GoText} {K : Resource.WorkloadKit} {C : Agent.Crypto}.

Ltac settle :=
  repeat (cbv zeta; first
    [ apply atomic_after; [solve [reading]|intros ?]
    | apply atomic_then | apply atomic_map_err
    | match goal with |- atomic (match ?x with _ => _ end) => destruct x end ]);
  try first [solve [apply atomic_insert] | solve [apply atomic_update]
            | solve [apply atomic_update_one; by intros []] | solve [apply atomic_reads; reading]].

Lemma tenant_create_atomic i : atomic (Tenant.Create i).
Proof. unfold Tenant.Create, or_return, CreateTenant. settle. Qed.
Lemma tenant_update_atomic id i : atomic (Tenant.Update id i).
Proof. unfold Tenant.Update, or_not_found, UpdateTenant. settle. Qed.
Lemma tenant_delete_atomic id : atomic (Tenant.Delete id).
Proof. unfold Tenant.Delete, or_return, SoftDeleteTenant. settle. Qed.
Lemma project_create_atomic i : atomic (Project.Create i).
Proof. unfold Project.Create, or_return, CreateProject. settle. Qed.
Lemma project_delete_atomic id : atomic (Project.Delete id).
Proof. unfold Project.Delete, or_return, SoftDeleteProject. settle. Qed.
Lemma provider_create_atomic i : atomic (Provider.Create i).
Proof. unfold Provider.Create, or_return, CreateProvider. settle. Qed.
Lemma provider_delete_atomic id : atomic (Provider.Delete id).
Proof. unfold Provider.Delete, or_return, SoftDeleteProvider. settle. Qed.
Lemma service_create_atomic i : atomic (Registry.Create i).
Proof. unfold Registry.Create, or_return, CreateService. settle. Qed.
Lemma service_delete_atomic id : atomic (Registry.Delete id).
Proof. unfold Registry.Delete, or_return, SoftDeleteService. settle. Qed.
Lemma agent_create_atomic random i : atomic (Agent.Create random i).
Proof. unfold Agent.Create, or_return, CreateAgent. settle. Qed.
Lemma agent_delete_atomic id : atomic (Agent.Delete id).
Proof. unfold Agent.Delete, or_return, SoftDeleteAgent. settle. Qed.
Lemma resource_create_atomic i : atomic (Resource.Create i).
Proof. unfold Resource.Create, or_return, CreateResource. settle. Qed.
Lemma resource_delete_atomic id : atomic (Resource.Delete id).
Proof. unfold Resource.Delete, or_return, MarkResourceDeleting. settle. Qed.

(** Updates resolve the parent after the write. *)

Lemma project_update_atomic id i : atomic (Project.Update id i).
Proof.
  unfold Project.Update, or_not_found. settle.
  apply atomic_update_then; [by intros []|]. unfold Project.resolveTenantUUID.
  parent_found @tenant_found Hn. exact (np_projects _ Hn r Hin Hl).
Qed.
Lemma provider_update_atomic id i : atomic (Provider.Update id i).
Proof.
  unfold Provider.Update, or_not_found. settle.
  apply atomic_update_then; [by intros []|]. unfold Provider.resolveTenantUUID.
  parent_found @tenant_found Hn. exact (np_providers _ Hn r Hin Hl).
Qed.
Lemma service_update_atomic id i : atomic (Registry.UpdateStatus id i).
Proof.
  unfold Registry.UpdateStatus, or_return. settle.
  apply atomic_update_then; [by intros []|]. unfold Registry.resolveTenantUUID.
  parent_found @tenant_found Hn. exact (np_services _ Hn r Hin Hl).
Qed.
Lemma agent_update_atomic id i : atomic (Agent.Update id i).
Proof.
  unfold Agent.Update, or_not_found. settle.
  apply atomic_update_then; [by intros []|]. unfold Agent.answer, Agent.resolveTenantUUID.
  parent_found @tenant_found Hn. exact (np_agents _ Hn r Hin Hl).
Qed.
Lemma agent_heartbeat_atomic id : atomic (Agent.Heartbeat id).
Proof.
  apply atomic_update_then; [by intros []|]. unfold Agent.answer, Agent.resolveTenantUUID.
  parent_found @tenant_found Hn. exact (np_agents _ Hn r Hin Hl).
Qed.
Lemma resource_spec_atomic id i : atomic (Resource.UpdateSpec id i).
Proof.
  unfold Resource.UpdateSpec, or_not_found. settle.
  apply atomic_update_then; [by intros []|]. unfold Resource.resolveProjectUUID.
  parent_found @project_found Hn. exact (np_resources _ Hn r Hin Hl).
Qed.
Lemma resource_status_atomic id i : atomic (Resource.UpdateStatus id i).
Proof.
  unfold Resource.UpdateStatus, or_not_found. settle.
  apply atomic_update_then; [by intros []|]. unfold Resource.resolveProjectUUID.
  parent_found @project_found Hn. exact (np_resources _ Hn r Hin Hl).
Qed.
End Services.

(** ** The routes *)

Definition h_atomic (h : Handler) : Prop :=
  forall w, w_faults w = [] -> no_orphans (w_db w) ->
    rp_success (fst (h w)) = false -> w_db (snd (h w)) = w_db w.

Lemma h_atomic_respond rep : h_atomic (respond rep).
Proof. done. Qed.
Lemma h_atomic_call {A} msg (m : M error A) ok :
  (forall a, rp_success (ok a) = true) -> atomic m -> h_atomic (call msg m ok).
Proof.
  intros Hok Hm w Hf Hn. unfold call. specialize (Hm w Hf Hn).
  destruct (m w) as [[a|e] w']; cbn; [by rewrite Hok|done].
Qed.

Lemma list_system_reads rows : reads (Registry.list_system_loop rows).
Proof. induction rows as [|r rows IH]; cbn [Registry.list_system_loop]; reading; apply IH. Qed.

Lemma list_system_atomic : atomic Registry.ListSystem.
Proof. apply atomic_reads, reads_bind; [reading|apply list_system_reads]. Qed.

Create HintDb atomic.

Section Routes.
Context {T : GoText} {F : GoFloat} {K : Resource.WorkloadKit} {C : Agent.Crypto}.

Lemma h_atomic_uuid r k : (forall id, h_atomic (k id)) -> h_atomic (with_uuid r k).
Proof. intros H. unfold with_uuid. case_match; [done|apply h_atomic_respond]. Qed.
Lemma h_atomic_body {S} fields (zero : S) r k :
  (forall req, h_atomic (k req)) -> h_atomic (with_body fields zero r k).
Proof. intros H. unfold with_body. case_match; [done|apply h_atomic_respond]. Qed.
Lemma h_atomic_scope name no r k : (forall id, h_atomic (k id)) -> h_atomic (with_scope name no r k).
Proof. intros H. unfold with_scope. case_match; [done|apply h_atomic_respond]. Qed.

#[local] Hint Resolve tenant_create_atomic tenant_update_atomic tenant_delete_atomic
  project_create_atomic project_update_atomic project_delete_atomic provider_create_atomic
  provider_update_atomic provider_delete_atomic service_create_atomic service_update_atomic
  service_delete_atomic agent_create_atomic agent_update_atomic agent_heartbeat_atomic
  agent_delete_atomic resource_create_atomic resource_spec_atomic resource_status_atomic
  resource_delete_atomic list_system_atomic : atomic.

Lemma routes_atomic random :
  Forall (fun m => Forall (fun rt => forall q, h_atomic (rt_Handler rt q)) (snd m)) (mounts random).
Proof.
  each_route; intros q; cbn [rt_Handler].
  all: match goal with |- h_atomic ?h => let h' := head_of h in unfold h' end.
  all: repeat first
    [ apply h_atomic_uuid; intros ? | apply h_atomic_body; intros ? | apply h_atomic_scope; intros ?
    | apply h_atomic_call; [try done; by intros []|] ].
  all: auto with atomic.
  all: apply atomic_reads; reading.
Qed.
End Routes.

(** C16: an API request that is refused leaves the database as it was.
    Whatever guard is in front, whatever the request carries: where every live
    row has a live parent and the database answers, a reply that does not report
    success comes with an unchanged database, so a caller that is told of a
    failure never has a half-applied change behind it. *)
Theorem api_refusal_changes_nothing {T : GoText} {F : GoFloat} {K : Resource.WorkloadKit}
    {C : Agent.Crypto} random g s rts rt r q w :
  (s, rts) ∈ mounts random -> rt ∈ rts -> w_faults w = [] -> no_orphans (w_db w) ->
  rp_success (fst (serve g rt r q w)) = false -> w_db (snd (serve g rt r q w)) = w_db w.
Proof.
  intros Hm Hrt Hf Hn. pose proof (proj1 (Forall_forall _ _) (routes_atomic random) _ Hm) as Ha.
  cbn [snd] in Ha. rewrite Forall_forall in Ha. specialize (Ha rt Hrt q w Hf Hn).
  unfold serve, Authz.Middleware. repeat case_match; done.
Qed.

(** ** On the sample database *)

Definition decimal_text : GoText := {|
  lower_unicode s := s; upper_unicode s := s; fmt_q s := s; duration_String := pretty;
  time_RFC3339 := pretty; uuid_String := pretty; uuid_Parse := Atoi |}.
Definition literal_float : GoFloat := fun lit => Some lit.

Definition writer_verifier : Authz.Verifier := fun token =>
  if str_eqb token "t0ken"
  then Ok {| Authz.sc_Subject := "ops"; Authz.sc_Scopes := ["core:tenant:write"]; Authz.sc_Raw := [] |}
  else Err "bad"%string.
Definition patch_request : Authz.Request :=
  {| Authz.rq_Method := "PATCH"; Authz.rq_Path := "/api/v1/tenants/101";
     Authz.rq_Authorization := "Bearer t0ken" |}.
Definition rename (uuid : string) : ApiRequest :=
  {| aq_uuid := uuid; aq_query := [];
     aq_body := Some (JObj [("Display_Name", JStr "Acme Inc"); ("metadata", JNull)])%string |}.

Section Samples.
#[local] Existing Instance decimal_text.
#[local] Existing Instance literal_float.
#[local] Existing Instance open_kit.
#[local] Existing Instance Hosts.sample_crypto.

Definition patch_tenant : Route :=
  {| rt_Method := "PATCH"; rt_Pattern := "/{uuid}"; rt_Handler := tenant_update |}.
Definition patch_run (uuid : string) : reply ApiData * World :=
  serve (Authz.resolveHTTPGuard [] (Some writer_verifier) false) patch_tenant patch_request
    (rename uuid) sample_world.

Lemma api_authority_confined_witness :
  resources (w_db (snd (patch_run "101"))) = resources sample_db
  /\ map t_DisplayName (tbl_rows (tenants (w_db (snd (patch_run "101"))))) = ["Acme Inc"%string].
Proof.
  split; [|vm_compute; reflexivity].
  destruct (api_authority_confined None [] (Some writer_verifier) "tenants" tenant_Routes patch_tenant
    patch_request (rename "101") sample_world) as (_ & _ & H).
  - left.
  - do 4 right. left.
  - split; vm_compute; reflexivity.
  - intros E. apply (f_equal (fun d => map t_DisplayName (tbl_rows (tenants d)))) in E. vm_compute in E.
    discriminate E.
  - apply (cf_resources _ _ _ H). discriminate.
Defined.

Lemma sample_no_orphans : no_orphans (w_db sample_world).
Proof.
  split; intros r Hr _; repeat (apply elem_of_cons in Hr as [->|Hr]; [|]); try by apply elem_of_nil in Hr.
  all: try (exists acme; split; [left|done]). all: exists web; split; [left|done].
Qed.

Lemma api_refusal_changes_nothing_witness :
  rp_status (fst (patch_run "999")) = 404 /\ w_db (snd (patch_run "999")) = sample_db.
Proof.
  split; [vm_compute; reflexivity|].
  apply (api_refusal_changes_nothing None _ "tenants" tenant_Routes patch_tenant patch_request
    (rename "999") sample_world).
  - left.
  - do 4 right. left.
  - reflexivity.
  - exact sample_no_orphans.
  - vm_compute. reflexivity.
Defined.

(** ** Where a parent was deleted *)

Definition guest : TenantRow :=
  Build_TenantRow 2 102 None "guest" "Guest" "active" false (VObj []) None None 0 0 None.
Definition blog : ProjectRow :=
  Build_ProjectRow 2 202 2 "blog" "Blog" "" "active" (VObj []) None None 0 0 None.
Definition guest_world : World :=
  sample_world <| w_db := sample_db <| tenants := mkTable [acme; guest] 3 |>
                                    <| projects := mkTable [web; blog] 3 |> |>.

Definition delete_guest : ApiRequest := {| aq_uuid := "102"; aq_query := []; aq_body := None |}.
Definition orphan_run : reply ApiData * World :=
  project_update (rename "202") (snd (tenant_remove delete_guest guest_world)).

(** Deleting a tenant leaves its projects alive.  A PATCH of such a project is
    committed, and answered with a 500 that says it failed. *)
Theorem orphan_update_committed :
  rp_status (fst (tenant_remove delete_guest guest_world)) = 200
  /\ rp_status (fst orphan_run) = 500
  /\ rp_error (fst orphan_run) = "Failed to update project"%string
  /\ map p_DisplayName (tbl_rows (projects (w_db (snd orphan_run)))) = ["Web"; "Acme Inc"]%string.
Proof. vm_compute. split_and!; reflexivity. Qed.
End Samples.
