(* ===== verification/Router.v ===== *)
(** * The HTTP surface

    [internal/server/server.go] ([Router]): which handler a request reaches, from
    its method and path alone.  The multiplexer (chi) matches the path as it was
    sent, percent-encoding included, where the guard looks at the decoded path;
    the theorem is that the two cannot be played against each other.  What chi
    does inside a mount is a parameter: it picks one of the routes registered
    there for the method. *)

From S2P Require Import Prelude Json Storage World AppError Queries Evolution Http Decode Handlers Api ApiAtomic Sample.
From S2P Require Tenant Project Provider Registry Agent EventLog Resource Authz Hosts.

(** ** URLs *)

(** [net/url]'s [unescape] of a path; [None] is its error. *)
Fixpoint unescape (s : string) : option string :=
  match s with
  | EmptyString => Some EmptyString
  | String c s' =>
      if Ascii.eqb c "%" then
        match s' with
        | String a (String b s'') =>
            match Agent.hex_value a, Agent.hex_value b, unescape s'' with
            | Some x, Some y, Some r => Some (String (ascii_of_nat (16 * x + y)) r)
            | _, _, _ => None
            end
        | _ => None
        end
      else String c <$> unescape s'
  end.

(** What the router reads of a request: the decoded path, and the path as it was
    sent when the two differ in a way the decoded one does not show. *)
Record HttpRequest := {
  hr_Method : string; hr_Path : string; hr_RawPath : string; hr_Authorization : string }.

(** [url.URL.setPath]: a raw path that is kept decodes to the path. *)
Definition url_parsed (r : HttpRequest) : Prop :=
  hr_RawPath r = ""%string \/ unescape (hr_RawPath r) = Some (hr_Path r).

(** ** Dispatch *)

(** [strings.CutPrefix]. *)
Fixpoint cut_prefix (pre s : string) : option string :=
  match pre, s with
  | EmptyString, _ => Some s
  | String a pre, String b s => if Ascii.eqb a b then cut_prefix pre s else None
  | String _ _, EmptyString => None
  end.

(** The text up to the first slash, and the rest with it. *)
Fixpoint cut_segment (s : string) : string * string :=
  match s with
  | EmptyString => (EmptyString, EmptyString)
  | String c s' => if Ascii.eqb c "/" then (EmptyString, s)
                   else let '(seg, rest) := cut_segment s' in (String c seg, rest)
  end.

Inductive action :=
  | Healthz
  | Readyz
  | CapabilitiesProbe
  | SetupSurface (method path : string)
  | StewardSurface (method path : string)
  | EntityRoute (segment : string) (rt : Route) (q : ApiRequest)
  | Refused (code : Z) (msg : string)
  | NotFound
  | MethodNotAllowed.

Section Router.
Context {T : GoText} {F : GoFloat} {K : Resource.WorkloadKit} {C : Agent.Crypto}.
Context (random : option (list nat)).
(** chi inside a mount: the route, with the request as its handler sees it, or
    none, which it answers with a 404 or a 405. *)
Context (find : list Route -> string -> string -> option (Route * ApiRequest)).

(** The path chi matches. *)
Definition route_path (r : HttpRequest) : string :=
  if is_empty (hr_RawPath r) then hr_Path r else hr_RawPath r.

Definition sub_path (rest : string) : string := if is_empty rest then "/"%string else rest.

(** The routes below [/api/v1]: [path] starts with a slash, or is empty. *)
Definition api_dispatch (method path : string) : action :=
  match cut_prefix "/" path with
  | None => NotFound
  | Some p =>
      let '(seg, rest) := cut_segment p in
      if str_eqb seg "capabilities" && is_empty rest then
        if str_eqb method "GET" then CapabilitiesProbe else MethodNotAllowed
      else if str_eqb seg "setup" then SetupSurface method (sub_path rest)
      else if str_eqb seg "steward" then StewardSurface method (sub_path rest)
      else match Authz.map_lookup seg (mounts random) with
      | None => NotFound
      | Some rts =>
          match find rts method (sub_path rest) with
          | Some (rt, q) => EntityRoute seg rt q
          | None => NotFound
          end
      end
  end.

Definition guard_request (r : HttpRequest) : Authz.Request :=
  {| Authz.rq_Method := hr_Method r; Authz.rq_Path := hr_Path r; Authz.rq_Authorization := hr_Authorization r |}.

(** [/api/v1] itself and everything below it. *)
Definition api_path (path : string) : option string :=
  match cut_prefix "/api/v1" path with
  | Some EmptyString => Some EmptyString
  | Some (String c rest) => if Ascii.eqb c "/" then Some (String c rest) else None
  | None => None
  end.

Definition Router (g : Authz.Guard) (r : HttpRequest) : action :=
  let path := route_path r in
  if str_eqb path "/healthz" then if str_eqb (hr_Method r) "GET" then Healthz else MethodNotAllowed
  else if str_eqb path "/readyz" then if str_eqb (hr_Method r) "GET" then Readyz else MethodNotAllowed
  else match api_path path with
  | Some rest =>
      Authz.Middleware Refused (fun _ _ => api_dispatch (hr_Method r) rest) g (guard_request r)
  | None => NotFound
  end.

(** ** The guard and the router see the same segment *)

Lemma cut_prefix_Some pre s rest : cut_prefix pre s = Some rest -> s = (pre +:+ rest)%string.
Proof.
  revert s. induction pre as [|a pre IH]; intros s; cbn; [by intros [= ->]|].
  destruct s as [|b s]; [done|]. destruct (Ascii.eqb_spec a b) as [->|]; [|done].
  intros E. cbn. by rewrite (IH _ E).
Qed.

Lemma cut_segment_app s : (fst (cut_segment s) +:+ snd (cut_segment s) = s)%string.
Proof.
  induction s as [|c s IH]; cbn; [done|]. destruct (Ascii.eqb c "/"); [done|].
  destruct (cut_segment s) as [seg rest]. cbn in IH |- *. change (String c (seg +:+ rest) = String c s). congruence.
Qed.

(** A segment as it is written in a mount: no slash and no percent sign. *)
Definition plain_segment (s : string) : bool :=
  forallb (fun c => negb (Ascii.eqb c "/") && negb (Ascii.eqb c "%")) (list_ascii_of_string s).
Definition unencoded (s : string) : bool :=
  forallb (fun c => negb (Ascii.eqb c "%")) (list_ascii_of_string s).
Lemma plain_unencoded s : plain_segment s = true -> unencoded s = true.
Proof.
  unfold plain_segment, unencoded. rewrite !forallb_forall. intros H c Hc%H.
  by apply andb_true_iff in Hc as [_ ?].
Qed.
Definition ends (rest : string) : Prop := rest = ""%string \/ exists r, rest = String "/" r.

Lemma cut_segment_ends s : ends (snd (cut_segment s)).
Proof.
  induction s as [|c s IH]; cbn; [by left|].
  destruct (Ascii.eqb_spec c "/") as [->|]; [right; eauto|]. by destruct (cut_segment s).
Qed.

Lemma append_cons c s r : (String c s +:+ r = String c (s +:+ r))%string.
Proof. done. Qed.

Lemma cut_segment_plain s rest : plain_segment s = true -> ends rest -> cut_segment (s +:+ rest) = (s, rest).
Proof.
  intros Hs Hr. induction s as [|c s IH]; cbn in Hs.
  - destruct Hr as [->|[r ->]]; done.
  - rewrite append_cons. cbn. apply andb_true_iff in Hs as [Hc Hs]. apply andb_true_iff in Hc as [Hc _]. apply negb_true_iff in Hc.
    rewrite Hc, IH by done. done.
Qed.

Lemma unescape_prefix s rest d : unencoded s = true -> unescape (s +:+ rest) = Some d ->
  exists d', d = (s +:+ d')%string /\ unescape rest = Some d'.
Proof.
  revert d. induction s as [|c s IH]; intros d Hs; cbn in Hs; [change ("" +:+ rest)%string with rest; eauto|].
  rewrite append_cons. cbn [unescape]. apply andb_true_iff in Hs as [Hc Hs]. apply negb_true_iff in Hc.
  rewrite Hc. destruct (unescape (s +:+ rest)) as [d0|] eqn:E; cbn; [|done]. intros [= <-].
  destruct (IH d0 Hs eq_refl) as (d' & -> & Hd). eauto.
Qed.

Lemma unescape_ends rest d : ends rest -> unescape rest = Some d -> ends d.
Proof.
  intros [->|[r ->]]; cbn; [intros [= <-]; by left|].
  destruct (unescape r); cbn; [|done]. intros [= <-]. right. eauto.
Qed.

Lemma substring_all x : String.substring 0 (String.length x) x = x.
Proof. induction x as [|c x IH]; cbn; [done|]. by rewrite IH. Qed.

Lemma first_segment x :
  match Authz.index_slash x with Some i => str_take i x | None => x end = fst (cut_segment x).
Proof.
  unfold Authz.index_slash, str_take. induction x as [|c x IH]; [done|]. cbn [cut_segment].
  cbn [String.index String.prefix]. destruct (ascii_dec "/" c) as [<-|Hne]; [by destruct x|].
  destruct (Ascii.eqb_spec c "/") as [->|_]; [done|].
  destruct (cut_segment x) as [seg rest]. cbn [fst] in *.
  destruct (String.index 0 "/" x) as [i|]; cbn [String.substring]; by rewrite IH.
Qed.

Lemma apiSegment_cut x : Authz.apiSegment ("/api/v1/" +:+ x)%string = fst (cut_segment x).
Proof.
  rewrite <- first_segment. unfold Authz.apiSegment, HasPrefix, str_drop. cbn [negb].
  change (String.prefix "/api/v1/" ("/api/v1/" +:+ x)) with (String.prefix "" x).
  assert (E : String.prefix "" x = true) by by destruct x. rewrite E. cbn [negb].
  change (String.length "/api/v1/") with 8%nat.
  change (String.length ("/api/v1/" +:+ x)) with (8 + String.length x)%nat.
  replace (8 + String.length x - 8)%nat with (String.length x) by lia.
  change (String.substring 8 (String.length x) ("/api/v1/" +:+ x))
    with (String.substring 0 (String.length x) x). by rewrite substring_all.
Qed.

(** What chi takes for the segment, the guard takes for it too, whatever the rest
    of the path encodes. *)
Lemma segment_agrees r p seg rest : url_parsed r -> route_path r = ("/api/v1/" +:+ p)%string ->
  cut_segment p = (seg, rest) -> plain_segment seg = true ->
  Authz.apiSegment (hr_Path r) = seg.
Proof.
  intros Hu Hp Hc Hs. pose proof (cut_segment_app p) as Ep. pose proof (cut_segment_ends p) as Er.
  rewrite Hc in Ep, Er. cbn in Ep, Er. unfold route_path in Hp.
  destruct (is_empty (hr_RawPath r)) eqn:Ee.
  - rewrite Hp, apiSegment_cut, Hc. done.
  - destruct Hu as [Hu|Hu]; [by rewrite Hu in Ee|]. rewrite Hp, <- Ep in Hu.
    apply unescape_prefix in Hu as (d & -> & Hd); [|done]. rewrite apiSegment_cut.
    destruct (unescape_prefix seg rest d (plain_unencoded _ Hs) Hd) as (d' & -> & Hd').
    rewrite cut_segment_plain; [done|done|]. by eapply unescape_ends.
Qed.

(** ** The surface *)

Hypothesis (find_registered : forall rts method path rt q,
  find rts method path = Some (rt, q) -> rt ∈ rts /\ rt_Method rt = method).

(** The token of the request carries the permission that the segment demands for
    its method. *)
Definition permitted (verifier : option Authz.Verifier) (r : HttpRequest) (segment : string) : Prop :=
  exists p, Authz.map_lookup segment Authz.routePermissions = Some p
    /\ authority verifier (guard_request r)
         (if str_eqb (hr_Method r) "GET" || str_eqb (hr_Method r) "HEAD" then Authz.Read p else Authz.Write p).

(** What a dispatched request may be, given what the guard let through. *)
Definition dispatched (r : HttpRequest) (allowed : string -> Prop) (a : action) : Prop :=
  match a with
  | EntityRoute s rt _ =>
      (exists rts, (s, rts) ∈ mounts random /\ rt ∈ rts) /\ rt_Method rt = hr_Method r /\ allowed s
  | StewardSurface _ _ => allowed "steward"%string
  | SetupSurface _ _ => Authz.apiSegment (hr_Path r) = "setup"%string
  | CapabilitiesProbe => hr_Method r = "GET"%string
  | Healthz | Readyz => False
  | Refused _ _ | NotFound | MethodNotAllowed => True
  end.

Lemma lookup_mount s rts : Authz.map_lookup s (mounts random) = Some rts ->
  (s, rts) ∈ mounts random /\ plain_segment s = true
  /\ (forall m, Authz.exempt s m = false).
Proof.
  intros Hm%Authz.map_lookup_elem. split; [done|]. unfold mounts in Hm.
  repeat (apply elem_of_cons in Hm as [[= -> _]|Hm]; [by split|]). by apply elem_of_nil in Hm.
Qed.

Lemma api_dispatched r rest (allowed : string -> Prop) :
  url_parsed r -> route_path r = ("/api/v1" +:+ rest)%string ->
  (forall seg, Authz.apiSegment (hr_Path r) = seg -> (forall m, Authz.exempt seg m = false) -> allowed seg) ->
  dispatched r allowed (api_dispatch (hr_Method r) rest).
Proof.
  intros Hu Hp Hall. unfold api_dispatch.
  destruct (cut_prefix "/" rest) as [p|] eqn:Er; [|done]. apply cut_prefix_Some in Er. subst rest.
  change (route_path r = ("/api/v1/" +:+ p)%string) in Hp.
  destruct (cut_segment p) as [seg rest] eqn:Ec.
  pose proof (fun Hs => segment_agrees r p seg rest Hu Hp Ec Hs) as Hseg.
  destruct (str_eqb seg "capabilities" && is_empty rest).
  { unfold str_eqb. by destruct (String.eqb_spec (hr_Method r) "GET"). }
  unfold str_eqb. destruct (String.eqb_spec seg "setup") as [->|_]; [by apply Hseg|].
  destruct (String.eqb_spec seg "steward") as [->|_]; [by apply Hall; [apply Hseg|]|].
  destruct (Authz.map_lookup seg (mounts random)) as [rts|] eqn:Em; [|done].
  destruct (find rts _ _) as [[rt q]|] eqn:Ef; [|done].
  apply lookup_mount in Em as (Hm & Hplain & Hex). apply find_registered in Ef as [Hrt Hmeth].
  cbn. split_and!; [eauto|done|]. apply Hall; [by apply Hseg|done].
Qed.

(** C14: the whole HTTP surface fails closed.  Outside development, whatever the
    method, path and headers of a request: it reaches a handler of the API or the
    steward's only with a bearer token the verifier accepts whose claims hold the
    permission of that handler's segment for that method; without one it reaches
    the liveness and readiness probes and the capability probe, with GET, and the
    setup surface, which has a gate of its own, and nothing else.  This holds
    although the router matches the path as it was sent and the guard the decoded
    one: no percent-encoding makes the two see different segments. *)
Theorem surface_closed missing verifier r : url_parsed r ->
  match Router (Authz.resolveHTTPGuard missing verifier false) r with
  | EntityRoute s rt _ =>
      (exists rts, (s, rts) ∈ mounts random /\ rt ∈ rts) /\ rt_Method rt = hr_Method r
      /\ permitted verifier r s
  | StewardSurface _ _ => permitted verifier r "steward"
  | SetupSurface _ _ => Authz.apiSegment (hr_Path r) = "setup"%string
  | Healthz | Readyz | CapabilitiesProbe => hr_Method r = "GET"%string
  | Refused _ _ | NotFound | MethodNotAllowed => True
  end.
Proof.
  intros Hu. unfold Router.
  assert (Hget : forall b : action, (b = Healthz \/ b = Readyz) ->
    match (if str_eqb (hr_Method r) "GET" then b else MethodNotAllowed) with
    | Healthz | Readyz => hr_Method r = "GET"%string | MethodNotAllowed => True | _ => False end).
  { intros b Hb. unfold str_eqb. destruct (String.eqb_spec (hr_Method r) "GET"); [|done].
    destruct Hb as [->| ->]; done. }
  destruct (str_eqb (route_path r) "/healthz").
  { specialize (Hget Healthz (or_introl eq_refl)). by destruct (str_eqb (hr_Method r) "GET"). }
  destruct (str_eqb (route_path r) "/readyz").
  { specialize (Hget Readyz (or_intror eq_refl)). by destruct (str_eqb (hr_Method r) "GET"). }
  clear Hget. destruct (api_path (route_path r)) as [rest|] eqn:Ea; [|done].
  assert (Hp : route_path r = ("/api/v1" +:+ rest)%string).
  { unfold api_path in Ea. destruct (cut_prefix "/api/v1" (route_path r)) as [x|] eqn:E; [|done].
    apply cut_prefix_Some in E. rewrite E. f_equal. destruct x as [|c x]; [congruence|].
    destruct (Ascii.eqb c "/"); congruence. }
  set (seg := Authz.apiSegment (hr_Path r)).
  assert (Hd : forall allowed : string -> Prop, ((forall m, Authz.exempt seg m = false) -> allowed seg) ->
    dispatched r allowed (api_dispatch (hr_Method r) rest)).
  { intros allowed Hall. apply api_dispatched; [done..|]. intros s <- Hex. by apply Hall. }
  destruct (Authz.exempt seg (hr_Method r)) eqn:Ex.
  - unfold Authz.Middleware. cbn [guard_request Authz.rq_Path Authz.rq_Method]. fold seg. rewrite Ex.
    assert (Hno : (forall m, Authz.exempt seg m = false) -> False) by (intros H; by rewrite H in Ex).
    specialize (Hd (fun _ => False) Hno). destruct (api_dispatch _ _); cbn in Hd; try done.
    by destruct Hd as (_ & _ & []).
  - destruct (middleware_passes Refused (fun _ _ => api_dispatch (hr_Method r) rest) missing verifier
      (guard_request r) Ex) as [(code & msg & ->)|(claims & perm & -> & Hdem & Hauth)]; [done|].
    unfold Authz.demanded in Hdem. cbn [guard_request Authz.rq_Path Authz.rq_Method] in Hdem. fold seg in Hdem.
    destruct (Authz.map_lookup seg Authz.routePermissions) as [p|] eqn:Epm; [|done]. cbn in Hdem.
    assert (Hpm : permitted verifier r seg) by (exists p; split; [done|]; by injection Hdem as ->).
    specialize (Hd (permitted verifier r) (fun _ => Hpm)). destruct (api_dispatch _ _); by cbn in Hd.
Qed.
End Router.

(** ** A request with an encoded path *)

Section Samples.
#[local] Existing Instance decimal_text.
#[local] Existing Instance literal_float.
#[local] Existing Instance open_kit.
#[local] Existing Instance Hosts.sample_crypto.

(** A multiplexer that takes the first route of the method. *)
Definition first_of_method (rts : list Route) (method path : string) : option (Route * ApiRequest) :=
  match List.filter (fun rt => str_eqb (rt_Method rt) method) rts with
  | rt :: _ => Some (rt, rename "101")
  | [] => None
  end.

Lemma first_of_method_registered rts method path rt q :
  first_of_method rts method path = Some (rt, q) -> rt ∈ rts /\ rt_Method rt = method.
Proof.
  unfold first_of_method. destruct (List.filter _ rts) as [|rt' l] eqn:E; [done|]. intros [= <- _].
  assert (H : In rt' (List.filter (fun rt => str_eqb (rt_Method rt) method) rts)) by (rewrite E; by left).
  apply filter_In in H as [H1 H2]. split; [by apply list_elem_of_In|]. by apply String.eqb_eq.
Qed.

Definition encoded_request : HttpRequest :=
  {| hr_Method := "GET"; hr_Path := "/api/v1/tenants/a/b"; hr_RawPath := "/api/v1/tenants/a%2Fb";
     hr_Authorization := "Bearer t0ken" |}.

Lemma surface_closed_witness : permitted (Some Authz.demo_verifier) encoded_request "tenants".
Proof.
  assert (Hu : url_parsed encoded_request) by (right; vm_compute; reflexivity).
  assert (H := surface_closed None first_of_method first_of_method_registered [] (Some Authz.demo_verifier)
    encoded_request Hu).
  destruct (Router _ _ _ encoded_request) eqn:E; try discriminate E. injection E as <- _ _. apply H.
Defined.
End Samples.
