(* ===== verification/ApiRoundtrip.v ===== *)
(** * What a POST answered is what a GET returns *)

From S2P Require Import Prelude Json Storage World AppError Queries Evolution Http Decode Handlers Api.
From S2P Require Import ApiAtomic Sample.
From S2P Require Tenant Project Provider Registry Agent Resource Hosts.

(** ** Inserted rows *)

Section Inserted.
Context {R : Type} `{!TableRow R} (tbl : Db -> Table R) `{!FieldSetter tbl, !TableField tbl}.

Lemma inserted_found mk w r w' :
  w_faults w = [] -> table_wf (tbl (w_db w)) ->
  (forall w id u, row_id (mk w id u) = id /\ row_uuid (mk w id u) = u) ->
  (forall w id u, row_deleted (mk w id u) = None) ->
  q_insert tbl mk w = (Ok r, w') ->
  w_faults w' = []
  /\ (exists t, w_db w' = set_field tbl (fun _ => t) (w_db w))
  /\ (exists w0 id u, r = mk w0 id u)
  /\ q_get tbl (fun q => row_uuid q =? row_uuid r) w' = (Ok r, w').
Proof.
  intros Hf Hwf Hmk Hlive E. pose proof E as (t & Hi & ->)%q_insert_Ok_inv.
  assert (Hwt : table_wf t) by (by eapply insert_wf; [|exact Hi|]; auto).
  apply insert_inv in Hi as (Hr & Hrows & _).
  split_and!; [cbn; by rewrite Hf|by exists t|by eexists _, _, _|].
  rewrite q_get_run by (cbn; by rewrite Hf). f_equal. cbn. rewrite table_get_set.
  apply select_one_unique; [done| |by rewrite Hr, Hlive|apply Z.eqb_refl|intros q; lia].
  rewrite Hrows. apply elem_of_app. right. by left.
Qed.
End Inserted.

(** A parent found by any key is found by its id, as long as its table is the
    same. *)
Lemma found_by_id {R} `{!TableRow R} (tbl : Db -> Table R) p w w' r :
  w_faults w = [] -> w_faults w' = [] -> tbl (w_db w') = tbl (w_db w) ->
  table_wf (tbl (w_db w)) -> q_get tbl p w = (Ok r, w) ->
  q_get tbl (fun q => row_id q =? row_id r) w' = (Ok r, w').
Proof.
  intros Hf Hf' Hd Hwf. rewrite (q_get_run w Hf), (q_get_run w' Hf'), Hd. intros [= Hr].
  apply select_one_Ok_inv in Hr as (Hin & Hl & _ & _).
  destruct (select_one_some (fun q => row_id q =? row_id r) (tbl (w_db w)) r)
    as [q Hq]; [done|done|lia|]. rewrite Hq.
  apply select_one_Ok_inv in Hq as (Hqin & _ & Hqid & _).
  rewrite (wf_id_inj _ q r Hwf Hqin Hin); [done|]. lia.
Qed.

Lemma tenant_by_id p w w' t :
  w_faults w = [] -> w_faults w' = [] -> tenants (w_db w') = tenants (w_db w) ->
  table_wf (tenants (w_db w)) -> q_get tenants p w = (Ok t, w) ->
  GetTenantByID (t_TenantID t) w' = (Ok t, w').
Proof. exact (found_by_id tenants p w w' t). Qed.
Lemma project_by_id p w w' t :
  w_faults w = [] -> w_faults w' = [] -> projects (w_db w') = projects (w_db w) ->
  table_wf (projects (w_db w)) -> q_get projects p w = (Ok t, w) ->
  GetProjectByID (p_ProjectID t) w' = (Ok t, w').
Proof. exact (found_by_id projects p w w' t). Qed.

(** A read of a successful operation leaves the world as it was, and the rest
    of the operation runs in it. *)
Lemma get_step {R} `{!TableRow R} (tbl : Db -> Table R) {E B} (h : dberr -> E) p (k : R -> M E B) w b w' :
  w_faults w = [] -> (map_err h (q_get tbl p) ≫= k) w = (Ok b, w') ->
  exists r, q_get tbl p w = (Ok r, w) /\ k r w = (Ok b, w').
Proof.
  intros Hf (r & w1 & Hr & Hk)%bind_run_Ok_inv. apply map_err_Ok_inv in Hr.
  pose proof Hr as Hr'. rewrite (q_get_run w Hf) in Hr'. injection Hr' as _ <-. eauto.
Qed.
Lemma lift_step {E A B} (x : result E A) (k : A -> M E B) w b w' :
  (lift x ≫= k) w = (Ok b, w') -> exists a, x = Ok a /\ k a w = (Ok b, w').
Proof. unfold mbind, M_bind, lift. destruct x; [eauto|done]. Qed.

(** ** The services

    [read_back] runs a successful create up to its insert and the read after it:
    the row is found, then its parent. *)

Record store_wf (d : Db) : Prop := {
  sw_tenants : table_wf (tenants d); sw_projects : table_wf (projects d);
  sw_providers : table_wf (providers d); sw_services : table_wf (services d);
  sw_agents : table_wf (agents d); sw_resources : table_wf (resources d) }.

Section Services.
Context {T : GoText} {K : Resource.WorkloadKit} {C : Agent.Crypto}.
Context (w : World) (Hf : w_faults w = []) (Hwf : store_wf (w_db w)).

(** The insert that ends a create, and the row's lookup in the world it leaves. *)
Lemma insert_step {R} `{!TableRow R} (tbl : Db -> Table R) `{!FieldSetter tbl, !TableField tbl}
    {B} mk (g : R -> B) b w' :
  table_wf (tbl (w_db w)) ->
  (forall w id u, row_id (mk w id u) = id /\ row_uuid (mk w id u) = u) ->
  (forall w id u, row_deleted (mk w id u) = None) ->
  (map_err DbError (q_insert tbl mk) ≫= fun r => mret (g r)) w = (Ok b, w') ->
  exists r, b = g r /\ w_faults w' = []
    /\ (exists t, w_db w' = set_field tbl (fun _ => t) (w_db w))
    /\ (exists w0 id u, r = mk w0 id u)
    /\ q_get tbl (fun q => row_uuid q =? row_uuid r) w' = (Ok r, w').
Proof.
  intros Ht Hmk Hl (r & w1 & Hr & Hk)%bind_run_Ok_inv. injection Hk as <- <-.
  apply map_err_Ok_inv in Hr. exists r. split; [done|]. by eapply inserted_found.
Qed.

Lemma tenant_readable i t w' :
  Tenant.Create i w = (Ok t, w') -> Tenant.Get (Tenant.tn_UUID t) w' = (Ok t, w').
Proof.
  unfold Tenant.Create. case_match; [done|]. intros (meta & _ & E)%lift_step.
  apply insert_step in E as (r & -> & _ & _ & _ & Hg); [|apply _|apply Hwf|done..].
  unfold Tenant.Get, or_not_found, map_err, mbind, M_bind.
  by change (GetTenantByUUID _ w') with (q_get tenants (fun q => row_uuid q =? row_uuid r) w'); rewrite Hg.
Qed.

(** The row is found, then its parent [t], in the world after the create. *)
Ltac read_back Hg Hp :=
  unfold or_not_found, or_return, map_err, mbind, M_bind;
  match type of Hg with ?get = _ =>
    match goal with |- context [?m ?w] => unify (m w) get; change (m w) with get end
  end; rewrite Hg; cbn; by rewrite Hp.

Lemma project_readable i p w' :
  Project.Create i w = (Ok p, w') -> Project.Get (Project.pj_UUID p) w' = (Ok p, w').
Proof.
  unfold Project.Create. case_match; [done|]. intros (t & Ht & E)%get_step; [|done].
  apply lift_step in E as (meta & _ & E).
  apply insert_step in E as (r & -> & Hf' & [tb Hd] & (w0 & id & u & Hr) & Hg); [|apply _|apply Hwf|done..].
  assert (Hp : GetTenantByID (p_TenantID r) w' = (Ok t, w')).
  { rewrite Hr. eapply tenant_by_id; [exact Hf|done|by rewrite Hd|apply Hwf|exact Ht]. }
  unfold Project.Get, Project.resolveTenantUUID. read_back Hg Hp.
Qed.

Lemma provider_readable i p w' :
  Provider.Create i w = (Ok p, w') -> Provider.Get (Provider.pv_UUID p) w' = (Ok p, w').
Proof.
  unfold Provider.Create. case_match; [done|]. intros (t & Ht & E)%get_step; [|done].
  apply lift_step in E as (config & _ & E). apply lift_step in E as (meta & _ & E).
  apply insert_step in E as (r & -> & Hf' & [tb Hd] & (w0 & id & u & Hr) & Hg); [|apply _|apply Hwf|done..].
  assert (Hp : GetTenantByID (v_TenantID r) w' = (Ok t, w')).
  { rewrite Hr. eapply tenant_by_id; [exact Hf|done|by rewrite Hd|apply Hwf|exact Ht]. }
  unfold Provider.Get, Provider.resolveTenantUUID. read_back Hg Hp.
Qed.

Lemma service_readable i s w' :
  Registry.Create i w = (Ok s, w') -> Registry.Get (Registry.rg_UUID s) w' = (Ok s, w').
Proof.
  unfold Registry.Create. case_match; [done|]. intros (t & Ht & E)%get_step; [|done].
  apply lift_step in E as (meta & _ & E).
  apply insert_step in E as (r & -> & Hf' & [tb Hd] & (w0 & id & u & Hr) & Hg); [|apply _|apply Hwf|done..].
  assert (Hp : GetTenantByID (s_TenantID r) w' = (Ok t, w')).
  { rewrite Hr. eapply tenant_by_id; [exact Hf|done|by rewrite Hd|apply Hwf|exact Ht]. }
  unfold Registry.Get, Registry.resolveTenantUUID. read_back Hg Hp.
Qed.

(** The join token is in the answer to the create and in no later one. *)
Lemma agent_readable random i a w' :
  Agent.Create random i w = (Ok a, w') ->
  Agent.Get (Agent.ag_UUID a) w' = (Ok (a <| Agent.ag_JoinToken := ""%string |>), w').
Proof.
  unfold Agent.Create. case_match; [done|]. intros (t & Ht & E)%get_step; [|done].
  cbv zeta in E. apply lift_step in E as (meta & _ & E). apply lift_step in E as ([tok hash] & _ & E).
  apply insert_step in E as (r & -> & Hf' & [tb Hd] & (w0 & id & u & Hr) & Hg); [|apply _|apply Hwf|done..].
  assert (Hp : GetTenantByID (a_TenantID r) w' = (Ok t, w')).
  { rewrite Hr. eapply tenant_by_id; [exact Hf|done|by rewrite Hd|apply Hwf|exact Ht]. }
  unfold Agent.Get, Agent.answer, Agent.resolveTenantUUID. read_back Hg Hp.
Qed.

(** A successful create of a resource is one insert, of a row that nobody owns. *)
Lemma resource_created i x w' :
  Resource.Create i w = (Ok x, w') ->
  exists q proj p row, q_get projects q w = (Ok proj, w)
    /\ crp_ProjectID p = p_ProjectID proj /\ crp_AgentID p = None
    /\ marshalMap (Resource.ci_Spec i) = Ok (crp_Spec p)
    /\ CreateResource p w = (Ok row, w') /\ x = Resource.toResource row (p_ProjectUuid proj).
Proof.
  unfold Resource.Create. case_match; [done|]. intros (t & Ht & E)%get_step; [|done].
  apply get_step in E as (tn & _ & E); [|done].
  apply bind_run_Ok_inv in E as (pid & w1 & Hpid & E).
  assert (w1 = w) as ->.
  { destruct (Resource.ci_ProviderUUID i); [|by injection Hpid].
    apply get_step in Hpid as (pv & _ & Hpid); [by injection Hpid|done]. }
  apply lift_step in E as (spec & Hspec & E). apply bind_run_Ok_inv in E as ([] & w1 & Hck & E).
  assert (w1 = w) as ->.
  { revert Hck. unfold Resource.check_spec. destruct (Resource.validateSpec _ _); [done|]. by intros [= ->]. }
  apply lift_step in E as (meta & _ & E). apply lift_step in E as (mrn & _ & E).
  apply bind_run_Ok_inv in E as (row & w1 & Hrow & [= <- <-]). apply map_err_Ok_inv in Hrow.
  eexists _, _, _, _. split; [exact Ht|]. split; [|split; [|split; [|split; [exact Hrow|done]]]]; [done..|].
  cbn. by destruct (marshalMap (Resource.ci_Spec i)); simplify_eq/=.
Qed.

Lemma resource_readable i x w' :
  Resource.Create i w = (Ok x, w') -> Resource.Get (Resource.UUID x) w' = (Ok x, w').
Proof.
  intros (q & proj & p & row & Hproj & Hpid & _ & _ & E & ->)%resource_created.
  apply inserted_found in E as (Hf' & [tb Hd] & (w0 & id & u & Hr) & Hg); [|apply _|done|apply Hwf|done..].
  assert (Hp : GetProjectByID (r_ProjectID row) w' = (Ok proj, w')).
  { rewrite Hr. cbn. rewrite Hpid. eapply project_by_id; [exact Hf|done|by rewrite Hd|apply Hwf|exact Hproj]. }
  unfold Resource.Get, Resource.resolveProjectUUID. read_back Hg Hp.
Qed.
End Services.

(** ** The routes *)

(** The handlers that create and fetch one kind of entity. *)
Inductive entity := ETenant | EProject | EProvider | EService | EAgent | EResource.

Section Routes.
Context {T : GoText} {F : GoFloat} {K : Resource.WorkloadKit} {C : Agent.Crypto}.

Definition create_handler (random : option (list nat)) (e : entity) : ApiRequest -> Handler :=
  match e with
  | ETenant => tenant_create | EProject => project_create | EProvider => provider_create
  | EService => service_create | EAgent => agent_create random | EResource => resource_create
  end.
Definition get_handler (e : entity) : ApiRequest -> Handler :=
  match e with
  | ETenant => tenant_get | EProject => project_get | EProvider => provider_get
  | EService => service_get | EAgent => agent_get | EResource => resource_get
  end.
End Routes.

Definition data_uuid (d : ApiData) : option Z :=
  match d with
  | DTenant t => Some (Tenant.tn_UUID t)
  | DProject p => Some (Project.pj_UUID p)
  | DProvider p => Some (Provider.pv_UUID p)
  | DService s => Some (Registry.rg_UUID s)
  | DAgent a => Some (Agent.ag_UUID a)
  | DResource r => Some (Resource.UUID r)
  | _ => None
  end.

(** An entity without the credential that is shown once. *)
Definition without_token (d : ApiData) : ApiData :=
  match d with
  | DAgent a => DAgent (a <| Agent.ag_JoinToken := ""%string |>)
  | d => d
  end.

(** A successful create called the service once. *)
Lemma create_inv {T : GoText} {S A} fields (zero : S) r msg (m : S -> M error A) ok w rep w' :
  with_body fields zero r (fun req => call msg (m req) ok) w = (rep, w') -> rp_success rep = true ->
  exists req a, m req w = (Ok a, w') /\ rep = ok a.
Proof.
  unfold with_body. destruct (Decode _ _ _) as [req|]; [|by intros [= <- _]]. unfold call.
  destruct (m req w) as [[a|e] w1] eqn:Em; intros [= <- <-]; [|done]. intros _. by exists req, a.
Qed.

(** The GET that finds what the create returned. *)
Lemma get_found {T : GoText} {A} r msg (m : Z -> M error A) ok id a w :
  uuid_Parse (aq_uuid r) = Some id -> m id w = (Ok a, w) ->
  with_uuid r (fun id => call msg (m id) ok) w = (ok a, w).
Proof. intros Hu Hm. unfold with_uuid, call. by rewrite Hu, Hm. Qed.

Ltac posted E Hs readable :=
  destruct (create_inv _ _ _ _ _ _ _ _ _ E Hs) as (req & a & Ha & ->);
  apply readable in Ha; [|done|done]; eexists; split; [reflexivity|];
  intros Hu; exact (get_found _ _ _ _ _ _ _ Hu Ha).

(** C33: what a POST answered is what a GET returns.  Where the database
    answers, a create that reports success is a 201 that carries the new entity,
    and a GET with that entity's UUID is then a 200 that carries the same entity
    and changes nothing; the one difference is an agent's join token, which the
    answer to the create shows and no GET does. *)
Theorem api_create_then_get {T : GoText} {F : GoFloat} {K : Resource.WorkloadKit} {C : Agent.Crypto}
    random e r r' w :
  w_faults w = [] -> store_wf (w_db w) ->
  let '(rep, w') := create_handler random e r w in
  rp_success rep = true ->
  exists d, rep = Created d (rp_message rep)
    /\ (uuid_Parse (aq_uuid r') = data_uuid d ->
        get_handler e r' w' = (Success (without_token d) "", w')).
Proof.
  intros Hf Hwf. destruct (create_handler random e r w) as [rep w'] eqn:E. intros Hs.
  destruct e.
  - posted E Hs tenant_readable.
  - posted E Hs project_readable.
  - posted E Hs provider_readable.
  - posted E Hs service_readable.
  - posted E Hs agent_readable.
  - posted E Hs resource_readable.
Qed.

Section Samples.
#[local] Existing Instance decimal_text.
#[local] Existing Instance literal_float.
#[local] Existing Instance open_kit.
#[local] Existing Instance Hosts.sample_crypto.

Definition new_agent : ApiRequest :=
  {| aq_uuid := ""; aq_query := [];
     aq_body := Some (JObj [("tenant_uuid", JStr "101"); ("name", JStr "edge"); ("NAME", JNull);
                            ("capabilities", JArr [JStr "docker"; JNull])])%string |}.
Definition fetch (uuid : string) : ApiRequest :=
  {| aq_uuid := uuid; aq_query := []; aq_body := None |}.
Definition random_bytes : option (list nat) := Some (List.repeat 7%nat 32).

Lemma sample_store_wf : store_wf (w_db sample_world).
Proof. split; apply table_wfb_sound; vm_compute; reflexivity. Qed.

Lemma api_create_then_get_witness :
  exists a w', agent_create random_bytes new_agent sample_world = (Created (DAgent a) "Agent created", w')
    /\ Agent.ag_Capabilities a = ["docker"; ""]%string /\ Agent.ag_JoinToken a <> ""%string
    /\ agent_get (fetch "501") w'
       = (Success (DAgent (a <| Agent.ag_JoinToken := ""%string |>)) "", w').
Proof.
  pose proof (api_create_then_get random_bytes EAgent new_agent (fetch "501") sample_world eq_refl
    sample_store_wf) as H. cbn [create_handler get_handler] in H.
  destruct (agent_create random_bytes new_agent sample_world) as [rep w'] eqn:E.
  vm_compute in E. injection E as <- <-. destruct (H eq_refl) as (d & Hd & Hg).
  injection Hd as <-. eexists _, _. split; [reflexivity|]. split; [reflexivity|].
  split; [discriminate|]. apply Hg. reflexivity.
Defined.
End Samples.
