(* ===== verification/Lookups.v ===== *)
(** * The reads and the write no service calls yet

    [internal/storage] offers a lookup by primary key beside every lookup by
    UUID, listings by tenant and by kind, and an explicit assignment of a
    resource to an agent.  They are part of [Querier], so a caller may come to
    rely on them: the two lookups name the same row, a listing shows only what
    its condition names, and an assignment changes who may claim the resource
    and nothing else of its place in the work feed. *)

From S2P Require Import Prelude Json Storage World Queries ApiRoundtrip.

(** ** A row has one identity, whichever key names it *)

(** The row a UUID names is the row its primary key names, in every table that
    has both lookups. *)
Theorem lookups_agree w : w_faults w = [] ->
  (forall uuid r, table_wf (resources (w_db w)) ->
     GetResourceByUUID uuid w = (Ok r, w) -> GetResourceByID (r_ResourceID r) w = (Ok r, w))
  /\ (forall uuid p, table_wf (providers (w_db w)) ->
     GetProviderByUUID uuid w = (Ok p, w) -> GetProviderByID (v_ProviderID p) w = (Ok p, w))
  /\ (forall uuid a, table_wf (agents (w_db w)) ->
     GetAgentByUUID uuid w = (Ok a, w) -> GetAgentByID (a_AgentID a) w = (Ok a, w))
  /\ (forall uuid s, table_wf (services (w_db w)) ->
     GetServiceByUUID uuid w = (Ok s, w) -> GetServiceByID (s_ServiceID s) w = (Ok s, w))
  /\ (forall name t, table_wf (tenants (w_db w)) ->
     GetTenantByName name w = (Ok t, w) -> GetTenantByID (t_TenantID t) w = (Ok t, w)).
Proof.
  intros Hf. split_and!; intros ?? Hwf.
  - exact (found_by_id resources _ w w _ Hf Hf eq_refl Hwf).
  - exact (found_by_id providers _ w w _ Hf Hf eq_refl Hwf).
  - exact (found_by_id agents _ w w _ Hf Hf eq_refl Hwf).
  - exact (found_by_id services _ w w _ Hf Hf eq_refl Hwf).
  - exact (found_by_id tenants _ w w _ Hf Hf eq_refl Hwf).
Qed.

(** ** The providers of a kind *)

(** [ORDER BY key DESC]. *)
Lemma order_by_newest {R} (key : R -> Z) l :
  StronglySorted (fun a b => key b <= key a) (order_by (fun r => - key r) l).
Proof.
  pose proof (order_by_sorted (fun r => - key r) l) as H.
  induction H as [|a l' Hs IH Hall]; constructor; [done|].
  eapply Forall_impl; [exact Hall|]. cbn. lia.
Qed.

(** What the listing answers is exactly the tenant's active, undeleted providers
    of that kind, the newest first. *)
Theorem providers_by_kind w tenant kind : w_faults w = [] ->
  exists ps, ListProvidersByKind tenant kind w = (Ok ps, w)
    /\ StronglySorted (fun a b => v_CreatedAt b <= v_CreatedAt a) ps
    /\ (forall p, p ∈ ps <-> p ∈ tbl_rows (providers (w_db w)) /\ live p = true
          /\ v_TenantID p = tenant /\ v_ResourceKind p = kind /\ v_Status p = "active"%string).
Proof.
  intros Hf. unfold ListProvidersByKind, q_select, mbind, M_bind. rewrite query_run by done. cbn.
  eexists. split_and!; [done| |].
  - apply (order_by_newest v_CreatedAt).
  - intros p. rewrite order_by_perm. unfold select. rewrite list_elem_of_filter.
    unfold str_eqb. rewrite !andb_true_iff, Z.eqb_eq, !String.eqb_eq. naive_solver.
Qed.

(** ** An explicit assignment *)

(** After an assignment to [b], [b] may claim the resource exactly when the work
    feed offers it, and no other agent may; without an agent, every agent may.
    The lease of whoever held it stays, so the new agent waits for it. *)
Theorem assignment_moves_work now now0 r a b :
  claimable now a (AssignResourceAgent_row (Some b) now0 r) = in_feed now r && (a =? b)
  /\ claimable now a (AssignResourceAgent_row None now0 r) = in_feed now r
  /\ (lease_free now r = false -> claimable now b (AssignResourceAgent_row (Some b) now0 r) = false).
Proof.
  unfold claimable, AssignResourceAgent_row, opt_eqb, in_feed, lags, lease_free, backoff_over. cbn.
  split_and!.
  - f_equal. rewrite orb_false_r. destruct (Z.eqb_spec a b); case_bool_decide; naive_solver.
  - by rewrite andb_true_r.
  - intros ->. by rewrite andb_false_r.
Qed.

(** The statement itself: it answers the resource the UUID names with its new
    agent, and every other resource keeps its own. *)
Theorem assignment_is_local w uuid agent r w' :
  AssignResourceAgent uuid agent w = (Ok r, w') ->
  r_ResourceUuid r = uuid /\ r_AgentID r = agent
  /\ (forall q, q ∈ tbl_rows (resources (w_db w)) -> r_ResourceUuid q <> uuid ->
        q ∈ tbl_rows (resources (w_db w'))).
Proof.
  intros (rs & w1 & H1 & H2)%bind_run_Ok_inv. apply q_update_Ok_inv in H1 as (t & Hu & ->).
  destruct rs as [|q0 rs]; [done|]. injection H2 as -> <-.
  apply update_inv in Hu as (E & Hrows & _). cbn.
  assert (Hr : r ∈ r :: rs) by left. rewrite E in Hr.
  apply list_elem_of_fmap in Hr as (q & -> & [Hh _]%list_elem_of_filter).
  unfold hit in Hh. apply andb_true_iff in Hh as [_ Hh]. split_and!; [cbn; lia|done|].
  intros q' Hq Hne. rewrite Hrows. apply list_elem_of_fmap. exists q'. split; [|done].
  unfold hit. cbn. rewrite (proj2 (Z.eqb_neq _ _) Hne). by rewrite andb_false_r.
Qed.
