(* ===== verification/ApiBounds.v ===== *)
(** * Pages of a listing

    The paging parameters come from the query string as text; whatever they say,
    a listing is at most a hundred items long. *)

From S2P Require Import Prelude Json Storage World AppError Queries Http Decode Handlers Api Sample.
From S2P Require Import ApiAtomic.
From S2P Require Tenant Project Provider Registry Agent EventLog Resource Authz Hosts.

(** What every successful run of an operation returns. *)
Definition returns {E A} (P : A -> Prop) (m : M E A) : Prop :=
  forall w a w', m w = (Ok a, w') -> P a.

Lemma returns_bind {E A B} (P : A -> Prop) (Q : B -> Prop) (m : M E A) (k : A -> M E B) :
  returns P m -> (forall a, P a -> returns Q (k a)) -> returns Q (m ≫= k).
Proof. intros Hm Hk w b w' (a & w1 & Ha & Hb)%bind_run_Ok_inv. eapply Hk; eauto. Qed.
Lemma returns_any {E A B} (Q : B -> Prop) (m : M E A) (k : A -> M E B) :
  (forall a, returns Q (k a)) -> returns Q (m ≫= k).
Proof. intros Hk. by apply (returns_bind (fun _ => True)); [|auto]. Qed.
Lemma returns_ret {E A} (P : A -> Prop) a : P a -> returns P (mret a : M E A).
Proof. intros Ha w b w' [= <- <-]. done. Qed.
Lemma returns_map_err {E E' A} (P : A -> Prop) (f : E -> E') (m : M E A) :
  returns P m -> returns P (map_err f m).
Proof. intros H w a w' Ha%map_err_Ok_inv. by eapply H. Qed.

Definition page_sized {A} (l : list A) : Prop := (length l <= 100)%nat.

(** A read of at most [limit] rows. *)
Lemma limited_page {A} (rows : World -> list A) limit offset :
  limit <= 100 ->
  returns page_sized (query (fun w => (limit_offset limit offset (rows w), w))).
Proof.
  intros Hl w a w' [= Ha _]%query_Ok_inv. unfold limit_offset in Ha.
  destruct (_ || _); [done|]. injection Ha as <-. unfold page_sized.
  rewrite length_take. lia.
Qed.

Lemma normalized_limit page limit :
  int32 (snd (Resource.normalizePage page limit)) <= 100.
Proof.
  unfold Resource.normalizePage. cbn [snd].
  destruct ((limit <? 1) || (100 <? limit)) eqn:E; [by vm_compute|].
  apply orb_false_iff in E as [? ?]. rewrite int32_id; lia.
Qed.

Definition data_page (d : ApiData) : option nat :=
  match d with
  | DTenants items _ => Some (length items)
  | DProjects items _ => Some (length items)
  | DProviders items _ => Some (length items)
  | DServices items _ => Some (length items)
  | DAgents items _ => Some (length items)
  | DResources items _ => Some (length items)
  | DEvents items _ => Some (length items)
  | _ => None
  end.

Lemma ParseUint_range n s z : 0 <= n -> ParseUint_loop n s = Some z -> 0 <= z.
Proof.
  revert n. induction s as [|a s IH]; cbn [ParseUint_loop]; intros n Hn; [by intros [= <-]|].
  cbv zeta. destruct ((0 <=? _) && _) eqn:E; [|done]. apply andb_true_iff in E as [E _].
  destruct (_ <? _); [by intros [= <-]|]. apply IH. lia.
Qed.

Lemma Atoi_int_range s : - 2 ^ 63 <= Atoi_int s <= max_int64.
Proof.
  assert (H : forall u z, ParseUint u = Some z -> 0 <= z).
  { unfold ParseUint. intros u z. destruct (is_empty u); [done|]. by apply ParseUint_range. }
  assert (Hpos : forall u, - 2 ^ 63 <= default 0 ((fun n => Z.min n max_int64) <$> ParseUint u) <= max_int64).
  { intros u. specialize (H u). destruct (ParseUint u); cbn; [|by vm_compute].
    specialize (H _ eq_refl). unfold max_int64. lia. }
  assert (Hneg : forall u, - 2 ^ 63 <= default 0 ((fun n => - Z.min n (2 ^ 63)) <$> ParseUint u) <= max_int64).
  { intros u. specialize (H u). destruct (ParseUint u); cbn; [|by vm_compute].
    specialize (H _ eq_refl). unfold max_int64. lia. }
  unfold Atoi_int. repeat case_match; auto.
Qed.

(** ** The services *)

Section Services.
Context {T : GoText} {K : Resource.WorkloadKit} {C : Agent.Crypto}.

Abbreviation sized := (fun p : list _ * Z => page_sized (fst p)).

(** The tail of a listing: the page, the count, the answer. *)
Lemma sized_tail {R A} (rows : World -> list R) (count : M error Z) (f : R -> A) limit offset :
  limit <= 100 ->
  returns sized (
    rows ← or_return (query (fun w => (limit_offset limit offset (rows w), w)));
    total ← count;
    mret (map f rows, total)).
Proof.
  intros Hl. eapply returns_bind; [by apply returns_map_err, limited_page|].
  intros rs Hrs. apply returns_any. intros total. apply returns_ret. cbn.
  unfold page_sized. by rewrite length_map.
Qed.

Ltac listing :=
  lazymatch goal with |- returns _ ?m => let h := head_of m in unfold h end;
  lazymatch goal with |- returns _ (mbind _ _) => apply returns_any; intros ? | _ => idtac end;
  match goal with |- context [Resource.normalizePage ?p ?l] =>
    pose proof (normalized_limit p l); destruct (Resource.normalizePage p l) end;
  by apply sized_tail.

Lemma tenants_sized p l : returns sized (Tenant.List p l). Proof. listing. Qed.
Lemma projects_sized t p l : returns sized (Project.List t p l). Proof. listing. Qed.
Lemma providers_sized t p l : returns sized (Provider.List t p l). Proof. listing. Qed.
Lemma services_sized t p l : returns sized (Registry.ListByTenant t p l). Proof. listing. Qed.
Lemma agents_sized t p l : returns sized (Agent.List t p l). Proof. listing. Qed.
Lemma resources_sized t p l : returns sized (Resource.ListByProject t p l). Proof. listing. Qed.
Lemma events_sized p l : returns sized (EventLog.List p l). Proof. listing. Qed.
End Services.

(** ** The routes *)

Definition h_sized (h : Handler) : Prop :=
  forall w d n, rp_data (fst (h w)) = Some d -> data_page d = Some n -> (n <= 100)%nat.

Section Routes.
Context {T : GoText} {F : GoFloat} {K : Resource.WorkloadKit} {C : Agent.Crypto}.

Lemma h_sized_respond rep : rp_data rep = None -> h_sized (respond rep).
Proof. intros H w d n. cbn. by rewrite H. Qed.
Lemma h_sized_call {A} (P : A -> Prop) msg (m : M error A) ok :
  returns P m ->
  (forall a d n, P a -> rp_data (ok a) = Some d -> data_page d = Some n -> (n <= 100)%nat) ->
  h_sized (call msg m ok).
Proof.
  intros Hm Hok w d n. unfold call. destruct (m w) as [[a|e] w'] eqn:E; [|done].
  apply Hok. by eapply Hm.
Qed.
(** An operation whose answer is not a listing. *)
Lemma h_sized_entity {A} msg (m : M error A) ok :
  (forall a d, rp_data (ok a) = Some d -> data_page d = None) -> h_sized (call msg m ok).
Proof.
  intros Hok. apply (h_sized_call (fun _ => True)); [done|].
  intros a d n _ Hd Hn. rewrite (Hok a d Hd) in Hn. done.
Qed.
Lemma h_sized_uuid r k : (forall id, h_sized (k id)) -> h_sized (with_uuid r k).
Proof. intros H. unfold with_uuid. case_match; [done|by apply h_sized_respond]. Qed.
Lemma h_sized_body {S} fields (zero : S) r k :
  (forall req, h_sized (k req)) -> h_sized (with_body fields zero r k).
Proof. intros H. unfold with_body. case_match; [done|by apply h_sized_respond]. Qed.
Lemma h_sized_scope name no r k :
  rp_data no = None -> (forall id, h_sized (k id)) -> h_sized (with_scope name no r k).
Proof. intros Hn H. unfold with_scope. case_match; [done|by apply h_sized_respond]. Qed.

Create HintDb sized.
#[local] Hint Resolve tenants_sized projects_sized providers_sized services_sized agents_sized
  resources_sized events_sized : sized.

Lemma routes_sized random :
  Forall (fun m => Forall (fun rt => forall q, h_sized (rt_Handler rt q)) (snd m)) (mounts random).
Proof.
  each_route; intros q; cbn [rt_Handler].
  all: match goal with |- h_sized ?h => let h' := head_of h in unfold h' end.
  all: repeat first
    [ apply h_sized_uuid; intros ? | apply h_sized_body; intros ?
    | apply h_sized_scope; [done|intros ?] ].
  all: first
    [ solve [apply h_sized_entity; intros ? ? [= <-]; done]
    | solve [apply h_sized_entity; intros ? ? [=]; done]
    | eapply h_sized_call; [eauto with sized|]; intros [items total] d n Hp [= <-] [= <-]; exact Hp ].
Qed.

(** C34: whatever paging parameters a request carries (none, text that is not a
    number, negative ones, ones beyond 64 bits), an answer of the API lists at
    most a hundred items, and the handlers read a 64-bit integer from them. *)
Theorem api_pages_bounded random g s rts rt r q w :
  (s, rts) ∈ mounts random -> rt ∈ rts ->
  (forall d n, rp_data (fst (serve g rt r q w)) = Some d -> data_page d = Some n -> (n <= 100)%nat)
  /\ - 2 ^ 63 <= page_of q <= max_int64 /\ - 2 ^ 63 <= limit_of q <= max_int64.
Proof.
  intros Hm Hrt. split; [|split; apply Atoi_int_range].
  pose proof (proj1 (Forall_forall _ _) (routes_sized random) _ Hm) as Ha.
  cbn [snd] in Ha. rewrite Forall_forall in Ha. specialize (Ha rt Hrt q w).
  unfold serve, Authz.Middleware. repeat case_match; done.
Qed.
End Routes.

(** A world with more tenants than a page holds. *)
Definition crowd : World :=
  sample_world <| w_db := sample_db <| tenants := mkTable (map (fun n =>
    Build_TenantRow (Z.of_nat n) (1000 + Z.of_nat n) None (pretty n) "" "active" false (VObj [])
      None None 0 0 None) (seq 1 150)) 151 |> |>.
Definition list_request (page limit : string) : ApiRequest :=
  {| aq_uuid := ""; aq_query := [("page", page); ("limit", limit); ("limit", "5")]%string;
     aq_body := None |}.
Definition any_request : Authz.Request :=
  {| Authz.rq_Method := "GET"; Authz.rq_Path := "/api/v1/tenants"; Authz.rq_Authorization := "" |}.

Section Samples.
#[local] Existing Instance decimal_text.
#[local] Existing Instance literal_float.
#[local] Existing Instance open_kit.
#[local] Existing Instance Hosts.sample_crypto.

Definition get_tenants : Route :=
  {| rt_Method := "GET"; rt_Pattern := "/"; rt_Handler := tenant_list |}.
Definition listed (page limit : string) : reply ApiData :=
  fst (serve (Authz.resolveHTTPGuard [] None true) get_tenants any_request (list_request page limit) crowd).

Lemma api_pages_bounded_witness :
  (data_page <$> rp_data (listed "1" "99999999999999999999x")) = Some (Some 20%nat)
  /\ (data_page <$> rp_data (listed "+1" "100")) = Some (Some 100%nat)
  /\ page_of (list_request "99999999999999999999" "") = max_int64
  /\ (forall d n, rp_data (listed "1" "100") = Some d -> data_page d = Some n -> (n <= 100)%nat).
Proof.
  split; [vm_compute; reflexivity|]. split; [vm_compute; reflexivity|].
  split; [vm_compute; reflexivity|].
  apply (api_pages_bounded None (Authz.resolveHTTPGuard [] None true) "tenants" tenant_Routes get_tenants
    any_request (list_request "1" "100") crowd); left.
Defined.
End Samples.
