(* ===== verification/EndToEnd.v ===== *)
(** * From declaration to convergence

    One resource through the whole program: an operator POSTs it to the HTTP
    API, an agent pulls it from the gRPC gateway and reports it running, and a
    GET of the operator shows the desired revision converged. *)

From S2P Require Import Prelude Json Storage World AppError Queries Evolution Http Decode Handlers Api.
From S2P Require Import ApiAtomic ApiRoundtrip Sample WorkFeed Fairness Reports Gateway.
From S2P Require Agent Resource Hosts.

(** ** The new row *)

(** What a created row looks like: nobody's, at its first revision, and nothing
    observed. *)
Record fresh_row (now : Z) (p : CreateResourceParams) (r : ResourceRow) : Prop := {
  fr_live : r_DeletedAt r = None; fr_owner : r_AgentID r = None; fr_state : r_State r = "pending";
  fr_generation : r_Generation r = 1; fr_observed : r_ObservedGeneration r = 0;
  fr_lease : r_LeasedUntil r = None; fr_next : r_NextAttemptAt r = None;
  fr_updated : r_UpdatedAt r = now; fr_spec : r_Spec r = crp_Spec p;
  fr_project : r_ProjectID r = crp_ProjectID p; fr_health : r_Health r = ""%string }.

Lemma fresh_claimable now p r t a : fresh_row now p r -> claimable t a r = true.
Proof.
  intros []. unfold claimable, in_feed, lags, lease_free, backoff_over, opt_eqb.
  rewrite fr_owner0, fr_state0, fr_generation0, fr_observed0, fr_lease0, fr_next0. done.
Qed.

Lemma created_row p w r w' :
  w_faults w = [] -> table_wf (resources (w_db w)) -> crp_AgentID p = None ->
  CreateResource p w = (Ok r, w') ->
  fresh_row (w_dbnow w) p r /\ table_wf (resources (w_db w')) /\ r ∈ tbl_rows (resources (w_db w'))
  /\ (rank r (resources (w_db w')) <= length (select (fun _ => true) (resources (w_db w))))%nat
  /\ projects (w_db w') = projects (w_db w) /\ w_dbnow w' = w_dbnow w.
Proof.
  intros Hf Hwf Ha E. apply q_insert_Ok_inv in E as (t & Hi & ->).
  assert (Hwt : table_wf t) by (eapply insert_wf; [|exact Hi|exact Hwf]; done).
  apply insert_inv in Hi as (Hr & Hrows & _). split_and!; [by rewrite Hr| |..]; cbn; try done.
  - rewrite Hrows. apply elem_of_app. right. by left.
  - unfold rank. rewrite Hrows, filter_app, length_app.
    rewrite (filter_cons_False (fun q => ahead r q = true) r), filter_nil.
    + unfold select. cbn [length]. rewrite Nat.add_0_r. clear.
      induction (tbl_rows (resources (w_db w))) as [|q l IH]; [done|]. rewrite !filter_cons.
      case_decide as H1; case_decide as H2; cbn [length]; try lia.
      destruct H2. unfold ahead in H1. split_bools. by rewrite andb_true_r.
    + unfold ahead. rewrite Z.eqb_refl. by rewrite andb_false_r.
Qed.

(** ** The gateway around the claim *)

(** The tables a claim does not touch. *)
Definition others_kept (d d' : Db) : Prop :=
  tenants d' = tenants d /\ projects d' = projects d /\ agents d' = agents d.
#[global] Instance others_kept_preorder : PreOrder others_kept.
Proof.
  split; unfold others_kept; [done|]. intros d1 d2 d3 (A & B & C) (A' & B' & C').
  split_and!; congruence.
Qed.

Lemma claim_others agent limit ttl : advances others_kept (Resource.ClaimForAgent agent limit ttl).
Proof. advance. apply advances_update; [apply _|]. done. Qed.

Section Agents.
Context {T : GoText} {C : Agent.Crypto} (opts : Options) (ctx : RpcContext).

(** Without faults a lookup only depends on the table it reads. *)
Lemma get_stable {R} `{!TableRow R} (tbl : Db -> Table R) {E} (h : dberr -> E) p w w' :
  w_faults w = [] -> w_faults w' = [] -> tbl (w_db w') = tbl (w_db w) ->
  fst (map_err h (q_get tbl p) w') = fst (map_err h (q_get tbl p) w)
  /\ snd (map_err h (q_get tbl p) w') = w' /\ snd (map_err h (q_get tbl p) w) = w.
Proof.
  intros Hf Hf' Ht. unfold map_err. rewrite (q_get_run w Hf), (q_get_run w' Hf'), Ht. done.
Qed.

Lemma answer_stable row w w' :
  w_faults w = [] -> w_faults w' = [] -> tenants (w_db w') = tenants (w_db w) ->
  fst (Agent.answer row w') = fst (Agent.answer row w) /\ snd (Agent.answer row w') = w'.
Proof.
  intros Hf Hf' Ht. unfold Agent.answer, Agent.resolveTenantUUID, or_return, GetTenantByID, mbind, M_bind.
  destruct (get_stable tenants DbError (fun t => t_TenantID t =? a_TenantID row) w w') as (E1 & E2 & E3); [done..|].
  destruct (map_err _ _ w') as [r' w1'], (map_err _ _ w) as [r w1]. cbn in *. subst. by destruct r.
Qed.

Lemma requireAgent_stable agentUUID a w w' :
  w_faults w = [] -> w_faults w' = [] -> others_kept (w_db w) (w_db w') ->
  requireAgent opts ctx agentUUID w = (Ok a, w) -> requireAgent opts ctx agentUUID w' = (Ok a, w').
Proof.
  intros Hf Hf' (Ht & _ & Ha). unfold requireAgent, parse_uuid. destruct (uuid_Parse agentUUID) as [id|]; [|done].
  rewrite !bind_ret_M.
  assert (Hans : forall row, Agent.answer row w = (Ok a, w) -> Agent.answer row w' = (Ok a, w')).
  { intros row E. destruct (answer_stable row w w') as [E1 E2]; [done..|].
    rewrite E in E1. destruct (Agent.answer row w'). cbn in *. by subst. }
  destruct (get_stable agents (fun e => match e with ErrNoRows => NewNotFound "agent" | _ => DbError e end)
    (fun r => a_AgentUuid r =? id) w w') as (E1 & E2 & E3); [done..|].
  assert (Hget : forall (k : AgentRow -> M error Agent.Agent),
    (forall row, k row w = (Ok a, w) -> k row w' = (Ok a, w')) ->
    map_err toStatus (or_not_found "agent" (GetAgentByUUID id) ≫= k) w = (Ok a, w) ->
    map_err toStatus (or_not_found "agent" (GetAgentByUUID id) ≫= k) w' = (Ok a, w')).
  { intros k Hk. unfold or_not_found, GetAgentByUUID, map_err at 1 3, mbind, M_bind.
    destruct (map_err _ _ w') as [r' w1'], (map_err _ _ w) as [r w1]. cbn in *. subst.
    destruct r as [row|e]; [|done]. destruct (k row w) as [[b|e] w2] eqn:Ek; [|done].
    cbn. intros [= <- ->]. by rewrite (Hk row Ek). }
  destruct (negb (g_EnforceBinding opts)).
  - by apply Hget.
  - unfold callerSubject. destruct (negb _); [|destruct (rc_claims ctx) as [cl|]; [destruct (is_empty _)|]];
      try done; rewrite !bind_ret_M; apply Hget; intros row; repeat case_match; try done; apply Hans.
Qed.

(** What an item's document carries can be written when the resource's spec
    was. *)
Lemma envelope_written it : marshalable (VObj (Resource.wi_Spec it)) = true ->
  is_Some (buildEnvelope it).
Proof.
  intros Hm. unfold buildEnvelope. cbv zeta.
  match goal with |- context [("workload"%string, ?x)] => assert (Hw : marshalable x = true); [|revert Hw; generalize x] end.
  - destruct (obj_get _ _) as [v|] eqn:E; [|done].
    assert (Hv : marshalable v = true).
    { clear -Hm E. induction (Resource.wi_Spec it) as [|[k u] l IH]; [done|]. cbn in *. split_bools.
      case_match; simplify_eq; auto. }
    destruct v as [| | | | |[|]|]; done.
  - intros x Hx. match goal with |- context [marshalable ?e] => assert (E : marshalable e = true) end.
    { cbn [marshalable app forallb snd]. rewrite Hx. by repeat case_match. }
    rewrite E. eauto.
Qed.
End Agents.

(** ** The steps of the agent *)

Section Steps.
Context {T : GoText} {K : Resource.WorkloadKit} {C : Agent.Crypto} {J : JsonText}.
Context (opts : Options) (ctx : RpcContext) (agentUUID : string) (a : Agent.Agent).

(** The row of a resource that was handed out to the agent. *)
Definition leased (now : Z) (r : ResourceRow) : ResourceRow :=
  claim_stamp now (Agent.ag_ID a) (claim_ttl (g_LeaseTTL opts)) r.

Lemma pull_delivers max now p i r w :
  w_faults w = [] -> table_wf (resources (w_db w)) -> r ∈ tbl_rows (resources (w_db w)) ->
  fresh_row now p r -> now < w_dbnow w -> marshalMap i = Ok (crp_Spec p) ->
  (rank r (resources (w_db w)) < Z.to_nat (Resource.normalizeFeedLimit max))%nat ->
  requireAgent opts ctx agentUUID w = (Ok a, w) ->
  exists items w2 it, PullWork opts agentUUID max ctx w = (Ok items, w2)
    /\ it ∈ items /\ wx_ResourceUuid it = uuid_String (r_ResourceUuid r) /\ wx_Generation it = 1
    /\ table_wf (resources (w_db w2)) /\ leased (w_dbnow w) r ∈ tbl_rows (resources (w_db w2))
    /\ others_kept (w_db w) (w_db w2).
Proof.
  intros Hf Hwf Hr Hfr Hnow Hspec Hrank Hag.
  destruct (served_in_page (Agent.ag_ID a) max (g_LeaseTTL opts) r w Hf Hwf Hr) as (its & w2 & Hc & Hin);
    [unfold live; cbn; by rewrite (fr_live _ _ _ Hfr)|by eapply fresh_claimable
    |rewrite (fr_updated _ _ _ Hfr); lia|done|].
  destruct (claimed_item _ _ _ r w its w2 Hwf Hr Hc Hin) as (Hin0 & Hq2 & Hwf2).
  fold (leased (w_dbnow w) r) in Hin0, Hq2.
  pose proof (claim_others (Agent.ag_ID a) max (g_LeaseTTL opts) w) as Hoth. rewrite Hc in Hoth. cbn in Hoth.
  remember (Resource.toWorkItem (leased (w_dbnow w) r)) as it0 eqn:E0.
  assert (Henv : is_Some (buildEnvelope it0)).
  { apply envelope_written. rewrite E0. cbn [Resource.wi_Spec Resource.toWorkItem leased claim_stamp].
    change (r_Spec (leased (w_dbnow w) r)) with (r_Spec r). rewrite (fr_spec _ _ _ Hfr).
    rewrite (marshalMap_roundtrip _ _ Hspec). unfold marshalMap in Hspec.
    destruct i as [[|kv m]|]; [done| |done]. change (default [] (Some (kv :: m))) with (kv :: m).
    by destruct (marshalable (VObj (kv :: m))). }
  destruct Henv as [env Henv].
  assert (Hw : wire_item it0 = Some (Build_WireItem (uuid_String (r_ResourceUuid r)) (Resource.wi_Kind it0)
    (Resource.wi_Name it0) env 1)).
  { unfold wire_item. rewrite Henv. cbn. rewrite E0. cbn. by rewrite (fr_generation _ _ _ Hfr). }
  eexists _, w2, _. split.
  { unfold PullWork. rewrite (bind_run _ _ _ _ _ Hag). unfold mbind, M_bind, map_err. by rewrite Hc. }
  split; [apply list_elem_of_omap; exists it0; split; [done|exact Hw]|done].
Qed.

(** The report that says the first revision runs. *)
Definition running_report (rp : WireReport) : Prop :=
  wr_State rp = "running" /\ wr_StatusJson rp = ""%string /\ wr_ObservedGeneration rp = 1.

Lemma report_accepted now t0 p r w rp proj q w0 :
  w_faults w = [] -> table_wf (resources (w_db w)) -> fresh_row t0 p r ->
  leased now r ∈ tbl_rows (resources (w_db w)) ->
  requireAgent opts ctx agentUUID w = (Ok a, w) ->
  w_faults w0 = [] -> table_wf (projects (w_db w0)) -> projects (w_db w) = projects (w_db w0) ->
  q_get projects q w0 = (Ok proj, w0) -> r_ProjectID r = p_ProjectID proj ->
  uuid_Parse (wr_ResourceUuid rp) = Some (r_ResourceUuid r) -> running_report rp ->
  exists w3 r3, ReportStatus opts agentUUID [rp] ctx w = (Ok 1, w3)
    /\ Resource.Get (r_ResourceUuid r) w3 = (Ok (Resource.toResource r3 (p_ProjectUuid proj)), w3)
    /\ r_ResourceUuid r3 = r_ResourceUuid r /\ r_State r3 = "running"
    /\ r_Spec r3 = r_Spec r /\ r_Generation r3 = 1 /\ r_ObservedGeneration r3 = 1.
Proof.
  intros Hf Hwf Hfr Hr Hag Hf0 Hwp Hproj Hq Hpid Huu (Hs & Hj & Ho).
  pose (in_ := Resource.Build_AgentReportInput (wr_State rp) (report_status (wr_StatusJson rp))
    (wr_ObservedGeneration rp)).
  assert (Hin : in_ = Resource.Build_AgentReportInput "running" None 1)
    by (unfold in_; by rewrite Hs, Hj, Ho).
  set (r1 := leased now r) in *.
  assert (Hsel : select_one (fun p => p_ProjectID p =? r_ProjectID r1) (projects (w_db w)) = Ok proj).
  { pose proof (project_by_id q w0 w0 proj Hf0 Hf0 eq_refl Hwp Hq) as Hg.
    unfold GetProjectByID in Hg. rewrite (q_get_run w0 Hf0) in Hg. injection Hg as Hg.
    rewrite Hproj. change (r_ProjectID r1) with (r_ProjectID r). by rewrite Hpid. }
  set (r3 := reported (w_gonow w) (w_dbnow w) (effective_budget (g_AttemptBudget opts)) (r_Status r1) in_ r1).
  assert (Hfacts : r_ResourceUuid r3 = r_ResourceUuid r /\ r_State r3 = "running" /\ r_Spec r3 = r_Spec r
    /\ r_Generation r3 = 1 /\ r_ObservedGeneration r3 = 1 /\ r_DeletedAt r3 = None
    /\ r_ProjectID r3 = r_ProjectID r).
  { unfold r3. rewrite Hin. unfold reported, Resource.reportParams. cbn.
    rewrite (fr_generation _ _ _ Hfr), (fr_observed _ _ _ Hfr). by destruct Hfr. }
  assert (Hok : row_ok r3 = true).
  { pose proof (wf_columns _ Hwf r1 Hr) as H. unfold r3. rewrite Hin. unfold reported, Resource.reportParams.
    cbn -[varchar text bigint] in H |- *. rewrite (fr_observed _ _ _ Hfr) in *. split_bools.
    repeat match goal with E : ?x = true |- context [?x] => rewrite E end. done. }
  destruct (report_effect w r1 (Agent.ag_ID a) in_ (g_AttemptBudget opts) (r_Status r1))
    as (res & w3 & Hrep & _ & _ & Hr3 & _ & Hf3 & Hp3); try done.
  { by destruct Hfr. }
  { by rewrite Hsel. }
  { by rewrite Hin. }
  fold r3 in Hr3. exists w3, r3. destruct Hfacts as (F1 & F2 & F3 & F4 & F5 & F6 & F7).
  assert (Hwf3 : table_wf (resources (w_db w3))).
  { pose proof (run_advances evolves (OpReport (Agent.ag_ID a) (r_ResourceUuid r1) in_ (g_AttemptBudget opts))
      (evolves_all _) w Hwf) as [H _]. cbn [run] in H. by rewrite (bind_run _ _ _ _ _ Hrep) in H. }
  split_and!; try done.
  - unfold ReportStatus. rewrite (bind_run _ _ _ _ _ Hag). cbn [report_loop].
    unfold report_one. rewrite Huu. unfold mbind, M_bind, try.
    change (r_ResourceUuid r) with (r_ResourceUuid r1). fold in_. by rewrite Hrep.
  - unfold Resource.Get. rewrite <- F1.
    rewrite (bind_run _ _ _ _ _ (get_resource_run w3 Hf3 Hwf3 r3 Hr3 F6 "resource")).
    unfold Resource.resolveProjectUUID, or_return, GetProjectByID, mbind, M_bind, map_err.
    rewrite (q_get_run w3 Hf3), Hp3, F7. change (r_ProjectID r) with (r_ProjectID r1). by rewrite Hsel.
Qed.
End Steps.


Section Sample.
#[local] Existing Instance decimal_text.
#[local] Existing Instance literal_float.
#[local] Existing Instance open_kit.
#[local] Existing Instance Hosts.sample_crypto.
Definition echo_json : JsonText := {| json_Unmarshal _ := None |}.
#[local] Existing Instance echo_json.

Definition new_resource : ApiRequest :=
  {| aq_uuid := ""; aq_query := [];
     aq_body := Some (JObj [("project_uuid", JStr "201"); ("kind", JStr "container");
                            ("name", JStr "cache"); ("spec", JObj [("image", JStr "redis")])])%string |}.
Definition open_options : Options := gateway_options (Build_Options false 0 0 "" "" 0).
Definition anonymous : RpcContext := Build_RpcContext None NoPeer None.
Definition posted_world : World :=
  (snd (resource_create new_resource sample_world)) <| w_dbnow := 1001 |>.
Definition host_a_view : Agent.Agent := Agent.toAgent host_a 101.

End Sample.
