(* ===== verification/Redaction.v ===== *)
(** * What reaches the log

    [internal/platform/logging]: the handler every record passes before a sink
    sees it.  It replaces the values of known personal or credential attributes
    and removes the characters that could forge a log line.  The sinks are
    [log/slog] handlers and see the calls [forward] hands them. *)

From S2P Require Import Prelude Json Storage.

(** ** Runes

    The runes of a text, each with its UTF-8 bytes; a byte that starts no valid
    encoding reads as U+FFFD, as [range] over a string reads it. *)

Definition rune_error : Z * list nat := (65533, [239%nat; 191%nat; 189%nat]).

Definition cont (b : nat) : bool := between 128 191 b.
Definition is2 (b0 b1 : nat) : bool := between 194 223 b0 && cont b1.
Definition is3 (b0 b1 b2 : nat) : bool :=
  ((between 224 224 b0 && between 160 191 b1)
   || (between 237 237 b0 && between 128 159 b1)
   || ((between 225 236 b0 || between 238 239 b0) && cont b1)) && cont b2.
Definition is4 (b0 b1 b2 b3 : nat) : bool :=
  ((between 240 240 b0 && between 144 191 b1)
   || (between 244 244 b0 && between 128 143 b1)
   || (between 241 243 b0 && cont b1)) && cont b2 && cont b3.

(** The code point: [lead] less the marker of its length, then six bits a byte. *)
Definition code (lead : Z) (tail : list nat) : Z :=
  fold_left (fun c b => c * 64 + (Z.of_nat b - 128)) tail lead.

Fixpoint runes (l : list nat) : list (Z * list nat) :=
  match l with
  | [] => []
  | b0 :: l1 =>
      if Nat.ltb b0 128 then (Z.of_nat b0, [b0]) :: runes l1 else
      match l1 with
      | [] => [rune_error]
      | b1 :: l2 =>
          if is2 b0 b1 then (code (Z.of_nat b0 - 192) [b1], [b0; b1]) :: runes l2 else
          match l2 with
          | [] => rune_error :: runes l1
          | b2 :: l3 =>
              if is3 b0 b1 b2 then (code (Z.of_nat b0 - 224) [b1; b2], [b0; b1; b2]) :: runes l3 else
              match l3 with
              | [] => rune_error :: runes l1
              | b3 :: l4 =>
                  if is4 b0 b1 b2 b3 then (code (Z.of_nat b0 - 240) [b1; b2; b3], [b0; b1; b2; b3]) :: runes l4
                  else rune_error :: runes l1
              end
          end
      end
  end.

Definition utf8 (l : list (Z * list nat)) : list nat := concat (map snd l).

(** ** Control characters *)

Definition isUnsafeLogRune (r : Z) : bool :=
  if r =? 9 then false else (r <? 32) || ((127 <=? r) && (r <=? 159)).

(** [strings.Map] re-encodes what it keeps, once there is something to drop. *)
Definition neutralize (l : list nat) : list nat :=
  if existsb (fun r => isUnsafeLogRune (fst r)) (runes l)
  then utf8 (filter (fun r => isUnsafeLogRune (fst r) = false) (runes l))
  else l.
Definition neutralizeLogString (s : string) : string := byte_string (neutralize (bytes s)).

(** ** Attributes *)

(** A [slog.Value]: a string, a group, or any other kind, which the handler
    passes on as it is. *)
Inductive attr_value :=
  | AString (s : string)
  | AGroup (attrs : list (string * attr_value))
  | AOther (kind text : string).
Abbreviation attr := (string * attr_value)%type.

Definition piiFields : list string :=
  ["email"; "email_address"; "password"; "password_hash"; "hashed_password"; "phone";
   "phone_number"; "mobile"; "token"; "access_token"; "id_token"; "refresh_token"; "api_key";
   "api_secret"; "secret"; "client_secret"; "authorization"; "cookie"; "ssn"; "credit_card";
   "card_number"; "cvv"]%string.
Definition redacted : string := "[REDACTED]".

(** An empty group is dropped by [slog.GroupValue] and [Record.AddAttrs]. *)
Definition nonempty (a : attr) : bool := match snd a with AGroup [] => false | _ => true end.
Definition drop_empty (l : list attr) : list attr := filter (fun a => nonempty a = true) l.

Section Redact.
Context {T : GoText}.

Definition isPIIKey (key : string) : bool := existsb (str_eqb (ToLower key)) piiFields.

(** The value [redactAttr] gives the attribute [key]. *)
Fixpoint redact_value (key : string) (v : attr_value) : attr_value :=
  if isPIIKey key then AString redacted else
  match v with
  | AGroup sub => AGroup (drop_empty (map (fun a => (fst a, redact_value (fst a) (snd a))) sub))
  | AString s => AString (neutralizeLogString s)
  | AOther kind text => AOther kind text
  end.
Definition redactAttr (a : attr) : attr := (fst a, redact_value (fst a) (snd a)).

(** *** The handler *)

(** What a logger does to the handler it holds, and what the handler does to the
    sink behind it. *)
Inductive log_op :=
  | OpAttrs (attrs : list attr)
  | OpGroup (name : string)
  | OpRecord (level : Z) (message : string) (attrs : list attr).

Definition forward (op : log_op) : log_op :=
  match op with
  | OpAttrs attrs => OpAttrs (map redactAttr attrs)
  | OpGroup name => OpGroup name
  | OpRecord level message attrs =>
      OpRecord level (neutralizeLogString message) (drop_empty (map redactAttr attrs))
  end.

(** *** JSON documents *)

(** [redactMap], and what it does to the values below it: of an array, only the
    elements that are objects. *)
Fixpoint redact_member (key : string) (v : value) : value :=
  if isPIIKey key then VStr redacted else
  match v with
  | VObj m => VObj (map (fun kv => (fst kv, redact_member (fst kv) (snd kv))) m)
  | VArr l => VArr (map (fun e => match e with
      | VObj m => VObj (map (fun kv => (fst kv, redact_member (fst kv) (snd kv))) m)
      | e => e end) l)
  | v => v
  end.
Definition redactMap (m : object) : object :=
  map (fun kv => (fst kv, redact_member (fst kv) (snd kv))) m.

(** [RedactJSON] of a document that parses: anything but an object is returned
    as it is. *)
Definition RedactJSON (doc : value) : value :=
  match doc with VObj m => VObj (redactMap m) | doc => doc end.
End Redact.

(** ** Sinks *)

(** [FanoutHandler]: every sink gets every record, the first error is returned;
    a sink answers a record with an error or nothing. *)
Definition fanout_Handle (sinks : list (log_op -> option string)) (r : log_op)
    : option string * list log_op :=
  fold_left (fun '(firstErr, seen) sink =>
    (match firstErr with Some e => Some e | None => sink r end, seen ++ [r])) sinks (None, []).
Definition fanout_Enabled (minLevel : option Z) (level : Z) : bool := default 0 minLevel <=? level.

Section Level.
Context {T : GoText}.
(** [slog.LevelDebug], [LevelInfo], [LevelWarn], [LevelError]. *)
Definition parseSlogLevel (level : string) : Z :=
  let l := ToLower (TrimSpace level) in
  if str_eqb l "debug" then -4
  else if str_eqb l "warn" || str_eqb l "warning" then 4
  else if str_eqb l "error" then 8
  else 0.
End Level.

(** ** Neutralised text *)

(** A rune with the bytes that encode it. *)
Definition encoded (r : Z * list nat) : Prop :=
  match snd r with
  | [b0] => Nat.ltb b0 128 = true /\ fst r = Z.of_nat b0
  | [b0; b1] => is2 b0 b1 = true /\ fst r = code (Z.of_nat b0 - 192) [b1]
  | [b0; b1; b2] => is3 b0 b1 b2 = true /\ fst r = code (Z.of_nat b0 - 224) [b1; b2]
  | [b0; b1; b2; b3] => is4 b0 b1 b2 b3 = true /\ fst r = code (Z.of_nat b0 - 240) [b1; b2; b3]
  | _ => False
  end.

Lemma encoded_error : encoded rune_error.
Proof. split; vm_compute; reflexivity. Qed.

Lemma runes_encoded l : Forall encoded (runes l).
Proof.
  induction l as [l IH] using (induction_ltof1 _ (@length nat)). unfold ltof in IH.
  destruct l as [|b0 l1]; cbn [runes]; [constructor|].
  destruct (Nat.ltb b0 128) eqn:E1; [constructor; [done|apply IH; cbn; lia]|].
  destruct l1 as [|b1 l2]; [constructor; [exact encoded_error|constructor]|].
  destruct (is2 b0 b1) eqn:E2; [constructor; [done|apply IH; cbn; lia]|].
  destruct l2 as [|b2 l3]; [constructor; [exact encoded_error|apply IH; cbn; lia]|].
  destruct (is3 b0 b1 b2) eqn:E3; [constructor; [done|apply IH; cbn; lia]|].
  destruct l3 as [|b3 l4]; [constructor; [exact encoded_error|apply IH; cbn; lia]|].
  destruct (is4 b0 b1 b2 b3) eqn:E4; (constructor; [done || exact encoded_error|apply IH; cbn; lia]).
Qed.

Ltac lead_byte :=
  unfold is4, is3, is2, cont, between in *; apply not_true_is_false;
  repeat first [rewrite andb_true_iff in * | rewrite orb_true_iff in * ];
  rewrite ?Nat.ltb_lt, ?Nat.leb_le in *; lia.

(** Decoding reads back an encoded rune, whatever follows it. *)
Lemma runes_cons r rest : encoded r -> runes (snd r ++ rest) = r :: runes rest.
Proof.
  destruct r as [c bs]. unfold encoded. cbn [fst snd].
  destruct bs as [|b0 [|b1 [|b2 [|b3 [|? ?]]]]]; [done|..|done]; intros [E ->]; cbn [app runes].
  - by rewrite E.
  - replace (Nat.ltb b0 128) with false by (symmetry; lead_byte). by rewrite E.
  - replace (Nat.ltb b0 128) with false by (symmetry; lead_byte).
    replace (is2 b0 b1) with false by (symmetry; lead_byte). by rewrite E.
  - replace (Nat.ltb b0 128) with false by (symmetry; lead_byte).
    replace (is2 b0 b1) with false by (symmetry; lead_byte).
    replace (is3 b0 b1 b2) with false by (symmetry; lead_byte). by rewrite E.
Qed.

Lemma runes_utf8 l : Forall encoded l -> runes (utf8 l) = l.
Proof.
  induction 1 as [|r l Hr _ IH]; [done|]. unfold utf8 in *. cbn. by rewrite runes_cons, IH.
Qed.

Definition safe_text (l : list nat) : Prop :=
  Forall (fun r => isUnsafeLogRune (fst r) = false) (runes l).

Lemma kept_encoded l : Forall encoded (filter (fun r => isUnsafeLogRune (fst r) = false) (runes l)).
Proof.
  pose proof (runes_encoded l) as H. rewrite Forall_forall in H. apply Forall_forall.
  intros r [_ Hr]%list_elem_of_filter. auto.
Qed.

Lemma neutralize_safe l : safe_text (neutralize l).
Proof.
  unfold safe_text, neutralize. destruct (existsb _ _) eqn:E.
  - rewrite runes_utf8 by apply kept_encoded. apply Forall_forall. intros r [Hr _]%list_elem_of_filter. done.
  - apply Forall_forall. intros r Hr. apply not_true_is_false. intros Hu.
    apply not_true_iff_false in E. apply E, existsb_exists. exists r. by rewrite <- list_elem_of_In.
Qed.

(** The text of a byte list, and back. *)
Lemma bytes_byte_string l : Forall (fun b => b < 256)%nat l -> bytes (byte_string l) = l.
Proof.
  intros H. unfold bytes, byte_string. rewrite list_ascii_of_string_of_list_ascii, map_map.
  induction H as [|b l Hb _ IH]; cbn; [done|]. by rewrite nat_ascii_embedding, IH.
Qed.
Lemma bytes_bounded s : Forall (fun b => b < 256)%nat (bytes s).
Proof.
  unfold bytes. apply Forall_forall. intros b (a & -> & _)%list_elem_of_fmap. apply nat_ascii_bounded.
Qed.
Lemma encoded_bounded l : Forall encoded l -> Forall (fun b => b < 256)%nat (utf8 l).
Proof.
  induction 1 as [|[c bs] l Hr _ IH]; [constructor|]. unfold utf8. cbn. apply Forall_app. split; [|exact IH].
  unfold encoded in Hr. cbn [fst snd] in Hr.
  destruct bs as [|b0 [|b1 [|b2 [|b3 [|? ?]]]]]; try done; destruct Hr as [E _];
    repeat first [apply Forall_nil_2 | apply Forall_cons_2].
  all: unfold is4, is3, is2, cont, between in *;
    repeat first [rewrite andb_true_iff in * | rewrite orb_true_iff in * ];
    rewrite ?Nat.ltb_lt, ?Nat.leb_le in *; lia.
Qed.

Definition safe_string (s : string) : Prop := safe_text (bytes s).

Lemma neutralizeLogString_safe s : safe_string (neutralizeLogString s).
Proof.
  unfold safe_string, neutralizeLogString. rewrite bytes_byte_string; [apply neutralize_safe|].
  unfold neutralize. destruct (existsb _ _); [apply encoded_bounded, kept_encoded|apply bytes_bounded].
Qed.

(** ** Clean attributes *)

Section Clean.
Context {T : GoText}.

(** An attribute a sink may see, at every depth: the value of a listed key is
    the placeholder, and every other string is free of control characters. *)
Fixpoint clean_value (key : string) (v : attr_value) : Prop :=
  if isPIIKey key then v = AString redacted else
  match v with
  | AString s => safe_string s
  | AGroup sub => (fix all (l : list attr) : Prop :=
      match l with [] => True | a :: l => clean_value (fst a) (snd a) /\ all l end) sub
  | AOther _ _ => True
  end.
Definition clean (a : attr) : Prop := clean_value (fst a) (snd a).
Definition clean_op (op : log_op) : Prop :=
  match op with
  | OpAttrs attrs => Forall clean attrs
  | OpGroup _ => True
  | OpRecord _ message attrs => safe_string message /\ Forall clean attrs
  end.

Fixpoint attr_value_ind' (Q : attr_value -> Prop) (Hs : forall s, Q (AString s))
    (Hg : forall l, Forall (fun a => Q (snd a)) l -> Q (AGroup l)) (Ho : forall k t, Q (AOther k t))
    (v : attr_value) : Q v :=
  match v with
  | AString s => Hs s
  | AGroup l => Hg l ((fix go l : Forall (fun a : attr => Q (snd a)) l := match l with
      | [] => Forall_nil_2 _
      | a :: l => Forall_cons_2 _ _ _ (attr_value_ind' Q Hs Hg Ho (snd a)) (go l) end) l)
  | AOther k t => Ho k t
  end.

Lemma clean_group key l : isPIIKey key = false -> Forall clean l -> clean_value key (AGroup l).
Proof. intros Hk H. cbn [clean_value]. rewrite Hk. induction H as [|a l Ha _ IH]; [done|]. by split. Qed.

Lemma drop_empty_clean l : Forall clean l -> Forall clean (drop_empty l).
Proof.
  intros H. rewrite Forall_forall in H. apply Forall_forall.
  intros a [_ Ha]%list_elem_of_filter. auto.
Qed.

Lemma redact_value_clean v key : clean_value key (redact_value key v).
Proof.
  revert key. induction v as [s|l IH|k t] using attr_value_ind'; intros key; cbn [redact_value];
    destruct (isPIIKey key) eqn:Hk.
  1, 3, 5: cbn [clean_value]; by rewrite Hk.
  - cbn [clean_value]. rewrite Hk. apply neutralizeLogString_safe.
  - apply clean_group; [done|]. apply drop_empty_clean. clear Hk.
    induction IH as [|a l Ha _ IHl]; cbn; constructor; [apply Ha|exact IHl].
  - cbn [clean_value]. by rewrite Hk.
Qed.

Lemma redactAttr_clean l : Forall clean (map redactAttr l).
Proof. induction l as [|a l IH]; cbn; constructor; [apply redact_value_clean|exact IH]. Qed.

Lemma fanout_seen sinks r err seen :
  fst (fold_left (fun '(firstErr, seen) sink =>
    (match firstErr with Some e => Some e | None => sink r end, seen ++ [r])) sinks (err, seen))
  = match err with Some e => Some e | None => head (omap (fun sink => sink r) sinks) end
  /\ snd (fold_left (fun '(firstErr, seen) (sink : log_op -> option string) =>
    (match firstErr with Some e => Some e | None => sink r end, seen ++ [r])) sinks (err, seen))
  = seen ++ repeat r (length sinks).
Proof.
  revert err seen. induction sinks as [|sink sinks IH]; intros err seen; cbn.
  - rewrite app_nil_r. by destruct err.
  - destruct (IH (match err with Some e => Some e | None => sink r end) (seen ++ [r])) as [H1 H2].
    rewrite H1, H2, <- app_assoc. split; [|done]. destruct err; [done|]. by destruct (sink r).
Qed.

Lemma forward_clean op : clean_op (forward op).
Proof.
  destruct op as [attrs|name|level message attrs]; cbn; [apply redactAttr_clean|done|].
  split; [apply neutralizeLogString_safe|apply drop_empty_clean, redactAttr_clean].
Qed.

End Clean.

(** ** JSON documents *)

Section Documents.
Context {T : GoText}.

(** Every listed key, at every depth, carries the placeholder. *)
Fixpoint json_clean (key : string) (v : value) : Prop :=
  if isPIIKey key then v = VStr redacted else
  match v with
  | VObj m => (fix all (m : object) : Prop :=
      match m with [] => True | kv :: m => json_clean (fst kv) (snd kv) /\ all m end) m
  | VArr l => (fix all (l : list value) : Prop :=
      match l with [] => True | e :: l => json_clean "" e /\ all l end) l
  | _ => True
  end.

(** No array is an element of an array. *)
Fixpoint flat_arrays (v : value) : bool :=
  match v with
  | VObj m => forallb (fun kv => flat_arrays (snd kv)) m
  | VArr l => forallb (fun e => match e with VArr _ => false | e => flat_arrays e end) l
  | _ => true
  end.

Lemma not_pii_empty : isPIIKey "" = false.
Proof. reflexivity. Qed.

Lemma redact_member_clean v key : flat_arrays v = true -> json_clean key (redact_member key v).
Proof.
  revert key. induction v as [|b|r|s|l IH|m IH|] using value_ind'; intros key Hf;
    cbn [redact_member]; destruct (isPIIKey key) eqn:Hk; cbn [json_clean]; rewrite ?Hk; try done.
  - cbn [flat_arrays] in Hf. induction IH as [|e l He _ IHl]; cbn [map]; [done|].
    cbn [forallb] in Hf. apply andb_true_iff in Hf as [Hfe Hfl]. split; [|by apply IHl].
    destruct e as [| | | |?|m|]; try done. specialize (He ""%string Hfe). cbn [redact_member] in He.
    by rewrite not_pii_empty in He.
  - cbn [flat_arrays] in Hf. induction IH as [|kv m Hkv _ IHm]; cbn [map]; [done|].
    cbn [forallb] in Hf. apply andb_true_iff in Hf as [Hfe Hfl].
    split; [by apply Hkv|by apply IHm].
Qed.

(** In a document whose arrays hold no arrays, no listed key keeps its value. *)
Lemma RedactJSON_clean m : flat_arrays (VObj m) = true -> json_clean "" (RedactJSON (VObj m)).
Proof. intros H. pose proof (redact_member_clean (VObj m) "" H) as Hc. exact Hc. Qed.

(** An object inside an array inside an array keeps its password. *)
Theorem nested_array_kept pw :
  RedactJSON (VObj [("rows", VArr [VArr [VObj [("password", VStr pw)]]])])%string
  = VObj [("rows", VArr [VArr [VObj [("password", VStr pw)]]])]%string.
Proof. reflexivity. Qed.
End Documents.
