(* ===== verification/LogPipeline.v ===== *)
(** * The configured logger

    [cmd/server/logging.go] ([initBootstrapLogger], [initConfiguredLogger]) and the handlers they stack:
    the redacting one of [pii_handler.go] over the JSON sink, or over the fan-out
    of [fanout_handler.go] to the JSON sink and the OpenTelemetry bridge.  A logger
    derives others with attributes and groups before it logs, so the handlers are
    data here: what they carry, where their records go and which level they gate. *)

From S2P Require Import Prelude Json Storage World Agent Vault SecretManager Telemetry Redaction.

(** A handler: a sink with its own level and what was put in front of its
    records, the fan-out, the redacting handler. *)
Inductive handler :=
  | Sink (name : string) (level : option Z) (prefix : list log_op)
  | FanoutHandler (level : option Z) (handlers : list handler)
  | PIIRedactHandler (inner : handler).

Definition NewFanoutHandler (level : option Z) (handlers : list handler) : handler := FanoutHandler level handlers.
Definition NewPIIRedactHandler (inner : handler) : handler := PIIRedactHandler inner.

(** What a sink writes: its name, what is in front, the record. *)
Definition line : Type := string * list log_op * log_op.

Section Pipeline.
Context {T : GoText}.

(** [WithAttrs] and [WithGroup]: the fan-out derives every handler of its; the
    redacting handler passes on what it would forward. *)
Fixpoint with_op (op : log_op) (h : handler) : handler :=
  match h with
  | Sink name level prefix => Sink name level (prefix ++ [op])
  | FanoutHandler level handlers => FanoutHandler level (map (with_op op) handlers)
  | PIIRedactHandler inner => PIIRedactHandler (with_op (forward op) inner)
  end.
Definition WithAttrs (attrs : list attr) : handler -> handler := with_op (OpAttrs attrs).
Definition WithGroup (name : string) : handler -> handler := with_op (OpGroup name).

(** A sink without a level of its own takes everything. *)
Fixpoint Enabled (level : Z) (h : handler) : bool :=
  match h with
  | Sink _ (Some l) _ => l <=? level
  | Sink _ None _ => true
  | FanoutHandler l _ => fanout_Enabled l level
  | PIIRedactHandler inner => Enabled level inner
  end.

Fixpoint Handle (r : log_op) (h : handler) : list line :=
  match h with
  | Sink name _ prefix => [(name, prefix, r)]
  | FanoutHandler _ handlers => concat (map (Handle r) handlers)
  | PIIRedactHandler inner => Handle (forward r) inner
  end.

(** [slog.Logger]: a record below the level is not built. *)
Definition Log (level : Z) (message : string) (attrs : list attr) (h : handler) : list line :=
  if Enabled level h then Handle (OpRecord level message attrs) h else [].

(** Before the configuration is read: no redaction, and the level of
    [slog.HandlerOptions] when there are none, info. *)
Definition initBootstrapLogger : handler := Sink "stdout" (Some 0) [].

(** [logLevel] is the setting, [otel] what [telemetry.Enabled] answers. *)
Definition initConfiguredLogger (logLevel : string) (otel : bool) : handler :=
  let level := parseSlogLevel logLevel in
  let stdout := Sink "stdout" (Some level) [] in
  let sink := if otel then NewFanoutHandler (Some level) [stdout; Sink "otel" None []] else stdout in
  NewPIIRedactHandler sink.

(** The logger a program derives by a sequence of [With] and [WithGroup]. *)
Definition derived (ops : list log_op) (h : handler) : handler := foldl (fun h op => with_op op h) h ops.

(** ** The shape is kept *)

Lemma derived_sink ops name level prefix :
  derived ops (Sink name level prefix) = Sink name level (prefix ++ ops).
Proof.
  revert prefix. induction ops as [|op ops IH]; intros prefix; cbn; [by rewrite app_nil_r|].
  unfold derived in IH. by rewrite IH, <- app_assoc.
Qed.
Lemma derived_pii ops h : derived ops (PIIRedactHandler h) = PIIRedactHandler (derived (map forward ops) h).
Proof. revert h. induction ops as [|op ops IH]; intros h; cbn; [done|]. apply IH. Qed.
Lemma derived_fanout ops level hs :
  derived ops (FanoutHandler level hs) = FanoutHandler level (map (derived ops) hs).
Proof.
  revert hs. induction ops as [|op ops IH]; intros hs; cbn; [by rewrite map_id|].
  unfold derived in IH. by rewrite IH, map_map.
Qed.

(** Whatever is logged, and through whatever loggers derived from the configured
    one: a record below the configured level is written nowhere, and any other is
    written exactly once to standard output and, with telemetry on, once to the
    bridge; every sink sees the same line, and neither its record nor the
    attributes in front of it, at any depth, carry the value of a listed key or a
    string with a control character. *)
Theorem configured_logger_clean (logLevel : string) (otel : bool) (ops : list log_op) level message attrs :
  let sinks := (if otel then ["stdout"; "otel"] else ["stdout"]) : list string in
  let out := Log level message attrs (derived ops (initConfiguredLogger logLevel otel)) in
  (level < parseSlogLevel logLevel -> out = [])
  /\ (parseSlogLevel logLevel <= level ->
        out = map (fun name => (name, map forward ops, forward (OpRecord level message attrs))) sinks)
  /\ Forall (fun l : line => Forall clean_op (snd (fst l)) /\ clean_op (snd l)) out.
Proof.
  intros sinks out.
  assert (Ho : out = if parseSlogLevel logLevel <=? level
    then map (fun name => (name, map forward ops, forward (OpRecord level message attrs))) sinks else []).
  { unfold out, sinks, initConfiguredLogger, NewPIIRedactHandler, NewFanoutHandler, Log.
    rewrite derived_pii. destruct otel.
    - rewrite derived_fanout. cbn [map]. rewrite !derived_sink. done.
    - rewrite derived_sink. done. }
  rewrite Ho. destruct (Z.leb_spec (parseSlogLevel logLevel) level); split_and!; try done; try lia.
  unfold sinks. pose proof forward_clean as Hc.
  assert (Hp : Forall clean_op (map forward ops)) by (apply Forall_map, Forall_forall; intros; apply Hc).
  destruct otel; repeat first [apply Forall_cons; split|apply Forall_nil]; split; apply Hp || apply Hc.
Qed.
End Pipeline.
