(* ===== verification/RedactText.v ===== *)
(** * Credentials in free text

    [RedactString] of [internal/platform/logging/pii_handler.go]: e-mail
    addresses, bearer tokens and JSON web tokens are found in a text by regular
    expressions and replaced.  The expressions are searched for, not matched
    against a whole text as in [Regex]: what is found depends on word boundaries
    around it and on which of several matches [regexp] prefers, so the search is
    modelled as it proceeds, from the left and greedily with backtracking.

    A text is a list of symbols: its bytes, except that the two non-ASCII
    characters which Go's case folding adds to the classes of letters, U+017F and
    U+212A, are one symbol each.  Every other non-ASCII byte belongs to no class
    and to no word, so that it may stand for itself; neither character can be
    mistaken, because its first byte never continues another one. *)

From S2P Require Import Prelude Json Storage Redaction.

(** ** Symbols *)

Definition long_s : Z := 383.
Definition kelvin : Z := 8490.

Fixpoint symbols (l : list nat) : list Z :=
  match l with
  | [] => []
  | b0 :: l1 =>
      match l1 with
      | b1 :: l2 =>
          if (b0 =? 197)%nat && (b1 =? 191)%nat then long_s :: symbols l2 else
          match l2 with
          | b2 :: l3 =>
              if (b0 =? 226)%nat && (b1 =? 132)%nat && (b2 =? 170)%nat then kelvin :: symbols l3
              else Z.of_nat b0 :: symbols l1
          | [] => Z.of_nat b0 :: symbols l1
          end
      | [] => [Z.of_nat b0]
      end
  end.
Definition symbol_bytes (c : Z) : list nat :=
  if c =? long_s then [197; 191]%nat else if c =? kelvin then [226; 132; 170]%nat else [Z.to_nat c].
Definition encode (l : list Z) : list nat := concat (map symbol_bytes l).

Definition text (s : string) : list Z := map (fun a => Z.of_nat (nat_of_ascii a)) (list_ascii_of_string s).

(** ** Expressions and their search *)

Definition range (lo hi c : Z) : bool := (lo <=? c) && (c <=? hi).
Definition digit (c : Z) : bool := range 48 57 c.
Definition upper (c : Z) : bool := range 65 90 c.
Definition letter (c : Z) : bool := upper c || range 97 122 c.
Definition one_of (s : string) (c : Z) : bool := existsb (Z.eqb c) (text s).
(** A class of letters under [(?i)]. *)
Definition letter_i (c : Z) : bool := letter c || (c =? long_s) || (c =? kelvin).
(** [\s], and the characters of a word, of which [\b] is an edge. *)
Definition space (c : Z) : bool := one_of " " c || (c =? 9) || (c =? 10) || (c =? 12) || (c =? 13).
Definition word (c : Z) : bool := letter c || digit c || (c =? 95).

Inductive node :=
  | Edge
  | One (p : Z -> bool)
  | Many (p : Z -> bool) (min : nat).

Definition in_word (c : option Z) : bool := match c with Some c => word c | None => false end.
Definition edge (prev : option Z) (s : list Z) : bool := xorb (in_word prev) (in_word (head s)).

(** The longest run first, then shorter ones. *)
Fixpoint many (k : option Z -> list Z -> option nat) (p : Z -> bool) (min : nat) (prev : option Z) (s : list Z)
    : option nat :=
  let stop := match min with O => k prev s | _ => None end in
  match s with
  | c :: s' =>
      if p c then
        match many k p (pred min) (Some c) s' with Some n => Some (S n) | None => stop end
      else stop
  | [] => stop
  end.

(** The length of the match [regexp] prefers at this place; [prev] is the symbol
    before it. *)
Fixpoint match_at (pat : list node) (prev : option Z) (s : list Z) : option nat :=
  match pat with
  | [] => Some O
  | Edge :: k => if edge prev s then match_at k prev s else None
  | One p :: k =>
      match s with
      | c :: s' => if p c then S <$> match_at k (Some c) s' else None
      | [] => None
      end
  | Many p min :: k => many (match_at k) p min prev s
  end.

(** [ReplaceAllStringFunc]: the leftmost match is replaced and the search goes on
    behind it; no expression here matches the empty text. *)
Fixpoint replace (pat : list node) (f : list Z -> list Z) (skip : nat) (prev : option Z) (s : list Z) : list Z :=
  match s with
  | [] => []
  | c :: s' =>
      match skip with
      | S k => replace pat f k (Some c) s'
      | O =>
          match match_at pat prev s with
          | Some (S n) => f (take (S n) s) ++ replace pat f n (Some c) s'
          | _ => c :: replace pat f O (Some c) s'
          end
      end
  end.
Definition ReplaceAllStringFunc (pat : list node) (f : list Z -> list Z) (s : string) : string :=
  byte_string (encode (replace pat f O None (symbols (bytes s)))).

(** [MatchString] of an expression that is not anchored. *)
Fixpoint found (pat : list node) (prev : option Z) (s : list Z) : bool :=
  match s with
  | [] => false
  | c :: s' => match match_at pat prev s with Some _ => true | None => found pat (Some c) s' end
  end.

(** ** The three expressions *)

Definition fold_char (a b c : Z) : bool := (c =? a) || (c =? b).
Definition literal (s : string) : list node := map (fun c => One (Z.eqb c)) (text s).

Definition email_body : list node :=
  let local c := letter_i c || digit c || one_of "._%+-" c in
  let host c := letter_i c || digit c || one_of ".-" c in
  [Many local 1; One (one_of "@"); Many host 1; One (one_of "."); Many letter_i 2].
Definition bearer_body : list node :=
  let token c := letter_i c || digit c || one_of "._~+/=-" c in
  [One (fold_char 98 66); One (fold_char 101 69); One (fold_char 97 65); One (fold_char 114 82);
   One (fold_char 101 69); One (fold_char 114 82); Many space 1; Many token 1].
Definition jwt_body : list node :=
  let part c := letter c || digit c || one_of "_-" c in
  literal "eyJ" ++ [Many part 1; One (one_of "."); Many part 1; One (one_of "."); Many part 1].

Definition bounded (body : list node) : list node := Edge :: body ++ [Edge].
Definition redactStringPatterns : list (list node) :=
  [bounded email_body; bounded bearer_body; bounded jwt_body].

(** [strings.ToLower] on the symbols of a match. *)
Definition lower_symbol (c : Z) : Z := if upper c then c + 32 else if c =? kelvin then 107 else c.
Definition is_bearer (m : list Z) : bool := bool_decide (map lower_symbol (take 7 m) = text "bearer ").
Definition redact_match (m : list Z) : list Z :=
  if is_bearer m then text "Bearer " ++ text redacted else text redacted.

Definition redact_text (s : string) : string :=
  foldl (fun result pattern => ReplaceAllStringFunc pattern redact_match result) s redactStringPatterns.

(** [None] is a nil pointer; a text without a match is returned as it came. *)
Definition RedactString (s : option string) : option string :=
  match s with
  | None => None
  | Some s =>
      if is_empty s then Some s
      else let result := redact_text s in if negb (str_eqb result s) then Some result else Some s
  end.

(** ** What a match is *)

(** The texts of a body: an expression without edges. *)
Inductive lang : list node -> list Z -> Prop :=
  | lang_nil : lang [] []
  | lang_one p k c l : p c = true -> lang k l -> lang (One p :: k) (c :: l)
  | lang_many p min k l1 l2 : Forall (fun c => p c = true) l1 -> (min <= length l1)%nat -> lang k l2 ->
      lang (Many p min :: k) (l1 ++ l2).
Create HintDb redact.
#[export] Hint Constructors lang : redact.

Definition plain (b : list node) : bool :=
  forallb (fun n => match n with Edge => false | _ => true end) b.

(** The symbol before what follows [l]. *)
Definition last_of (prev : option Z) (l : list Z) : option Z := foldl (fun _ c => Some c) prev l.

Lemma last_of_app prev l1 l2 : last_of prev (l1 ++ l2) = last_of (last_of prev l1) l2.
Proof. apply foldl_app. Qed.

(** A continuation that is sound, respectively complete, for a body. *)
Definition ends (b : list node) (prev : option Z) (l rest : list Z) : Prop :=
  lang b l /\ edge (last_of prev l) rest = true.

Lemma many_sound p b (k : option Z -> list Z -> option nat) :
  (forall prev s n, k prev s = Some n -> exists l rest, s = l ++ rest /\ length l = n /\ ends b prev l rest) ->
  forall s min prev n, many k p min prev s = Some n ->
    exists l rest, s = l ++ rest /\ length l = n /\ ends (Many p min :: b) prev l rest.
Proof.
  intros Hk. assert (Hstop : forall s prev (min : nat) n, match min with O => k prev s | _ => None end = Some n ->
    exists l rest, s = l ++ rest /\ length l = n /\ ends (Many p min :: b) prev l rest).
  { intros s prev [|mn] n H; [|done]. destruct (Hk _ _ _ H) as (l & rest & -> & Hn & Hl & He).
    exists l, rest. split_and!; [done..|]. split; [|done]. by apply (lang_many p 0 b []); [constructor|cbn; lia|]. }
  induction s as [|c s IH]; intros min prev n; cbn [many]; [apply Hstop|].
  destruct (p c) eqn:Hc; [|apply Hstop].
  destruct (many k p (pred min) (Some c) s) as [m|] eqn:E; [|apply Hstop]. intros [= <-].
  destruct (IH _ _ _ E) as (l & rest & -> & Hn & Hl & He). exists (c :: l), rest. split_and!; [done|cbn; lia|].
  split; [|done]. inversion Hl as [| |p' min' k' l1 l2 H1 H2 H3]; subst.
  apply (lang_many p min b (c :: l1)); [by constructor|cbn; lia|done].
Qed.

Lemma match_sound b : plain b = true -> forall prev s n, match_at (b ++ [Edge]) prev s = Some n ->
  exists l rest, s = l ++ rest /\ length l = n /\ ends b prev l rest.
Proof.
  induction b as [|[|p|p min] b IH]; intros Hb prev s n; [| |cbn [app match_at]..]; [|done| |].
  - cbn. destruct (edge prev s) eqn:E; [|done]. intros [= <-]. exists [], s. split_and!; [done..|].
    split; [constructor|done].
  - destruct s as [|c s]; [done|]. destruct (p c) eqn:Hc; [|done].
    destruct (match_at (b ++ [Edge]) (Some c) s) as [m|] eqn:E; [|done]. intros [= <-].
    destruct (IH Hb _ _ _ E) as (l & rest & -> & Hn & Hl & He). exists (c :: l), rest.
    split_and!; [done|cbn; lia|]. split; [by constructor|done].
  - apply many_sound. intros. by apply IH.
Qed.

Lemma many_complete p b (k : option Z -> list Z -> option nat) :
  (forall prev l rest, ends b prev l rest -> is_Some (k prev (l ++ rest))) ->
  forall l1 min prev l2 rest, Forall (fun c => p c = true) l1 -> (min <= length l1)%nat ->
    ends b (last_of prev l1) l2 rest -> is_Some (many k p min prev (l1 ++ l2 ++ rest)).
Proof.
  intros Hk. induction l1 as [|c l1 IH]; intros min prev l2 rest Hp Hm He; cbn [app length] in *.
  - assert (min = 0)%nat as -> by lia. pose proof (Hk _ _ _ He) as H.
    destruct (l2 ++ rest) as [|c s]; [done|]. cbn [many]. destruct (p c); [|done].
    by destruct (many k p (pred 0) (Some c) s).
  - inversion Hp as [|? ? Hc Hp']; subst. cbn [many]. rewrite Hc.
    destruct (IH (pred min) (Some c) l2 rest Hp' ltac:(lia) He) as [n ->]. done.
Qed.

Lemma match_complete b : plain b = true -> forall prev l rest, ends b prev l rest ->
  is_Some (match_at (b ++ [Edge]) prev (l ++ rest)).
Proof.
  induction b as [|[|p|p min] b IH]; intros Hb prev l rest [Hl He]; [|done|..]; cbn [app match_at].
  - inversion Hl; subst. cbn in He |- *. by rewrite He.
  - inversion Hl as [|? ? c l' Hc Hl'|]; subst. cbn [app]. rewrite Hc.
    destruct (IH Hb (Some c) l' rest) as [n ->]; [by split|done].
  - inversion Hl as [| |? ? ? l1 l2 Hp Hm Hl']; subst. rewrite <- app_assoc.
    apply (many_complete p b); [intros; by apply IH|done..|]. split; [done|]. by rewrite <- last_of_app.
Qed.

(** A bounded expression matches at a place exactly when there is an edge here, a
    text of its body, and an edge behind that. *)
Lemma bounded_match b prev s : plain b = true ->
  is_Some (match_at (bounded b) prev s) <->
  edge prev s = true /\ exists l rest, s = l ++ rest /\ ends b prev l rest.
Proof.
  intros Hb. unfold bounded. cbn [match_at]. destruct (edge prev s); [|by split; [intros []|intros []]].
  split.
  - intros [n H]. split; [done|]. destruct (match_sound b Hb _ _ _ H) as (l & rest & ? & _ & ?). eauto.
  - intros [_ (l & rest & -> & H)]. by apply match_complete.
Qed.

(** ** What a pass leaves *)

(** A pass by rules: symbols where nothing matches are kept, a match is
    rewritten. *)
Inductive rewritten (pat : list node) (f : list Z -> list Z) : option Z -> list Z -> list Z -> Prop :=
  | rw_end prev : rewritten pat f prev [] []
  | rw_keep prev c s out : match_at pat prev (c :: s) = None -> rewritten pat f (Some c) s out ->
      rewritten pat f prev (c :: s) (c :: out)
  | rw_match prev m s out : m <> [] -> match_at pat prev (m ++ s) = Some (length m) ->
      rewritten pat f (last_of prev m) s out -> rewritten pat f prev (m ++ s) (f m ++ out).

Lemma replace_skip pat f m prev s :
  replace pat f (length m) prev (m ++ s) = replace pat f O (last_of prev m) s.
Proof.
  revert prev. induction m as [|c m IH]; intros prev; [by destruct s|]. cbn [app length replace].
  by rewrite IH.
Qed.

(** A bounded expression that does not match the empty text. *)
Record proper (b : list node) : Prop := {
  pr_plain : plain b = true; pr_nonempty : forall l, lang b l -> l <> [] }.

Lemma bounded_sound b prev s n : proper b -> match_at (bounded b) prev s = Some n ->
  edge prev s = true /\ exists l rest, s = l ++ rest /\ length l = n /\ l <> [] /\ ends b prev l rest.
Proof.
  intros [Hb Hne]. unfold bounded. cbn [match_at]. destruct (edge prev s); [|done]. intros H. split; [done|].
  destruct (match_sound b Hb _ _ _ H) as (l & rest & -> & Hn & Hl). exists l, rest.
  split_and!; [done..| |done]. by apply Hne, Hl.
Qed.

Lemma replace_rewritten b f : proper b ->
  forall s prev, rewritten (bounded b) f prev s (replace (bounded b) f O prev s).
Proof.
  intros Hb s. induction s as [s IH] using (induction_ltof1 _ (@length Z)); unfold ltof in IH. intros prev.
  destruct s as [|c s]; [constructor|].
  destruct (match_at (bounded b) prev (c :: s)) as [n|] eqn:E.
  - destruct (bounded_sound b prev _ n Hb E) as (_ & [|d m] & rest & Hs & Hn & Hne & _); [done|].
    cbn in Hs, Hn. injection Hs as <- ->. subst n. cbn [replace]. rewrite E.
    rewrite replace_skip. change (take (S (length m)) (c :: m ++ rest)) with (c :: take (length m) (m ++ rest)).
    rewrite take_app_length. change (c :: m ++ rest) with ((c :: m) ++ rest) in E |- *.
    constructor; [done|exact E|]. apply IH. cbn. rewrite length_app. lia.
  - cbn [replace]. rewrite E. constructor; [done|]. apply IH. cbn. lia.
Qed.

(** ** What a replacement looks like *)

Definition open_bracket : Z := 91.
Definition close_bracket : Z := 93.

(** ASCII letters in either case, any other symbol itself. *)
Definition alike (c d : Z) : Prop := c = d \/ (letter c = true /\ letter d = true /\ (c + 32 = d \/ d + 32 = c)).
Definition same (c d : Z) : Prop := c = d.

(** A match becomes the placeholder, or keeps its first word. *)
Definition placeholder_of (sim : Z -> Z -> Prop) (f : list Z -> list Z) (m : list Z) : Prop :=
  f m = text redacted
  \/ (f m = text "Bearer " ++ text redacted /\ exists k r, m = k ++ r /\ Forall2 sim (text "Bearer ") k).

Lemma redacted_text : text redacted = open_bracket :: text "REDACTED" ++ [close_bracket].
Proof. reflexivity. Qed.

(** Letters up to a bracket, or up to a space in front of one: what a replacement
    looks like from any of its places. *)
Fixpoint stops (t : list Z) : bool :=
  match t with
  | [] => false
  | c :: t' =>
      if letter c then stops t'
      else (c =? open_bracket) || (c =? close_bracket)
           || ((c =? 32) && match t' with d :: _ => d =? open_bracket | [] => false end)
  end.
Fixpoint all_stop (t : list Z) : bool := match t with [] => true | _ :: t' => stops t && all_stop t' end.

Definition unbracketed (l : list Z) : Prop := (open_bracket ∉ l) /\ (close_bracket ∉ l).

Lemma unbracketed_tail c l : unbracketed (c :: l) -> unbracketed l.
Proof. intros [H1 H2]. split; intros H; [apply H1|apply H2]; by right. Qed.

Lemma stops_letters t : stops t = true -> forall l rest out, t ++ out = l ++ rest ->
  unbracketed l -> last_of None l <> Some 32 -> Forall (fun c => letter c = true) l.
Proof.
  induction t as [|c t IH]; intros Ht [|d l] rest out E Hu Hl; [done..|constructor|].
  cbn in Ht, E. injection E as <- E. destruct (letter c) eqn:Hlc.
  - constructor; [done|]. apply (IH Ht l rest out E); [by eapply unbracketed_tail|]. by destruct l.
  - exfalso. destruct Hu as [Ho Hc]. apply orb_true_iff in Ht as [[->%Z.eqb_eq| ->%Z.eqb_eq]%orb_true_iff|Ht]; [set_solver..|].
    apply andb_true_iff in Ht as [->%Z.eqb_eq Ht]. destruct l as [|e l]; [done|].
    destruct t as [|x t]; [done|]. cbn in E. injection E as -> _. apply Z.eqb_eq in Ht as ->. set_solver.
Qed.

Section Pass.
Context (sim : Z -> Z -> Prop) (f : list Z -> list Z) (b q : list node).
Hypothesis (sim_refl : forall c, sim c c) (sim_word : forall c d, sim c d -> word c = word d).
Hypothesis (Hb : proper b) (Hf : forall m, lang b m -> placeholder_of sim f m).
(** The expression searched for afterwards: its texts have no bracket, do not end
    in a space, are not just letters, and do not depend on what [sim] ignores. *)
Record visible : Prop := {
  vs_proper : proper q;
  vs_brackets : forall l, lang q l -> unbracketed l;
  vs_space : forall l, lang q l -> last_of None l <> Some 32;
  vs_letters : forall l, lang q l -> not (Forall (fun c => letter c = true) l);
  vs_sim : forall l l', lang q l -> Forall2 sim l l' -> lang q l' }.
Context (Hq : visible).

Lemma sim_last l l' prev : Forall2 sim l l' -> in_word (last_of prev l) = in_word (last_of prev l').
Proof.
  intros H. revert prev. induction H as [|c d l l' Hc H IH]; intros prev; [done|]. cbn [last_of foldl].
  destruct H as [|c2 d2 l l' Hc2 H]; [by apply sim_word|]. exact (IH None).
Qed.

(** The symbols in front of the next bracket were there before, up to [sim], and
    an edge behind them was one. *)
Lemma prefix_kept prev s out : rewritten (bounded b) f prev s out ->
  forall l rest, out = l ++ rest -> unbracketed l -> last_of None l <> Some 32 ->
  exists l' rest', s = l' ++ rest' /\ Forall2 sim l l'
    /\ (edge (last_of prev l) rest = true -> edge (last_of prev l') rest' = true).
Proof.
  induction 1 as [prev|prev c s out Hn _ IH|prev m s out Hne Hm _ IH]; intros l rest E Hbr Hsp.
  - symmetry in E. apply app_eq_nil in E as [-> ->]. by exists [], [].
  - destruct l as [|d l]; cbn in E.
    + exists [], (c :: s). split_and!; [done|constructor|]. by subst rest.
    + injection E as <- E. destruct (IH l rest E) as (l' & rest' & -> & Hs & He);
        [by eapply unbracketed_tail| |].
      { destruct l; [done|]. exact Hsp. }
      exists (c :: l'), rest'. split_and!; [done|by constructor|exact He].
  - destruct (bounded_sound b _ _ _ Hb Hm) as (Hedge & l0 & r0 & E0 & Hlen & _ & Hl0 & _).
    destruct l as [|d l]; [exists [], (m ++ s); by split_and!|].
    assert (l0 = m) as ->.
    { apply (f_equal (take (length m))) in E0. rewrite <- Hlen in E0 at 2. by rewrite !take_app_length in E0. }
    destruct (Hf m Hl0) as [Hfm|(Hfm & k & r & -> & Hk)]; rewrite Hfm in E;
      [cbn in E; injection E as <- _; destruct Hbr; set_solver|].
    assert (Hp : exists l2, text "Bearer" = (d :: l) ++ l2 /\ rest = l2 ++ 32 :: text redacted ++ out).
    { revert Hbr Hsp E. clear. generalize (d :: l) as t. intros t Hbr Hsp E.
      assert (H32 : 32 ∉ t).
      { intros Hin. assert (Hall : Forall (fun c => letter c = true) t).
        { by apply (stops_letters (text "Bearer " ++ text redacted) eq_refl t rest out). }
        rewrite Forall_forall in Hall. by specialize (Hall 32 Hin). }
      change (text "Bearer " ++ text redacted) with (text "Bearer" ++ 32 :: text redacted) in E.
      rewrite <- app_assoc in E. cbn [app] in E.
      apply app_eq_inv in E as [(k & E1 & E2)|(k & -> & E2)]; [by exists k|].
      destruct k as [|x k]; cbn in E2; [exists []; by rewrite !app_nil_r|]. injection E2 as <- _. set_solver. }
    destruct Hp as (l2 & Hl2 & ->).
    change (text "Bearer ") with (text "Bearer" ++ [32]) in Hk. rewrite Hl2, <- app_assoc in Hk.
    apply Forall2_app_inv_l in Hk as (k1 & k2 & Hk1 & Hk2 & ->).
    exists k1, (k2 ++ r ++ s). split_and!; [by rewrite <- !app_assoc|done|].
    unfold edge. rewrite (sim_last _ _ _ Hk1). intros <-. f_equal.
    inversion Hk2 as [E1|c1 c2 t1 t2 Hc Ht E1 E2]; [by destruct l2|].
    destruct l2; cbn in E1; injection E1 as <- _; cbn; symmetry; by apply sim_word.
Qed.

(** A place of the rewritten text at which the second expression matches is one
    of the text; [prev'] is the symbol that now stands before it. *)
Lemma hit_kept prev prev' s out : rewritten (bounded b) f prev s out ->
  prev' = prev \/ edge prev s = true ->
  match_at (bounded q) prev s = None -> match_at (bounded q) prev' out = None.
Proof.
  intros Hr Hp Hn. apply eq_None_not_Some. intros [n H].
  destruct Hq as [Qp Qb Qs Ql Qsim].
  destruct (bounded_sound q _ _ _ Qp H) as (He & l & rest & E & _ & Hne & Hl & Hend).
  destruct (prefix_kept prev s out Hr l rest E (Qb l Hl) (Qs l Hl)) as (l' & rest' & Es & Hsim & Hedge).
  apply (eq_None_not_Some (match_at (bounded q) prev s)) in Hn. apply Hn, bounded_match; [apply Qp|]. split.
  - destruct Hp as [-> |Hp]; [|done].
    destruct (prefix_kept prev s out Hr [] out eq_refl) as (l0 & r0 & Es0 & Hs0 & He0); [split; set_solver|done|].
    inversion Hs0; subst l0. cbn in Es0. subst r0. by apply He0.
  - exists l', rest'. split; [done|]. split; [by apply (Qsim l)|]. apply Hedge.
    destruct l as [|c l]; [done|]. exact Hend.
Qed.

Lemma inside_quiet t prev out : stops t = true -> match_at (bounded q) prev (t ++ out) = None.
Proof.
  intros Ht. apply eq_None_not_Some. intros [n H]. destruct Hq as [Qp Qb Qs Ql _].
  destruct (bounded_sound q _ _ _ Qp H) as (_ & l & rest & E & _ & _ & Hl & _).
  apply (Ql l Hl). by apply (stops_letters t Ht l rest out E); [apply Qb|apply Qs].
Qed.

Lemma replaced_quiet t prev out : all_stop t = true ->
  found (bounded q) (last_of prev t) out = false -> found (bounded q) prev (t ++ out) = false.
Proof.
  revert prev. induction t as [|c t IH]; intros prev Ht Ho; [done|].
  apply andb_true_iff in Ht as [Hc Ht]. cbn [app found].
  change (c :: t ++ out) with ((c :: t) ++ out). rewrite inside_quiet by done. by apply IH.
Qed.

(** What a pass leaves is free of the second expression when the text is, at
    least where nothing was replaced. *)
Lemma pass_quiet (inv : option Z -> list Z -> Prop) :
  (forall prev c s, inv prev (c :: s) -> inv (Some c) s) ->
  (forall prev s, inv prev s -> match_at (bounded b) prev s = None -> match_at (bounded q) prev s = None) ->
  forall prev s out, rewritten (bounded b) f prev s out -> inv prev s ->
  forall prev', (prev' = prev \/ edge prev s = true) -> found (bounded q) prev' out = false.
Proof.
  intros Hcl Hgap. induction 1 as [prev|prev c s out Hn Hr IH|prev m s out Hne Hm Hr IH]; intros Hi prev' Hp.
  - done.
  - cbn [found].
    rewrite (hit_kept prev prev' (c :: s) (c :: out) (rw_keep _ _ _ _ _ _ Hn Hr) Hp (Hgap _ _ Hi Hn)).
    apply IH; [by eapply Hcl|by left].
  - destruct (bounded_sound b _ _ _ Hb Hm) as (_ & l0 & r0 & E0 & Hlen & _ & Hl0 & Hend).
    apply app_inj_1 in E0 as [<- <-]; [|done]. apply replaced_quiet.
    + by destruct (Hf m Hl0) as [-> |[-> _]].
    + apply IH; [|by right]. clear -Hcl Hi. revert prev Hi. induction m as [|c m IH]; intros prev Hi; [done|].
      cbn. apply IH. by eapply Hcl.
Qed.
End Pass.

(** ** The three expressions are visible *)

Definition node_class (n : node) (c : Z) : bool := match n with Edge => false | One p | Many p _ => p c end.
Definition required (n : node) : bool := match n with One _ | Many _ (S _) => true | _ => false end.

Lemma lang_classes b l : lang b l -> Forall (fun c => existsb (fun n => node_class n c) b = true) l.
Proof.
  induction 1 as [|p k c l Hc _ IH|p min k l1 l2 H1 _ _ IH]; [constructor| |].
  - constructor; [cbn; by rewrite Hc|]. eapply Forall_impl; [exact IH|]. intros d Hd. cbn. by rewrite Hd, orb_true_r.
  - apply Forall_app. split; (eapply Forall_impl; [first [exact H1|exact IH]|]); intros d Hd; cbn; by rewrite Hd, ?orb_true_r.
Qed.

Lemma lang_required b l n : lang b l -> n ∈ b -> required n = true -> exists c, c ∈ l /\ node_class n c = true.
Proof.
  induction 1 as [|p k c l Hc _ IH|p min k l1 l2 H1 Hm _ IH]; intros Hn Hr; [by apply elem_of_nil in Hn|..];
    apply elem_of_cons in Hn as [->|Hn].
  - exists c. split; [by left|done].
  - destruct (IH Hn Hr) as (d & Hd & ?). exists d. split; [by right|done].
  - destruct min; [done|]. destruct l1 as [|c l1]; [cbn in Hm; lia|]. inversion H1; subst.
    exists c. split; [by left|done].
  - destruct (IH Hn Hr) as (d & Hd & ?). exists d. split; [apply elem_of_app; by right|done].
Qed.

Lemma lang_last b p n l prev : lang (b ++ [Many p (S n)]) l -> exists c, last_of prev l = Some c /\ p c = true.
Proof.
  revert l prev. induction b as [|m b IH]; intros l prev H; cbn in H.
  - inversion H as [| |? ? ? l1 l2 H1 Hm Hn]; subst. inversion Hn; subst. rewrite app_nil_r.
    destruct l1 as [|c l1] using rev_ind; [cbn in Hm; lia|]. apply Forall_app in H1 as [_ H1]. inversion H1; subst.
    exists c. by rewrite last_of_app.
  - inversion H as [|p' k c l' Hc Hl|p' min k l1 l2 H1 Hm Hl]; subst; [exact (IH l' (Some c) Hl)|].
    rewrite last_of_app. by apply IH.
Qed.

Lemma lang_sim (sim : Z -> Z -> Prop) b l l' :
  (forall n c d, n ∈ b -> sim c d -> node_class n c = true -> node_class n d = true) ->
  lang b l -> Forall2 sim l l' -> lang b l'.
Proof.
  intros Hs H. revert l' Hs. induction H as [|p k c l Hc _ IH|p min k l1 l2 H1 Hm _ IH]; intros l' Hs Hf.
  - inversion Hf. constructor.
  - inversion Hf as [|? d ? l2 Hd Hf2]; subst. constructor; [by apply (Hs (One p) c d); [left|..]|].
    apply IH; [|done]. intros n x y Hn. apply Hs. by right.
  - apply Forall2_app_inv_l in Hf as (k1 & k2 & F1 & F2 & ->). constructor.
    + clear Hm IH F2. induction F1 as [|c d l1 k1 Hcd F1 IH1]; [constructor|]. inversion H1; subst.
      constructor; [by apply (Hs (Many p min) c d); [left|..]|by apply IH1].
    + by rewrite <- (Forall2_length _ _ _ F1).
    + apply IH; [|done]. intros n x y Hn. apply Hs. by right.
Qed.

(** What makes an expression visible, class by class. *)
Lemma visible_by sim b p k n :
  plain (b ++ [Many p (S k)]) = true ->
  existsb (fun n => node_class n open_bracket) (b ++ [Many p (S k)]) = false ->
  existsb (fun n => node_class n close_bracket) (b ++ [Many p (S k)]) = false ->
  p 32 = false -> n ∈ b -> required n = true -> (forall c, node_class n c = true -> letter c = false) ->
  (forall n c d, n ∈ b ++ [Many p (S k)] -> sim c d -> node_class n c = true -> node_class n d = true) ->
  visible sim (b ++ [Many p (S k)]).
Proof.
  intros Hp Ho Hc H32 Hn Hr Hl Hs. split; [split; [done|]|..].
  - intros l H ->. destruct (lang_required _ _ n H) as (c & Hin & _); [apply elem_of_app; by left|done|].
    by apply elem_of_nil in Hin.
  - intros l H%lang_classes. rewrite Forall_forall in H. split; intros Hin; specialize (H _ Hin); cbn in H; congruence.
  - intros l H. destruct (lang_last _ _ _ _ None H) as (c & -> & Hpc). intros [= ->]. congruence.
  - intros l H Hall. destruct (lang_required _ _ n H) as (c & Hin & Hnc); [apply elem_of_app; by left|done|].
    rewrite Forall_forall in Hall. specialize (Hall c Hin). cbn in Hall. rewrite (Hl c Hnc) in Hall. done.
  - intros l l' H F. by apply (lang_sim sim _ l).
Qed.

(** Facts about classes, by arithmetic. *)
Ltac classes :=
  cbn [node_class] in *;
  unfold letter_i, letter, upper, digit, range, fold_char, space, word, one_of, long_s, kelvin in *;
  repeat match goal with
    | |- context [text ?s] => let v := eval vm_compute in (text s) in change (text s) with v
    | H : context [text ?s] |- _ => let v := eval vm_compute in (text s) in change (text s) with v in H
    end;
  cbn [existsb] in *;
  rewrite ?orb_true_iff, ?orb_false_iff, ?andb_true_iff, ?andb_false_iff, ?Z.leb_le, ?Z.leb_gt, ?Z.eqb_eq, ?Z.eqb_neq in *.

Lemma alike_word c d : alike c d -> word c = word d.
Proof. intros [->|(Hc & Hd & _)]; [done|]. unfold word. by rewrite Hc, Hd. Qed.

Lemma at_sign c : one_of "@" c = true -> letter c = false.
Proof. classes. lia. Qed.
Lemma full_stop c : one_of "." c = true -> letter c = false.
Proof. classes. lia. Qed.
Lemma space_no_letter c : space c = true -> letter c = false.
Proof. classes. lia. Qed.

Ltac each_node Hn := repeat (apply elem_of_cons in Hn as [->|Hn]); [..|by apply elem_of_nil in Hn].

Lemma email_folds n c d : n ∈ email_body -> alike c d -> node_class n c = true -> node_class n d = true.
Proof.
  intros Hn [->|(Hc & Hd & _)]; [done|]. unfold email_body in Hn. each_node Hn;
    cbn [node_class]; unfold letter_i; rewrite ?Hd; try done.
  - by intros H%at_sign; rewrite Hc in H.
  - by intros H%full_stop; rewrite Hc in H.
Qed.
Lemma bearer_folds n c d : n ∈ bearer_body -> alike c d -> node_class n c = true -> node_class n d = true.
Proof.
  intros Hn [->|(Hc & Hd & Hcd)]; [done|]. unfold bearer_body in Hn. each_node Hn;
    classes; lia.
Qed.

Lemma email_visible (sim : Z -> Z -> Prop) : (forall c d, sim c d -> alike c d) -> visible sim email_body.
Proof.
  intros Hs. apply (visible_by sim [Many _ 1; One (one_of "@"); Many _ 1; One (one_of ".")] letter_i 1
    (One (one_of "@"))); try done.
  - right. by left.
  - apply at_sign.
  - intros n c d Hn Hcd%Hs. by apply email_folds.
Qed.
Lemma bearer_visible (sim : Z -> Z -> Prop) : (forall c d, sim c d -> alike c d) -> visible sim bearer_body.
Proof.
  intros Hs. apply (visible_by sim (removelast bearer_body) _ 0 (Many space 1)); try done.
  - cbn. do 6 right. by left.
  - apply space_no_letter.
  - intros n c d Hn Hcd%Hs. by apply bearer_folds.
Qed.
Lemma jwt_visible : visible same jwt_body.
Proof.
  apply (visible_by same (removelast jwt_body) _ 0 (One (one_of "."))); try done.
  - cbn. do 4 right. by left.
  - apply full_stop.
  - by intros n c d _ ->.
Qed.

(** *** The replacements *)

Lemma is_bearer_word m : is_bearer m = true ->
  (exists k r, m = k ++ r /\ Forall2 alike (text "Bearer ") k) /\ 32 ∈ m.
Proof.
  assert (Hl : forall c x, 97 <= x <= 122 -> x <> 107 -> lower_symbol c = x -> c = x \/ c + 32 = x).
  { intros c x Hx Hk. unfold lower_symbol. destruct (upper c); [lia|]. destruct (Z.eqb_spec c kelvin); [lia|]. by left. }
  assert (Ha : forall c x, 97 <= x <= 122 -> x <> 107 -> lower_symbol c = x -> alike (x - 32) c /\ alike x c).
  { intros c x Hx Hk HE. destruct (Hl c x Hx Hk HE) as [-> |E]; (split; [|]);
      first [left; lia|right; split_and!; [classes; lia..|lia]]. }
  assert (H32 : forall c, lower_symbol c = 32 -> c = 32).
  { intros c. unfold lower_symbol. destruct (upper c) eqn:E; [classes; lia|]. by destruct (Z.eqb_spec c kelvin). }
  unfold is_bearer. rewrite bool_decide_eq_true. intros E.
  destruct m as [|c1 [|c2 [|c3 [|c4 [|c5 [|c6 [|c7 r]]]]]]]; try done. cbn in E.
  injection E as E1 E2 E3 E4 E5 E6 E7%H32. subst c7. split; [|by do 6 right; left].
  exists [c1; c2; c3; c4; c5; c6; 32], r. split; [done|].
  apply Ha in E1, E2, E3, E4, E5, E6; [|done..]. constructor; [apply E1|].
  repeat (constructor; [by first [apply E2|apply E3|apply E4|apply E5|apply E6|left]|]). constructor.
Qed.

Lemma plain_match sim b m : existsb (fun n => node_class n 32) b = false -> lang b m -> placeholder_of sim redact_match m.
Proof.
  intros H H32%lang_classes. left. unfold redact_match. destruct (is_bearer m) eqn:E; [|done].
  apply is_bearer_word in E as [_ Hin]. rewrite Forall_forall in H32. specialize (H32 32 Hin). cbn in H32. congruence.
Qed.
Lemma bearer_match m : placeholder_of alike redact_match m.
Proof.
  unfold placeholder_of, redact_match. destruct (is_bearer m) eqn:E; [|by left]. right.
  split; [done|]. by apply is_bearer_word in E as [? _].
Qed.

(** ** Texts and their symbols *)

Definition clash (c : Z) (l : list Z) : bool :=
  ((c =? 197) && match l with d :: _ => d =? 191 | [] => false end)
  || ((c =? 226) && match l with d :: e :: _ => (d =? 132) && (e =? 170) | _ => false end).
(** Symbols that are what their bytes decode to. *)
Fixpoint decoded (l : list Z) : bool :=
  match l with
  | [] => true
  | c :: l' => (range 0 255 c || (c =? long_s) || (c =? kelvin)) && negb (clash c l') && decoded l'
  end.

Definition starts_long_s (l : list nat) : Prop := exists l2, l = 197%nat :: 191%nat :: l2.
Definition starts_kelvin (l : list nat) : Prop := exists l2, l = 226%nat :: 132%nat :: 170%nat :: l2.

Lemma symbols_cons b l :
  (exists l2, b :: l = 197%nat :: 191%nat :: l2 /\ symbols (b :: l) = long_s :: symbols l2)
  \/ (exists l2, b :: l = 226%nat :: 132%nat :: 170%nat :: l2 /\ symbols (b :: l) = kelvin :: symbols l2)
  \/ (symbols (b :: l) = Z.of_nat b :: symbols l /\ ~ starts_long_s (b :: l) /\ ~ starts_kelvin (b :: l)).
Proof.
  destruct l as [|b1 l]; [right; right; split_and!; [done|intros [? [=]]..]|].
  destruct ((b =? 197)%nat && (b1 =? 191)%nat) eqn:E1.
  { left. exists l. cbn. rewrite E1. apply andb_true_iff in E1 as [->%Nat.eqb_eq ->%Nat.eqb_eq]. done. }
  assert (Hs : ~ starts_long_s (b :: b1 :: l)) by (intros [l2 [= -> -> _]]; done).
  destruct l as [|b2 l]; [right; right; split_and!; [cbn; by rewrite E1|done|intros [? [=]]]|].
  destruct ((b =? 226)%nat && (b1 =? 132)%nat && (b2 =? 170)%nat) eqn:E2; right; [left|right].
  - exists l. cbn. rewrite E1, E2. apply andb_true_iff in E2 as [[->%Nat.eqb_eq ->%Nat.eqb_eq]%andb_true_iff ->%Nat.eqb_eq].
    done.
  - split_and!; [cbn; by rewrite E1, E2|done|intros [l2 [= -> -> -> _]]; done].
Qed.

Lemma symbols_head l c t : symbols l = c :: t -> range 0 255 c = true ->
  exists b l', l = b :: l' /\ c = Z.of_nat b /\ symbols l' = t.
Proof.
  destruct l as [|b l]; [done|]. destruct (symbols_cons b l) as [(l2 & _ & ->)|[(l2 & _ & ->)|[-> _]]];
    intros [= <- <-] Hc; [done..|]. by exists b, l.
Qed.

(** A byte that starts neither character does not clash with what follows. *)
Lemma symbols_clash b l : ~ starts_long_s (b :: l) -> ~ starts_kelvin (b :: l) ->
  clash (Z.of_nat b) (symbols l) = false.
Proof.
  intros H1 H2. apply not_true_is_false. intros [H|H]%orb_true_iff; apply andb_true_iff in H as [Hb H].
  - destruct (symbols l) as [|d t] eqn:E; [done|]. apply Z.eqb_eq in Hb, H. subst d.
    destruct (symbols_head _ _ _ E eq_refl) as (b1 & l2 & -> & Hd & _). apply H1. exists l2.
    repeat f_equal; lia.
  - destruct (symbols l) as [|d [|e t]] eqn:E; [done..|]. apply andb_true_iff in H as [Hd He].
    apply Z.eqb_eq in Hb, Hd, He. subst d e.
    destruct (symbols_head _ _ _ E eq_refl) as (b1 & l2 & -> & Hd & E2).
    destruct (symbols_head _ _ _ E2 eq_refl) as (b2 & l3 & -> & He & _). apply H2. exists l3.
    repeat f_equal; lia.
Qed.

Lemma symbols_decoded l : Forall (fun b => b < 256)%nat l -> decoded (symbols l) = true /\ encode (symbols l) = l.
Proof.
  induction l as [l IH] using (induction_ltof1 _ (@length nat)); unfold ltof in IH. intros Hl.
  destruct l as [|b l]; [done|].
  destruct (symbols_cons b l) as [(l2 & E & ->)|[(l2 & E & ->)|(-> & H1 & H2)]].
  - rewrite E in *. rewrite !Forall_cons in Hl. destruct (IH l2) as [D1 D2]; [cbn; lia|naive_solver|].
    unfold encode in *. cbn. by rewrite D1, D2.
  - rewrite E in *. rewrite !Forall_cons in Hl. destruct (IH l2) as [D1 D2]; [cbn; lia|naive_solver|].
    unfold encode in *. cbn. by rewrite D1, D2.
  - rewrite Forall_cons in Hl. destruct Hl as [Hb Hl]. destruct (IH l) as [D1 D2]; [cbn; lia|done|].
    cbn [decoded]. rewrite symbols_clash, D1 by done. split.
    + cbn [negb]. rewrite !andb_true_r. unfold range. rewrite (proj2 (Z.leb_le 0 _)), (proj2 (Z.leb_le _ 255)) by lia. done.
    + unfold encode in *. cbn [map concat]. rewrite D2. unfold symbol_bytes, long_s, kelvin.
      rewrite (proj2 (Z.eqb_neq _ _)), (proj2 (Z.eqb_neq _ _)) by lia. by rewrite Nat2Z.id.
Qed.

Lemma encode_head l b t : decoded l = true -> encode l = b :: t -> b <> 197%nat -> b <> 226%nat ->
  exists l', l = Z.of_nat b :: l' /\ encode l' = t.
Proof.
  destruct l as [|c l]; [done|]. unfold encode. cbn [decoded map concat]. unfold symbol_bytes.
  destruct (Z.eqb_spec c long_s); [intros _ [= <- _]; done|]. destruct (Z.eqb_spec c kelvin); [intros _ [= <- _]; done|].
  intros [[Hc _]%andb_true_iff _]%andb_true_iff [= <- <-] _ _. exists l. split; [|done]. f_equal.
  rewrite !orb_false_r in Hc. unfold range in Hc. split_bools. rewrite Z2Nat.id; lia.
Qed.

Lemma symbols_encode l : decoded l = true -> symbols (encode l) = l.
Proof.
  induction l as [|c l IH]; [done|]. cbn [decoded]. intros [[Hc Hcl]%andb_true_iff Hl]%andb_true_iff.
  specialize (IH Hl). unfold encode. cbn [map concat]. fold (encode l). unfold symbol_bytes.
  destruct (Z.eqb_spec c long_s) as [->|H1]; [cbn; by rewrite IH|].
  destruct (Z.eqb_spec c kelvin) as [->|H2]; [cbn; by rewrite IH|].
  rewrite !orb_false_r in Hc. unfold range in Hc. split_bools.
  apply negb_true_iff in Hcl. cbn [app].
  assert (Hz : Z.of_nat (Z.to_nat c) = c) by (apply Z2Nat.id; lia).
  destruct (symbols_cons (Z.to_nat c) (encode l)) as [(l2 & E & _)|[(l2 & E & _)|(-> & _)]]; [..|by rewrite Hz, IH].
  - injection E as E1 E2. destruct (encode_head _ _ _ Hl E2) as (l' & -> & _); [done..|].
    rewrite E1 in Hz. by rewrite <- Hz in Hcl.
  - injection E as E1 E2. destruct (encode_head _ _ _ Hl E2) as (l' & -> & E3); [done..|].
    cbn [decoded] in Hl. split_bools. destruct (encode_head l' _ _ ltac:(done) E3) as (l3 & -> & _); [done..|].
    rewrite E1 in Hz. by rewrite <- Hz in Hcl.
Qed.

(** *** A pass on a text *)

Definition ascii_text (l : list Z) : Prop := Forall (fun c => 0 <= c < 128) l.

Lemma redact_match_ascii m : redact_match m <> [] /\ ascii_text (redact_match m).
Proof.
  unfold redact_match. destruct (is_bearer m); (split; [done|]); unfold ascii_text;
    (eapply Forall_impl; [apply Forall_forall; intros c Hc; exact Hc|]); intros c Hc;
    cbn in Hc; repeat (apply elem_of_cons in Hc as [->|Hc]; [vm_compute; intuition discriminate|]);
    by apply elem_of_nil in Hc.
Qed.

Lemma decoded_ascii t l : ascii_text t -> decoded l = true -> decoded (t ++ l) = true.
Proof.
  induction 1 as [|c t Hc _ IH]; [done|]. intros Hl. cbn [app decoded]. rewrite (IH Hl).
  unfold clash, range. rewrite (proj2 (Z.eqb_neq c 197)), (proj2 (Z.eqb_neq c 226)) by lia.
  rewrite (proj2 (Z.leb_le 0 c)), (proj2 (Z.leb_le c 255)) by lia. done.
Qed.

Lemma decoded_suffix t l : decoded (t ++ l) = true -> decoded l = true.
Proof. induction t as [|c t IH]; [done|]. cbn. intros [_ H]%andb_true_iff. by apply IH. Qed.

(** A pass moves no byte next to one it clashes with. *)
Lemma rewritten_head pat f prev s out c t : (forall m, f m <> [] /\ ascii_text (f m)) ->
  rewritten pat f prev s out -> out = c :: t -> 128 <= c ->
  exists s', s = c :: s' /\ rewritten pat f (Some c) s' t.
Proof.
  intros Hf [prev'|prev' d s' out' _ Hr|prev' m s' out' _ _ _] E Hc; [done|injection E as <- <-; eauto|].
  destruct (Hf m) as [Hne Ha]. destruct (f m) as [|x y]; [done|]. injection E as -> _. inversion Ha; subst. lia.
Qed.

Lemma rewritten_decoded pat f prev s out : (forall m, f m <> [] /\ ascii_text (f m)) ->
  rewritten pat f prev s out -> decoded s = true -> decoded out = true.
Proof.
  intros Hf. induction 1 as [|prev c s out _ Hr IH|prev m s out _ _ _ IH]; [done| |].
  - cbn [decoded]. intros [[Hc Hcl]%andb_true_iff Hs]%andb_true_iff. rewrite Hc, (IH Hs).
    assert (Hn : clash c out = false); [|by rewrite Hn]. apply not_true_is_false. intros Ht.
    apply negb_true_iff in Hcl. rewrite <- not_true_iff_false in Hcl. apply Hcl. clear Hcl.
    apply orb_true_iff in Ht as [[Hb H]%andb_true_iff|[Hb H]%andb_true_iff]; unfold clash; rewrite Hb; cbn [andb].
    + destruct out as [|d out]; [done|]. apply Z.eqb_eq in H as ->.
      destruct (rewritten_head _ _ _ _ _ 191 out Hf Hr eq_refl ltac:(lia)) as (s' & -> & _). done.
    + destruct out as [|d [|e out]]; [done..|]. apply andb_true_iff in H as [->%Z.eqb_eq ->%Z.eqb_eq].
      destruct (rewritten_head _ _ _ _ _ 132 _ Hf Hr eq_refl ltac:(lia)) as (s' & -> & Hr').
      destruct (rewritten_head _ _ _ _ _ 170 _ Hf Hr' eq_refl ltac:(lia)) as (s2 & -> & _). by rewrite orb_true_r.
  - intros Hs%decoded_suffix. apply decoded_ascii; [apply Hf|]. by apply IH.
Qed.

Lemma encode_bytes l : decoded l = true -> Forall (fun b => b < 256)%nat (encode l).
Proof.
  induction l as [|c l IH]; [constructor|]. cbn [decoded]. intros [[Hc _]%andb_true_iff Hl]%andb_true_iff.
  unfold encode. cbn [map concat]. apply Forall_app. split; [|by apply IH]. unfold symbol_bytes.
  destruct (c =? long_s); [by repeat constructor|]. destruct (c =? kelvin); [by repeat constructor|].
  rewrite !orb_false_r in Hc. unfold range in Hc. split_bools. constructor; [lia|constructor].
Qed.

(** What the next pass reads is what this one wrote. *)
Lemma pass_symbols b s : proper b ->
  symbols (bytes (ReplaceAllStringFunc (bounded b) redact_match s))
  = replace (bounded b) redact_match O None (symbols (bytes s)).
Proof.
  intros Hb. unfold ReplaceAllStringFunc.
  assert (Hd : decoded (replace (bounded b) redact_match O None (symbols (bytes s))) = true).
  { eapply rewritten_decoded; [apply redact_match_ascii|by apply replace_rewritten|].
    apply symbols_decoded, bytes_bounded. }
  rewrite bytes_byte_string by (by apply encode_bytes). by apply symbols_encode.
Qed.

Lemma replace_none pat f prev s : found pat prev s = false -> replace pat f O prev s = s.
Proof.
  revert prev. induction s as [|c s IH]; intros prev; [done|]. cbn [found replace].
  destruct (match_at pat prev (c :: s)); [done|]. intros H. by rewrite IH.
Qed.

(** The places of a pass's own expression are gone; those of another one that
    were not there do not appear. *)
Lemma pass_removes sim b s : (forall c, sim c c) -> (forall c d, sim c d -> alike c d) -> visible sim b ->
  (forall m, lang b m -> placeholder_of sim redact_match m) ->
  found (bounded b) None (symbols (bytes (ReplaceAllStringFunc (bounded b) redact_match s))) = false.
Proof.
  intros Hr Hs Hv Hf. pose proof (vs_proper _ _ Hv) as Hb. rewrite pass_symbols by done.
  apply (pass_quiet sim redact_match b b Hr (fun c d H => alike_word c d (Hs c d H)) Hb Hf Hv (fun _ _ => True))
    with (prev := None) (s := symbols (bytes s)); auto. by apply replace_rewritten.
Qed.
Lemma pass_keeps sim b q s : (forall c, sim c c) -> (forall c d, sim c d -> alike c d) -> proper b -> visible sim q ->
  (forall m, lang b m -> placeholder_of sim redact_match m) ->
  found (bounded q) None (symbols (bytes s)) = false ->
  found (bounded q) None (symbols (bytes (ReplaceAllStringFunc (bounded b) redact_match s))) = false.
Proof.
  intros Hr Hs Hb Hv Hf H0. rewrite pass_symbols by done.
  apply (pass_quiet sim redact_match b q Hr (fun c d H => alike_word c d (Hs c d H)) Hb Hf Hv
    (fun prev s => found (bounded q) prev s = false)) with (prev := None) (s := symbols (bytes s)); auto.
  - intros prev c t. cbn [found]. by destruct (match_at _ _ _).
  - intros prev [|c t]; cbn [found]; [|by destruct (match_at (bounded q) prev (c :: t))].
    intros _ _. apply eq_None_not_Some. intros [n H].
    destruct (bounded_sound q _ _ _ (vs_proper _ _ Hv) H) as (_ & l & r & E & _ & Hne & _).
    symmetry in E. by apply app_eq_nil in E as [-> _].
  - by apply replace_rewritten.
Qed.

(** ** The whole *)

Lemma same_alike c d : same c d -> alike c d.
Proof. by left. Qed.
Lemma alike_refl c : alike c c.
Proof. by left. Qed.
#[local] Hint Resolve same_alike alike_refl email_visible bearer_visible jwt_visible vs_proper bearer_match : redact.

Lemma nothing_found_again s pat : pat ∈ redactStringPatterns ->
  found pat None (symbols (bytes (redact_text s))) = false.
Proof.
  intros Hp. unfold redact_text, redactStringPatterns. cbn [foldl].
  set (s1 := ReplaceAllStringFunc (bounded email_body) redact_match s).
  set (s2 := ReplaceAllStringFunc (bounded bearer_body) redact_match s1).
  assert (Pe : proper email_body) by (apply (vs_proper same), email_visible; auto with redact).
  assert (Pb : proper bearer_body) by (apply (vs_proper same), bearer_visible; auto with redact).
  assert (Pj : proper jwt_body) by (apply (vs_proper same), jwt_visible).
  assert (He1 : found (bounded email_body) None (symbols (bytes s1)) = false).
  { apply (pass_removes same); [done|auto with redact..|]. intros m. by apply plain_match. }
  assert (He2 : found (bounded email_body) None (symbols (bytes s2)) = false)
    by (apply (pass_keeps alike); auto with redact).
  assert (Hb2 : found (bounded bearer_body) None (symbols (bytes s2)) = false)
    by (apply (pass_removes alike); auto with redact).
  assert (Hj : forall m, lang jwt_body m -> placeholder_of same redact_match m) by (intros m; by apply plain_match).
  unfold redactStringPatterns in Hp. each_node Hp; [apply (pass_keeps same)..|apply (pass_removes same)];
    auto with redact; done.
Qed.

Lemma byte_string_bytes s : byte_string (bytes s) = s.
Proof.
  unfold byte_string, bytes. rewrite map_map. induction s as [|a s IH]; [done|].
  cbn. by rewrite ascii_nat_embedding, IH.
Qed.

Lemma redact_text_clean s : (forall pat, pat ∈ redactStringPatterns -> found pat None (symbols (bytes s)) = false) ->
  redact_text s = s.
Proof.
  intros H. unfold redact_text.
  assert (Hp : forall pat, pat ∈ redactStringPatterns -> ReplaceAllStringFunc pat redact_match s = s).
  { intros pat Hpat. unfold ReplaceAllStringFunc. rewrite replace_none by auto.
    rewrite (proj2 (symbols_decoded (bytes s) (bytes_bounded s))). apply byte_string_bytes. }
  unfold redactStringPatterns in *. cbn [foldl]. rewrite !Hp; [done|set_solver..].
Qed.

Lemma RedactString_text s : RedactString (Some s) = Some (redact_text s).
Proof.
  unfold RedactString. destruct s as [|a s]; [by vm_compute|]. cbn [is_empty].
  change (is_empty (String a s)) with false. cbn iota zeta.
  unfold str_eqb. by destruct (String.eqb_spec (redact_text (String a s)) (String a s)) as [->|].
Qed.

(** C36: free text is redacted completely.  In what [RedactString] returns none of
    its expressions finds an e-mail address, a bearer token or a JSON web token,
    although the later passes rewrite what the earlier ones have searched; a text
    in which none of them finds anything is returned as it is, so that redacting
    twice is redacting once. *)
Theorem redaction_complete s out : RedactString (Some s) = Some out ->
  (forall pat, pat ∈ redactStringPatterns -> found pat None (symbols (bytes out)) = false)
  /\ ((forall pat, pat ∈ redactStringPatterns -> found pat None (symbols (bytes s)) = false) -> out = s)
  /\ RedactString (Some out) = Some out.
Proof.
  rewrite RedactString_text. intros [= <-]. split_and!.
  - intros pat. apply nothing_found_again.
  - apply redact_text_clean.
  - rewrite RedactString_text. f_equal. apply redact_text_clean. intros pat. apply nothing_found_again.
Qed.

Lemma redaction_complete_witness :
  RedactString (Some "Authorization: bearer abc.def, mail bob@example.com"%string)
  = Some "Authorization: Bearer [REDACTED], mail [REDACTED]"%string
  /\ RedactString (Some "Authorization: Bearer [REDACTED], mail [REDACTED]"%string)
     = Some "Authorization: Bearer [REDACTED], mail [REDACTED]"%string.
Proof.
  assert (H : RedactString (Some "Authorization: bearer abc.def, mail bob@example.com"%string)
    = Some "Authorization: Bearer [REDACTED], mail [REDACTED]"%string) by (vm_compute; reflexivity).
  split; [exact H|]. apply (redaction_complete _ _ H).
Defined.

(** The word boundary at the end of a token leaves its padding in the text, and an
    address that ends in the word takes a [Bearer] away from the token behind it. *)
Lemma found_in_part :
  RedactString (Some "Bearer dG9rZW4=="%string) = Some "Bearer [REDACTED]=="%string
  /\ RedactString (Some "from a@b.bearer t0ken"%string) = Some "from [REDACTED] t0ken"%string.
Proof. vm_compute. done. Qed.
