(* ===== verification/RemoteSecrets.v ===== *)
(** * Remote secret stores

    [internal/platform/config/secret_manager_vault.go], [_aws.go], [_gcp.go] and
    [_azure.go]: how the answer of each store becomes a secret, an absent secret
    or a failure, and how an expired Vault token is replaced.  The SDK clients are
    parameters: what they answer is up to them. *)

From S2P Require Import Prelude Json Storage World AppError Agent Vault SecretManager.

(** ** Names *)

Section Names.
Context {T : GoText}.

(** [strings.ToLower(strings.ReplaceAll(key, "_", "-"))]. *)
Definition hyphenated (key : string) : string := ToLower (string_map underscore_to_hyphen key).

Definition vault_secretPath (prefix key : string) : string :=
  let prefix := trim_slashes prefix in
  if negb (is_empty prefix) then prefix +:+ "/" +:+ hyphenated key else hyphenated key.
Definition aws_secretID (prefix key : string) : string :=
  if negb (is_empty prefix) then prefix +:+ "/" +:+ hyphenated key else hyphenated key.
Definition ssm_paramPath (prefix key : string) : string :=
  let prefix := trim_slashes prefix in
  if negb (is_empty prefix) then "/" +:+ prefix +:+ "/" +:+ hyphenated key else "/" +:+ hyphenated key.
Definition gcp_secretVersion (projectID key : string) : string :=
  "projects/" +:+ projectID +:+ "/secrets/" +:+ hyphenated key +:+ "/versions/latest".
Definition azure_secretName (key : string) : string := hyphenated key.
End Names.

(** ** AWS, GCP and Azure

    An error of a client: whether it is the store's word that there is no such
    secret (the typed exception, the status), and its text. *)
Record store_err := { se_absent : bool; se_text : string }.

Section Stores.
Context {T : GoText}.

(** [SecretString] and [SecretBinary]. *)
Definition aws_GetSecret (prefix : string)
    (GetSecretValue : string -> result store_err (option string * option string)) (key : string)
    : result secret_err string :=
  let id := aws_secretID prefix key in
  match GetSecretValue id with
  | Err e =>
      if se_absent e then Err (SecretNotFound ("AWS Secrets Manager: " +:+ fmt_q id +:+ ": secret not found"))
      else Err (SecretError ("AWS Secrets Manager: failed to get " +:+ fmt_q id +:+ ": " +:+ se_text e))
  | Ok (Some s, _) => Ok s
  | Ok (None, Some b) => Ok b
  | Ok (None, None) => Err (SecretError ("AWS Secrets Manager: secret " +:+ fmt_q id +:+ " has no value"))
  end.

(** [Parameter] may be nil, and its [Value]. *)
Definition ssm_GetSecret (prefix : string)
    (GetParameter : string -> result store_err (option (option string))) (key : string)
    : result secret_err string :=
  let path := ssm_paramPath prefix key in
  match GetParameter path with
  | Err e =>
      if se_absent e then Err (SecretNotFound ("AWS SSM: " +:+ fmt_q path +:+ ": secret not found"))
      else Err (SecretError ("AWS SSM: failed to get parameter " +:+ fmt_q path +:+ ": " +:+ se_text e))
  | Ok None => Err (SecretNotFound ("AWS SSM: parameter " +:+ fmt_q path +:+ ": secret not found"))
  | Ok (Some None) => Err (SecretError ("AWS SSM: parameter " +:+ fmt_q path +:+ " has no value"))
  | Ok (Some (Some v)) => Ok v
  end.

(** [None] is a payload that is nil or has no data. *)
Definition gcp_GetSecret (projectID : string)
    (AccessSecretVersion : string -> result store_err (option string)) (key : string)
    : result secret_err string :=
  let version := gcp_secretVersion projectID key in
  match AccessSecretVersion version with
  | Err e =>
      if se_absent e then Err (SecretNotFound ("GCP Secret Manager: " +:+ fmt_q version +:+ ": secret not found"))
      else Err (SecretError ("GCP Secret Manager: failed to access " +:+ fmt_q version +:+ ": " +:+ se_text e))
  | Ok None => Err (SecretNotFound ("GCP Secret Manager: secret " +:+ fmt_q version +:+ ": secret not found"))
  | Ok (Some data) => Ok data
  end.

Definition azure_GetSecret (client : string -> result store_err (option string)) (key : string)
    : result secret_err string :=
  let name := azure_secretName key in
  match client name with
  | Err e =>
      if se_absent e then Err (SecretNotFound ("azure key vault: " +:+ fmt_q name +:+ ": secret not found"))
      else Err (SecretError ("azure key vault: failed to get secret " +:+ fmt_q name +:+ ": " +:+ se_text e))
  | Ok None => Err (SecretNotFound ("azure key vault: secret " +:+ fmt_q name +:+ ": secret not found"))
  | Ok (Some v) => Ok v
  end.
End Stores.

(** ** Vault *)

(** An error of the client: the status of a [ResponseError] in its chain, if
    there is one, and its text. *)
Record vault_err := { ve_status : option Z; ve_text : string }.

(** The Vault server, with a state of its own: creating a client, an AppRole
    login (whose answer may hold no token), a read of the KV store with a token;
    a read without data is [None]. *)
Record VaultServer (S : Type) := {
  vs_NewClient : string -> option string;
  vs_Login : string -> string -> S -> result string (option string) * S;
  vs_Get : string -> string -> string -> S -> result vault_err (option object) * S }.
Arguments vs_NewClient {S} v.
Arguments vs_Login {S} v.
Arguments vs_Get {S} v.

(** [vm_reauth] says whether the token came from an AppRole login. *)
Record vaultSecretManager := {
  vm_prefix : string; vm_mount : string; vm_field : string; vm_token : string; vm_reauth : bool }.
#[global] Instance vaultSecretManager_eta : EtaRecord vaultSecretManager := fun v =>
  Build_vaultSecretManager (vm_prefix v) (vm_mount v) (vm_field v) (vm_token v) (vm_reauth v).

(** What a manager does, in order: it attempts an AppRole login, it reads. *)
Inductive vault_call := VaultLogin | VaultRead (token path : string).

(** The type [%T] prints for a decoded value. *)
Definition go_type (v : value) : string :=
  match v with
  | VNull => "<nil>" | VBool _ => "bool" | VNum _ => "json.Number" | VStr _ => "string"
  | VArr _ => "[]interface {}" | VObj _ => "map[string]interface {}" | VOther => "?"
  end.

Section VaultManager.
Context {T : GoText} (Getenv : string -> string) {S : Type} (srv : VaultServer S).

Definition vaultAppRoleLogin (s : S) : result string string * S :=
  let roleID := GetEnvOrDefault Getenv "VAULT_ROLE_ID" "" in
  let secretID := GetEnvOrDefault Getenv "VAULT_SECRET_ID" "" in
  if is_empty roleID || is_empty secretID
  then (Err "VAULT_ROLE_ID and VAULT_SECRET_ID must both be set for AppRole auth"%string, s)
  else match vs_Login srv roleID secretID s with
  | (Err e, s) => (Err ("AppRole login request failed: " +:+ e)%string, s)
  | (Ok None, s) => (Err "AppRole login returned no auth token"%string, s)
  | (Ok (Some token), s) => (Ok token, s)
  end.

Definition newVaultSecretManager (address token prefix mount : string) (s : S)
    : result string vaultSecretManager * S :=
  match vs_NewClient srv address with
  | Some e => (Err ("vault: failed to create client: " +:+ e)%string, s)
  | None =>
      let manager token reauth := {|
        vm_prefix := prefix; vm_mount := if is_empty mount then "secret" else mount;
        vm_field := GetEnvOrDefault Getenv "VAULT_SECRET_FIELD" "value";
        vm_token := token; vm_reauth := reauth |} in
      if negb (is_empty token) then (Ok (manager token false), s)
      else match vaultAppRoleLogin s with
      | (Err e, s) =>
          (Err ("vault: AppRole login failed (set VAULT_TOKEN or VAULT_ROLE_ID+VAULT_SECRET_ID): " +:+ e)%string, s)
      | (Ok token, s) => (Ok (manager token true), s)
      end
  end.

Definition isAuthFailure (v : vaultSecretManager) (e : vault_err) : bool :=
  if negb (vm_reauth v) then false
  else match ve_status e with
  | Some code => (code =? 403) || (code =? 401)
  | None =>
      let msg := ToLower (ve_text e) in
      Contains msg "permission denied" || Contains msg "invalid token"
  end.

Definition relogin (v : vaultSecretManager) (s : S) : result string vaultSecretManager * S :=
  if negb (vm_reauth v)
  then (Err "no AppRole credentials configured; a static VAULT_TOKEN cannot be renewed"%string, s)
  else match vaultAppRoleLogin s with
  | (Err e, s) => (Err e, s)
  | (Ok token, s) => (Ok (v <| vm_token := token |>), s)
  end.

Definition vault_read (v : vaultSecretManager) (path : string) (s : S)
    : result vault_err (option object) * S := vs_Get srv (vm_token v) (vm_mount v) path s.

(** The secret in the answer to the last read. *)
Definition vault_answer (v : vaultSecretManager) (path : string)
    (r : result vault_err (option object)) : result secret_err string :=
  match r with
  | Err e =>
      if match ve_status e with Some code => code =? 404 | None => false end
      then Err (SecretNotFound ("vault: secret " +:+ fmt_q path +:+ ": secret not found"))
      else Err (SecretError ("vault: failed to read " +:+ fmt_q path +:+ " at mount "
                             +:+ fmt_q (vm_mount v) +:+ ": " +:+ ve_text e))
  | Ok None => Err (SecretNotFound ("vault: secret " +:+ fmt_q path +:+ ": secret not found"))
  | Ok (Some data) =>
      match obj_get (vm_field v) data with
      | None => Err (SecretError ("vault: secret " +:+ fmt_q path +:+ " missing field "
                       +:+ fmt_q (vm_field v) +:+ " (found: [" +:+ join " " (map fst data) +:+ "])"))
      | Some (VStr str) => Ok str
      | Some val => Err (SecretError ("vault: field " +:+ fmt_q (vm_field v) +:+ " in secret "
                          +:+ fmt_q path +:+ " is not a string (got " +:+ go_type val +:+ ")"))
      end
  end.

(** [GetSecret], with the manager it leaves behind and the calls it made. *)
Definition vault_GetSecret (v : vaultSecretManager) (key : string) (s : S)
    : result secret_err string * vaultSecretManager * list vault_call * S :=
  let path := vault_secretPath (vm_prefix v) key in
  match vault_read v path s with
  | (Err e, s1) =>
      if isAuthFailure v e then
        match relogin v s1 with
        | (Err rerr, s2) =>
            (Err (SecretError ("vault: read " +:+ fmt_q path +:+ " failed and re-authentication failed: "
                               +:+ rerr +:+ " (original: " +:+ ve_text e +:+ ")")),
             v, [VaultRead (vm_token v) path; VaultLogin], s2)
        | (Ok v', s2) =>
            let '(r, s3) := vault_read v' path s2 in
            (vault_answer v' path r, v',
             [VaultRead (vm_token v) path; VaultLogin; VaultRead (vm_token v') path], s3)
        end
      else (vault_answer v path (Err e), v, [VaultRead (vm_token v) path], s1)
  | (Ok data, s1) => (vault_answer v path (Ok data), v, [VaultRead (vm_token v) path], s1)
  end.
End VaultManager.

(** ** Renewal *)

Section Renewal.
Context {T : GoText} (Getenv : string -> string) {S : Type} (srv : VaultServer S).

(** The store's answer, as the caller is told it. *)
Definition told (v : vaultSecretManager) (ans : result vault_err (option object))
    (r : result secret_err string) : Prop :=
  match r with
  | Ok str => exists data, ans = Ok (Some data) /\ obj_get (vm_field v) data = Some (VStr str)
  | Err (SecretNotFound _) => ans = Ok None \/ exists e, ans = Err e /\ ve_status e = Some 404
  | Err (SecretError _) =>
      (exists e, ans = Err e /\ ve_status e <> Some 404)
      \/ exists data, ans = Ok (Some data) /\ forall str, obj_get (vm_field v) data <> Some (VStr str)
  end.

Lemma vault_answer_told v path ans : told v ans (vault_answer v path ans).
Proof.
  destruct ans as [[data|]|e]; cbn.
  - destruct (obj_get (vm_field v) data) as [[]|] eqn:E; cbn; eauto;
      right; exists data; split; try done; by rewrite E.
  - by left.
  - destruct (ve_status e) as [c|] eqn:E; cbn; [|left; exists e; by rewrite E].
    destruct (Z.eqb_spec c 404) as [->|Hc]; cbn; [right; eauto|].
    left. exists e. split; [done|]. rewrite E. congruence.
Qed.

End Renewal.
