(* ===== verification/SecretStores.v ===== *)
(** * The secret manager in use, and the cloud stores behind it

    The constructors of [secret_manager_aws.go], [_gcp.go] and [_azure.go], and
    the managers they make put in place of the remote store that [SecretManager]
    leaves open.  What [SecretManager] proves of any store then holds of these, in
    terms of what the cloud itself answered. *)

From S2P Require Import Prelude Json Storage World AppError Agent Vault SecretManager RemoteSecrets.
From S2P Require SetupSample.

(** ** The process-wide secret manager

    The rest of [internal/platform/config/secret_manager.go]: the package
    variable [activeSecretManager], its initialization, the exported loads that
    go through it, and the text accessor of a provider.  Before the first
    initialization every load fails; afterwards which provider is configured
    makes no difference to the value of a secret it holds. *)

(** The package variables: [activeSecretManager] ([None] is nil) and
    [SecretProvider]. *)
Record SecretState := { ss_active : option SecretManager; ss_provider : string }.

Section Access.
Context {T : GoText} {K : SecretKit} (Getenv : string -> string).

Definition initSecretManager (prefix : string) (s : SecretState) : result string () * SecretState :=
  match newSecretManager Getenv (ss_provider s) prefix with
  | Err e => (Err e, s)
  | Ok sm => (Ok (), {| ss_active := Some sm; ss_provider := ss_provider s |})
  end.

Definition notInitialized : string :=
  "secret manager not initialized; ensure initSecretManager is called first".

Definition LoadSecret (s : SecretState) (key : string) : result string string :=
  match ss_active s with
  | None => Err notInitialized
  | Some sm => loadSecret Getenv sm (ss_provider s) key
  end.
Definition LoadSecretOptional (s : SecretState) (key : string) : result string string :=
  match ss_active s with
  | None => Err notInitialized
  | Some sm => loadSecretOptional Getenv sm key
  end.
(** [string(data)] of the bytes; [string(nil)] is empty. *)
Definition LoadSecretString (s : SecretState) (key : string) : result string string :=
  data ← LoadSecret s key; Ok data.
Definition LoadSecretStringOptional (s : SecretState) (key : string) : result string string :=
  data ← LoadSecretOptional s key; Ok data.

(** The text accessor: only the file provider trims. *)
Definition GetSecretString (sm : SecretManager) (attempt : nat) (key : string) : result secret_err string :=
  match sm with
  | FileProvider basePath => data ← file_GetSecret basePath key; Ok (TrimSpace data)
  | _ => data ← GetSecret Getenv sm attempt key; Ok data
  end.

(** ** The variable *)

(** Nothing can be loaded before the first initialization; one that succeeds
    installs the configured provider, and one that fails leaves the manager of
    before, so that the secrets it serves stay available. *)
Theorem secret_manager_installed prefix s key :
  match initSecretManager prefix s with
  | (Ok _, s') => exists sm, newSecretManager Getenv (ss_provider s) prefix = Ok sm
      /\ LoadSecret s' key = loadSecret Getenv sm (ss_provider s) key
      /\ LoadSecretOptional s' key = loadSecretOptional Getenv sm key
  | (Err _, s') => LoadSecret s' key = LoadSecret s key /\ LoadSecretOptional s' key = LoadSecretOptional s key
  end
  /\ (ss_active s = None ->
      LoadSecretString s key = Err notInitialized /\ LoadSecretStringOptional s key = Err notInitialized).
Proof.
  unfold initSecretManager, LoadSecretString, LoadSecretStringOptional, LoadSecret, LoadSecretOptional.
  split; [|by intros ->]. destruct (newSecretManager _ _ _) as [sm|e]; [|done]. by exists sm.
Qed.

(** ** Providers are interchangeable *)

Lemma resolve_first sm key raw : GetSecret Getenv sm 1 key = Ok raw ->
  resolveSecret Getenv sm key = Ok (Some (raw, sourceProvider)).
Proof. intros H. unfold resolveSecret, fetchFromProvider. cbn [fetch_loop]. by rewrite H. Qed.

(** Two providers that hold the same secret, up to white space around it, serve
    the same value: one written with [echo] to a file has the newline stripped,
    and an encoded one is decoded, wherever it is stored.  The same goes for the
    name of the provider, which only errors mention. *)
Theorem providers_interchangeable sm sm' p p' key raw raw' :
  GetSecret Getenv sm 1 key = Ok raw -> GetSecret Getenv sm' 1 key = Ok raw' ->
  TrimSpace raw = TrimSpace raw' ->
  loadSecret Getenv sm p key = loadSecret Getenv sm' p' key
  /\ loadSecretOptional Getenv sm key = loadSecretOptional Getenv sm' key.
Proof.
  intros H H' Ht. unfold loadSecret, loadSecretOptional.
  rewrite (resolve_first _ _ _ H), (resolve_first _ _ _ H').
  cbn. unfold normalizeSecret. by rewrite Ht.
Qed.
End Access.

(** A secret in the environment and the same one, with a newline, in a file. *)
Definition both_places : SecretKit := {|
  os_ReadSecret _ := FileData ("base64:aGk=" +:+ String "010" EmptyString)%string;
  url_Parse _ := Err "no URL"%string; base64_Decode _ := Ok "hi"%string;
  newRemote _ _ := Err "no store"%string |}.

Lemma providers_interchangeable_witness :
  @loadSecret SetupSample.install_text both_places (fun _ => "base64:aGk=") EnvProvider "env" "HMAC_SECRET_KEY"
  = @loadSecret SetupSample.install_text both_places (fun _ => "base64:aGk=") (FileProvider "/run/secrets") "file"
      "HMAC_SECRET_KEY".
Proof.
  exact (proj1 (@providers_interchangeable SetupSample.install_text both_places (fun _ => "base64:aGk="%string)
    EnvProvider (FileProvider "/run/secrets") "env" "file" "HMAC_SECRET_KEY" _ _ eq_refl eq_refl eq_refl)).
Defined.

(** ** The cloud stores *)

(** The SDKs: loading a configuration or creating a client may fail; a client
    answers the n-th call. *)
Class CloudSdk := {
  aws_LoadDefaultConfig : string -> option string;
  aws_GetSecretValue : nat -> string -> result store_err (option string * option string);
  ssm_GetParameter : nat -> string -> result store_err (option (option string));
  gcp_NewClient : option string;
  gcp_AccessSecretVersion : nat -> string -> result store_err (option string);
  azure_NewDefaultAzureCredential : option string;
  azure_NewClient : string -> option string;
  azure_Get : nat -> string -> result store_err (option string);
}.

Definition store : Type := nat -> string -> result secret_err string.

Section Constructors.
Context {T : GoText} {C : CloudSdk}.

Definition newAWSSecretsManager (region prefix : string) : result string store :=
  match aws_LoadDefaultConfig region with
  | Some err => Err ("AWS Secrets Manager: failed to load AWS config: " +:+ err)%string
  | None => Ok (fun n => aws_GetSecret prefix (aws_GetSecretValue n))
  end.

Definition newAWSSSMSecretManager (region prefix : string) : result string store :=
  match aws_LoadDefaultConfig region with
  | Some err => Err ("AWS SSM: failed to load AWS config: " +:+ err)%string
  | None => Ok (fun n => ssm_GetSecret prefix (ssm_GetParameter n))
  end.

Definition newGCPSecretManager (projectID : string) : result string store :=
  match gcp_NewClient with
  | Some err => Err ("GCP Secret Manager: failed to create client: " +:+ err)%string
  | None => Ok (fun n => gcp_GetSecret projectID (gcp_AccessSecretVersion n))
  end.

Definition newAzureClient (vaultURL : string) : result string () :=
  match azure_NewDefaultAzureCredential with
  | Some err => Err ("azure key vault: failed to obtain credentials: " +:+ err)%string
  | None =>
      match azure_NewClient vaultURL with
      | Some err => Err ("azure key vault: failed to create client for " +:+ fmt_q vaultURL +:+ ": " +:+ err)%string
      | None => Ok ()
      end
  end.
Definition newAzureKeyVaultManager (vaultURL : string) : result string store :=
  newAzureClient vaultURL ;; Ok (fun n => azure_GetSecret (azure_Get n)).

(** The constructor each provider's arm of [newSecretManager] calls; Vault's
    manager has a state of its own and is given. *)
Definition cloud_newRemote (vault : list string -> result string store) (provider : string) (args : list string)
    : result string store :=
  match args with
  | [region; prefix] =>
      if str_eqb provider "aws_secrets" then newAWSSecretsManager region prefix
      else if str_eqb provider "aws_ssm" then newAWSSSMSecretManager region prefix
      else Err "unreachable"%string
  | [arg] =>
      if str_eqb provider "gcp" then newGCPSecretManager arg
      else if str_eqb provider "azure_kv" then newAzureKeyVaultManager arg
      else Err "unreachable"%string
  | _ => vault args
  end.

(** The kit of [SecretManager] with the cloud in place of its remote stores. *)
Definition cloud_kit (K : SecretKit) (vault : list string -> result string store) : SecretKit := {|
  os_ReadSecret := @os_ReadSecret K; url_Parse := @url_Parse K; base64_Decode := @base64_Decode K;
  newRemote := cloud_newRemote vault |}.
End Constructors.

(** ** What the cloud answered *)

(** The n-th call for [key] found the cloud saying that there is no such secret. *)
Definition cloud_absent {T : GoText} {C : CloudSdk} (provider prefix arg key : string) (n : nat) : Prop :=
  match provider with
  | "aws_secrets" => exists e, aws_GetSecretValue n (aws_secretID prefix key) = Err e /\ se_absent e = true
  | "aws_ssm" => (exists e, ssm_GetParameter n (ssm_paramPath prefix key) = Err e /\ se_absent e = true)
                 \/ ssm_GetParameter n (ssm_paramPath prefix key) = Ok None
  | "gcp" => (exists e, gcp_AccessSecretVersion n (gcp_secretVersion arg key) = Err e /\ se_absent e = true)
             \/ gcp_AccessSecretVersion n (gcp_secretVersion arg key) = Ok None
  | "azure_kv" => (exists e, azure_Get n (azure_secretName key) = Err e /\ se_absent e = true)
                  \/ azure_Get n (azure_secretName key) = Ok None
  | _ => False
  end%string.

Section Honest.
Context {T : GoText} {C : CloudSdk} (K : SecretKit) (vault : list string -> result string store).
Context (Getenv : string -> string).

(** The manager a cloud provider is given, and its argument. *)
Lemma cloud_manager provider prefix sm :
  provider ∈ ["aws_secrets"; "aws_ssm"; "gcp"; "azure_kv"]%string ->
  @newSecretManager T (cloud_kit K vault) Getenv provider prefix = Ok sm ->
  exists arg get, sm = RemoteProvider get
    /\ forall n key m, get n key = Err (SecretNotFound m) -> cloud_absent provider prefix arg key n.
Proof.
  intros Hp. repeat (apply elem_of_cons in Hp as [->|Hp]); [..|by apply elem_of_nil in Hp];
    unfold newSecretManager; cbn; unfold newAWSSecretsManager, newAWSSSMSecretManager, newGCPSecretManager,
    newAzureKeyVaultManager, newAzureClient.
  - destruct (aws_LoadDefaultConfig _); [done|]. intros [= <-]. exists ""%string. eexists. split; [done|].
    intros n key m. unfold aws_GetSecret. destruct (aws_GetSecretValue _ _) as [[[]]|e] eqn:E;
      try done; [by destruct o|]. destruct (se_absent e) eqn:Ea; [|done]. intros _. exists e. by split.
  - destruct (aws_LoadDefaultConfig _); [done|]. intros [= <-]. exists ""%string. eexists. split; [done|].
    intros n key m. unfold ssm_GetSecret. destruct (ssm_GetParameter _ _) as [[[]|]|e] eqn:E; try done.
    + intros _. by right.
    + destruct (se_absent e) eqn:Ea; [|done]. intros _. left. exists e. by split.
  - destruct (GetEnv Getenv "GCP_PROJECT_ID") as [arg|]; [|done]. cbn. unfold newGCPSecretManager.
    destruct gcp_NewClient; [done|]. intros [= <-]. exists arg. eexists. split; [done|].
    intros n key m. unfold gcp_GetSecret. destruct (gcp_AccessSecretVersion _ _) as [[]|e] eqn:E; try done.
    + intros _. by right.
    + destruct (se_absent e) eqn:Ea; [|done]. intros _. left. exists e. by split.
  - destruct (GetEnv Getenv "AZURE_KEYVAULT_URL") as [arg|]; [|done]. cbn.
    unfold newAzureKeyVaultManager, newAzureClient. destruct azure_NewDefaultAzureCredential; [done|].
    destruct (azure_NewClient arg); [done|]. intros [= <-]. exists arg. eexists. split; [done|].
    intros n key m. unfold azure_GetSecret. destruct (azure_Get _ _) as [[]|e] eqn:E; try done.
    + intros _. by right.
    + destruct (se_absent e) eqn:Ea; [|done]. intros _. left. exists e. by split.
Qed.

(** A cloud that is down, throttles or denies access is never taken for a cloud
    that has no such secret: a secret is read as unset, or the environment stands
    in for it, only when one of the at most three calls was answered with the
    store's own word that it does not exist. *)
Theorem cloud_outage_never_absent provider prefix sm key :
  provider ∈ ["aws_secrets"; "aws_ssm"; "gcp"; "azure_kv"]%string ->
  @newSecretManager T (cloud_kit K vault) Getenv provider prefix = Ok sm ->
  match @resolveSecret T (cloud_kit K vault) Getenv sm key with
  | Ok None | Ok (Some (_, sourceEnvFall)) =>
      exists arg n, (1 <= n <= 3)%nat /\ cloud_absent provider prefix arg key n
  | Ok (Some (_, sourceProvider)) | Err _ => True
  end.
Proof.
  intros Hp Hsm. destruct (cloud_manager _ _ _ Hp Hsm) as (arg & get & -> & Habs).
  pose proof (@fetch_loop_spec T (cloud_kit K vault) Getenv (RemoteProvider get) key 2 1) as H.
  unfold resolveSecret, fetchFromProvider.
  destruct (@fetch_loop _ _ _ _ _ _ _) as [r calls]. destruct H as (H1 & _ & H3). cbn [fst].
  destruct r as [raw|[m|m]]; [done| |done]. cbn in H3.
  assert (Hex : exists arg n, (1 <= n <= 3)%nat /\ cloud_absent provider prefix arg key n)
    by (exists arg, calls; split; [lia|by eapply Habs]).
  repeat case_match; done.
Qed.
End Honest.
