(* ===== verification/Bootstrap.v ===== *)
(** * Boot

    [cmd/server/bootstrap.go] with [app.New], the TLS configuration of the
    gateway listener ([internal/grpcserver/mtls.go]) and the self-probe's address:
    the order in which a process comes up, the posture it comes up with, and what
    stops it.

    Telemetry, the connection pool, the migrations and the sdk's verifier are
    parameters ([BootKit]); the background loops and the two listeners are events
    of the trace, the components themselves being modelled elsewhere. *)

From S2P Require Import Prelude Json Storage World AppError Queries Agent Keys SetupConfig Vault.
From S2P Require Import SecretManager Config ControlClient Runner SetupHandler Capabilities.
From S2P Require Gateway Steward Authz Dependency Supervisor SetupSample.

(** Errors of the steps that are not modelled; [None] is success. *)
Class BootKit := {
  InitLogs : option string;
  initTelemetry : option string;
  NewPool : option string;
  RunMigrations : option string;
  NewVerifier : string -> string -> string -> result string Authz.Verifier;
}.

(** ** Addresses *)

(** [portOrDefault] of the REST server, and of the self-probe. *)
Definition portOrDefault (v def : string) : string :=
  if is_empty v then def else if negb (HasPrefix v ":") then ":" +:+ v else v.
Definition self_portOrDefault (v def : string) : string :=
  match v with
  | EmptyString => def
  | String a _ => if negb (Ascii.eqb a ":") then ":" +:+ v else v
  end.
Definition selfReadyz_url (Getenv : string -> string) : string :=
  "http://127.0.0.1" +:+ self_portOrDefault (Getenv "HTTP_PORT"%string) ":8080" +:+ "/readyz".
Definition grpcListenAddr (Getenv : string -> string) : string :=
  let p := Getenv "GRPC_PORT"%string in
  let p := if is_empty p then "8081"%string else p in
  if negb (HasPrefix p ":") then ":" +:+ p else p.

(** ** Postures *)

Definition missingAuthVars (c : Settings) : list string :=
  (if is_empty (AuthJWKSURL c) then ["AUTH_JWKS_URL"] else [])
  ++ (if is_empty (AuthIssuer c) then ["AUTH_ISSUER"] else [])
  ++ (if is_empty (AuthAudience c) then ["AUTH_AUDIENCE"] else []).

(** [None] is a nil verifier. *)
Definition buildVerifier {B : BootKit} (c : Settings) : option Authz.Verifier :=
  match missingAuthVars c with
  | [] => match NewVerifier (AuthJWKSURL c) (AuthIssuer c) (AuthAudience c) with
          | Ok v => Some v
          | Err _ => None
          end
  | _ => None
  end.

Record GrpcGuard := {
  gg_Mode : Gateway.GuardMode; gg_Verify : option Gateway.VerifyFunc; gg_Reason : string;
  gg_Dev : bool }.

(** [grpcserver.SDKVerify]. *)
Definition grpc_SDKVerify (v : Authz.Verifier) : Gateway.VerifyFunc := fun token =>
  match v token with
  | Err e => Err e
  | Ok c => Ok (Some {|
      Gateway.cl_Subject := Authz.sc_Subject c; Gateway.cl_Scopes := Authz.sc_Scopes c;
      Gateway.cl_Permissions := match obj_get "permissions" (Authz.sc_Raw c) with
        | Some (VArr raw) => omap (fun p => match p with VStr s => Some s | _ => None end) raw
        | _ => []
        end |})
  end.

Definition resolveGRPCGuard (missing : list string) (verifier : option Authz.Verifier) (dev : bool)
    : GrpcGuard :=
  match verifier with
  | None =>
      let reason := match missing with
                    | [] => "token verifier failed to initialize"%string
                    | _ => "missing/unusable " +:+ String.concat ", " missing
                    end in
      if dev
      then {| gg_Mode := Gateway.GuardDevOpen; gg_Verify := None; gg_Reason := reason; gg_Dev := true |}
      else {| gg_Mode := Gateway.GuardHealthOnly; gg_Verify := None; gg_Reason := reason; gg_Dev := false |}
  | Some v =>
      {| gg_Mode := Gateway.GuardEnforced; gg_Verify := Some (grpc_SDKVerify v); gg_Reason := "";
         gg_Dev := dev |}
  end.

(** ** The gateway's listener *)

Record TLSOptions := {
  to_CertFile : string; to_KeyFile : string; to_ClientCAFile : string; to_RequireClientCert : bool }.

(** The server's keypair and the pool client certificates are verified against,
    when one is given ([VerifyClientCertIfGiven]). *)
Record ServerTLS {K : Transport} := { st_Certificate : Certificate; st_ClientCAs : option string }.

Section Listener.
Context {T : GoText} {K : Transport}.

Definition loadCertPool (path : string) : result string string :=
  match os_ReadFile path with
  | Err e => Err ("read client CA file " +:+ fmt_q path +:+ ": " +:+ e)
  | Ok pemBytes =>
      if negb (AppendCertsFromPEM pemBytes)
      then Err ("client CA file " +:+ fmt_q path +:+ " contains no PEM certificate")
      else Ok pemBytes
  end%string.

Definition serverTLSConfig (o : TLSOptions) : result string (option ServerTLS) :=
  if is_empty (to_CertFile o) && is_empty (to_KeyFile o) && is_empty (to_ClientCAFile o) then Ok None
  else if is_empty (to_CertFile o) || is_empty (to_KeyFile o) then
    Err "GRPC_TLS_CERT_FILE and GRPC_TLS_KEY_FILE are required when gRPC TLS is configured"
  else match LoadX509KeyPair (to_CertFile o) (to_KeyFile o) with
  | Err e => Err ("load gRPC TLS keypair: " +:+ e)
  | Ok cert =>
      pool ← (if negb (is_empty (to_ClientCAFile o))
              then p ← loadCertPool (to_ClientCAFile o); Ok (Some p) else Ok None);
      if to_RequireClientCert o && is_empty (to_ClientCAFile o) then
        Err "GRPC_CLIENT_CA_FILE is required when client certificates are required"
      else Ok (Some {| st_Certificate := cert; st_ClientCAs := pool |})
  end%string.
End Listener.

(** ** Wiring *)

(** What [app.New] puts together. *)
Record App := {
  ap_SetupCfg : SetupConfig.Config; ap_SecretClient : option VaultConfig;
  ap_Outbound : CtrlConfig; ap_Credentials : Credentials; ap_Catalog : Steward.Catalog;
  ap_SetupGate : Gate }.

Definition app_New (Getenv : string -> string) (c : Settings) (gate : Gate) : App :=
  let setupCfg := LoadConfig Getenv in
  let secretClient := Vault.New {| vc_BaseURL := SecretBaseURL c; vc_Audience := SecretAudience setupCfg;
                                   vc_Timeout := DependencyProbeTimeout c; vc_Tenant := "" |} in
  {| ap_SetupCfg := setupCfg;
     ap_SecretClient := secretClient;
     ap_Outbound := ob_cfg (NewOutboundTokens (LoadCtrlConfig Getenv) (SecretAudience setupCfg)
                              ["secret:PutSecret"%string]);
     ap_Credentials := {| cr_client := secretClient; cr_project := SecretProject_ c;
                          cr_environment := SecretEnvironment_ c |};
     ap_Catalog := Steward.BuiltinCatalog (AudienceFor setupCfg);
     ap_SetupGate := gate |}.

Definition authorizePageURL (identityOrigin : string) : string :=
  let origin := trim_right_slashes (TrimSpace identityOrigin) in
  if is_empty origin then "" else origin +:+ "/authorize".

(** The setup orchestrator [app.New] builds is never nil. *)
Definition capabilityInfo (c : Settings) : CapabilityInfo := {|
  ci_Version := AppVersion c; ci_AuthIssuer := AuthIssuer c; ci_AuthAudience := AuthAudience c;
  ci_AuthTokenEndpoint := AuthTokenURL c;
  ci_AuthAuthorizeEndpoint := authorizePageURL (AppFrontendIdentityHostname c); ci_Setup := true |}.

(** ** The sequence *)

Inductive boot_event :=
  | EvLogs | EvTelemetry | EvPool | EvMigrated | EvModeChecked
  | EvDependencies (probes : list Dependency.Probe)
  | EvSetup | EvSecretSetup | EvSteward | EvSupervisor (o : Supervisor.Options)
  | EvListenHTTP (addr : string) | EvListenGRPC (addr : string).

(** What the two listeners are started with. *)
Record Launch := {
  la_Settings : Settings; la_App : App; la_HTTPGuard : Authz.Guard; la_GRPCGuard : GrpcGuard;
  la_Gateway : Gateway.Options; la_TLS : TLSOptions; la_Capabilities : CapabilityInfo }.

Section Run.
Context {T : GoText} {K : SecretKit} {Tr : Transport} {B : BootKit}.
Context (ParseDuration : string -> result string Z) (buildVersion : string) (Getenv : string -> string).

(** [None] is nil. *)
Definition readOptionalFile (label path : string) : result string (option string) :=
  if is_empty path then Ok None
  else match os_ReadFile path with
  | Ok b => Ok (Some b)
  | Err e => Err ("read " +:+ label +:+ " " +:+ fmt_q path +:+ ": " +:+ e)%string
  end.

(** The stamp of the install record against the configured mode. *)
Definition check_stamp (c : Settings) (row : ControlPlaneRow) : result string () :=
  if negb (is_empty (cp_DeploymentMode row)) && negb (str_eqb (cp_DeploymentMode row) (DeploymentMode_ c))
  then Err ("DEPLOYMENT_MODE=" +:+ fmt_q (DeploymentMode_ c)
            +:+ " conflicts with the immutable install record (stamped " +:+ fmt_q (cp_DeploymentMode row)
            +:+ " at setup); restore the original value — changing substrates requires a migration, not a config change")%string
  else Ok ().
Definition verifyDeploymentMode (c : Settings) : M string () := fun w =>
  match GetControlPlane w with
  | (Err ErrNoRows, w) => (Ok (), w)
  | (Err e, w) => (Err ("read control plane install record: " +:+ dberr_Error e)%string, w)
  | (Ok row, w) => (check_stamp c row, w)
  end.

Definition supervisor_options (c : Settings) : Supervisor.Options := {|
  Supervisor.o_Interval := SupervisorInterval c; Supervisor.o_AgentOfflineAfter := AgentOfflineAfter c;
  Supervisor.o_StaleAfter := SupervisorStaleAfter c;
  Supervisor.o_EscalateAfter := SupervisorEscalateAfter c;
  Supervisor.o_DeploymentMode := DeploymentMode_ c |}.

(** The postures, the wiring and the loops that run in the background. *)
Definition launch (c : Settings) (cert key : option string) : Launch :=
  let dev := str_eqb (AppEnv c) "development" in
  let verifier := buildVerifier c in
  let httpGuard := Authz.resolveHTTPGuard (missingAuthVars c) verifier dev in
  let grpcGuard := resolveGRPCGuard (missingAuthVars c) verifier dev in
  let enforced := match gg_Mode grpcGuard with Gateway.GuardEnforced => true | _ => false end in
  {| la_Settings := c;
     la_App := app_New Getenv c {| gt_Token := CoreSetupToken c; gt_Dev := dev;
                                   gt_Verify := Authz.g_Verify httpGuard |};
     la_HTTPGuard := httpGuard; la_GRPCGuard := grpcGuard;
     la_Gateway := Gateway.gateway_options {|
       Gateway.g_EnforceBinding := enforced; Gateway.g_LeaseTTL := GatewayLeaseTTL c;
       Gateway.g_AttemptBudget := GatewayAttemptBudget c;
       Gateway.g_AgentCACertPEM := default ""%string cert; Gateway.g_AgentCAKeyPEM := default ""%string key;
       Gateway.g_AgentCertTTL := AgentCertTTL c |};
     la_TLS := {| to_CertFile := GRPCTLSCertFile c; to_KeyFile := GRPCTLSKeyFile c;
                  to_ClientCAFile := GRPCClientCAFile c;
                  to_RequireClientCert := negb (is_empty (GRPCClientCAFile c)) && enforced |};
     la_Capabilities := capabilityInfo c |}.

Definition background (c : Settings) (a : App) : list boot_event :=
  [EvDependencies (Dependency.dependencyProbes (negb (is_empty (AuthJWKSURL c)))
                     (match ap_SecretClient a with Some _ => true | None => false end))]
  ++ (if Enabled (ap_SetupCfg a) then [EvSetup] else [])
  ++ [EvSecretSetup; EvSteward; EvSupervisor (supervisor_options c)].

(** The steps up to the check of the install record. *)
Definition boot_steps : list (string * option string * boot_event) :=
  [("initialize OpenTelemetry logging: ", InitLogs, EvLogs); ("", initTelemetry, EvTelemetry);
   ("initialize database: ", NewPool, EvPool); ("run database migrations: ", RunMigrations, EvMigrated)]%string.
Fixpoint run_steps (steps : list (string * option string * boot_event)) (done : list boot_event)
    : result string () * list boot_event :=
  match steps with
  | [] => (Ok (), done)
  | (label, Some e, _) :: _ => (Err (label +:+ e)%string, done)
  | (_, None, ev) :: steps => run_steps steps (done ++ [ev])
  end.

(** [run], up to the point where the two listeners are started. *)
Definition run (w : World) : result string Launch * list boot_event * World :=
  match Init ParseDuration buildVersion Getenv with
  | Err e => (Err ("load configuration: " +:+ e)%string, [], w)
  | Ok c =>
      match run_steps boot_steps [] with
      | (Err e, done) => (Err e, done, w)
      | (Ok _, done) =>
          match verifyDeploymentMode c w with
          | (Err e, w) => (Err e, done, w)
          | (Ok _, w) =>
              let started := done ++ [EvModeChecked] ++ background c (la_App (launch c None None)) in
              match readOptionalFile "AGENT_CA_CERT_FILE" (AgentCACertFile c) with
              | Err e => (Err e, started, w)
              | Ok cert =>
                  match readOptionalFile "AGENT_CA_KEY_FILE" (AgentCAKeyFile c) with
                  | Err e => (Err e, started, w)
                  | Ok key =>
                      (Ok (launch c cert key),
                       started ++ [EvListenHTTP (portOrDefault (Getenv "HTTP_PORT"%string) ":8080");
                                   EvListenGRPC (grpcListenAddr Getenv)], w)
                  end
              end
          end
      end
  end.
End Run.

(** ** Claims *)

Definition listens (e : boot_event) : bool :=
  match e with EvListenHTTP _ | EvListenGRPC _ => true | _ => false end.

Section BootClaims.
Context {T : GoText} {K : SecretKit} {Tr : Transport} {B : BootKit}.
Context (ParseDuration : string -> result string Z) (buildVersion : string) (Getenv : string -> string).

Lemma run_steps_silent done r evs :
  run_steps boot_steps done = (r, evs) -> Forall (fun e => listens e = false) done ->
  Forall (fun e => listens e = false) evs.
Proof.
  unfold boot_steps. cbn [run_steps]. intros E Hd.
  destruct InitLogs; [by injection E as _ <-|]. destruct initTelemetry; [injection E as _ <-|].
  { apply Forall_app. by split; repeat constructor. }
  destruct NewPool; [injection E as _ <-|]. { rewrite !Forall_app. by repeat constructor. }
  destruct RunMigrations; injection E as _ <-; rewrite !Forall_app; by repeat constructor.
Qed.

Lemma background_silent c a : Forall (fun e => listens e = false) (background c a).
Proof. unfold background. destruct (Enabled _); by repeat constructor. Qed.

(** The check passes only when the stamped mode of the install record, if there
    is one, is the configured one. *)
Lemma mode_verified c w w' : verifyDeploymentMode c w = (Ok (), w') ->
  w_db w' = w_db w
  /\ forall row, control_plane (w_db w) = Some row ->
       cp_DeploymentMode row = ""%string \/ cp_DeploymentMode row = DeploymentMode_ c.
Proof.
  assert (Hs : forall row, check_stamp c row = Ok () ->
    cp_DeploymentMode row = ""%string \/ cp_DeploymentMode row = DeploymentMode_ c).
  { intros row. unfold check_stamp. destruct (negb _ && _) eqn:En; [done|]. intros _.
    apply andb_false_iff in En as [En|En]; apply negb_false_iff, str_eqb_eq in En; auto. }
  unfold verifyDeploymentMode, GetControlPlane, query.
  destruct (w_faults w) as [|[] ?]; try done; cbn; record_simpl;
    (destruct (control_plane (w_db w)) as [row|] eqn:E; cbn;
     [intros [= Hc <-]; split; [done|]; intros ? [= <-]; auto|intros [= <-]; done]).
Qed.

Lemma mode_reads c w : w_db (snd (verifyDeploymentMode c w)) = w_db w.
Proof.
  unfold verifyDeploymentMode, GetControlPlane, query.
  destruct (w_faults w) as [|[] ?]; cbn; try done; by destruct (control_plane (w_db w)).
Qed.

Lemma steps_migrated evs : run_steps boot_steps [] = (Ok (), evs) -> EvMigrated ∈ evs.
Proof.
  unfold boot_steps. cbn [run_steps]. destruct InitLogs, initTelemetry, NewPool, RunMigrations; try done.
  intros [= <-]. cbn. by do 3 right; left.
Qed.

(** Outside development a launch is enforced on both surfaces, or closed. *)
Lemma launch_posture c cert key : AppEnv c <> "development"%string ->
  let l := launch Getenv c cert key in
  gt_Dev (ap_SetupGate (la_App l)) = false /\ gg_Dev (la_GRPCGuard l) = false
  /\ match buildVerifier c with
     | Some v =>
         Authz.g_Mode (la_HTTPGuard l) = Authz.ModeEnforced
         /\ Authz.g_Verify (la_HTTPGuard l) = Some (Authz.SDKVerify v)
         /\ gg_Mode (la_GRPCGuard l) = Gateway.GuardEnforced
         /\ gg_Verify (la_GRPCGuard l) = Some (grpc_SDKVerify v)
         /\ Gateway.g_EnforceBinding (la_Gateway l) = true
         /\ to_RequireClientCert (la_TLS l) = negb (is_empty (GRPCClientCAFile c))
     | None =>
         Authz.g_Mode (la_HTTPGuard l) = Authz.ModeUnavailable
         /\ gg_Mode (la_GRPCGuard l) = Gateway.GuardHealthOnly
     end.
Proof.
  intros Hd%str_eqb_neq. cbv zeta. unfold launch. rewrite Hd.
  destruct (buildVerifier c) as [v|]; cbn; [|done].
  rewrite andb_true_r. done.
Qed.


(** *** Settings without effect *)

Definition with_grpc_flags (enabled mtls : bool) (c : Settings) : Settings :=
  {| AppEnv := AppEnv c; AppVersion := AppVersion c; AppPublicHostname := AppPublicHostname c;
     AppPrivateHostname := AppPrivateHostname c; ManagementPort := ManagementPort c;
     GRPCTLSCertFile := GRPCTLSCertFile c; GRPCTLSKeyFile := GRPCTLSKeyFile c;
     GRPCClientCAFile := GRPCClientCAFile c; GRPCRequireMTLS := mtls;
     ControlPlaneEnabled := ControlPlaneEnabled c; GRPCEnabled := enabled; InstanceRole := InstanceRole c;
     SetupWindowTTL := SetupWindowTTL c; SetupBootstrapToken := SetupBootstrapToken c;
     CoreSetupToken := CoreSetupToken c; AuthJWKSURL := AuthJWKSURL c; AuthIssuer := AuthIssuer c;
     AuthAudience := AuthAudience c; AuthTokenURL := AuthTokenURL c; SecretBaseURL := SecretBaseURL c;
     SecretProject_ := SecretProject_ c; SecretEnvironment_ := SecretEnvironment_ c;
     DependencyProbeTimeout := DependencyProbeTimeout c; DeploymentMode_ := DeploymentMode_ c;
     GatewayLeaseTTL := GatewayLeaseTTL c; GatewayAttemptBudget := GatewayAttemptBudget c;
     SupervisorInterval := SupervisorInterval c; AgentOfflineAfter := AgentOfflineAfter c;
     SupervisorStaleAfter := SupervisorStaleAfter c; SupervisorEscalateAfter := SupervisorEscalateAfter c;
     AgentCACertFile := AgentCACertFile c; AgentCAKeyFile := AgentCAKeyFile c;
     AgentCertTTL := AgentCertTTL c; AppFrontendIdentityHostname := AppFrontendIdentityHostname c;
     AppFrontendConsoleHostname := AppFrontendConsoleHostname c; JWTPrivateKey := JWTPrivateKey c;
     JWTPublicKey := JWTPublicKey c; JWTKeyRotationPeriodSeconds := JWTKeyRotationPeriodSeconds c;
     SecretRefreshPeriodSeconds := SecretRefreshPeriodSeconds c; AppEncryptionKey := AppEncryptionKey c;
     HMACSecretKey := HMACSecretKey c; SecretProvider := SecretProvider c; SecretPrefix := SecretPrefix c;
     DBHost := DBHost c; DBPort := DBPort c; DBUser := DBUser c; DBPassword := DBPassword c;
     DBName := DBName c; DBSSLMode := DBSSLMode c; DBMaxOpenConns := DBMaxOpenConns c;
     DBMaxIdleConns := DBMaxIdleConns c; DBConnMaxLifetimeSec := DBConnMaxLifetimeSec c;
     DBStatementTimeoutMs := DBStatementTimeoutMs c; CookieSecure := CookieSecure c;
     CookieSameSite := CookieSameSite c; CookieDomain := CookieDomain c; LogLevel := LogLevel c |}.

(** GRPC_ENABLED and GRPC_REQUIRE_MTLS change nothing about what is started:
    the gateway's listener, its guard and its TLS options are the same. *)
Lemma grpc_flags_inert enabled mtls c cert key :
  let l := launch Getenv c cert key in
  let l' := launch Getenv (with_grpc_flags enabled mtls c) cert key in
  la_HTTPGuard l' = la_HTTPGuard l /\ la_GRPCGuard l' = la_GRPCGuard l /\ la_Gateway l' = la_Gateway l
  /\ la_TLS l' = la_TLS l
  /\ background (with_grpc_flags enabled mtls c) (la_App l') = background c (la_App l).
Proof. done. Qed.

(** The self-probe asks where the REST server listens. *)
Lemma self_probe_address v def : self_portOrDefault v def = portOrDefault v def.
Proof.
  destruct v as [|a v]; [done|]. unfold portOrDefault, self_portOrDefault, HasPrefix. cbn [is_empty str_eqb String.eqb String.prefix].
  destruct (Ascii.eqb_spec a ":") as [->|Hne]; [by destruct v|].
  destruct (ascii_dec ":" a); [congruence|done].
Qed.
End BootClaims.

(** ** A production boot *)

Section Sample.
#[local] Existing Instance SetupSample.install_text.
#[local] Existing Instance plain_secrets.
#[local] Existing Instance SetupSample.install_transport.
Definition healthy_kit : BootKit := {|
  InitLogs := None; initTelemetry := None; NewPool := None; RunMigrations := None;
  NewVerifier _ _ _ := Ok Authz.demo_verifier |}.
#[local] Existing Instance healthy_kit.

(** It enforces on both surfaces, starts its loops and then listens. *)
Lemma production_boot :
  match run minute "" production_env Capabilities.first_world with
  | (Ok l, evs, _) =>
      gg_Mode (la_GRPCGuard l) = Gateway.GuardEnforced
      /\ Authz.g_Mode (la_HTTPGuard l) = Authz.ModeEnforced /\ to_RequireClientCert (la_TLS l) = false
      /\ length (List.filter listens evs) = 2%nat /\ length evs = 11%nat
  | _ => False
  end.
Proof. vm_compute. split_and!; reflexivity. Qed.
End Sample.
