(* ===== verification/Serving.v ===== *)
(** * The two listeners, their end, and the process

    The last lines of [cmd/server/bootstrap.go] ([run]): the REST server
    ([internal/server/server.go], [StartRESTServer]) and the gRPC server
    ([internal/grpcserver/server.go], [Serve]) run in one [errgroup], share its
    context, and end together; [cmd/server/main.go] turns what [run] returns into
    the exit status, and is also the health check of the image
    ([cmd/server/selfcheck.go]).  The goroutines interleave, so this is a step
    relation; what the network and the operating system do (a listener that fails,
    an RPC that ends, a drain that takes too long, a signal) are its free choices.
    At the end [run] is put together: its steps, which [Bootstrap] leaves open, are
    those of the telemetry, the pool, the migrations and the loggers, and each
    [defer] is in its place. *)

From S2P Require Import Prelude.
From S2P Require Import Json Storage World Agent SetupConfig Vault SecretManager Config.
From S2P Require Bootstrap Dependency Telemetry Connections LogPipeline.

(** [StartRESTServer]: an error of [ListenAndServe] waits in a channel until the
    select receives it; once the context is done, [Shutdown] drains. *)
Inductive rest_state :=
  | RestServing
  | RestFailed (e : string)
  | RestDraining
  | RestReturned (err : option string).

(** [Serve]: a goroutine waits for the context and calls [GracefulStop], which
    returns, and makes [gs.Serve] return nil, when no call is pending. *)
Inductive grpc_state :=
  | GrpcServing (pending : nat)
  | GrpcStopping (pending : nat)
  | GrpcReturned (err : option string).

(** The state of the group: whether a signal came, whether its context is done,
    and the first error a member returned, which is what [g.Wait] answers. *)
Record group := {
  gr_signalled : bool; gr_done : bool; gr_err : option string;
  gr_rest : rest_state; gr_grpc : grpc_state }.
#[global] Instance group_eta : EtaRecord group := fun g =>
  Build_group (gr_signalled g) (gr_done g) (gr_err g) (gr_rest g) (gr_grpc g).

Definition started : group := Build_group false false None RestServing (GrpcServing 0).

(** A member of the group that returns: the first error is kept and cancels the
    context; a nil leaves both alone. *)
Definition member_returns (err : option string) (g : group) : group :=
  match err with
  | None => g
  | Some e =>
      g <| gr_err := match gr_err g with Some e0 => Some e0 | None => Some e end |> <| gr_done := true |>
  end.

Inductive step : group -> group -> Prop :=
  (* SIGINT or SIGTERM cancels the context the group's one is derived from *)
  | step_signal g : step g (g <| gr_signalled := true |> <| gr_done := true |>)
  | step_rest_fails g e : gr_rest g = RestServing -> step g (g <| gr_rest := RestFailed e |>)
  | step_rest_reported g e : gr_rest g = RestFailed e ->
      step g (member_returns (Some e) (g <| gr_rest := RestReturned (Some e) |>))
  | step_rest_shutdown g : gr_done g = true ->
      (gr_rest g = RestServing \/ exists e, gr_rest g = RestFailed e) ->
      step g (g <| gr_rest := RestDraining |>)
  | step_rest_drained g err : gr_rest g = RestDraining ->
      step g (member_returns err (g <| gr_rest := RestReturned err |>))
  | step_call g n : gr_grpc g = GrpcServing n -> step g (g <| gr_grpc := GrpcServing (S n) |>)
  | step_call_ends g n : gr_grpc g = GrpcServing (S n) -> step g (g <| gr_grpc := GrpcServing n |>)
  | step_grpc_fails g n e : gr_grpc g = GrpcServing n ->
      step g (member_returns (Some e) (g <| gr_grpc := GrpcReturned (Some e) |>))
  | step_grpc_stop g n : gr_done g = true -> gr_grpc g = GrpcServing n ->
      step g (g <| gr_grpc := GrpcStopping n |>)
  | step_last_calls g n : gr_grpc g = GrpcStopping (S n) -> step g (g <| gr_grpc := GrpcStopping n |>)
  | step_grpc_stopped g : gr_grpc g = GrpcStopping 0 ->
      step g (member_returns None (g <| gr_grpc := GrpcReturned None |>)).

(** [g.Wait] answers once both members returned. *)
Definition Wait (g : group) : option (option string) :=
  match gr_rest g, gr_grpc g with RestReturned _, GrpcReturned _ => Some (gr_err g) | _, _ => None end.

(** How [main] ends: 0, or 1 with an error. *)
Definition exit_status (err : option string) : Z := match err with None => 0 | Some _ => 1 end.

(** ** The listeners fall together *)

Definition rest_over (g : group) : bool :=
  match gr_rest g with RestDraining | RestReturned _ => true | _ => false end.
Definition grpc_over (g : group) : bool :=
  match gr_grpc g with GrpcServing _ => false | _ => true end.

Record group_ok (g : group) : Prop := {
  go_rest : rest_over g = true -> gr_done g = true;
  go_grpc : grpc_over g = true -> gr_done g = true;
  go_cause : gr_done g = true -> gr_signalled g = true \/ is_Some (gr_err g);
  go_error : is_Some (gr_err g) -> gr_done g = true;
  go_rest_err : forall e, gr_rest g = RestReturned (Some e) -> is_Some (gr_err g);
  go_grpc_err : forall e, gr_grpc g = GrpcReturned (Some e) -> is_Some (gr_err g) }.

Lemma step_ok g g' : step g g' -> group_ok g -> group_ok g'.
Proof.
  intros H [R G C E RE GE].
  destruct H as [g|g e Hr|g e Hr|g Hd Hr|g err Hr|g n Hg|g n Hg|g n e Hg|g n Hd Hg|g n Hg|g Hg];
    [..|]; unfold rest_over, grpc_over, member_returns in *.
  - by split; cbn; auto.
  - split; cbn; auto; done.
  - split; cbn; auto; destruct (gr_err g); eauto.
  - split; cbn; auto; done.
  - assert (Hd : gr_done g = true) by (apply R; by rewrite Hr).
    destruct err as [e|]; split; cbn; auto; try (destruct (gr_err g); eauto); done.
  - split; cbn; auto; done.
  - split; cbn; auto; done.
  - split; cbn; auto; destruct (gr_err g); eauto.
  - split; cbn; auto; done.
  - assert (Hd : gr_done g = true) by (apply G; by rewrite Hg). split; cbn; auto; done.
  - assert (Hd : gr_done g = true) by (apply G; by rewrite Hg). split; cbn; auto; done.
Qed.

Lemma steps_ok g g' : rtc step g g' -> group_ok g -> group_ok g'.
Proof. induction 1; eauto using step_ok. Qed.
Lemma started_ok : group_ok started.
Proof. by split; cbn; try (intros [? ?]). Qed.

(** Neither listener survives the other, and the process does not end on its own
    with success.  However the goroutines interleave: once one of the two has
    stopped serving, the context is done, so that the other stops as well; and if
    [run] returns nil, and the exit status is 0, a signal asked for it.  An error
    either server returned is never lost. *)
Theorem listeners_fall_together g : rtc step started g ->
  ((rest_over g = true \/ grpc_over g = true) -> gr_done g = true)
  /\ (forall err, Wait g = Some err -> exit_status err = 0 -> gr_signalled g = true)
  /\ (forall e err, (gr_rest g = RestReturned (Some e) \/ gr_grpc g = GrpcReturned (Some e)) ->
        Wait g = Some err -> exit_status err = 1).
Proof.
  intros H. destruct (steps_ok _ _ H started_ok) as [R G C E RE GE]. split_and!.
  - intros [?|?]; auto.
  - intros err Hw Hx. unfold Wait in Hw.
    destruct (gr_rest g) as [| | |e1] eqn:Er; try done. destruct (gr_grpc g) eqn:Eg; try done.
    injection Hw as <-. assert (Hd : gr_done g = true) by (apply R; unfold rest_over; by rewrite Er).
    destruct (C Hd) as [?|[e He]]; [done|]. by rewrite He in Hx.
  - intros e err He Hw. assert (Hs : is_Some (gr_err g)) by (destruct He; eauto).
    unfold Wait in Hw. destruct (gr_rest g), (gr_grpc g); try done. injection Hw as <-.
    by destruct Hs as [e0 ->].
Qed.

(** ** Shutdown ends *)

(** What is left to do once the context is done; the calls that are pending count,
    because nothing bounds how long [GracefulStop] waits for them. *)
Definition rest_left (s : rest_state) : nat :=
  match s with RestServing => 3 | RestFailed _ => 2 | RestDraining => 1 | RestReturned _ => 0 end.
Definition grpc_left (s : grpc_state) : nat :=
  match s with GrpcServing n => n + 2 | GrpcStopping n => n + 1 | GrpcReturned _ => 0 end.
Definition left_to_do (g : group) : nat := rest_left (gr_rest g) + grpc_left (gr_grpc g).

(** A step that neither repeats the signal nor accepts a new call. *)
Definition winds_down (g g' : group) : Prop :=
  step g g' /\ (left_to_do g' < left_to_do g)%nat.

(** Once the context is done, there is always such a step until both servers have
    returned, and every run of them is finite: [run] returns after at most as many
    as are left to do, provided the pending calls end. *)
Theorem shutdown_completes g : gr_done g = true ->
  exists g', rtc winds_down g g' /\ is_Some (Wait g').
Proof.
  remember (left_to_do g) as k eqn:Ek. revert g Ek.
  induction k as [k IH] using lt_wf_ind. intros g -> Hd.
  destruct (Wait g) as [err|] eqn:Ew; [exists g; split; [reflexivity|eauto]|].
  assert (Hs : exists g', winds_down g g' /\ gr_done g' = true).
  { unfold Wait in Ew. destruct (gr_rest g) as [| | |er] eqn:Er.
    - exists (g <| gr_rest := RestDraining |>). split; [|done]. split; [apply step_rest_shutdown; auto|].
      unfold left_to_do. cbn. rewrite Er. cbn. lia.
    - exists (g <| gr_rest := RestDraining |>). split; [|done]. split; [apply step_rest_shutdown; eauto|].
      unfold left_to_do. cbn. rewrite Er. cbn. lia.
    - exists (member_returns None (g <| gr_rest := RestReturned None |>)). split; [|done].
      split; [by apply step_rest_drained|]. unfold left_to_do. cbn. rewrite Er. cbn. lia.
    - destruct (gr_grpc g) as [n|[|n]|] eqn:Eg; try done.
      + exists (g <| gr_grpc := GrpcStopping n |>). split; [|done]. split; [by apply step_grpc_stop|].
        unfold left_to_do. cbn. rewrite Eg. cbn. lia.
      + exists (member_returns None (g <| gr_grpc := GrpcReturned None |>)). split; [|done].
        split; [by apply step_grpc_stopped|]. unfold left_to_do. cbn. rewrite Eg. cbn. lia.
      + exists (g <| gr_grpc := GrpcStopping n |>). split; [|done]. split; [by apply step_last_calls|].
        unfold left_to_do. cbn. rewrite Eg. cbn. lia. }
  destruct Hs as (g1 & Hstep & Hd1). destruct (IH (left_to_do g1) (proj2 Hstep) g1 eq_refl Hd1) as (g' & H1 & H2).
  exists g'. split; [by eapply rtc_l|done].
Qed.

(** The winding down cannot go on for ever. *)
Theorem winding_down_ends : well_founded (flip winds_down).
Proof.
  apply (wf_projected lt left_to_do); [|apply lt_wf]. intros g' g [_ H]. exact H.
Qed.

(** A listen error the select has not received yet is dropped when the context is
    done first: the group then answers nil. *)
Lemma late_listen_error_dropped :
  exists g, rtc step started g /\ Wait g = Some None
    /\ exists g0 e, rtc step started g0 /\ rtc step g0 g /\ gr_rest g0 = RestFailed e.
Proof.
  set (g1 := Build_group false false None (RestFailed "address already in use") (GrpcServing 0)).
  set (g2 := Build_group true true None (RestFailed "address already in use") (GrpcServing 0)).
  assert (H1 : step started g1) by (apply (step_rest_fails started); done).
  assert (H2 : rtc step g1 (Build_group true true None (RestReturned None) (GrpcReturned None))).
  { eapply rtc_l; [apply step_signal|]. eapply rtc_l; [apply step_rest_shutdown; cbn; eauto|].
    eapply rtc_l; [by apply step_rest_drained with (err := None)|].
    eapply rtc_l; [by apply step_grpc_stop|]. eapply rtc_l; [by apply step_grpc_stopped|]. reflexivity. }
  eexists. split; [eapply rtc_l; [exact H1|exact H2]|]. split; [done|].
  exists g1, "address already in use"%string. split; [by apply rtc_once|]. by split.
Qed.

(** ** The health check *)

(** [selfReadyz]: [newRequest] is the error of building the request, [Do] the
    status the client got or its error. *)
Definition selfReadyz (Getenv : string -> string) (newRequest : string -> option string)
    (Do : string -> result string Z) : option string :=
  let url := Bootstrap.selfReadyz_url Getenv in
  match newRequest url with
  | Some err => Some err
  | None =>
      match Do url with
      | Err err => Some err
      | Ok code => if negb (code =? 200) then Some ("readyz answered " +:+ pretty code) else None
      end
  end.

(** [main] with the arguments of the process, what the self-probe and what [run]
    would return. *)
Definition main (args : list string) (self run : option string) : Z :=
  match args with
  | _ :: arg :: _ => exit_status (if str_eqb arg "readyz" then self else run)
  | _ => exit_status run
  end.

Lemma selfReadyz_nil Getenv newRequest Do :
  selfReadyz Getenv newRequest Do = None <->
  newRequest (Bootstrap.selfReadyz_url Getenv) = None /\ Do (Bootstrap.selfReadyz_url Getenv) = Ok 200.
Proof.
  unfold selfReadyz. destruct (newRequest _); [by split; [|intros []]|].
  destruct (Do _) as [code|e]; [|by split; [|intros []]].
  destruct (Z.eqb_spec code 200) as [->|Hne]; [done|]. split; [done|]. intros [_ [=]]. done.
Qed.

Lemma readyz_200 timely checks :
  fst (fst (Dependency.readyz timely checks)) = 200 <->
  forall i c e, checks !! i = Some c -> Dependency.rd_Probe c = Some e -> e = None /\ timely i = true.
Proof.
  split.
  - intros H. apply (Dependency.readyz_ready timely checks (snd (Dependency.readyz timely checks))).
    unfold Dependency.readyz in *. by destruct (forallb _ _).
  - intros H. unfold Dependency.readyz.
    enough (forallb Dependency.healthy (imap (fun i c => match Dependency.rd_Probe c with
      | None => None
      | Some err => if timely i then err else Some (Dependency.DepError "context deadline exceeded")
      end) checks) = true) as -> by done.
    apply forallb_forall. intros e [i Hi]%list_elem_of_In%list_elem_of_lookup.
    rewrite list_lookup_imap in Hi. destruct (checks !! i) as [c|] eqn:Ec; [|done]. injection Hi as <-.
    destruct (Dependency.rd_Probe c) as [err|] eqn:Ep; [|done].
    destruct (H i c err Ec Ep) as [-> Ht]. cbn. by rewrite Ht.
Qed.

(** The health check of the image is the readiness endpoint.  When a request to
    the port the REST server listens on is answered by the readiness handler, the
    process started with [readyz] exits 0 exactly when every check answered in
    time and without an error, whatever [run] would do. *)
Theorem health_check_honest Getenv Do timely checks prog more run :
  Do ("http://127.0.0.1" +:+ Bootstrap.portOrDefault (Getenv "HTTP_PORT"%string) ":8080" +:+ "/readyz")
    = Ok (fst (fst (Dependency.readyz timely checks))) ->
  main (prog :: "readyz"%string :: more) (selfReadyz Getenv (fun _ => None) Do) run = 0 <->
  forall i c e, checks !! i = Some c -> Dependency.rd_Probe c = Some e -> e = None /\ timely i = true.
Proof.
  intros HD. rewrite <- readyz_200. unfold main. cbn [str_eqb].
  rewrite <- Bootstrap.self_probe_address in HD.
  assert (Hx : exit_status (selfReadyz Getenv (fun _ => None) Do) = 0 <-> selfReadyz Getenv (fun _ => None) Do = None)
    by (by destruct (selfReadyz _ _ _)).
  change (str_eqb "readyz" "readyz") with true. cbn iota. rewrite Hx, selfReadyz_nil.
  unfold Bootstrap.selfReadyz_url. rewrite HD. split; [by intros [_ [=]]|by intros ->].
Qed.

(** ** The process

    [run] as a whole: the steps of the boot with the telemetry, the pool and the
    migrations of their own files, the two listeners, and the deferred calls that
    undo them on every path out. *)

Record Proc (St : Type) := {
  px_otel : Telemetry.Otel; px_pool : bool; px_signals : bool; px_drivers : St; px_world : World;
  px_events : list Bootstrap.boot_event; px_group : option group; px_logger : option LogPipeline.handler }.
Arguments Build_Proc {St}.
Arguments px_otel {St}. Arguments px_pool {St}. Arguments px_signals {St}.
Arguments px_drivers {St}. Arguments px_world {St}. Arguments px_events {St}. Arguments px_group {St}.
Arguments px_logger {St}.
#[global] Instance Proc_eta St : EtaRecord (Proc St) := fun p =>
  Build_Proc (px_otel p) (px_pool p) (px_signals p) (px_drivers p) (px_world p) (px_events p) (px_group p) (px_logger p).

(** A part of [run]: the error it returns and the process after it. *)
Definition part (St : Type) : Type := Proc St -> option string * Proc St.

(** [defer undo]: it runs when the rest has returned, whatever that returned. *)
Definition deferred {St} (undo : Proc St -> Proc St) (rest : part St) : part St := fun p =>
  let '(err, p) := rest p in (err, undo p).

Section Process.
Context {St : Type} {T : GoText} {K : SecretKit} {Tr : Transport}.
Context {O : Telemetry.OtelKit} {D : Connections.Drivers St}.
Context (NewVerifier : string -> string -> string -> result string Authz.Verifier).
Context (ParseDuration : string -> result string Z) (buildVersion : string) (Getenv : string -> string).
(** The state the group of the two listeners is in when [g.Wait] answers, for what
    they were started with. *)
Context (listeners : Bootstrap.Launch -> group).

Definition reach (ev : Bootstrap.boot_event) (p : Proc St) : Proc St := p <| px_events := px_events p ++ [ev] |>.

(** What the boot needs of its steps, for a process in which they end like this. *)
Definition kit_of (logs telemetry pool migrations : option string) : Bootstrap.BootKit := {|
  Bootstrap.InitLogs := logs; Bootstrap.initTelemetry := telemetry; Bootstrap.NewPool := pool;
  Bootstrap.RunMigrations := migrations; Bootstrap.NewVerifier := NewVerifier |}.

(** From the check of the install record on: the loops are started, the agent CA
    is read, the listeners serve. *)
Definition serve_part (c : Settings) : part St := fun p =>
  match Bootstrap.verifyDeploymentMode c (px_world p) with
  | (Err e, w) => (Some e, p <| px_world := w |>)
  | (Ok _, w) =>
      let verifiers := kit_of None None None None in
      let p := p <| px_world := w |> <| px_events := px_events p ++ Bootstrap.EvModeChecked
                 :: Bootstrap.background c (Bootstrap.la_App (Bootstrap.launch Getenv c None None)) |> in
      match Bootstrap.readOptionalFile "AGENT_CA_CERT_FILE" (AgentCACertFile c) with
      | Err e => (Some e, p)
      | Ok cert =>
          match Bootstrap.readOptionalFile "AGENT_CA_KEY_FILE" (AgentCAKeyFile c) with
          | Err e => (Some e, p)
          | Ok key =>
              let g := listeners (Bootstrap.launch Getenv c cert key) in
              (default None (Wait g),
               p <| px_events := px_events p
                      ++ [Bootstrap.EvListenHTTP (Bootstrap.portOrDefault (Getenv "HTTP_PORT"%string) ":8080");
                          Bootstrap.EvListenGRPC (Bootstrap.grpcListenAddr Getenv)] |> <| px_group := Some g |>)
          end
      end
  end.

Definition migrate_part (c : Settings) : part St := fun p =>
  let o := Connections.RunMigrations c (px_drivers p) in
  let p := p <| px_drivers := Connections.op_state o |> in
  match Connections.op_result o with
  | Err e => (Some ("run database migrations: " +:+ e)%string, p)
  | Ok _ => serve_part c (reach Bootstrap.EvMigrated p)
  end.

Definition pool_part (c : Settings) : part St := fun p =>
  let o := Connections.NewPool c (px_drivers p) in
  let p := p <| px_drivers := Connections.op_state o |> <| px_pool := Connections.op_open o |> in
  match Connections.op_result o with
  | Err e => (Some ("initialize database: " +:+ e)%string, p)
  | Ok _ => deferred (fun p => p <| px_pool := false |>) (migrate_part c) (reach Bootstrap.EvPool p)
  end.

Definition signal_part (c : Settings) : part St := fun p =>
  deferred (fun p => p <| px_signals := false |>) (pool_part c) (p <| px_signals := true |>).

Definition telemetry_part (c : Settings) : part St := fun p =>
  match Telemetry.initTelemetry Getenv (AppVersion c) (px_otel p) with
  | (Err e, o) => (Some e, p <| px_otel := o |>)
  | (Ok shutdown, o) =>
      deferred (fun p => p <| px_otel := shutdown (px_otel p) |>) (signal_part c)
        (reach Bootstrap.EvTelemetry (p <| px_otel := o |>))
  end.

Definition run : part St := fun p =>
  let p := p <| px_logger := Some LogPipeline.initBootstrapLogger |> in
  match Config.Init ParseDuration buildVersion Getenv with
  | Err e => (Some ("load configuration: " +:+ e)%string, p)
  | Ok c =>
      let '(logsShutdown, err, o) := Telemetry.InitLogs Getenv (AppVersion c) (px_otel p) in
      let p := p <| px_otel := o |> in
      match err with
      | Some e => (Some ("initialize OpenTelemetry logging: " +:+ e)%string, p)
      | None =>
          deferred (fun p => p <| px_otel := Telemetry.shutdownWithTimeout logsShutdown (px_otel p) |>)
            (telemetry_part c)
            (reach Bootstrap.EvLogs
               (p <| px_logger := Some (LogPipeline.initConfiguredLogger (LogLevel c) (Telemetry.Enabled Getenv)) |>))
      end
  end.

(** *** The boot is this boot *)

(** The error each step of a process ends with, [None] when it is not reached. *)
Definition steps_of (c : Settings) (p : Proc St) : option string * option string * option string * option string :=
  let '(_, logs, o) := Telemetry.InitLogs Getenv (AppVersion c) (px_otel p) in
  let pool := Connections.NewPool c (px_drivers p) in
  (logs,
   match Telemetry.initTelemetry Getenv (AppVersion c) o with (Err e, _) => Some e | _ => None end,
   match Connections.op_result pool with Err e => Some e | Ok _ => None end,
   match Connections.op_result (Connections.RunMigrations c (Connections.op_state pool)) with
   | Err e => Some e | Ok _ => None end).
Definition kit (p : Proc St) : Bootstrap.BootKit :=
  match Config.Init ParseDuration buildVersion Getenv with
  | Err _ => kit_of None None None None
  | Ok c => let '(logs, telemetry, pool, migrations) := steps_of c p in kit_of logs telemetry pool migrations
  end.

(** The boot of [Bootstrap], which leaves its steps open, with these steps: what
    happened, what is in the database and what is returned are the same. *)
Lemma run_is_boot p : px_events p = [] ->
  let '(res, evs, w) := @Bootstrap.run T K Tr (kit p) ParseDuration buildVersion Getenv (px_world p) in
  px_events (snd (run p)) = evs /\ px_world (snd (run p)) = w
  /\ match res with
     | Err e => fst (run p) = Some e
     | Ok l => fst (run p) = default None (Wait (listeners l)) /\ px_group (snd (run p)) = Some (listeners l)
     end.
Proof.
  intros He. unfold run, Bootstrap.run, kit, steps_of.
  destruct (Config.Init _ _ _) as [c|e]; [|done].
  destruct (Telemetry.InitLogs _ _ _) as [[ls [e|]] o]; [done|]. unfold deferred, telemetry_part.
  cbn [reach px_otel]. record_simpl.
  destruct (Telemetry.initTelemetry _ _ o) as [[hook|e] o1]; [|by cbn; rewrite He].
  unfold deferred, signal_part, deferred, pool_part. cbn [px_drivers reach]. record_simpl.
  destruct (Connections.op_result (Connections.NewPool _ _)) as [cfg|e]; [|by cbn; rewrite He].
  unfold deferred, migrate_part. record_simpl.
  destruct (Connections.op_result (Connections.RunMigrations _ _)) as [u|e]; [|by cbn; rewrite He].
  unfold serve_part. record_simpl. cbn.
  destruct (Bootstrap.verifyDeploymentMode c (px_world p)) as [[u2|e] w]; [|by cbn; rewrite He].
  destruct (Bootstrap.readOptionalFile _ (AgentCACertFile c)) as [cert|e]; [|by cbn; rewrite He].
  destruct (Bootstrap.readOptionalFile _ (AgentCAKeyFile c)) as [key|e]; by cbn; rewrite He.
Qed.

(** *** What is undone on the way out *)

(** What a part leaves alone, and that it only adds to what happened. *)
Record inner (p p' : Proc St) : Prop := {
  in_otel : px_otel p' = px_otel p; in_pool : px_pool p' = px_pool p; in_signals : px_signals p' = px_signals p;
  in_events : px_events p `prefix_of` px_events p'; in_logger : px_logger p' = px_logger p }.

Lemma serve_inner c p : inner p (snd (serve_part c p)).
Proof.
  unfold serve_part. destruct (Bootstrap.verifyDeploymentMode _ _) as [[u|e] w]; [|done]. cbv zeta.
  destruct (Bootstrap.readOptionalFile _ (AgentCACertFile c)) as [cert|e];
    [destruct (Bootstrap.readOptionalFile _ (AgentCAKeyFile c)) as [key|e]|]; split; try done; cbn;
    rewrite <- ?app_assoc; apply prefix_app_r; done.
Qed.

Lemma migrate_inner c p : inner p (snd (migrate_part c p)).
Proof.
  unfold migrate_part. cbv zeta. destruct (Connections.op_result _) as [u|e]; [|done].
  destruct (serve_inner c (reach Bootstrap.EvMigrated (p <| px_drivers :=
    Connections.op_state (Connections.RunMigrations c (px_drivers p)) |>))) as [H1 H2 H3 H4 H5]. cbn in *.
  split; [done..| |done]. etransitivity; [|exact H4]. by apply prefix_app_r.
Qed.

Lemma signal_inner c p : px_pool p = false -> px_signals p = false -> inner p (snd (signal_part c p)).
Proof.
  intros Hp Hs. unfold signal_part, deferred, pool_part. cbv zeta. record_simpl.
  pose proof (Connections.pool_opened_safely c (px_drivers p)) as Hop. cbv zeta in Hop.
  destruct (Connections.op_result (Connections.NewPool c (px_drivers p))) as [cfg|e].
  - unfold deferred. match goal with |- context [migrate_part c ?q] => destruct (migrate_inner c q) as [H1 H2 H3 H4 H5] end.
    destruct (migrate_part c _) as [err p1]. cbn in *. split; cbn; try congruence.
    etransitivity; [|exact H4]. by apply prefix_app_r.
  - cbn. split; cbn; congruence || done.
Qed.

(** Nothing behind the two loggers changes the default one. *)
Lemma telemetry_part_logger c p : px_pool p = false -> px_signals p = false ->
  px_logger (snd (telemetry_part c p)) = px_logger p.
Proof.
  intros Hp Hs. unfold telemetry_part, deferred.
  destruct (Telemetry.initTelemetry _ _ _) as [[hook|e] o1]; [|done].
  match goal with |- context [signal_part c ?x] => pose proof (in_logger _ _ (signal_inner c x Hp Hs)) as H end.
  destruct (signal_part c _) as [err p1]. exact H.
Qed.

Definition idle (p : Proc St) : Prop :=
  px_pool p = false /\ px_signals p = false /\ Telemetry.ot_running (px_otel p) = [] /\ px_events p = [].

(** The providers, in the order in which they are told to shut down. *)
Definition shutdown_order : list Telemetry.provider :=
  Telemetry.MeterProvider
  :: (if Telemetry.Enabled Getenv then [Telemetry.TracerProvider; Telemetry.LoggerProvider] else []).

(** What is left of telemetry: nothing, in order, once it was up; and if it did
    not come up, at most the metrics provider. *)
Definition telemetry_over (c : Settings) (p p' : Proc St) : Prop :=
  (Telemetry.ot_running (px_otel p') = []
   /\ (Bootstrap.EvTelemetry ∈ px_events p' ->
         Telemetry.ot_shut (px_otel p') = Telemetry.ot_shut (px_otel p) ++ shutdown_order))
  \/ (Telemetry.meter_starts Getenv (AppVersion c) = true /\ (Bootstrap.EvTelemetry ∉ px_events p')
      /\ Telemetry.ot_running (px_otel p') = [Telemetry.MeterProvider]).

(** Success is the end of two listeners that a signal asked to stop. *)
Lemma run_success p err p' :
  (forall l, rtc step started (listeners l) /\ is_Some (Wait (listeners l))) ->
  px_events p = [] -> run p = (err, p') -> exit_status err = 0 ->
  (exists g, px_group p' = Some g /\ gr_signalled g = true /\ rest_over g = true /\ grpc_over g = true)
  /\ exists http grpc, (Bootstrap.EvListenHTTP http ∈ px_events p') /\ (Bootstrap.EvListenGRPC grpc ∈ px_events p').
Proof.
  intros Hserve He Hrun Hx. pose proof (run_is_boot p He) as Hboot. rewrite Hrun in Hboot. cbn in Hboot.
  destruct (@Bootstrap.run _ _ _ _ _ _ _ _) as [[[l|e] evs] w] eqn:Eb; destruct Hboot as (-> & _ & Hend);
    [|by rewrite Hend in Hx].
  destruct Hend as [-> Hg]. destruct (Hserve l) as (Hl & [err Hw]). rewrite Hw in Hx. cbn in Hx. split.
  - exists (listeners l). destruct (listeners_fall_together _ Hl) as (_ & Hsig & _).
    split_and!; [done|by apply (Hsig err)|..]; unfold Wait, rest_over, grpc_over in *;
      destruct (gr_rest (listeners l)), (gr_grpc (listeners l)); done.
  - unfold Bootstrap.run in Eb. repeat case_match; simplify_eq. do 2 eexists.
    split; rewrite !elem_of_app; right; [left|right; left].
Qed.

Lemma telemetry_part_over c p o logs :
  px_pool p = false -> px_signals p = false -> px_events p = [Bootstrap.EvLogs] ->
  Telemetry.ot_shut (px_otel p) = Telemetry.ot_shut o ->
  (if Telemetry.Enabled Getenv
   then logs = Some Telemetry.LoggerProvider /\ Telemetry.ot_running (px_otel p) = [Telemetry.LoggerProvider]
   else logs = None /\ Telemetry.ot_running (px_otel p) = []) ->
  let p' := snd (telemetry_part c p) in
  let q := p' <| px_otel := Telemetry.shutdownWithTimeout logs (px_otel p') |> in
  px_pool q = false /\ px_signals q = false /\ telemetry_over c (p <| px_otel := o |>) q.
Proof.
  intros Hp Hs He Hsh Hl. cbv zeta. unfold telemetry_part.
  pose proof (Telemetry.telemetry_ended Getenv (AppVersion c) (px_otel p)) as HT.
  assert (Hrun : (Telemetry.TracerProvider ∉ Telemetry.ot_running (px_otel p))
    /\ (Telemetry.MeterProvider ∉ Telemetry.ot_running (px_otel p))).
  { destruct (Telemetry.Enabled Getenv); destruct Hl as [_ ->]; split; set_solver. }
  specialize (HT (proj1 Hrun) (proj2 Hrun)).
  destruct (Telemetry.initTelemetry Getenv (AppVersion c) (px_otel p)) as [[hook|e] o1].
  - unfold deferred.
    match goal with |- context [signal_part c ?x] => destruct (signal_inner c x Hp Hs) as [H1 H2 H3 H4 _] end.
    destruct (signal_part c _) as [err p1]. cbn in *. rewrite H1, H2, H3. split_and!; [done..|].
    destruct HT as [HT1 HT2]. left. unfold telemetry_over, shutdown_order. cbn.
    destruct (Telemetry.Enabled Getenv); destruct Hl as [-> Hl]; cbn;
      rewrite HT1, ?HT2, Hl, Hsh, <- ?app_assoc; split; done.
  - cbn. split_and!; [done..|]. unfold telemetry_over. cbn. rewrite He.
    assert (Hno : Bootstrap.EvTelemetry ∉ [Bootstrap.EvLogs]) by (intros [=]%list_elem_of_singleton).
    destruct HT as [HT|[Hm HT]]; [left|right]; (destruct (Telemetry.Enabled Getenv); destruct Hl as [-> Hl]; cbn;
      rewrite HT, Hl); done.
Qed.

(** C18: a process ends what it started.  Whatever the operating system, the
    drivers and the SDK answer, and wherever [run] returns, with or without an
    error: the pool is closed, the signal handler is gone, and the telemetry
    providers that were started are shut down, metrics first, logs last, with the
    one exception of a metrics provider whose registration failed; and the process
    exits with success only if both listeners were started, both have returned,
    and a signal asked for the end.  Once the log provider is up, it logs through
    the redacting handler until it ends. *)
Theorem process_ends_clean p err p' :
  (forall l, rtc step started (listeners l) /\ is_Some (Wait (listeners l))) ->
  idle p -> run p = (err, p') ->
  px_pool p' = false /\ px_signals p' = false
  /\ (forall c, Config.Init ParseDuration buildVersion Getenv = Ok c -> telemetry_over c p p'
        /\ (Bootstrap.EvLogs ∈ px_events p' -> px_logger p'
             = Some (LogPipeline.initConfiguredLogger (LogLevel c) (Telemetry.Enabled Getenv))))
  /\ (exit_status err = 0 ->
        (exists g, px_group p' = Some g /\ gr_signalled g = true /\ rest_over g = true /\ grpc_over g = true)
        /\ exists http grpc, (Bootstrap.EvListenHTTP http ∈ px_events p') /\ (Bootstrap.EvListenGRPC grpc ∈ px_events p')).
Proof.
  intros Hserve (Hp & Hs & Ho & He) Hrun.
  assert (Hlast := run_success p err p' Hserve He Hrun).
  enough (px_pool p' = false /\ px_signals p' = false
    /\ forall c, Config.Init ParseDuration buildVersion Getenv = Ok c -> telemetry_over c p p'
       /\ (Bootstrap.EvLogs ∈ px_events p' -> px_logger p'
            = Some (LogPipeline.initConfiguredLogger (LogLevel c) (Telemetry.Enabled Getenv)))) by tauto. clear Hlast.
  unfold run in Hrun. cbv zeta in Hrun. destruct (Config.Init _ _ _) as [c|e]; [|by injection Hrun as _ <-].
  cbn in Hrun.
  destruct (Telemetry.InitLogs Getenv (AppVersion c) (px_otel p)) as [[logs e] o] eqn:El.
  destruct (Telemetry.InitLogs_running _ _ _ _ _ _ El) as [Hsh [[[m ->] Hr]|[-> Hr]]]; rewrite Ho in Hr.
  { injection Hrun as _ <-. cbn. split_and!; [done..|]. intros c' _. rewrite He.
    split; [left; split; [done|]; cbn; rewrite He|]; by intros ?%elem_of_nil. }
  unfold deferred in Hrun.
  match type of Hrun with context [telemetry_part c ?x] =>
    pose proof (telemetry_part_over c x (px_otel p) logs) as H; pose proof (telemetry_part_logger c x) as Hlog end.
  cbv zeta in H. destruct (telemetry_part c _) as [err1 p1]. injection Hrun as <- <-.
  destruct H as (H1 & H2 & H3); [done|done|cbn; by rewrite He|done|done|]. split_and!; [done..|].
  intros c' [= <-]. split; [exact H3|]. intros _. by apply Hlog.
Qed.
End Process.

(** *** A process that serves until it is told to stop *)

Section Sample.
#[local] Existing Instance SetupSample.install_text.
#[local] Existing Instance plain_secrets.
#[local] Existing Instance SetupSample.install_transport.

Definition sdk : Telemetry.OtelKit := {|
  Telemetry.semconv_SchemaURL := ""; Telemetry.resource_Default := [];
  Telemetry.resource_Merge d x := Ok (d ++ snd x); Telemetry.k_trace_exporter := None;
  Telemetry.k_log_exporter := None; Telemetry.k_prom_exporter := None; Telemetry.k_gauge := None;
  Telemetry.k_callback := None; Telemetry.k_counter _ := (true, None); Telemetry.k_ReadBuildInfo := None |}.
#[local] Existing Instance sdk.
Definition database_up : Connections.Drivers () := {|
  Connections.pgxpool_ParseConfig _ := None; Connections.pgxpool_New _ := None;
  Connections.ping s := (Ok (), s); Connections.redis_Instrument := None; Connections.sql_Open _ := None;
  Connections.goose_SetDialect _ := None; Connections.goose_UpContext s := (None, s);
  Connections.elapse _ s := s; Connections.cancelled _ := false; Connections.ctx_Err := "context canceled" |}.
#[local] Existing Instance database_up.

(** The production environment, with telemetry exported and a database that is
    reached over TLS. *)
Definition exporting_env (k : string) : string :=
  if String.eqb k "OTEL_ENABLED" then "true"
  else if String.eqb k "DB_SSLMODE" then "require" else production_env k.

Definition stopped : group := Build_group true true None (RestReturned None) (GrpcReturned None).
Lemma stopped_reached : rtc step started stopped.
Proof.
  eapply rtc_l; [apply step_signal|]. eapply rtc_l; [apply step_rest_shutdown; cbn; eauto|].
  eapply rtc_l; [by apply step_rest_drained with (err := None)|].
  eapply rtc_l; [by apply step_grpc_stop|]. eapply rtc_l; [by apply step_grpc_stopped|]. reflexivity.
Qed.

#[local] Notation one_process :=
  (run (fun _ _ _ => Ok Authz.demo_verifier) minute "" exporting_env (fun _ => stopped)
    (Build_Proc Telemetry.otel_zero false false () Capabilities.first_world [] None None)).

Lemma process_ends_clean_witness :
  fst one_process = None /\ px_pool (snd one_process) = false
  /\ Telemetry.ot_shut (px_otel (snd one_process))
     = [Telemetry.MeterProvider; Telemetry.TracerProvider; Telemetry.LoggerProvider]
  /\ exists g, px_group (snd one_process) = Some g /\ gr_signalled g = true.
Proof.
  assert (H : _) by exact (process_ends_clean (fun _ _ _ => Ok Authz.demo_verifier) minute "" exporting_env
    (fun _ => stopped) (Build_Proc Telemetry.otel_zero false false () Capabilities.first_world [] None None)
    (fst one_process) (snd one_process) (fun _ => conj stopped_reached (ex_intro _ None eq_refl))
    (conj eq_refl (conj eq_refl (conj eq_refl eq_refl))) (surjective_pairing one_process)).
  destruct H as (H1 & _ & _ & H4).
  assert (H0 : fst one_process = None) by (vm_compute; reflexivity).
  split; [exact H0|]. split; [exact H1|]. split; [vm_compute; reflexivity|].
  rewrite H0 in H4. destruct (H4 eq_refl) as [(g & Hg & Hs & _) _]. exists g. by split.
Defined.
End Sample.
